(* ===== verification/_CoqProject ===== *)
-Q . S2P
Prelude.v
Words.v
Errors.v
GuestMem.v
Kvm.v
Memory.v
Boot.v
Gdt.v
Paging.v
Vcpu.v
LegacyIo.v
VirtQueue.v
Serial.v
HostStdio.v
VirtioMmio.v
VsockMux.v
Acpi.v
VsockMuxFacts.v
VsockMuxInv.v
VsockStream.v
VirtioBlk.v
VirtioBlkFacts.v
VirtioBlkQueue.v
VirtioBlkSpec.v
VirtioNet.v
VirtioNetFacts.v
VirtioVsock.v
VirtioVsockFacts.v
VirtioDev.v
Cmdline.v
PioBus.v
VcpuRun.v
VcpuKick.v
Vmm.v
VmmLoad.v
VmmRun.v
Devices.v
Cli.v
System.v
