(* ===== verification/Prelude.v ===== *)
(** * kitsune: a verification library for the KVM virtual machine monitor

    kitsune is a virtual machine monitor for x86-64 Linux guests on KVM. One process
    holds one machine: guest RAM as a single memory slot below 3.25 GiB, up to 32
    vCPUs, a serial console on COM1, legacy reset and power registers, and up to three
    virtio devices behind memory-mapped register windows right above the end of RAM. A
    vCPU thread runs the guest and dispatches its exits; each device has a worker thread
    that serves its queues; a further thread feeds standard input to the console.

    ** The parts and their files

    Sources are under [src/src/]. Each file of the library opens with the source files
    it models; definitions keep the names of the source where Rocq allows it.

    - [Prelude]: results, the state and panic monad [prog] the sources are translated
      into, bounded loops ([iter_prog], [for_range]), its weakest precondition [wp] in a
      partial and a total mode with the tactic [wp_step], record update, shared lemmas.
    - [Words]: integers at their widths (wrapping, checked and saturating operations,
      casts), bytes, little-endian encodings, bit lemmas.
    - [Errors]: the error type of the crate and the part of [std::io::Error] that the
      sources inspect ([error.rs]).
    - [GuestMem], [VirtQueue], [Kvm]: the crates the sources call, as type classes of
      operations with a class of laws for their documented behaviour and a concrete
      instance that has it: guest memory ([vm_memory]), queues, descriptor chains and
      event descriptors ([virtio_queue], [vmm_sys_util]), the KVM calls on a vCPU.
    - [Memory] ([memory.rs], [config.rs]): the bounds of guest RAM, its size check, its
      registration with KVM.
    - [Boot] ([boot.rs]): the layout of the boot data and [load_linux]: the image, the
      initrd, the boot parameters of the 64-bit protocol and the start info of PVH. The
      parsers of [linux-loader] are a class.
    - [Acpi] ([acpi.rs]): the objects, the tables and their placement in guest memory; the
      encoding of the [acpi_tables] crate is a class.
    - [Gdt] ([gdt.rs]): segment descriptors, the two boot tables, writing them to memory.
    - [Paging], [Vcpu] ([vcpu.rs]): the identity page tables; the CPUID topology and the
      registers of the real, 64-bit and PVH boot modes.
    - [Cmdline] ([cmdline.rs]): assembly of the kernel command line.
    - [LegacyIo] ([devices/legacy_io.rs]): reset and power-off registers.
    - [Serial] ([devices/serial.rs]): the console, the probe for cursor position
      queries, the standard input worker with guest accesses between its steps.
    - [HostStdio] (the rest of [devices/serial.rs]): standard input taken over from the
      shell, the signal handlers and [drop] that give it back.
    - [PioBus] ([devices/pio_bus.rs]): dispatch of port accesses to the two above.
    - [VirtioMmio] ([devices/virtio_mmio.rs]): the virtio-mmio register file as a state
      machine: negotiation, queue set-up, reset, interrupts.
    - [VsockMux] with [VsockMuxFacts], [VsockMuxInv], [VsockStream]
      ([devices/vsock_mux.rs]): the multiplexer of vsock connections over Unix sockets:
      packets, credit, connection life, timeouts. The host sockets are a class.
    - [VirtioBlk] with [VirtioBlkFacts], [VirtioBlkQueue] ([devices/virtio_blk.rs]):
      requests, buffered, direct and ring I/O, the disk image, the queue loop with vCPU
      accesses to the registers whenever its lock is free. [VirtioBlkSpec] has the
      abstract disk that the worker refines.
    - [VirtioNet] with [VirtioNetFacts] ([devices/virtio_net.rs]): frames between the
      queues and a TAP device.
    - [VirtioVsock] with [VirtioVsockFacts] ([devices/virtio_vsock.rs]): the queues of
      the vsock device around the multiplexer.
    - [VirtioDev] ([devices/virtio_dev.rs] and the [start_worker] and [stop_worker] of
      the devices): the register window of a device, and the life of its worker thread
      as a step relation over interleaved callers and workers.
    - [VcpuRun] ([devices/mmio_device.rs] and the loop of [vmm.rs]): the class of
      devices the loop is proved against and its instance for the three devices, the
      exits of a vCPU and the stop request.
    - [VcpuKick] (the loop, [idle_wait], the kick registry and the end of [Vmm::run] in
      [vmm.rs]): the threads of the vCPUs as steps that interleave, from registration to
      the join.
    - [Vmm] ([vmm.rs]): [Vmm::new], the attachment of devices, [load_flat_binary] and
      [load_kernel], which compose [Memory], [Acpi], [Boot] and [Vcpu]. [VmmLoad] has
      the theorems on the two ways of loading.
    - [VmmRun] ([vmm.rs], [StdinWorker] of [devices/serial.rs], [start_worker] and
      [stop_worker] of the devices): [Vmm::run] with the guard of the kick signal, the
      threads it starts and how it stops and joins them, on a host that gives threads.
    - [Devices] ([new] of the three devices): their host side, transport and shell put
      together, their registration with KVM, and the devices of a running machine.
    - [Cli] ([main.rs]): [run] and [main] on parsed arguments.
    - [System]: the program of [Cli] with the constructors of [Devices] as the
      implementation of its interface to them.

    ** How code is modelled

    Stateful code is a [prog S A]: a function from a state to a result and a new state,
    a panic (an index or slice out of range, a failed [expect], an overflow of checked
    arithmetic), or [Running] when the bound of a loop is used up. The bound of a loop
    is the length of what it consumes plus one where that is enough, or a parameter
    [fuel] for loops that retry interrupted calls: the fairness classes
    ([BlkHostFair], [SerialHostFair], ...) say that the host interrupts fewer than
    [fuel] calls in a row, and the total theorems hold for every host in them. Code
    behind locks that other threads share takes the accesses of the others as explicit
    steps at the points where the lock is free. Worker loops take a list of turns: the
    outcome of a [poll], and the accesses of vCPUs to the registers of the device before
    and during it, which come in while the worker does not hold the lock. Waiting for a
    thread, or running the loop of a vCPU, may never end: the host answers [None], and
    the program is [Running] from there on.

    ** What the theorems show

    - Devices: the multiplexer keeps its invariant under any sequence of guest packets
      and host events and never panics; streams arrive in order within the credit;
      every chain of the block device is returned exactly once and signalled; as long as
      it has not let go of a transfer of the ring that is still in flight, the worker
      refines an abstract disk over its whole life ([blk_refines_disk]), so that a read
      returns what the last acknowledged write left ([blk_read_your_writes]), and an
      acknowledged flush is durable; network frames cross whole, into the first buffer
      with room for them; the vsock queues deliver packets whole and in order, and a
      transport reset is reported once. The workers of the network and the vsock device
      return after any polls and register accesses and never panic. Bytes of standard
      input reach the guest once and in order out of loopback mode, and not at all in it.
    - Transport: feature negotiation latches only acceptable sets, queues become ready
      only through the guarded register with their rings valid in guest memory.
    - Workers: in every interleaving of starts and stops a live worker has exactly one
      owner and a disk is in exactly one place; dropping a device ends its worker.
    - Boot: the page tables are the identity by the page walk of the processor; the
      state of a vCPU in both protocols; the CPUID topology; segment descriptors; the
      command line; the place of the initrd; the chain of the ACPI tables. [kernel_booted]
      puts them together: after [load_kernel] the tables, the boot data, the descriptors
      and page tables and the registers of the first vCPU are there at the same time, none
      having overwritten another.
    - Machine: creation, at most one device of a kind; constructors that fail give back
      the TAP and the sockets they opened; the window and interrupt of a device agree in
      its registers, in ACPI, in KVM and in the dispatch of exits. [Vmm::run] never panics
      and reports the first error; when it returns, the signal handler is restored and no
      thread goes on, except after the thread of a vCPU could not be created; when it
      does not, it waits for the first vCPU or for a thread it told to stop.
      [program_serves_guest] composes creation, devices and loading for whatever files
      the host opens: what the program makes of its arguments is a machine whose guest
      reaches its devices, and it is booted as [kernel_booted] says when the image lies
      above 1 MiB, which the code does not check of an ELF file.
    - Terminal: standard input is given back as it was.
    - Run loop: no guest behaviour makes it panic; an access reaches the one device
      whose window has it; the loop ends only with a stop request or a device error. A
      stop ends every thread within six steps each when a kick is sent while no thread is
      between its check of the flag and its entry into the guest ([stop_ends_machine]).
    - Defects of the code that the models exhibit: lost wake-ups of the standard input
      worker and of a kicked vCPU, a stop that a concurrent start clears, a flush that
      does not end when the UART accepts nothing, errors of an application processor
      that are not seen, reordering after a credit update, shutdown on back-pressure,
      transfers of the ring that land after later requests because draining does not
      wait, a reset event lost to a buffer that is too short, standard input lost in
      loopback mode, a socket file left behind when listening fails,
      two comments of the network device that its code does not keep, devices and
      threads left running when a vCPU thread cannot be created, and three ways to leave
      the terminal of the host changed.

    ** Not modelled

    Argument parsing of [main.rs] is the [clap] crate; [lib.rs] and [devices.rs] only
    declare modules. The contents of the external crates are parameters throughout: the
    parsers of kernel images, the encoding of ACPI tables, the 16550, the split queues,
    [io_uring] and the system calls. In [Vmm] a device is its interface. In [VmmRun] it
    is the part of it that starts and stops its worker; what a thread does once it runs is
    for the host to say there, and is in [VcpuRun], [Serial] and the files of the devices.
    Files are closed when their owner is dropped; that is written out only where the
    program does more ([mux_drop], the TAP). Sleeping has no effect but time: [idle_wait]
    is the rounds of its loop.

    The theorems on the contents of the disk say nothing once a transfer is in flight that
    the program let go of, which needs a ring that fails; [late_ring_write_lost] and
    [late_ring_read_lands] in [VirtioBlkSpec] show what happens then. Guest memory made of
    one range has one region of its size, and the AML of the [acpi_tables] crate takes at
    most 64 KiB; the theorems on loading have these as hypotheses. The
    threads of [VcpuKick] interleave one action at a time, as sequentially consistent
    flags do. *)

From stdpp Require Export base tactics numbers list gmap strings sets fin_maps.
From Stdlib Require Export ZArith Lia.

Declare Scope kitsune_scope.
Delimit Scope kitsune_scope with kitsune.

(** ** Functional record update

    [r <| f := v |>] is the Rust field assignment [r.f = v] on a value. A
    record opts in by giving its eta expansion as an [Eta] instance. *)

Class Eta (R : Type) := eta_of : R → R.

Class Setter {R E : Type} (proj : R → E) := set_field : (E → E) → R → R.

Ltac solve_setter R proj :=
  let e := constr:(_ : Eta R) in
  let e := eval red in e in
  exact (fun f (r : R) =>
    ltac:(let b := eval cbv beta in (e r) in
          match b with
          | context C [proj r] =>
              let b' := context C [f (proj r)] in exact b'
          end)).

#[export] Hint Extern 1 (@Setter ?R _ ?proj) => solve_setter R proj : typeclass_instances.

Notation "r <| proj := v |>" := (set_field (proj := proj) (λ _, v) r)
  (at level 1, left associativity, proj at level 1, v at level 99,
   format "r  <| proj  :=  v |>") : kitsune_scope.
Notation "r <| proj ::= f |>" := (set_field (proj := proj) f r)
  (at level 1, left associativity, proj at level 1, f at level 99,
   format "r  <| proj  ::=  f |>") : kitsune_scope.

#[global] Open Scope kitsune_scope.

(** ** Results

    Rust's [Result<A, E>]. *)

Inductive result (E A : Type) : Type :=
| Ok (a : A)
| Err (e : E).
Arguments Ok {E A} a.
Arguments Err {E A} e.

#[export] Instance result_eq_dec `{EqDecision E, EqDecision A} : EqDecision (result E A).
Proof. solve_decision. Defined.

Definition is_ok {E A} (r : result E A) : bool :=
  match r with Ok _ => true | Err _ => false end.

Definition is_err {E A} (r : result E A) : bool := negb (is_ok r).

#[export] Instance result_ret {E} : MRet (result E) := λ A a, Ok a.
#[export] Instance result_bind {E} : MBind (result E) := λ A B f r,
  match r with Ok a => f a | Err e => Err e end.
#[export] Instance result_fmap {E} : FMap (result E) := λ A B f r,
  match r with Ok a => Ok (f a) | Err e => Err e end.

(** [ok_or] is [Option::ok_or]. *)
Definition ok_or {E A} (e : E) (o : option A) : result E A :=
  match o with Some a => Ok a | None => Err e end.

(** ** Stateful computations

    A computation of the program runs on a state of type [S] and has one of
    three outcomes: it returns, it panics (an out-of-range slice or index, a
    failed [expect], an arithmetic overflow of a checked build), or it is
    still running when the iteration bound given to one of its loops is used
    up. *)

Inductive outcome (A : Type) : Type :=
| Ret (a : A)
| Panic
| Running.
Arguments Ret {A} a.
Arguments Panic {A}.
Arguments Running {A}.

(** What is seen of an outcome that returns. *)
Definition ret_of {A B} (f : A → B) (o : outcome A) : option B :=
  match o with Ret a => Some (f a) | _ => None end.

Definition prog (S A : Type) : Type := S → outcome (A * S).

#[export] Instance prog_ret {S} : MRet (prog S) := λ A a s, Ret (a, s).
#[export] Instance prog_bind {S} : MBind (prog S) := λ A B f m s,
  match m s with
  | Ret (a, s') => f a s'
  | Panic => Panic
  | Running => Running
  end.

Definition get {S} : prog S S := λ s, Ret (s, s).
Definition gets {S A} (f : S → A) : prog S A := λ s, Ret (f s, s).
Definition put {S} (s : S) : prog S unit := λ _, Ret (tt, s).
Definition modify {S} (f : S → S) : prog S unit := λ s, Ret (tt, f s).
Definition panic {S A} : prog S A := λ _, Panic.
Definition running {S A} : prog S A := λ _, Running.

(** A total operation of the environment: it reads and updates the state. *)
Definition act {S A} (f : S → A * S) : prog S A := λ s, Ret (f s).

(** [expect o] returns the value of [o] and panics on [None]: Rust's
    [unwrap], [expect] and the bounds checks of indexing. *)
Definition expect {S A} (o : option A) : prog S A :=
  match o with Some a => mret a | None => panic end.

(** [assert_that b] panics when [b] is false. *)
Definition assert_that {S} (b : bool) : prog S unit :=
  if b then mret tt else panic.

(** Rust's [?] on a fallible computation. *)
Definition try_bind {S E A B} (m : prog S (result E A)) (k : A → prog S (result E B))
    : prog S (result E B) :=
  r ← m; match r with Ok a => k a | Err e => mret (Err e) end.

Notation "x ←? m ; k" := (try_bind m (λ x : _, k))
  (at level 20, m at level 100, k at level 200, only parsing) : stdpp_scope.
Notation "' x ←? m ; k" := (try_bind m (λ x : _, k))
  (at level 20, x pattern, m at level 100, k at level 200, only parsing) : stdpp_scope.

(** A loop with loop-carried value [i]: [inl] continues, [inr] leaves. *)
Fixpoint iter_prog {S I A} (fuel : nat) (body : I → prog S (I + A)) (i : I) : prog S A :=
  match fuel with
  | O => running
  | S n => r ← body i;
           match r with
           | inl i' => iter_prog n body i'
           | inr a => mret a
           end
  end.

(** [for i in lo..lo + n] with a body that ends in [?]. *)
Fixpoint for_range {S E} (n : nat) (lo : Z) (body : Z → prog S (result E unit)) : prog S (result E unit) :=
  match n with
  | O => mret (Ok tt)
  | S n => _ ←? body lo; for_range n (lo + 1)%Z body
  end.

(** Run a computation on a part of the state. *)
Definition zoom {S T A} (getT : S → T) (setT : T → S → S) (m : prog T A) : prog S A :=
  λ s, match m (getT s) with
       | Ret (a, t) => Ret (a, setT t s)
       | Panic => Panic
       | Running => Running
       end.

(** ** Weakest preconditions

    [wp t m Q s]: started in [s], the computation [m] does not panic, and if it
    returns then its value and final state satisfy [Q]. In mode [Total] it also
    returns within the iteration bounds of its loops. *)

Inductive mode := Partial | Total.

Definition wp {S A} (t : mode) (m : prog S A) (Q : A → S → Prop) (s : S) : Prop :=
  match m s with
  | Ret (a, s') => Q a s'
  | Panic => False
  | Running => t = Partial
  end.

Section wp_rules.
Context {S : Type}.
Implicit Types (t : mode) (s : S).

Lemma wp_unfold {A} t (m : prog S A) Q s a s' : m s = Ret (a, s') → Q a s' → wp t m Q s.
Proof. unfold wp. by intros ->. Qed.

Lemma wp_ret {A} t (a : A) (Q : A → S → Prop) s : Q a s → wp t (mret a) Q s.
Proof. done. Qed.

Lemma wp_bind {A B} t (m : prog S A) (f : A → prog S B) Q s :
  wp t m (λ a s', wp t (f a) Q s') s → wp t (m ≫= f) Q s.
Proof. unfold wp, mbind, prog_bind. by destruct (m s) as [[a s']| |]. Qed.

Lemma wp_bind_inv {A B} t (m : prog S A) (f : A → prog S B) Q s :
  wp t (m ≫= f) Q s → wp t m (λ a s', wp t (f a) Q s') s.
Proof. unfold wp, mbind, prog_bind. by destruct (m s) as [[a s']| |]. Qed.

Lemma wp_mono {A} t (m : prog S A) (Q R : A → S → Prop) s :
  wp t m Q s → (∀ a s', Q a s' → R a s') → wp t m R s.
Proof. unfold wp. destruct (m s) as [[a s']| |]; naive_solver. Qed.

Lemma wp_and {A} t (m : prog S A) (Q R : A → S → Prop) s :
  wp t m Q s → wp t m R s → wp t m (λ a s', Q a s' ∧ R a s') s.
Proof. unfold wp. destruct (m s) as [[a s']| |]; naive_solver. Qed.

(** What is to be shown of a result may use that it is the result. *)
Lemma wp_eqn {A} t (m : prog S A) (Q : A → S → Prop) s :
  wp t m (λ a s', m s = Ret (a, s') → Q a s') s → wp t m Q s.
Proof. unfold wp. destruct (m s) as [[a s']| |]; naive_solver. Qed.

(** A partial fact about a computation that is known to behave. *)
Lemma wp_and_partial {A} t (m : prog S A) (Q R : A → S → Prop) s :
  wp t m Q s → wp Partial m R s → wp t m (λ a s', Q a s' ∧ R a s') s.
Proof. unfold wp. destruct (m s) as [[a s']| |]; naive_solver. Qed.

Lemma wp_get t (Q : S → S → Prop) s : Q s s → wp t get Q s.
Proof. done. Qed.

Lemma wp_gets {A} t (f : S → A) Q s : Q (f s) s → wp t (gets f) Q s.
Proof. done. Qed.

Lemma wp_modify t (f : S → S) Q s : Q tt (f s) → wp t (modify f) Q s.
Proof. done. Qed.

Lemma wp_put t (x : S) Q s : Q tt x → wp t (put x) Q s.
Proof. done. Qed.

Lemma wp_act {A} t (f : S → A * S) (Q : A → S → Prop) s :
  (∀ a s', f s = (a, s') → Q a s') → wp t (act f) Q s.
Proof. unfold wp, act. destruct (f s) as [a s'] eqn:E. intros H. by apply H. Qed.

Lemma wp_expect {A} t (o : option A) (Q : A → S → Prop) s a :
  o = Some a → Q a s → wp t (expect o) Q s.
Proof. by intros -> ?. Qed.

Lemma wp_assert t (b : bool) (Q : unit → S → Prop) s :
  b = true → Q tt s → wp t (assert_that b) Q s.
Proof. by intros -> ?. Qed.

Lemma wp_try {E A B} t (m : prog S (result E A)) (k : A → prog S (result E B)) Q s :
  wp t m (λ r s', match r with Ok a => wp t (k a) Q s' | Err e => Q (Err e) s' end) s →
  wp t (try_bind m k) Q s.
Proof.
  intros H. unfold try_bind. apply wp_bind. eapply wp_mono; [exact H|].
  intros [a|e] s' HQ; [exact HQ|]. by apply wp_ret.
Qed.

(** Invariant rule: [J] holds at every iteration. *)
Lemma wp_iter_partial {I A} (J : I → S → Prop) fuel (body : I → prog S (I + A)) Q i s :
  J i s →
  (∀ i s, J i s → wp Partial (body i)
     (λ r s', match r with inl i' => J i' s' | inr a => Q a s' end) s) →
  wp Partial (iter_prog fuel body i) Q s.
Proof.
  intros HJ Hbody. revert i s HJ. induction fuel as [|n IH]; intros i s HJ; [done|].
  cbn [iter_prog]. apply wp_bind. eapply wp_mono; [by apply Hbody|].
  intros [i'|a] s' H; [by apply IH|by apply wp_ret].
Qed.

(** Invariant and variant: [μ] bounds the remaining iterations. *)
Lemma wp_iter {I A} t (J : I → S → Prop) (μ : I → S → nat) fuel
    (body : I → prog S (I + A)) Q i s :
  J i s → μ i s < fuel →
  (∀ i s, J i s → wp t (body i)
     (λ r s', match r with inl i' => J i' s' ∧ μ i' s' < μ i s | inr a => Q a s' end) s) →
  wp t (iter_prog fuel body i) Q s.
Proof.
  intros HJ Hμ Hbody. revert i s HJ Hμ.
  induction fuel as [|n IH]; intros i s HJ Hμ; [lia|].
  cbn [iter_prog]. apply wp_bind. eapply wp_mono; [by apply Hbody|].
  intros [i'|a] s' H; [|by apply wp_ret].
  destruct H as [HJ' Hlt]. apply IH; [done|lia].
Qed.

(** Both modes at once: the variant [μ] is needed for termination only, and
    may depend on evidence [F] that is available in mode [Total]. *)
Lemma wp_iter_mode {I A F} t (J : I → S → Prop) (μ : F → I → S → nat) fuel
    (body : I → prog S (I + A)) Q i s :
  (t = Total → F) → (∀ f, μ f i s < fuel) → J i s →
  (∀ i s, J i s → wp t (body i)
     (λ r s', match r with
              | inl i' => J i' s' ∧ ∀ f, μ f i' s' < μ f i s
              | inr a => Q a s'
              end) s) →
  wp t (iter_prog fuel body i) Q s.
Proof.
  intros HF Hμ HJ Hbody. destruct t.
  - eapply wp_iter_partial; [exact HJ|]. intros i' s' HJ'.
    eapply wp_mono; [by apply Hbody|]. intros [?|?] ? H; [apply H|done].
  - specialize (HF eq_refl). eapply (wp_iter _ J (μ HF)); [done|apply Hμ|].
    intros i' s' HJ'. eapply wp_mono; [by apply Hbody|].
    intros [?|?] ? H; [split; apply H|done].
Qed.

(** Counted loops: [J i] holds before the iteration [i]. *)
Lemma wp_for_range {E} t (J : Z → S → Prop) n lo (body : Z → prog S (result E unit)) Q s :
  J lo s →
  (∀ i s, (lo ≤ i < lo + Z.of_nat n)%Z → J i s →
     wp t (body i) (λ r s', match r with Ok _ => J (i + 1)%Z s' | Err e => Q (Err e) s' end) s) →
  (∀ s, J (lo + Z.of_nat n)%Z s → Q (Ok tt) s) →
  wp t (for_range n lo body) Q s.
Proof.
  revert lo s. induction n as [|n IH]; intros lo s HJ Hbody HQ; cbn [for_range].
  - apply wp_ret, HQ. by replace (lo + Z.of_nat 0)%Z with lo by lia.
  - apply wp_try. eapply wp_mono; [by apply Hbody; [lia|]|].
    intros [[]|e] s' Hs; [|done]. apply IH; [done| |].
    + intros i s1 Hi. apply Hbody. lia.
    + intros s1 H1. apply HQ. by replace (lo + Z.of_nat (Datatypes.S n))%Z with (lo + 1 + Z.of_nat n)%Z by lia.
Qed.

Lemma wp_zoom {T A} t (getT : S → T) (setT : T → S → S) (m : prog T A) Q s :
  wp t m (λ a x, Q a (setT x s)) (getT s) → wp t (zoom getT setT m) Q s.
Proof. unfold wp, zoom. by destruct (m (getT s)) as [[a x]| |]. Qed.

Lemma wp_total_inv {A} (m : prog S A) Q s :
  wp Total m Q s → ∃ a s', m s = Ret (a, s') ∧ Q a s'.
Proof. unfold wp. destruct (m s) as [[a s']| |]; naive_solver. Qed.

Lemma wp_total_weaken {A} t (m : prog S A) Q s : wp Total m Q s → wp t m Q s.
Proof. unfold wp. destruct (m s) as [[a s']| |]; naive_solver. Qed.

Lemma wp_partial_inv {A} t (m : prog S A) Q s a s' :
  wp t m Q s → m s = Ret (a, s') → Q a s'.
Proof. unfold wp. by intros H E; rewrite E in H. Qed.

Lemma wp_no_panic {A} t (m : prog S A) Q s : wp t m Q s → m s ≠ Panic.
Proof. unfold wp. by intros H E; rewrite E in H. Qed.

End wp_rules.

(** One symbolic step of a computation; it leaves calls to other operations
    of the model for the lemma of that operation. *)
Ltac wp_step :=
  lazymatch goal with
  | |- wp _ (_ ≫= _) _ _ => apply wp_bind
  | |- wp _ (try_bind _ _) _ _ => apply wp_try
  | |- wp _ (mret _) _ _ => apply wp_ret
  | |- wp _ get _ _ => apply wp_get
  | |- wp _ (gets _) _ _ => apply wp_gets
  | |- wp _ (modify _) _ _ => apply wp_modify
  | |- wp _ (put _) _ _ => apply wp_put
  | |- wp _ (zoom _ _ _) _ _ => apply wp_zoom
  | |- wp _ (if ?b then _ else _) _ _ => let E := fresh "Hif" in destruct b eqn:E
  | |- wp _ (match ?x with _ => _ end) _ _ => let E := fresh "Hm" in destruct x eqn:E
  | |- wp _ (let '_ := ?x in _) _ _ => let E := fresh "Hm" in destruct x eqn:E
  end; cbn beta iota zeta.

Ltac wp_steps := repeat wp_step.

(** Use the lemma [lem] for the call at the head of the goal. *)
Ltac wp_apply lem := eapply wp_mono; [eapply lem|].

(** Decide a closed conjunction of integer comparisons by computation. *)
Ltac zcompute := vm_compute; repeat split; try discriminate; try reflexivity.

(** ** Shared lemmas on lists and options *)

Create HintDb kitsune discriminated.

Lemma take_drop_split {A} (n : nat) (l : list A) : l = take n l ++ drop n l.
Proof. by rewrite take_drop. Qed.

Lemma Forall_replicate_intro {A} (P : A → Prop) n x : P x → Forall P (replicate n x).
Proof. intros. by apply Forall_replicate. Qed.

Lemma length_take_le {A} (n : nat) (l : list A) : n ≤ length l → length (take n l) = n.
Proof. intros. rewrite length_take. lia. Qed.

Lemma Forall_filter_intro {A} (P Q : A → Prop) `{∀ x, Decision (Q x)} l :
  Forall P l → Forall P (filter Q l).
Proof. rewrite !Forall_forall. intros H' x [_ ?]%list_elem_of_filter. by apply H'. Qed.

#[export] Hint Resolve Forall_replicate_intro Forall_filter_intro Forall_nil_2 : kitsune.
