(* ===== verification/Words.v ===== *)
(** * Machine integers

    Rust's unsigned integers as [Z] in their range, with the arithmetic the
    sources use written out (wrapping, checked, saturating), the little-endian
    encodings of the wire formats, and a small bit-level automation. *)

From S2P Require Import Prelude.
Local Open Scope Z_scope.

#[global] Arguments Z.testbit : simpl never.
#[global] Arguments Z.land : simpl never.
#[global] Arguments Z.lor : simpl never.
#[global] Arguments Z.lxor : simpl never.
#[global] Arguments Z.ldiff : simpl never.
#[global] Arguments Z.shiftl : simpl never.
#[global] Arguments Z.shiftr : simpl never.
#[global] Arguments Z.pow : simpl never.
#[global] Arguments Z.modulo : simpl never.
#[global] Arguments Z.div : simpl never.
#[global] Arguments Z.add : simpl never.
#[global] Arguments Z.sub : simpl never.
#[global] Arguments Z.mul : simpl never.

(** ** Ranges *)

Definition uint (w : Z) (z : Z) : Prop := 0 ≤ z < 2 ^ w.

Abbreviation is_u8 := (uint 8).
Abbreviation is_u16 := (uint 16).
Abbreviation is_u32 := (uint 32).
Abbreviation is_u64 := (uint 64).

(** A byte string: every element is a [u8]. *)
Definition bytes_ok (l : list Z) : Prop := Forall is_u8 l.

(** ** Arithmetic of width [w] *)

(** [as u<w>] on a wider value. *)
Definition cast (w z : Z) : Z := z mod 2 ^ w.

Definition wrapping_add (w a b : Z) : Z := (a + b) mod 2 ^ w.
Definition wrapping_sub (w a b : Z) : Z := (a - b) mod 2 ^ w.
Definition wrapping_mul (w a b : Z) : Z := (a * b) mod 2 ^ w.
Definition saturating_sub (a b : Z) : Z := Z.max 0 (a - b).
Definition saturating_mul (w a b : Z) : Z := Z.min (a * b) (2 ^ w - 1).

Definition checked_add (w a b : Z) : option Z :=
  if a + b <? 2 ^ w then Some (a + b) else None.
Definition checked_sub (a b : Z) : option Z :=
  if b <=? a then Some (a - b) else None.
Definition checked_mul (w a b : Z) : option Z :=
  if a * b <? 2 ^ w then Some (a * b) else None.

(** [!z] on a [w]-bit integer. *)
Definition bnot (w z : Z) : Z := Z.ldiff (Z.ones w) z.

(** [a.is_multiple_of(b)]: for [b = 0] it is [a == 0]. *)
Definition is_multiple_of (a b : Z) : bool := a mod b =? 0.

(** [a.div_ceil(b)] for [b > 0]. *)
Definition div_ceil (a b : Z) : Z :=
  if a mod b =? 0 then a / b else a / b + 1.

(** [n.next_multiple_of(a)] for [a > 0]. *)
Definition next_multiple_of (n a : Z) : Z :=
  if n mod a =? 0 then n else n + (a - n mod a).

(** [a.len()] as a [usize]. *)
Definition zlen {A} (l : list A) : Z := Z.of_nat (length l).

(** ** Little-endian encodings *)

Fixpoint le_bytes (n : nat) (z : Z) : list Z :=
  match n with
  | O => []
  | S n' => z mod 256 :: le_bytes n' (z / 256)
  end.

Fixpoint from_le_bytes (l : list Z) : Z :=
  match l with
  | [] => 0
  | b :: l' => b + 256 * from_le_bytes l'
  end.

(** [dst[off..off + src.len()].copy_from_slice(src)] on a buffer that is long
    enough. *)
Definition copy_at (off : nat) (src dst : list Z) : list Z :=
  take off dst ++ src ++ drop (off + length src) dst.

(** ** Lemmas: lengths *)

Lemma zlen_nonneg {A} (l : list A) : 0 ≤ zlen l.
Proof. unfold zlen. lia. Qed.

Lemma zlen_nil {A} : zlen (@nil A) = 0.
Proof. done. Qed.

Lemma zlen_app {A} (l k : list A) : zlen (l ++ k) = zlen l + zlen k.
Proof. unfold zlen. rewrite length_app. lia. Qed.

Lemma zlen_take {A} n (l : list A) : 0 ≤ n ≤ zlen l → zlen (take (Z.to_nat n) l) = n.
Proof. unfold zlen. intros. rewrite length_take. lia. Qed.

Lemma zlen_drop {A} n (l : list A) : 0 ≤ n ≤ zlen l → zlen (drop (Z.to_nat n) l) = zlen l - n.
Proof. unfold zlen. intros. rewrite length_drop. lia. Qed.

Lemma zlen_take_le {A} n (l : list A) : zlen (take n l) ≤ zlen l.
Proof. unfold zlen. rewrite length_take. lia. Qed.

Lemma zlen_pos {A} (l : list A) : l ≠ [] → 0 < zlen l.
Proof. destruct l; [done|]. unfold zlen. cbn. lia. Qed.

Lemma take_min_zlen {A} (l : list A) r : take (Z.to_nat (Z.min (zlen l) r)) l = take (Z.to_nat r) l.
Proof.
  unfold zlen. destruct (Z.le_ge_cases (Z.of_nat (length l)) r) as [H|H].
  - rewrite Z.min_l by done. rewrite !take_ge by lia. done.
  - by rewrite Z.min_r.
Qed.

(** ** Lemmas: ranges and arithmetic *)

Lemma uint_cast w z : 0 ≤ w → uint w (cast w z).
Proof. intros. apply Z.mod_pos_bound. by apply Z.pow_pos_nonneg. Qed.

Lemma cast_small w z : uint w z → cast w z = z.
Proof. intros. by apply Z.mod_small. Qed.

Lemma uint_wrapping_add w a b : 0 ≤ w → uint w (wrapping_add w a b).
Proof. intros. apply Z.mod_pos_bound. by apply Z.pow_pos_nonneg. Qed.

Lemma uint_wrapping_sub w a b : 0 ≤ w → uint w (wrapping_sub w a b).
Proof. intros. apply Z.mod_pos_bound. by apply Z.pow_pos_nonneg. Qed.

Lemma uint_wrapping_mul w a b : 0 ≤ w → uint w (wrapping_mul w a b).
Proof. intros. apply Z.mod_pos_bound. by apply Z.pow_pos_nonneg. Qed.

Lemma wrapping_add_small w a b : 0 ≤ a + b < 2 ^ w → wrapping_add w a b = a + b.
Proof. intros. by apply Z.mod_small. Qed.

Ltac solve_checked :=
  split; [intros ?; simplify_eq; auto with lia|];
  first [intros [-> ?]|intros ?]; first [done|f_equal; lia|exfalso; lia].

Lemma checked_add_Some w a b c : checked_add w a b = Some c ↔ c = a + b ∧ a + b < 2 ^ w.
Proof. unfold checked_add. destruct (Z.ltb_spec (a + b) (2 ^ w)); solve_checked. Qed.

Lemma checked_add_None w a b : checked_add w a b = None ↔ 2 ^ w ≤ a + b.
Proof. unfold checked_add. destruct (Z.ltb_spec (a + b) (2 ^ w)); solve_checked. Qed.

Lemma checked_mul_None w a b : checked_mul w a b = None ↔ 2 ^ w ≤ a * b.
Proof. unfold checked_mul. destruct (Z.ltb_spec (a * b) (2 ^ w)); solve_checked. Qed.

Lemma checked_mul_Some w a b c : checked_mul w a b = Some c ↔ c = a * b ∧ a * b < 2 ^ w.
Proof. unfold checked_mul. destruct (Z.ltb_spec (a * b) (2 ^ w)); solve_checked. Qed.

Lemma checked_sub_Some a b c : checked_sub a b = Some c ↔ c = a - b ∧ b ≤ a.
Proof. unfold checked_sub. destruct (Z.leb_spec b a); solve_checked. Qed.

(** The difference of two counters kept modulo [2 ^ w] is the exact
    difference when it fits. *)
Lemma wrapping_sub_exact w a b d :
  0 ≤ d < 2 ^ w → a mod 2 ^ w = (b + d) mod 2 ^ w → wrapping_sub w a b = d.
Proof.
  intros Hd Hab. unfold wrapping_sub.
  rewrite Zminus_mod, Hab, <-Zminus_mod.
  replace (b + d - b) with d by lia. by apply Z.mod_small.
Qed.

Lemma wrapping_sub_add w a b n :
  0 < w → wrapping_sub w (wrapping_add w a n) b = wrapping_add w (wrapping_sub w a b) n.
Proof.
  intros. unfold wrapping_sub, wrapping_add.
  rewrite Zminus_mod_idemp_l, Zplus_mod_idemp_l. f_equal. lia.
Qed.

Lemma wrapping_sub_wrapping_add_r w a b n :
  0 < w → wrapping_sub w a (wrapping_add w b n) = wrapping_sub w (wrapping_sub w a b) n.
Proof.
  intros. unfold wrapping_sub, wrapping_add.
  rewrite Zminus_mod_idemp_r, Zminus_mod_idemp_l. f_equal. lia.
Qed.

Lemma div_ceil_spec a b : 0 < b → b * div_ceil a b - b < a ≤ b * div_ceil a b.
Proof.
  intros Hb. unfold div_ceil.
  pose proof (Z.div_mod a b ltac:(lia)). pose proof (Z.mod_pos_bound a b Hb).
  destruct (Z.eqb_spec (a mod b) 0); lia.
Qed.

Lemma next_multiple_of_spec n a :
  0 < a → n ≤ next_multiple_of n a < n + a ∧ next_multiple_of n a mod a = 0.
Proof.
  intros Ha. unfold next_multiple_of. pose proof (Z.mod_pos_bound n a Ha).
  destruct (Z.eqb_spec (n mod a) 0) as [E|E]; [lia|]. split; [lia|].
  pose proof (Z.div_mod n a ltac:(lia)).
  replace (n + (a - n mod a)) with ((n / a + 1) * a) by lia.
  apply Z.mod_mul. lia.
Qed.

Lemma is_multiple_of_true a b : b ≠ 0 → is_multiple_of a b = true ↔ (b | a).
Proof.
  intros. unfold is_multiple_of. rewrite Z.eqb_eq. apply Z.mod_divide. done.
Qed.

(** ** Lemmas: encodings *)

Lemma length_le_bytes n z : length (le_bytes n z) = n.
Proof. revert z. induction n; intros; cbn; auto. Qed.

Lemma le_bytes_ok n z : bytes_ok (le_bytes n z).
Proof.
  revert z. induction n; intros z; cbn; constructor; [|apply IHn].
  unfold uint. change (2 ^ 8) with 256. apply Z.mod_pos_bound. lia.
Qed.

Lemma from_le_bytes_range l : bytes_ok l → 0 ≤ from_le_bytes l < 256 ^ Z.of_nat (length l).
Proof.
  unfold bytes_ok, uint. induction 1 as [|b l Hb Hl IH]; cbn [from_le_bytes length]; [lia|].
  rewrite Nat2Z.inj_succ, Z.pow_succ_r by lia. change (2 ^ 8) with 256 in Hb. lia.
Qed.

Lemma from_le_le_bytes n z : from_le_bytes (le_bytes n z) = z mod 256 ^ Z.of_nat n.
Proof.
  revert z. induction n; intros z; cbn [le_bytes from_le_bytes].
  - by rewrite Z.mod_1_r.
  - rewrite IHn, Nat2Z.inj_succ, Z.pow_succ_r by lia.
    rewrite (Z.rem_mul_r z 256) by lia. lia.
Qed.

Lemma from_le_le_bytes_small n z :
  0 ≤ z < 256 ^ Z.of_nat n → from_le_bytes (le_bytes n z) = z.
Proof. intros. rewrite from_le_le_bytes. by apply Z.mod_small. Qed.

Lemma le_from_le_bytes l : bytes_ok l → le_bytes (length l) (from_le_bytes l) = l.
Proof.
  unfold bytes_ok, uint. induction 1 as [|b l Hb Hl IH]; [done|].
  cbn [from_le_bytes length le_bytes]. change (2 ^ 8) with 256 in Hb. f_equal.
  - rewrite (Z.mul_comm 256), Z.mod_add by lia. by apply Z.mod_small.
  - rewrite (Z.mul_comm 256), Z.div_add by lia. by rewrite (Z.div_small b), Z.add_0_l.
Qed.

Lemma length_copy_at off src dst :
  (off + length src ≤ length dst)%nat → length (copy_at off src dst) = length dst.
Proof.
  intros. unfold copy_at. rewrite !length_app, length_take, length_drop. lia.
Qed.

Lemma bytes_ok_app l k : bytes_ok (l ++ k) ↔ bytes_ok l ∧ bytes_ok k.
Proof. apply Forall_app. Qed.

Lemma bytes_ok_take n l : bytes_ok l → bytes_ok (take n l).
Proof. apply Forall_take. Qed.

Lemma bytes_ok_drop n l : bytes_ok l → bytes_ok (drop n l).
Proof. apply Forall_drop. Qed.

#[export] Hint Resolve le_bytes_ok bytes_ok_take bytes_ok_drop
  uint_cast uint_wrapping_add uint_wrapping_sub uint_wrapping_mul : kitsune.

(** ** Bit-level reasoning *)

Lemma testbit_uint w z i : uint w z → w ≤ i → Z.testbit z i = false.
Proof.
  intros [? Hz] ?. destruct (Z.eq_dec z 0) as [->|]; [apply Z.testbit_0_l|].
  apply Z.bits_above_log2; [lia|].
  apply Z.lt_le_trans with w; [|done]. apply Z.log2_lt_pow2; lia.
Qed.

Lemma uint_bits w z : 0 ≤ w → 0 ≤ z → (∀ i, w ≤ i → Z.testbit z i = false) → uint w z.
Proof.
  intros Hw Hz Hbits. split; [done|].
  destruct (Z.eq_dec z 0) as [->|]; [by apply Z.pow_pos_nonneg|].
  apply Z.log2_lt_pow2; [lia|].
  destruct (Z.lt_ge_cases (Z.log2 z) w) as [|Hge]; [done|].
  specialize (Hbits _ Hge). rewrite Z.bit_log2 in Hbits by lia. done.
Qed.

Lemma uint_land w a b : 0 ≤ w → uint w a → 0 ≤ b → uint w (Z.land a b).
Proof.
  intros Hw Ha Hb. apply uint_bits; [done|apply Z.land_nonneg; left; apply Ha|].
  intros i Hi. by rewrite Z.land_spec, (testbit_uint w a).
Qed.

Lemma uint_lor w a b : 0 ≤ w → uint w a → uint w b → uint w (Z.lor a b).
Proof.
  intros Hw Ha Hb. apply uint_bits; [done|apply Z.lor_nonneg; split; [apply Ha|apply Hb]|].
  intros i Hi. by rewrite Z.lor_spec, (testbit_uint w a), (testbit_uint w b).
Qed.

Lemma uint_lxor w a b : 0 ≤ w → uint w a → uint w b → uint w (Z.lxor a b).
Proof.
  intros Hw Ha Hb. apply uint_bits; [done|apply Z.lxor_nonneg; split; intros; [apply Hb|apply Ha]|].
  intros i Hi. by rewrite Z.lxor_spec, (testbit_uint w a), (testbit_uint w b).
Qed.

Lemma uint_ldiff w a b : 0 ≤ w → uint w a → uint w (Z.ldiff a b).
Proof.
  intros Hw Ha. apply uint_bits; [done|apply Z.ldiff_nonneg; left; apply Ha|].
  intros i Hi. by rewrite Z.ldiff_spec, (testbit_uint w a).
Qed.

Lemma uint_bnot w z : 0 ≤ w → uint w (bnot w z).
Proof.
  intros. apply uint_ldiff; [done|]. unfold uint.
  pose proof (Z.pow_pos_nonneg 2 w ltac:(lia) ltac:(lia)). rewrite Z.ones_equiv. lia.
Qed.

Lemma land_bnot w a b : 0 ≤ w → uint w a → Z.land a (bnot w b) = Z.ldiff a b.
Proof.
  intros Hw Ha. apply Z.bits_inj'. intros i Hi. unfold bnot.
  rewrite Z.land_spec, !Z.ldiff_spec.
  destruct (Z.lt_ge_cases i w).
  - rewrite Z.ones_spec_low by lia. done.
  - rewrite (testbit_uint w a) by done. done.
Qed.

Lemma uint_mono w w' z : 0 ≤ w ≤ w' → uint w z → uint w' z.
Proof.
  intros ? [? ?]. split; [done|]. apply Z.lt_le_trans with (2 ^ w); [done|].
  apply Z.pow_le_mono_r; lia.
Qed.

Lemma land_pow2_eqb v k :
  0 ≤ k → (Z.land v (2 ^ k) =? 0) = negb (Z.testbit v k).
Proof.
  intros Hk. destruct (Z.testbit v k) eqn:E; cbn.
  - apply Z.eqb_neq. intros H0.
    assert (Z.testbit (Z.land v (2 ^ k)) k = true) as Ht
      by (rewrite Z.land_spec, E, Z.pow2_bits_true by lia; done).
    by rewrite H0, Z.testbit_0_l in Ht.
  - apply Z.eqb_eq, Z.bits_inj'. intros i Hi. rewrite Z.land_spec, Z.testbit_0_l.
    destruct (Z.eq_dec i k) as [->|Hne]; [by rewrite E|].
    rewrite Z.pow2_bits_false by lia. by rewrite andb_false_r.
Qed.

Lemma lor_disjoint_add a b : Z.land a b = 0 → Z.lor a b = a + b.
Proof. intros H. by rewrite <-Z.lxor_lor, Z.add_nocarry_lxor. Qed.

Lemma land_shiftl_disjoint w a b : 0 ≤ w → uint w a → Z.land a (Z.shiftl b w) = 0.
Proof.
  intros Hw Ha. apply Z.bits_inj'. intros i Hi. rewrite Z.land_spec, Z.testbit_0_l.
  destruct (Z.lt_ge_cases i w).
  - rewrite Z.shiftl_spec_low by done. apply andb_false_r.
  - by rewrite (testbit_uint w a).
Qed.

(** Concatenating a [w]-bit low part and a high part. *)
Lemma lor_shiftl_add w a b : 0 ≤ w → uint w a → Z.lor a (Z.shiftl b w) = a + 2 ^ w * b.
Proof.
  intros Hw Ha. rewrite lor_disjoint_add by (by apply land_shiftl_disjoint).
  rewrite Z.shiftl_mul_pow2 by done. lia.
Qed.

#[export] Hint Resolve uint_land uint_lor uint_lxor uint_ldiff uint_bnot : kitsune.
