(* ===== verification/Errors.v ===== *)
(** * Errors

    The error type of the crate ([error.rs]) and the part of
    [std::io::Error] the sources inspect. Messages are kept structured: the
    literal text of the source and the value it formats. *)

From S2P Require Import Prelude Words.
Local Open Scope Z_scope.

(** ** Operating-system errors *)

Definition EPERM : Z := 1.
Definition EINTR : Z := 4.
Definition EAGAIN : Z := 11.
Definition EACCES : Z := 13.
Definition EINVAL : Z := 22.
Definition EINPROGRESS : Z := 115.

Inductive ErrorKind :=
| PermissionDenied
| WouldBlock
| Interrupted
| InvalidInput
| UnexpectedEof
| WriteZero
| OtherKind.

#[export] Instance ErrorKind_eq_dec : EqDecision ErrorKind.
Proof. solve_decision. Defined.

(** [std::io::Error]: a raw OS error, or a kind with a message. *)
Inductive io_error :=
| OsError (code : Z)
| SimpleError (kind : ErrorKind) (msg : string).

#[export] Instance io_error_eq_dec : EqDecision io_error.
Proof. solve_decision. Defined.

Definition raw_os_error (e : io_error) : option Z :=
  match e with OsError c => Some c | SimpleError _ _ => None end.

(** [Error::kind] on Linux, for the codes the sources test. *)
Definition io_kind (e : io_error) : ErrorKind :=
  match e with
  | OsError c =>
      if (c =? EPERM) || (c =? EACCES) then PermissionDenied
      else if c =? EAGAIN then WouldBlock
      else if c =? EINTR then Interrupted
      else if c =? EINVAL then InvalidInput
      else OtherKind
  | SimpleError k _ => k
  end.

Definition raw_is (c : Z) (e : io_error) : bool :=
  bool_decide (raw_os_error e = Some c).

Definition kind_is (k : ErrorKind) (e : io_error) : bool :=
  bool_decide (io_kind e = k).

(** ** Messages and the crate's error type *)

Inductive errmsg :=
| Msg (text : string)
| MsgIo (text : string) (e : io_error)
| MsgExt (text : string) (ext : string)
| MsgNum (text : string) (n : Z).

#[export] Instance errmsg_eq_dec : EqDecision errmsg.
Proof. solve_decision. Defined.

Inductive Error :=
| KvmOpen (errno : Z)
| KvmApiVersion (found expected : Z)
| KvmIoctl (errno : Z)
| InvalidMemorySize (size : Z)
| MemoryOverlapsMmio (size max mmio_base : Z)
| InvalidVcpuCount (n max : Z)
| FlatBinaryMultiVcpu
| VcpuThread (m : errmsg)
| GuestMemoryErr (m : errmsg)
| MemoryAccess (m : errmsg)
| ImageIo (e : io_error)
| ImageDoesNotFit (load_addr len : Z)
| KernelLoad (m : errmsg)
| BootConfigure (m : errmsg)
| CmdlineErr (m : errmsg)
| MsrSetup
| CpuidSetup
| SerialErr (m : errmsg)
| BlockErr (m : errmsg)
| NetErr (m : errmsg)
| VsockErr (m : errmsg)
| VirtioErr (m : errmsg)
| UnexpectedExit (m : errmsg).

#[export] Instance Error_eq_dec : EqDecision Error.
Proof. solve_decision. Defined.

(** [map_err]. *)
Definition map_err {E F A} (f : E → F) (r : result E A) : result F A :=
  match r with Ok a => Ok a | Err e => Err (f e) end.
