(* ===== verification/GuestMem.v ===== *)
(** * Guest memory

    The interface of [vm_memory::GuestMemoryMmap] the sources use, the
    documented behaviour they rely on as a law class, and a byte-map
    implementation that has it. Kitsune creates one region that starts at
    guest-physical address 0. *)

From S2P Require Import Prelude Words Errors.
Local Open Scope Z_scope.

Class GuestMemory (Mem : Type) := {
  (** address of the last byte of guest memory *)
  last_addr : Mem → Z;
  (** the bytes [addr .. addr + len) are guest memory *)
  check_range : Mem → Z → Z → bool;
  write_slice : Z → list Z → Mem → result string unit * Mem;
  (** observation used by the specifications *)
  byte_at : Mem → Z → Z;
}.

(** [write_obj] of an [n]-byte little-endian integer. *)
Definition write_obj `{GuestMemory Mem} (n : nat) (v addr : Z) (m : Mem)
    : result string unit * Mem :=
  write_slice addr (le_bytes n v) m.

(** The bytes [data] overlaid at [addr] on the contents [f]. *)
Definition overlay (addr : Z) (data : list Z) (f : Z → Z) (x : Z) : Z :=
  if (addr <=? x) && (x <? addr + Z.of_nat (length data))
  then nth (Z.to_nat (x - addr)) data 0 else f x.

Class GuestMemoryLaws (Mem : Type) `{GuestMemory Mem} : Prop := {
  write_slice_in_range : ∀ m addr data,
    0 ≤ addr → addr + Z.of_nat (length data) ≤ last_addr m + 1 →
    ∃ m', write_slice addr data m = (Ok tt, m') ∧
          ∀ x, byte_at m' x = overlay addr data (byte_at m) x;
  write_slice_last_addr : ∀ m addr data,
    last_addr (write_slice addr data m).2 = last_addr m;
  check_range_spec : ∀ m addr len,
    0 ≤ addr → 0 ≤ len →
    check_range m addr len = true → addr + len ≤ last_addr m + 1;
}.

(** The [n] bytes at [addr]. *)
Definition bytes_at `{GuestMemory Mem} (m : Mem) (addr : Z) (n : nat) : list Z :=
  (λ i, byte_at m (addr + Z.of_nat i)) <$> seq 0 n.

(** The little-endian [n]-byte integer at [addr]. *)
Definition word_at `{GuestMemory Mem} (n : nat) (m : Mem) (addr : Z) : Z :=
  from_le_bytes (bytes_at m addr n).

(** [write_obj(..)] with its error mapped to a memory access error, as the boot code
    does everywhere. *)
Definition put_obj `{GuestMemory Mem} (n : nat) (v addr : Z) : prog Mem (result Error unit) :=
  r ← act (write_obj n v addr);
  mret (map_err (λ e, MemoryAccess (MsgExt "" e)) r).

(** ** An implementation *)

Record ByteMem := mkByteMem { bm_size : Z; bm_bytes : gmap Z Z }.

Fixpoint bm_store (addr : Z) (data : list Z) (m : gmap Z Z) : gmap Z Z :=
  match data with
  | [] => m
  | b :: data' => bm_store (addr + 1) data' (<[addr := b]> m)
  end.

#[export] Instance ByteMem_memory : GuestMemory ByteMem := {
  last_addr m := bm_size m - 1;
  check_range m addr len := (0 <=? addr) && (addr + len <=? bm_size m);
  write_slice addr data m :=
    if (0 <=? addr) && (addr + Z.of_nat (length data) <=? bm_size m)
    then (Ok tt, mkByteMem (bm_size m) (bm_store addr data (bm_bytes m)))
    else (Err "out of guest memory", m);
  byte_at m x := default 0 (bm_bytes m !! x);
}.

(** ** Lemmas *)

Lemma overlay_nil addr f x : overlay addr [] f x = f x.
Proof.
  unfold overlay. cbn [length]. rewrite Z.add_0_r.
  destruct (Z.leb_spec addr x), (Z.ltb_spec x addr); try done; lia.
Qed.

Lemma overlay_in addr data f i :
  (i < length data)%nat → overlay addr data f (addr + Z.of_nat i) = nth i data 0.
Proof.
  intros Hi. unfold overlay.
  replace (_ <=? _) with true by (symmetry; apply Z.leb_le; lia).
  replace (_ <? _) with true by (symmetry; apply Z.ltb_lt; lia). cbn.
  f_equal. lia.
Qed.

Lemma overlay_out addr data f x :
  x < addr ∨ addr + Z.of_nat (length data) ≤ x → overlay addr data f x = f x.
Proof.
  intros Hx. unfold overlay.
  destruct (Z.leb_spec addr x), (Z.ltb_spec x (addr + Z.of_nat (length data))); cbn; try done; lia.
Qed.

Lemma bm_store_lookup addr data m x :
  default 0 (bm_store addr data m !! x) = overlay addr data (λ y, default 0 (m !! y)) x.
Proof.
  revert addr m. induction data as [|b data IH]; intros addr m; [by rewrite overlay_nil|].
  cbn [bm_store]. rewrite IH. unfold overlay. cbn [length].
  destruct (Z.leb_spec (addr + 1) x); cbn.
  - replace (addr <=? x) with true by (symmetry; apply Z.leb_le; lia).
    replace (x <? addr + 1 + Z.of_nat (length data))
      with (x <? addr + Z.of_nat (S (length data))) by (f_equal; lia).
    destruct (x <? _); cbn.
    + replace (Z.to_nat (x - addr)) with (S (Z.to_nat (x - (addr + 1)))) by lia. done.
    + rewrite lookup_insert_ne by lia. done.
  - destruct (decide (addr = x)) as [->|Hne].
    + rewrite lookup_insert_eq. cbn.
      rewrite Z.leb_refl. replace (x <? x + Z.of_nat (S (length data))) with true
        by (symmetry; apply Z.ltb_lt; lia). cbn. by rewrite Z.sub_diag.
    + rewrite lookup_insert_ne by done.
      by replace (addr <=? x) with false by (symmetry; apply Z.leb_gt; lia).
Qed.

#[export] Instance ByteMem_laws : GuestMemoryLaws ByteMem.
Proof.
  split.
  - intros m addr data Ha Hl. cbn in *.
    replace (0 <=? addr) with true by (symmetry; apply Z.leb_le; lia).
    replace (addr + Z.of_nat (length data) <=? bm_size m) with true
      by (symmetry; apply Z.leb_le; lia). cbn.
    eexists; split; [done|]. intros x. cbn. apply bm_store_lookup.
  - intros m addr data. cbn. by destruct (_ && _).
  - intros m addr len Ha Hl Hc. cbn in *.
    apply andb_true_iff in Hc as [_ Hc%Z.leb_le]. lia.
Qed.

Section memory_lemmas.
Context `{GuestMemoryLaws Mem}.
Implicit Types m : Mem.

Lemma write_obj_in_range (n : nat) v addr m :
  0 ≤ addr → addr + Z.of_nat n ≤ last_addr m + 1 →
  ∃ m', write_obj n v addr m = (Ok tt, m') ∧ last_addr m' = last_addr m ∧
        ∀ x, byte_at m' x = overlay addr (le_bytes n v) (byte_at m) x.
Proof.
  intros Ha Hn. unfold write_obj.
  destruct (write_slice_in_range m addr (le_bytes n v)) as (m' & E & Hb);
    [done|rewrite length_le_bytes; lia|].
  exists m'. split_and!; [done| |done].
  by rewrite <-(write_slice_last_addr m addr (le_bytes n v)), E.
Qed.

Lemma bytes_at_ext m m' addr n :
  (∀ x, addr ≤ x < addr + Z.of_nat n → byte_at m x = byte_at m' x) →
  bytes_at m addr n = bytes_at m' addr n.
Proof.
  intros Hx. unfold bytes_at. apply list_fmap_ext. intros i k [-> Hk]%lookup_seq.
  apply Hx. lia.
Qed.

Lemma bytes_at_overlay m m' addr data n :
  n = length data →
  (∀ x, byte_at m' x = overlay addr data (byte_at m) x) → bytes_at m' addr n = data.
Proof.
  intros -> Hx. apply list_eq. intros i. unfold bytes_at.
  destruct (decide (i < length data)%nat) as [Hi|Hi].
  - rewrite list_lookup_fmap, lookup_seq_lt by done. cbn.
    rewrite Hx, overlay_in by done.
    destruct (nth_lookup_or_length data i 0) as [->|]; [done|lia].
  - rewrite (lookup_ge_None_2 data) by lia. apply lookup_ge_None_2.
    rewrite length_fmap, length_seq. lia.
Qed.

Lemma word_at_ext n m m' addr :
  (∀ x, addr ≤ x < addr + Z.of_nat n → byte_at m x = byte_at m' x) → word_at n m addr = word_at n m' addr.
Proof. intros Hx. unfold word_at. f_equal. by apply bytes_at_ext. Qed.

(** [m'] is [m] with the [n]-byte integer [v] at [addr]. *)
Record stored (n : nat) (v addr : Z) m m' : Prop := mkStored {
  stored_last : last_addr m' = last_addr m;
  stored_word : word_at n m' addr = v;
  stored_other : ∀ x, x < addr ∨ addr + Z.of_nat n ≤ x → byte_at m' x = byte_at m x;
}.

Lemma stored_word_other n v addr m m' k b :
  stored n v addr m m' → b + Z.of_nat k ≤ addr ∨ addr + Z.of_nat n ≤ b → word_at k m' b = word_at k m b.
Proof. intros [_ _ H1] Hb. apply word_at_ext. intros x Hx. apply H1. lia. Qed.

Lemma put_obj_wp t (n : nat) v addr m (Q : result Error unit → Mem → Prop) :
  0 ≤ addr → addr + Z.of_nat n ≤ last_addr m + 1 → 0 ≤ v < 256 ^ Z.of_nat n →
  (∀ m', stored n v addr m m' → Q (Ok tt) m') → wp t (put_obj n v addr) Q m.
Proof.
  intros Ha Hn Hv HQ. destruct (write_obj_in_range n v addr m Ha Hn) as (m' & E & Hl & Hb).
  unfold put_obj. wp_step. apply wp_act. intros r m1. rewrite E. intros [= <- <-]. wp_step. apply HQ. split; [done| |].
  - unfold word_at. rewrite (bytes_at_overlay m m' addr (le_bytes n v)) by (by rewrite ?length_le_bytes).
    by apply from_le_le_bytes_small.
  - intros x Hx. rewrite Hb. apply overlay_out. by rewrite length_le_bytes.
Qed.

Lemma length_bytes_at m addr n : length (bytes_at m addr n) = n.
Proof. unfold bytes_at. by rewrite length_fmap, length_seq. Qed.

End memory_lemmas.
