(* ===== verification/Kvm.v ===== *)
(** * The KVM interface

    The structures of [kvm_bindings] and the calls of [kvm_ioctls] that the
    sources use, as classes, with a recording implementation. *)

From S2P Require Import Prelude Words Errors.
Local Open Scope Z_scope.

(** ** Structures *)

Record kvm_segment := mkSegment {
  seg_base : Z; seg_limit : Z; seg_selector : Z; seg_type : Z; seg_present : Z; seg_dpl : Z;
  seg_db : Z; seg_s : Z; seg_l : Z; seg_g : Z; seg_avl : Z; seg_unusable : Z;
}.

#[export] Instance eta_kvm_segment : Eta kvm_segment := λ s,
  mkSegment (seg_base s) (seg_limit s) (seg_selector s) (seg_type s) (seg_present s) (seg_dpl s)
    (seg_db s) (seg_s s) (seg_l s) (seg_g s) (seg_avl s) (seg_unusable s).

Record kvm_dtable := mkDtable { dt_base : Z; dt_limit : Z }.

Record kvm_sregs := mkSregs {
  sr_cs : kvm_segment; sr_ds : kvm_segment; sr_es : kvm_segment; sr_fs : kvm_segment;
  sr_gs : kvm_segment; sr_ss : kvm_segment; sr_tr : kvm_segment;
  sr_gdt : kvm_dtable; sr_idt : kvm_dtable;
  sr_cr0 : Z; sr_cr3 : Z; sr_cr4 : Z; sr_efer : Z;
}.

#[export] Instance eta_kvm_sregs : Eta kvm_sregs := λ s,
  mkSregs (sr_cs s) (sr_ds s) (sr_es s) (sr_fs s) (sr_gs s) (sr_ss s) (sr_tr s) (sr_gdt s) (sr_idt s)
    (sr_cr0 s) (sr_cr3 s) (sr_cr4 s) (sr_efer s).

(** The general registers the sources set. *)
Record kvm_regs := mkRegs {
  r_rip : Z; r_rflags : Z; r_rsp : Z; r_rbp : Z; r_rsi : Z; r_rbx : Z;
}.
#[export] Instance eta_kvm_regs : Eta kvm_regs := λ r,
  mkRegs (r_rip r) (r_rflags r) (r_rsp r) (r_rbp r) (r_rsi r) (r_rbx r).
(** [..Default::default()] *)
Definition regs_default : kvm_regs := mkRegs 0 0 0 0 0 0.

Record kvm_fpu := mkFpu { fcw : Z; mxcsr : Z }.

Record kvm_msr_entry := mkMsr { msr_index : Z; msr_data : Z }.

Record kvm_cpuid_entry2 := mkCpuid {
  function : Z; index : Z; flags : Z; eax : Z; ebx : Z; ecx : Z; edx : Z;
}.
#[export] Instance eta_kvm_cpuid_entry2 : Eta kvm_cpuid_entry2 := λ e,
  mkCpuid (function e) (index e) (flags e) (eax e) (ebx e) (ecx e) (edx e).
#[export] Instance kvm_cpuid_entry2_eq_dec : EqDecision kvm_cpuid_entry2.
Proof. solve_decision. Defined.

Definition KVM_CPUID_FLAG_SIGNIFCANT_INDEX : Z := 1.

Record kvm_userspace_memory_region := mkRegion {
  rg_slot : Z; guest_phys_addr : Z; memory_size : Z; userspace_addr : Z; rg_flags : Z;
}.

(** ** Calls

    [V] is one vCPU descriptor together with the state KVM keeps for it; an error is
    an [errno]. *)

Class KvmVcpu (V : Type) := {
  get_sregs : V → result Z kvm_sregs;
  set_sregs : kvm_sregs → V → result Z unit * V;
  get_regs : V → result Z kvm_regs;
  set_regs : kvm_regs → V → result Z unit * V;
  set_fpu : kvm_fpu → V → result Z unit * V;
  (** the number of entries written *)
  set_msrs : list kvm_msr_entry → V → result Z Z * V;
  set_cpuid2 : list kvm_cpuid_entry2 → V → result Z unit * V;
  (** [Msrs::from_entries] and [CpuId::from_entries] accept the list *)
  msrs_fit : list kvm_msr_entry → bool;
  cpuid_fit : list kvm_cpuid_entry2 → bool;
}.

(** A call that succeeds sets what it was given and nothing else. *)
Class KvmVcpuLaws (V : Type) `{KvmVcpu V} := {
  v_sregs : V → kvm_sregs;
  v_regs : V → kvm_regs;
  v_fpu : V → option kvm_fpu;
  v_msrs : V → list kvm_msr_entry;
  v_cpuid : V → list kvm_cpuid_entry2;
  get_sregs_ok : ∀ v s, get_sregs v = Ok s → s = v_sregs v;
  get_regs_ok : ∀ v r, get_regs v = Ok r → r = v_regs v;
  set_sregs_ok : ∀ s v v', set_sregs s v = (Ok tt, v') →
    v_sregs v' = s ∧ v_regs v' = v_regs v ∧ v_fpu v' = v_fpu v ∧ v_msrs v' = v_msrs v ∧ v_cpuid v' = v_cpuid v;
  set_regs_ok : ∀ r v v', set_regs r v = (Ok tt, v') →
    v_regs v' = r ∧ v_sregs v' = v_sregs v ∧ v_fpu v' = v_fpu v ∧ v_msrs v' = v_msrs v ∧ v_cpuid v' = v_cpuid v;
  set_fpu_ok : ∀ f v v', set_fpu f v = (Ok tt, v') →
    v_fpu v' = Some f ∧ v_sregs v' = v_sregs v ∧ v_regs v' = v_regs v ∧ v_msrs v' = v_msrs v ∧ v_cpuid v' = v_cpuid v;
  set_msrs_ok : ∀ l v v', set_msrs l v = (Ok (zlen l), v') →
    v_msrs v' = l ∧ v_sregs v' = v_sregs v ∧ v_regs v' = v_regs v ∧ v_fpu v' = v_fpu v ∧ v_cpuid v' = v_cpuid v;
  set_cpuid2_ok : ∀ l v v', set_cpuid2 l v = (Ok tt, v') →
    v_cpuid v' = l ∧ v_sregs v' = v_sregs v ∧ v_regs v' = v_regs v ∧ v_fpu v' = v_fpu v ∧ v_msrs v' = v_msrs v;
}.

(** The multiprocessing state of a vCPU. *)
Class KvmMpState (V : Type) := {
  set_mp_state : Z → V → result Z unit * V;
}.
Class KvmMpStateLaws (V : Type) `{!KvmMpState V} := {
  mp_state : V → option Z;
  set_mp_state_ok : ∀ s (v v' : V), set_mp_state s v = (Ok tt, v') → mp_state v' = Some s;
}.

(** ** A recording vCPU *)

Record SVcpu := mkSVcpu {
  sv_sregs : kvm_sregs; sv_regs : kvm_regs; sv_fpu : option kvm_fpu;
  sv_msrs : list kvm_msr_entry; sv_cpuid : list kvm_cpuid_entry2;
  (** the number of MSRs the next call accepts *)
  sv_msr_limit : Z;
  sv_mp : option Z;
}.
#[export] Instance eta_SVcpu : Eta SVcpu := λ v,
  mkSVcpu (sv_sregs v) (sv_regs v) (sv_fpu v) (sv_msrs v) (sv_cpuid v) (sv_msr_limit v) (sv_mp v).

#[export] Instance Recording_vcpu : KvmVcpu SVcpu := {
  get_sregs v := Ok (sv_sregs v);
  set_sregs s v := (Ok tt, v <| sv_sregs := s |>);
  get_regs v := Ok (sv_regs v);
  set_regs r v := (Ok tt, v <| sv_regs := r |>);
  set_fpu f v := (Ok tt, v <| sv_fpu := Some f |>);
  set_msrs l v := (Ok (Z.min (zlen l) (sv_msr_limit v)),
                   if zlen l <=? sv_msr_limit v then v <| sv_msrs := l |> else v);
  set_cpuid2 l v := (Ok tt, v <| sv_cpuid := l |>);
  msrs_fit l := zlen l <=? 256;
  cpuid_fit l := zlen l <=? 256;
}.

#[export] Program Instance Recording_vcpu_laws : KvmVcpuLaws SVcpu := {
  v_sregs := sv_sregs; v_regs := sv_regs; v_fpu := sv_fpu; v_msrs := sv_msrs; v_cpuid := sv_cpuid;
}.
Next Obligation. by intros v s [= <-]. Qed.
Next Obligation. by intros v s [= <-]. Qed.
Next Obligation. by intros s v v' [= <-]. Qed.
Next Obligation. by intros s v v' [= <-]. Qed.
Next Obligation. by intros s v v' [= <-]. Qed.
Next Obligation.
  intros l v v' [= H <-]. replace (zlen l <=? sv_msr_limit v) with true by (symmetry; apply Z.leb_le; lia). done.
Qed.
Next Obligation. by intros s v v' [= <-]. Qed.

#[export] Instance Recording_mp : KvmMpState SVcpu := { set_mp_state s v := (Ok tt, v <| sv_mp := Some s |>) }.
#[export] Program Instance Recording_mp_laws : KvmMpStateLaws SVcpu := { mp_state := sv_mp }.
Next Obligation. by intros s v v' [= <-]. Qed.

(** The state of a vCPU after a reset, as far as it matters here. *)
Definition segment_zero : kvm_segment := mkSegment 0 0 0 0 0 0 0 0 0 0 0 0.
Definition svcpu_reset : SVcpu :=
  mkSVcpu (mkSregs segment_zero segment_zero segment_zero segment_zero segment_zero segment_zero segment_zero
             (mkDtable 0 0xffff) (mkDtable 0 0xffff) 0x60000010 0 0 0)
    regs_default None [] [] 256 None.
