(* ===== verification/Memory.v ===== *)
(** * Guest memory size and the memory slot

    [memory.rs] and [config.rs]: the bounds of guest RAM, the check of its size and
    its registration with KVM as one slot. *)

From S2P Require Import Prelude Words Errors Kvm.
Local Open Scope Z_scope.

(** ** Constants *)

Definition GUEST_MEM_START : Z := 0.
Definition GUEST_RAM_END : Z := 0xd0000000.
Definition MAX_GUEST_MEM_SIZE : Z := GUEST_RAM_END - GUEST_MEM_START.
Definition MAX_MEMORY_MIB : Z := cast 32 (MAX_GUEST_MEM_SIZE / (1024 * 1024)).
Definition MAX_VCPUS : Z := 32.

Record VmmConfig := mkVmmConfig { mem_size : Z; num_vcpus : Z }.
Definition config_default : VmmConfig := mkVmmConfig (256 * 1024 * 1024) 1.

(** ** Operations *)

Definition validate_mem_size (size : Z) : result Error unit :=
  if (size =? 0) || negb (is_multiple_of size 4096) then Err (InvalidMemorySize size)
  else
    match checked_add 64 GUEST_MEM_START (cast 64 size) with
    | None => Err (InvalidMemorySize size)
    | Some end_ =>
        if GUEST_RAM_END <? end_
        then Err (MemoryOverlapsMmio size MAX_GUEST_MEM_SIZE GUEST_RAM_END)
        else Ok tt
    end.

(** [GuestMemoryMmap::from_ranges] with one range, [get_host_address], and the memory
    slots of the VM. *)
Class MemHost (Mem W : Type) := {
  from_range : Z → Z → W → result string Mem * W;
  host_address : Mem → Z → result string Z;
  set_user_memory_region : kvm_userspace_memory_region → W → result Z unit * W;
}.

Section memory.
Context {Mem W : Type} `{MH : !MemHost Mem W}.

Definition create_guest_memory (size : Z) : prog W (result Error Mem) :=
  _ ←? mret (validate_mem_size size);
  r ← act (from_range GUEST_MEM_START size);
  guest_mem ←? mret (map_err (λ e, GuestMemoryErr (MsgExt "" e)) r);
  host_addr ←? mret (map_err (λ e, GuestMemoryErr (MsgExt "" e)) (host_address guest_mem GUEST_MEM_START));
  r ← act (set_user_memory_region (mkRegion 0 GUEST_MEM_START (cast 64 size) (cast 64 host_addr) 0));
  _ ←? mret (map_err KvmIoctl r);
  mret (Ok guest_mem).

End memory.

(** What the host promises: the slots KVM was given, and the size of the mapping. *)
Class MemHostLaws (Mem W : Type) `{MemHost Mem W} := {
  slots : W → list kvm_userspace_memory_region;
  region_size : Mem → Z;
  from_range_ok : ∀ a n w m w', from_range a n w = (Ok m, w') → region_size m = n ∧ slots w' = slots w;
  from_range_err : ∀ a n w e w', from_range a n w = (Err e, w') → slots w' = slots w;
  set_region_ok : ∀ r w w', set_user_memory_region r w = (Ok tt, w') → slots w' = slots w ++ [r];
  set_region_err : ∀ r w e w', set_user_memory_region r w = (Err e, w') → slots w' = slots w;
}.

(** ** Theorems *)

Definition mem_size_ok (size : Z) : Prop :=
  0 < size ∧ (4096 | size) ∧ GUEST_MEM_START + size ≤ GUEST_RAM_END.

Lemma validate_mem_size_cases size :
  is_u64 size →
  (validate_mem_size size = Ok tt ∧ mem_size_ok size)
  ∨ (validate_mem_size size = Err (MemoryOverlapsMmio size MAX_GUEST_MEM_SIZE GUEST_RAM_END) ∧
     0 < size ∧ (4096 | size) ∧ GUEST_RAM_END < GUEST_MEM_START + size)
  ∨ (validate_mem_size size = Err (InvalidMemorySize size) ∧ (size = 0 ∨ ¬ (4096 | size))).
Proof.
  intros Hs. unfold validate_mem_size, mem_size_ok. rewrite cast_small by done. unfold uint in Hs.
  pose proof (is_multiple_of_true size 4096 ltac:(lia)) as Hm.
  destruct (Z.eqb_spec size 0) as [->|Hne]; cbn [orb]; [by auto|].
  destruct (is_multiple_of size 4096); cbn [negb].
  - assert ((4096 | size)) as Hd by (by apply Hm).
    unfold checked_add. destruct (Z.ltb_spec (GUEST_MEM_START + size) (2 ^ 64)); [|unfold GUEST_MEM_START in *; lia].
    destruct (Z.ltb_spec GUEST_RAM_END (GUEST_MEM_START + size)); [right; left|left]; split_and!; try done; lia.
  - right; right. split; [done|]. right. by intros ?%Hm.
Qed.

(** The sizes accepted for guest RAM are exactly the non-zero multiples of a page
    that end at or before the device windows; a size that is refused is reported as
    overlapping them exactly when it is otherwise well-formed. *)
Theorem validate_mem_size_spec size :
  is_u64 size →
  (validate_mem_size size = Ok tt ↔ 0 < size ∧ (4096 | size) ∧ GUEST_MEM_START + size ≤ GUEST_RAM_END) ∧
  (validate_mem_size size = Err (MemoryOverlapsMmio size MAX_GUEST_MEM_SIZE GUEST_RAM_END)
     ↔ 0 < size ∧ (4096 | size) ∧ GUEST_RAM_END < GUEST_MEM_START + size).
Proof.
  intros Hs. destruct (validate_mem_size_cases size Hs) as [(-> & H)|[(-> & H)|(-> & H)]];
    unfold mem_size_ok in *; split; split; intros Hx; try done; lia || (exfalso; intuition lia).
Qed.

Lemma validate_mem_size_spec_witness :
  validate_mem_size MAX_GUEST_MEM_SIZE = Ok tt ∧
  validate_mem_size (MAX_GUEST_MEM_SIZE + 4096)
  = Err (MemoryOverlapsMmio (MAX_GUEST_MEM_SIZE + 4096) MAX_GUEST_MEM_SIZE GUEST_RAM_END).
Proof.
  split.
  - apply (proj1 (validate_mem_size_spec MAX_GUEST_MEM_SIZE ltac:(zcompute))). split; [reflexivity|].
    split; [by exists 0xd0000|zcompute].
  - apply (proj2 (validate_mem_size_spec (MAX_GUEST_MEM_SIZE + 4096) ltac:(zcompute))). split; [reflexivity|].
    split; [by exists 0xd0001|zcompute].
Defined.

(** Registering guest memory: on success KVM got one slot, slot 0, that is exactly the
    mapping and lies below the device windows; on failure it got none. *)
Lemma create_guest_memory_slot {Mem W : Type} `{MH : !MemHost Mem W, ML : !MemHostLaws Mem W} size (w : W) :
  is_u64 size →
  wp Total (create_guest_memory size) (λ r w', match r with
    | Ok m => region_size m = size ∧ ∃ a, slots w' = slots w ++ [mkRegion 0 GUEST_MEM_START size a 0] ∧ mem_size_ok size
    | Err _ => slots w' = slots w
    end) w.
Proof.
  intros Hs. unfold create_guest_memory. wp_step.
  destruct (validate_mem_size_cases size Hs) as [(-> & Hok)|[(-> & _)|(-> & _)]]; wp_step; [|done|done].
  wp_step. apply wp_act. intros r w1 E1. wp_step. destruct r as [m|e]; cbn [map_err]; wp_step; [|by eapply from_range_err].
  destruct (from_range_ok _ _ _ _ _ E1) as [Hsz Hw1]. wp_step.
  destruct (host_address m GUEST_MEM_START) as [a|e]; cbn [map_err]; wp_step; [|done].
  wp_step. apply wp_act. intros r w2 E2. wp_step. destruct r as [[]|e]; cbn [map_err]; wp_step.
  - wp_step. split; [done|]. exists (cast 64 a). rewrite (cast_small 64 size) in E2 by done.
    rewrite (set_region_ok _ _ _ E2), Hw1. done.
  - rewrite <-Hw1. by eapply set_region_err.
Qed.
