(* ===== verification/Boot.v ===== *)
(** * Loading a kernel and the boot protocols

    [boot.rs]: the layout of the boot data, where the kernel, the initrd and the command
    line go, and the parameters handed to the kernel in the Linux and the PVH protocol.
    The loaders of [linux_loader] are parameters. *)

From S2P Require Import Prelude Words Errors GuestMem.
Local Open Scope Z_scope.

(** ** Layout *)

Definition HIMEM_START : Z := 0x100000.
Definition ZERO_PAGE_START : Z := 0x7000.
Definition PVH_INFO_START : Z := 0x6000.
Definition PVH_MEMMAP_START : Z := 0x6100.
Definition PVH_MODLIST_START : Z := 0x6200.
Definition CMDLINE_START : Z := 0x20000.
Definition BOOT_STACK_POINTER : Z := 0x8ff0.
Definition KVM_TSS_ADDRESS : Z := 0xfffbd000.

Definition BZIMAGE_64BIT_ENTRY_OFFSET : Z := 0x200.
Definition START_KERNEL_MAP : Z := 0xffffffff80000000.
Definition KERNEL_BOOT_FLAG_MAGIC : Z := 0xaa55.
Definition KERNEL_HDR_MAGIC : Z := 0x53726448.
Definition KERNEL_LOADER_OTHER : Z := 0xff.
Definition KERNEL_MIN_ALIGNMENT_BYTES : Z := 0x1000000.
Definition KERNEL_BOOT_PROTOCOL : Z := 0x020c.
Definition EBDA_START : Z := 0x9fc00.
Definition E820_RAM : Z := 1.

(** Constants of the Linux boot protocol and of Xen's, from [linux_loader]. *)
Definition LOADED_HIGH : Z := 1.
Definition XLF_KERNEL_64 : Z := 1.
Definition XEN_HVM_START_MAGIC_VALUE : Z := 0x336ec578.
Definition E820_MAX_ENTRIES : nat := 128.
Definition PARAMS_SIZE : nat := Z.to_nat 4096.

(** ** Boot parameters *)

(** The fields of the setup header that are set here; the others are passed on. *)
Record setup_header := mkHdr {
  boot_flag : Z; header : Z; version : Z; kernel_alignment : Z; type_of_loader : Z; loadflags : Z;
  xloadflags : Z; cmd_line_ptr : Z; cmdline_size : Z; ramdisk_image : Z; ramdisk_size : Z;
  hdr_others : list Z;
}.
#[export] Instance eta_setup_header : Eta setup_header := λ h,
  mkHdr (boot_flag h) (header h) (version h) (kernel_alignment h) (type_of_loader h) (loadflags h)
    (xloadflags h) (cmd_line_ptr h) (cmdline_size h) (ramdisk_image h) (ramdisk_size h) (hdr_others h).
Definition hdr_default : setup_header := mkHdr 0 0 0 0 0 0 0 0 0 0 0 [].

Record e820_entry := mkE820 { e_addr : Z; e_size : Z; e_type : Z }.
#[export] Instance e820_entry_eq_dec : EqDecision e820_entry.
Proof. solve_decision. Defined.

Record boot_params := mkParams { hdr : setup_header; e820_entries : Z; e820_table : list e820_entry }.
#[export] Instance eta_boot_params : Eta boot_params := λ p, mkParams (hdr p) (e820_entries p) (e820_table p).
Definition params_default : boot_params := mkParams hdr_default 0 (replicate E820_MAX_ENTRIES (mkE820 0 0 0)).

Record hvm_modlist_entry := mkModule { paddr : Z; msize : Z; mod_cmdline_paddr : Z }.

Record hvm_start_info := mkStartInfo {
  magic : Z; si_version : Z; si_flags : Z; nr_modules : Z; modlist_paddr : Z; cmdline_paddr : Z;
  rsdp_paddr : Z; memmap_paddr : Z; memmap_entries : Z;
}.

(** What a loader of [linux_loader] returns, as far as it is used. *)
Record KernelLoaderResult := mkLoad {
  kernel_load : Z; kernel_end : Z; load_header : option setup_header; pvh_entry : option Z;
}.

Inductive KernelEntry := Linux64 (rip : Z) | Pvh (rip start_info : Z).

(** The error of the ELF loader that makes the code try a bzImage, and the others. *)
Inductive elf_error := InvalidElfMagicNumber | ElfError (msg : string).

(** [F] is an open kernel file, [Mem] guest memory. The structures of the boot protocols
    are written as their bytes. *)
Class KernelHost (F Mem : Type) := {
  elf_load : F → Z → Mem → result elf_error KernelLoaderResult * Mem;
  bzimage_load : F → Z → Mem → result string KernelLoaderResult * Mem;
  (** [seek(SeekFrom::Start(0))] *)
  rewind : F → result io_error F;
  (** [Cmdline::new(n)] and [insert_str] *)
  cmdline_fits : Z → list Z → result string unit;
  load_cmdline : Z → list Z → Mem → result string unit * Mem;
  (** the configurators *)
  write_linux_params : boot_params → Z → Mem → result string unit * Mem;
  write_pvh_params : hvm_start_info → Z → list e820_entry → Z → option (hvm_modlist_entry * Z) → Mem → result string unit * Mem;
  (** the layout of the structures *)
  params_bytes : boot_params → list Z;
  start_info_bytes : hvm_start_info → list Z;
  memmap_bytes : list e820_entry → list Z;
  module_bytes : hvm_modlist_entry → list Z;
}.

(** ** Operations *)

Definition physical_entry (entry : Z) : Z :=
  if START_KERNEL_MAP <=? entry then entry - START_KERNEL_MAP else entry.

Definition linux64_entry (k : KernelLoaderResult) : result Error Z :=
  let base := kernel_load k in
  match load_header k with
  | Some _ => ok_or (KernelLoad (Msg "bzImage 64-bit entry overflow")) (checked_add 64 base BZIMAGE_64BIT_ENTRY_OFFSET)
  | None => Ok (physical_entry base)
  end.

Definition fill_elf_setup_header (h : setup_header) : setup_header :=
  h <| boot_flag := KERNEL_BOOT_FLAG_MAGIC |> <| header := KERNEL_HDR_MAGIC |> <| version := KERNEL_BOOT_PROTOCOL |>
    <| kernel_alignment := KERNEL_MIN_ALIGNMENT_BYTES |> <| type_of_loader := KERNEL_LOADER_OTHER |>
    <| loadflags := LOADED_HIGH |> <| xloadflags := XLF_KERNEL_64 |>.

Definition add_e820_entry (addr size mem_type : Z) (p : boot_params) : result Error boot_params :=
  let idx := Z.to_nat (e820_entries p) in
  if (length (e820_table p) <=? idx)%nat then Err (BootConfigure (Msg "too many e820 entries"))
  else Ok (p <| e820_table ::= <[idx := mkE820 addr size mem_type]> |> <| e820_entries ::= Z.succ |>).

Section boot.
Context {F Mem : Type} `{GM : !GuestMemory Mem} `{KH : !KernelHost F Mem}.

Definition too_small : Error := GuestMemoryErr (Msg "guest memory is smaller than high memory start").

(** The setup header of the parameters. *)
Definition header_params (k : KernelLoaderResult) : boot_params :=
  let params := params_default in
  let params := match load_header k with
                | Some h => params <| hdr := h |>
                | None => params <| hdr ::= fill_elf_setup_header |>
                end in
  if type_of_loader (hdr params) =? 0
  then params <| hdr ::= λ h, h <| type_of_loader := KERNEL_LOADER_OTHER |> |> else params.

Definition build_boot_params (mem : Mem) (k : KernelLoaderResult) : result Error boot_params :=
  params ← add_e820_entry 0 EBDA_START E820_RAM (header_params k);
  let last := last_addr mem in
  let himem := HIMEM_START in
  if last <? himem then Err too_small
  else add_e820_entry himem (last - himem + 1) E820_RAM params.

(** [last + 1] and [end & !0xfff] at 64 bits. *)
Definition place_initrd (kernel_end : Z) (initrd : list Z) : prog Mem (result Error Z) :=
  mem ← get;
  let last := last_addr mem in
  let len := zlen initrd in
  if len =? 0 then mret (Err (KernelLoad (Msg "empty initrd")))
  else
    end_ ← expect (checked_add 64 last 1);
    let addr := Z.land (saturating_sub end_ len) (bnot 64 0xfff) in
    match checked_add 64 addr len with
    | None => mret (Err (ImageDoesNotFit addr len))
    | Some initrd_end =>
        if (addr <? kernel_end) || (end_ <? initrd_end) then mret (Err (ImageDoesNotFit addr len))
        else if 2 ^ 32 - 1 <? addr
        then mret (Err (KernelLoad (Msg "initrd address does not fit in 32-bit boot_params")))
        else
          r ← act (write_slice addr initrd);
          _ ←? mret (map_err (λ e, MemoryAccess (MsgExt "" e)) r);
          mret (Ok addr)
    end.

Definition write_pvh_info (rsdp : Z) (initrd : option (Z * Z)) : prog Mem (result Error unit) :=
  mem ← get;
  let last := last_addr mem in
  if last <? HIMEM_START then mret (Err too_small)
  else
    let memmap := [mkE820 0 EBDA_START E820_RAM; mkE820 HIMEM_START (last - HIMEM_START + 1) E820_RAM] in
    let '(nr, modlist, modules) :=
      match initrd with
      | Some (paddr, size) => (1, PVH_MODLIST_START, Some (mkModule paddr size 0, PVH_MODLIST_START))
      | None => (0, 0, None)
      end in
    let start_info := mkStartInfo XEN_HVM_START_MAGIC_VALUE 1 0 nr modlist CMDLINE_START rsdp PVH_MEMMAP_START (zlen memmap) in
    r ← act (write_pvh_params start_info PVH_INFO_START memmap PVH_MEMMAP_START modules);
    mret (map_err (λ e, BootConfigure (MsgExt "" e)) r).

(** An ELF image, or a bzImage when the magic number says so. *)
Definition load_image (file : F) : prog Mem (result Error KernelLoaderResult) :=
  r ← act (elf_load file HIMEM_START);
  match r with
  | Ok k => mret (Ok k)
  | Err InvalidElfMagicNumber =>
      file ←? mret (map_err ImageIo (rewind file));
      r ← act (bzimage_load file HIMEM_START);
      mret (map_err (λ e, KernelLoad (MsgExt "" e)) r)
  | Err (ElfError e) => mret (Err (KernelLoad (MsgExt "" e)))
  end.

(** The fields that locate the command line and the initrd. *)
Definition with_locations (cmdline : list Z) (initrd : option (Z * Z)) (params : boot_params) : boot_params :=
  let params := params <| hdr ::= λ h, h <| cmd_line_ptr := cast 32 CMDLINE_START |>
                                          <| cmdline_size := cast 32 (cast 32 (zlen cmdline) + 1) |> |> in
  match initrd with
  | Some (addr, len) => params <| hdr ::= λ h, h <| ramdisk_image := cast 32 addr |> <| ramdisk_size := cast 32 len |> |>
  | None => params
  end.

(** [initrd] is what reading the initrd gave, when there is one. *)
Definition load_initrd (k : KernelLoaderResult) (initrd : option (result io_error (list Z)))
    : prog Mem (result Error (option (Z * Z))) :=
  match initrd with
  | Some r =>
      bytes ←? mret (map_err ImageIo r);
      addr ←? place_initrd (kernel_end k) bytes;
      mret (Ok (Some (addr, zlen bytes)))
  | None => mret (Ok None)
  end.

(** [kernel] is what opening the kernel gave. *)
Definition load_linux (kernel : result io_error F) (initrd : option (result io_error (list Z))) (cmdline : list Z) (rsdp : Z)
    : prog Mem (result Error KernelEntry) :=
  file ←? mret (map_err ImageIo kernel);
  k ←? load_image file;
  _ ←? mret (map_err (λ e, CmdlineErr (MsgExt "" e)) (cmdline_fits (F := F) (Mem := Mem) 4096 cmdline));
  r ← act (load_cmdline (F := F) CMDLINE_START cmdline);
  _ ←? mret (map_err (λ e, KernelLoad (MsgExt "" e)) r);
  initrd ←? load_initrd k initrd;
  match pvh_entry k with
  | Some e =>
      _ ←? write_pvh_info rsdp initrd;
      mret (Ok (Pvh e PVH_INFO_START))
  | None =>
      mem ← get;
      params ←? mret (build_boot_params mem k);
      let params := with_locations cmdline initrd params in
      r ← act (write_linux_params (F := F) params ZERO_PAGE_START);
      _ ←? mret (map_err (λ e, BootConfigure (MsgExt "" e)) r);
      rip ←? mret (linux64_entry k);
      mret (Ok (Linux64 rip))
  end.

End boot.

(** ** What the code relies on

    The documented behaviour of [linux_loader]: the end of a loaded ELF image is an address,
    wherever its segments are (only the entry point is checked), a bzImage is loaded from
    the start of high memory on, the command line is written with a terminating zero, the structures have
    their sizes and are written where they are said to go, and nothing else is written. *)

Class KernelHostLaws (F Mem : Type) `{!GuestMemory Mem} `{!KernelHost F Mem} : Prop := {
  params_len : ∀ p, length (params_bytes (F := F) (Mem := Mem) p) = PARAMS_SIZE;
  start_info_len : ∀ si, length (start_info_bytes (F := F) (Mem := Mem) si) = 56%nat;
  memmap_len : ∀ l, length (memmap_bytes (F := F) (Mem := Mem) l) = (24 * length l)%nat;
  module_len : ∀ e, length (module_bytes (F := F) (Mem := Mem) e) = 32%nat;
  elf_load_last : ∀ (f : F) a (m : Mem), last_addr (elf_load f a m).2 = last_addr m;
  elf_load_end : ∀ (f : F) a (m m' : Mem) k, elf_load f a m = (Ok k, m') → 0 ≤ kernel_end k;
  bzimage_load_last : ∀ (f : F) a (m : Mem), last_addr (bzimage_load f a m).2 = last_addr m;
  bzimage_load_end : ∀ (f : F) a (m m' : Mem) k, bzimage_load f a m = (Ok k, m') → a ≤ kernel_end k;
  cmdline_fits_ok : ∀ n c, cmdline_fits (F := F) (Mem := Mem) n c = Ok tt → zlen c < n;
  load_cmdline_ok : ∀ a c (m m' : Mem), load_cmdline (F := F) a c m = (Ok tt, m') →
    last_addr m' = last_addr m ∧ (∀ x, byte_at m' x = overlay a (c ++ [0]) (byte_at m) x);
  write_linux_ok : ∀ p a (m m' : Mem), write_linux_params (F := F) p a m = (Ok tt, m') →
    last_addr m' = last_addr m ∧ (∀ x, byte_at m' x = overlay a (params_bytes (F := F) (Mem := Mem) p) (byte_at m) x);
  write_pvh_ok : ∀ si a mm b ml (m m' : Mem), write_pvh_params (F := F) si a mm b ml m = (Ok tt, m') →
    a + 56 ≤ b → (∀ e c, ml = Some (e, c) → b + 24 * zlen mm ≤ c) →
    last_addr m' = last_addr m ∧
    bytes_at m' a 56 = start_info_bytes (F := F) (Mem := Mem) si ∧
    bytes_at m' b (24 * length mm) = memmap_bytes (F := F) (Mem := Mem) mm ∧
    (∀ e c, ml = Some (e, c) → bytes_at m' c 32 = module_bytes (F := F) (Mem := Mem) e) ∧
    (∀ x, ¬ (a ≤ x < a + 56) → ¬ (b ≤ x < b + 24 * zlen mm) →
       (∀ e c, ml = Some (e, c) → ¬ (c ≤ x < c + 32)) → byte_at m' x = byte_at m x);
}.

(** ** Theorems *)

Section facts.
Context {F Mem : Type} `{GM : !GuestMemory Mem, GL : !GuestMemoryLaws Mem}.
Implicit Types m : Mem.

Lemma page_down x : is_u64 x → Z.land x (bnot 64 0xfff) = x / 4096 * 4096.
Proof.
  intros Hx. rewrite land_bnot by done. change 0xfff with (Z.ones 12). rewrite Z.ldiff_ones_r by done.
  by rewrite Z.shiftr_div_pow2, Z.shiftl_mul_pow2 by done.
Qed.

(** A page-aligned place for [len] bytes between [kend] and [end_]. *)
Definition fits (kend len end_ a : Z) : Prop := (4096 | a) ∧ 0 ≤ a ∧ kend ≤ a ∧ a + len ≤ end_.

(** The initrd as placed: the highest place there is. *)
Record placed m (kend : Z) (data : list Z) (a : Z) m' : Prop := mkPlaced {
  pl_nonempty : data ≠ [];
  pl_fits : fits kend (zlen data) (last_addr m + 1) a;
  pl_highest : ∀ b, fits kend (zlen data) (last_addr m + 1) b → b ≤ a;
  pl_bytes : bytes_at m' a (length data) = data;
  pl_last : last_addr m' = last_addr m;
  pl_other : ∀ x, x < a ∨ a + zlen data ≤ x → byte_at m' x = byte_at m x;
}.

Lemma place_initrd_wp kend data m (Q : result Error Z → Mem → Prop) :
  0 < last_addr m + 1 ≤ 2 ^ 32 → 0 ≤ kend →
  (∀ a m', placed m kend data a m' → Q (Ok a) m') →
  (∀ e, (data = [] ∨ ∀ a, ¬ fits kend (zlen data) (last_addr m + 1) a) → Q (Err e) m) →
  wp Total (place_initrd kend data) Q m.
Proof.
  intros Hl Hk HQ He. pose proof (zlen_nonneg data) as Hlen. unfold place_initrd. do 2 wp_step.
  destruct (Z.eqb_spec (zlen data) 0) as [Hz|Hz].
  { wp_step. apply He. left. apply length_zero_iff_nil. unfold zlen in Hz. lia. }
  wp_step. eapply wp_expect; [apply checked_add_Some; split; [reflexivity|lia]|].
  set (end_ := last_addr m + 1) in *. unfold saturating_sub.
  rewrite page_down by (unfold uint; lia). set (a := Z.max 0 (end_ - zlen data) / 4096 * 4096).
  assert (0 ≤ a ∧ a ≤ Z.max 0 (end_ - zlen data) ∧ Z.max 0 (end_ - zlen data) < a + 4096) as Ha.
  { unfold a. pose proof (Z.div_mod (Z.max 0 (end_ - zlen data)) 4096 ltac:(lia)).
    pose proof (Z.mod_pos_bound (Z.max 0 (end_ - zlen data)) 4096 ltac:(lia)). lia. }
  assert (∀ b, fits kend (zlen data) end_ b → b ≤ a) as Hmax.
  { intros b ([k ->] & Hb0 & _ & Hb). unfold a. apply Z.mul_le_mono_nonneg_r; [lia|]. apply Z.div_le_lower_bound; lia. }
  destruct (checked_add 64 a (zlen data)) as [ie|] eqn:Eie.
  2: { apply checked_add_None in Eie. wp_step. apply He. right. intros b Hb. pose proof (Hmax b Hb) as Hba.
       destruct Hb as (_ & ? & _ & ?). lia. }
  apply checked_add_Some in Eie as [-> _].
  destruct ((a <? kend) || (end_ <? a + zlen data)) eqn:Efit.
  { wp_step. apply He. right. intros b Hb. pose proof (Hmax b Hb) as Hba. destruct Hb as (_ & ? & ? & ?).
    apply orb_true_iff in Efit as [?%Z.ltb_lt|?%Z.ltb_lt]; lia. }
  apply orb_false_iff in Efit as [Hke%Z.ltb_ge Hend%Z.ltb_ge].
  destruct (Z.ltb_spec (2 ^ 32 - 1) a); [lia|].
  wp_step. destruct (write_slice_in_range m a data) as (m' & E & Hb); [lia|fold (zlen data); lia|].
  apply wp_act. intros r m1. rewrite E. intros [= <- <-]. wp_step. cbn [map_err]. wp_step. wp_step. apply HQ. split; [| |done|..].
  - intros ->. done.
  - split_and!; [exists (Z.max 0 (end_ - zlen data) / 4096); done|lia|lia|lia].
  - by apply (bytes_at_overlay m m' a data).
  - pose proof (write_slice_last_addr m a data) as Hla. by rewrite E in Hla.
  - intros x Hx. rewrite Hb. by apply overlay_out.
Qed.

(** C35: the initrd is placed if and only if there is a place for it: it goes to the
    highest page-aligned address at which it fits between the end of the kernel and the
    end of RAM, its bytes are there and no other byte changed; when it does not fit, or
    is empty, the call fails and guest memory is as before. *)
Theorem initrd_placement kend data m :
  0 < last_addr m + 1 ≤ 2 ^ 32 → 0 ≤ kend →
  ((data ≠ [] ∧ ∃ a, fits kend (zlen data) (last_addr m + 1) a) →
     ∃ a m', place_initrd kend data m = Ret (Ok a, m') ∧ placed m kend data a m') ∧
  ((data = [] ∨ ∀ a, ¬ fits kend (zlen data) (last_addr m + 1) a) →
     ∃ e, place_initrd kend data m = Ret (Err e, m)).
Proof.
  intros Hl Hk.
  destruct (wp_total_inv (place_initrd kend data) (λ r m', match r with
    | Ok a => placed m kend data a m'
    | Err _ => m' = m ∧ (data = [] ∨ ∀ a, ¬ fits kend (zlen data) (last_addr m + 1) a)
    end) m) as (r & m' & E & H); [apply place_initrd_wp; auto|].
  split; destruct r as [a|e].
  - eauto.
  - intros [Hne [a Ha]]. destruct H as [-> [->|Hno]]; [done|by destruct (Hno a)].
  - intros [->|Hno]; exfalso; [by destruct H|by apply (Hno a), (pl_fits _ _ _ _ _ H)].
  - destruct H as [-> _]. eauto.
Qed.

End facts.

Definition demo_guest : ByteMem := mkByteMem 0x200000 ∅.

Lemma initrd_placement_witness :
  ∃ a m', place_initrd 0x180000 [1; 2; 3] demo_guest = Ret (Ok a, m') ∧ placed demo_guest 0x180000 [1; 2; 3] a m'.
Proof.
  apply (initrd_placement 0x180000 [1; 2; 3] demo_guest); [by zcompute|by zcompute|]. split; [done|].
  exists 0x180000. split; [by exists 0x180|by zcompute].
Defined.

Section load.
Context {F Mem : Type} `{GM : !GuestMemory Mem, GL : !GuestMemoryLaws Mem}.
Context `{KH : !KernelHost F Mem, KL : !KernelHostLaws F Mem}.
Implicit Types (m : Mem) (f : F).

(** RAM as the kernel is told: up to the EBDA, and from 1 MiB to the end. *)
Definition ram_map m : list e820_entry :=
  [mkE820 0 EBDA_START E820_RAM; mkE820 HIMEM_START (last_addr m - HIMEM_START + 1) E820_RAM].

(** What a kernel entered through the 64-bit Linux protocol finds in its parameters. *)
Record linux_hand_over (cmdline : list Z) (rd : option (Z * Z)) m (p : boot_params) : Prop := mkLinuxHandOver {
  lh_map : take (Z.to_nat (e820_entries p)) (e820_table p) = ram_map m;
  lh_cmdline : cmd_line_ptr (hdr p) = CMDLINE_START ∧ cmdline_size (hdr p) = zlen cmdline + 1;
  lh_initrd : ∀ a n, rd = Some (a, n) → ramdisk_image (hdr p) = a ∧ ramdisk_size (hdr p) = n;
  lh_loader : type_of_loader (hdr p) ≠ 0;
}.

(** What a kernel entered through PVH finds in its start info, and where that leads. *)
Record pvh_hand_over (rsdp : Z) (rd : option (Z * Z)) m m' (si : hvm_start_info) : Prop := mkPvhHandOver {
  ph_magic : magic si = XEN_HVM_START_MAGIC_VALUE;
  ph_map : memmap_entries si = zlen (ram_map m) ∧ memmap_paddr si = PVH_MEMMAP_START ∧
           bytes_at m' (memmap_paddr si) 48 = memmap_bytes (F := F) (Mem := Mem) (ram_map m);
  ph_cmdline : cmdline_paddr si = CMDLINE_START;
  ph_rsdp : rsdp_paddr si = rsdp;
  ph_modules : match rd with
               | Some (a, n) => nr_modules si = 1 ∧ modlist_paddr si = PVH_MODLIST_START ∧
                                bytes_at m' (modlist_paddr si) 32 = module_bytes (F := F) (Mem := Mem) (mkModule a n 0)
               | None => nr_modules si = 0
               end;
}.

(** The initrd, when there is one, is at the place it is said to be. *)
Definition initrd_at (k : KernelLoaderResult) (initrd : option (result io_error (list Z))) (rd : option (Z * Z)) m m' : Prop :=
  match initrd with
  | Some r => ∃ data a, r = Ok data ∧ rd = Some (a, zlen data) ∧ 0 < zlen data ∧
                fits (kernel_end k) (zlen data) (last_addr m + 1) a ∧ bytes_at m' a (length data) = data
  | None => rd = None
  end.

(** The bytes below 1 MiB that loading may write: the parameters and the command line. *)
Definition load_scratch (x : Z) : Prop :=
  PVH_INFO_START ≤ x < ZERO_PAGE_START + 4096 ∨ CMDLINE_START ≤ x < CMDLINE_START + 4096.

(** What the kernel entered at [entry] finds in memory [m']. *)
Record boot_data (k : KernelLoaderResult) (initrd : option (result io_error (list Z))) (cmdline : list Z) (rsdp : Z)
    (rd : option (Z * Z)) m (entry : KernelEntry) m' : Prop := mkBootData {
  bd_cmdline : bytes_at m' CMDLINE_START (S (length cmdline)) = cmdline ++ [0] ∧ zlen cmdline < 4096;
  bd_initrd : initrd_at k initrd rd m m' ∧ HIMEM_START ≤ kernel_end k;
  bd_entry :
    match pvh_entry k with
    | Some e => entry = Pvh e PVH_INFO_START ∧
                ∃ si, bytes_at m' PVH_INFO_START 56 = start_info_bytes (F := F) (Mem := Mem) si ∧ pvh_hand_over rsdp rd m m' si
    | None => ∃ rip p, entry = Linux64 rip ∧ linux64_entry k = Ok rip ∧
                bytes_at m' ZERO_PAGE_START PARAMS_SIZE = params_bytes (F := F) (Mem := Mem) p ∧ linux_hand_over cmdline rd m p
    end;
}.

(** Memory [m'] after loading; [m1] is memory with the kernel image. *)
Record handed_over (k : KernelLoaderResult) (initrd : option (result io_error (list Z))) (cmdline : list Z) (rsdp : Z)
    (rd : option (Z * Z)) m m1 (entry : KernelEntry) m' : Prop := mkHandedOver {
  ho_data : boot_data k initrd cmdline rsdp rd m entry m';
  ho_last : last_addr m' = last_addr m;
  ho_other : ∀ x, x < HIMEM_START → ¬ load_scratch x → byte_at m' x = byte_at m1 x;
}.

Lemma load_image_wp f m :
  wp Total (load_image f) (λ r m', last_addr m' = last_addr m ∧
    match r with Ok k => 0 ≤ kernel_end k | Err _ => True end) m.
Proof.
  unfold load_image. wp_step. apply wp_act. intros r m1 E1.
  pose proof (elf_load_last f HIMEM_START m) as L1. rewrite E1 in L1. cbn in L1.
  destruct r as [k|[|e]].
  - wp_step. split; [done|]. by eapply elf_load_end.
  - wp_step. destruct (rewind f) as [f'|e]; cbn [map_err]; wp_step; [|done].
    wp_step. apply wp_act. intros r m2 E2. wp_step.
    pose proof (bzimage_load_last f' HIMEM_START m1) as L2. rewrite E2 in L2. cbn in L2.
    split; [congruence|]. destruct r as [k|e]; [|done]. apply bzimage_load_end in E2. unfold HIMEM_START in E2. cbn. lia.
  - wp_step. done.
Qed.

Lemma build_boot_params_spec m k p :
  build_boot_params m k = Ok p →
  e820_entries p = 2 ∧ take 2 (e820_table p) = ram_map m ∧ type_of_loader (hdr p) ≠ 0.
Proof.
  unfold build_boot_params. set (q := header_params k).
  assert (e820_entries q = 0 ∧ e820_table q = replicate E820_MAX_ENTRIES (mkE820 0 0 0) ∧ type_of_loader (hdr q) ≠ 0) as (Hn & Ht & Hl).
  { unfold q, header_params. destruct (load_header k) as [h|]; [|done]. cbn. by destruct (Z.eqb_spec (type_of_loader h) 0). }
  clearbody q. destruct q as [h n t]. cbn in Hn, Ht, Hl. subst n t. unfold add_e820_entry. cbn.
  destruct (Z.ltb_spec (last_addr m) HIMEM_START); [done|]. by intros [= <-].
Qed.

(** Above a kernel that ends above 1 MiB, the initrd changes nothing below. *)
Lemma load_initrd_wp k initrd m :
  0 < last_addr m + 1 ≤ 2 ^ 32 → 0 ≤ kernel_end k →
  wp Total (load_initrd k initrd) (λ r m', match r with
    | Ok rd => initrd_at k initrd rd m m' ∧ last_addr m' = last_addr m ∧
        (HIMEM_START ≤ kernel_end k → ∀ x, x < HIMEM_START → byte_at m' x = byte_at m x)
    | Err _ => True
    end) m.
Proof.
  intros Hl Hk. unfold load_initrd. destruct initrd as [[data|e]|]; cbn [map_err]; wp_step; [|by wp_step|done].
  wp_step. wp_step. apply place_initrd_wp; [done|done| |done]. intros a m' Hp. wp_step.
  split_and!; [|apply Hp|].
  - exists data, a. split_and!; [done|done| |apply Hp|apply Hp].
    pose proof (pl_nonempty _ _ _ _ _ Hp). destruct data; [done|]. unfold zlen. cbn. lia.
  - intros Hh x Hx. apply Hp. left. destruct (pl_fits _ _ _ _ _ Hp) as (_ & _ & ? & _). lia.
Qed.

(** Writing the parameters changes nothing that was loaded. *)
Lemma initrd_at_ext k initrd rd m m1 m2 :
  HIMEM_START ≤ kernel_end k → (∀ x, HIMEM_START ≤ x → byte_at m2 x = byte_at m1 x) →
  initrd_at k initrd rd m m1 → initrd_at k initrd rd m m2.
Proof.
  intros Hk Hx. destruct initrd as [r|]; [|done]. intros (data & a & -> & -> & Hd & Hf & Hb).
  exists data, a. split_and!; [done..|]. rewrite <-Hb at 2. apply bytes_at_ext.
  intros x ?. apply Hx. destruct Hf as (_ & _ & ? & _). lia.
Qed.

Lemma with_locations_hand_over k initrd rd cmdline m m1 p :
  last_addr m + 1 ≤ 2 ^ 32 → HIMEM_START ≤ kernel_end k → zlen cmdline < 4096 → initrd_at k initrd rd m m1 →
  build_boot_params m k = Ok p → linux_hand_over cmdline rd m (with_locations cmdline rd p).
Proof.
  intros Hl Hk Hc Hrd (Hn & Ht & Ho)%build_boot_params_spec. pose proof (zlen_nonneg cmdline).
  assert (cast 32 (cast 32 (zlen cmdline) + 1) = zlen cmdline + 1) as Hcl.
  { rewrite (cast_small 32 (zlen cmdline)) by (unfold uint; lia). apply cast_small. unfold uint; lia. }
  unfold initrd_at, with_locations in *. destruct rd as [[a n]|]; split; cbn;
    rewrite ?Hn; try done; try (by rewrite Hcl); destruct initrd as [r|]; try done.
  destruct Hrd as (data & a' & -> & [= -> ->] & Hd & (_ & ? & ? & ?) & _). intros ? ? [= <- <-].
  split; apply cast_small; unfold uint, HIMEM_START in *; lia.
Qed.

(** The command line and the initrd outlive the writing of the parameters, which are
    below them. *)
Lemma loaded_kept k initrd cmdline rd m m1 m2 m3 :
  HIMEM_START ≤ kernel_end k → zlen cmdline < 4096 →
  (∀ x, byte_at m2 x = overlay CMDLINE_START (cmdline ++ [0]) (byte_at m1) x) →
  (∀ x, x < HIMEM_START → byte_at m3 x = byte_at m2 x) → initrd_at k initrd rd m m3 →
  ∀ m4, (∀ x, ¬ (PVH_INFO_START ≤ x < ZERO_PAGE_START + 4096) → byte_at m4 x = byte_at m3 x) →
    bytes_at m4 CMDLINE_START (S (length cmdline)) = cmdline ++ [0] ∧ initrd_at k initrd rd m m4 ∧
    (∀ x, x < HIMEM_START → ¬ load_scratch x → byte_at m4 x = byte_at m1 x).
Proof.
  unfold load_scratch, HIMEM_START, PVH_INFO_START, ZERO_PAGE_START, CMDLINE_START, zlen.
  intros Hk Hc Hb2 Hb3 Hrd m4 H4. split_and!.
  - rewrite (bytes_at_ext m4 m2); [apply (bytes_at_overlay m1); [by rewrite length_app, Nat.add_comm|done]|].
    intros x Hx. rewrite H4, Hb3 by lia. done.
  - eapply initrd_at_ext; [done| |done]. intros x Hx. unfold HIMEM_START in *. apply H4. lia.
  - intros x Hx Hs. rewrite H4, Hb3, Hb2 by lia. apply overlay_out. rewrite length_app. cbn. lia.
Qed.

Lemma build_boot_params_last m m' k : last_addr m = last_addr m' → build_boot_params m k = build_boot_params m' k.
Proof. intros H. unfold build_boot_params. by rewrite H. Qed.

(** The data survives what is written elsewhere. *)
Lemma boot_data_ext k initrd cmdline rsdp rd m entry m1 m2 :
  (∀ x, load_scratch x ∨ HIMEM_START ≤ x → byte_at m2 x = byte_at m1 x) →
  boot_data k initrd cmdline rsdp rd m entry m1 → boot_data k initrd cmdline rsdp rd m entry m2.
Proof.
  intros Hx [[Hc Hlen] [Hrd Hk] He]. unfold load_scratch, PVH_INFO_START, ZERO_PAGE_START, CMDLINE_START in *.
  assert (∀ a n, 0x6000 ≤ a → a + Z.of_nat n ≤ 0x8000 → bytes_at m2 a n = bytes_at m1 a n) as Hp.
  { intros a n ? ?. apply bytes_at_ext. intros x ?. apply Hx. lia. }
  split.
  - split; [|done]. rewrite <-Hc. apply bytes_at_ext. unfold zlen, CMDLINE_START in *. intros x ?. apply Hx. lia.
  - split; [|done]. eapply initrd_at_ext; [done| |done]. intros x ?. apply Hx. by right.
  - destruct (pvh_entry k) as [e|].
    + destruct He as (-> & si & Hsi & [H1 (H2 & H3 & H4) H5 H6 H7]). split; [done|]. exists si.
      rewrite Hp by (unfold PVH_INFO_START; lia). split; [done|]. split; [done| |done|done|].
      * split_and!; [done|done|]. rewrite Hp; [done|rewrite H3; unfold PVH_MEMMAP_START; lia..].
      * destruct rd as [[a n]|]; [|done]. destruct H7 as (? & H8 & ?). split_and!; [done|done|].
        rewrite Hp; [done|rewrite H8; unfold PVH_MODLIST_START; lia..].
    + destruct He as (rip & p & -> & Hr & Hb & Hl). exists rip, p. split_and!; [done|done| |done].
      rewrite Hp; [done|..]; unfold ZERO_PAGE_START, PARAMS_SIZE; lia.
Qed.

(** The parameters of either protocol are written from the information gathered, and
    stay in the pages of the parameters. *)
Lemma write_pvh_info_wp rsdp rd m m1 :
  last_addr m1 = last_addr m →
  wp Total (write_pvh_info (F := F) rsdp rd) (λ r m', match r with
    | Ok _ => last_addr m' = last_addr m ∧ (∀ x, ¬ (PVH_INFO_START ≤ x < ZERO_PAGE_START + 4096) → byte_at m' x = byte_at m1 x) ∧
              ∃ si, bytes_at m' PVH_INFO_START 56 = start_info_bytes (F := F) (Mem := Mem) si ∧ pvh_hand_over rsdp rd m m' si
    | Err _ => True
    end) m1.
Proof.
  intros Hl. unfold write_pvh_info. do 2 wp_step. wp_step; [by wp_step|].
  destruct rd as [[a n]|]; wp_step; apply wp_act; intros r m2 E2; wp_step; (destruct r as [[]|]; [|done]); cbn [map_err];
    (apply write_pvh_ok in E2 as (Hl2 & Hsi & Hmm & Hml & Hb); [|done|by intros e c [= <- <-]]);
    (split; [congruence|]); (split; [|eexists; split; [exact Hsi|]]).
  1,3: intros x Hx; apply Hb; [..|intros e c]; unfold zlen, ZERO_PAGE_START, PVH_INFO_START, PVH_MEMMAP_START, PVH_MODLIST_START in *;
    cbn; [lia|lia|]; intros [=]; lia.
  all: split; unfold ram_map; cbn; rewrite <-?Hl; try done. split_and!; [done|done|]. by eapply Hml.
Qed.

Lemma write_linux_wp p (Q : result string unit → Mem → Prop) m :
  (∀ m', last_addr m' = last_addr m → (∀ x, ¬ (PVH_INFO_START ≤ x < ZERO_PAGE_START + 4096) → byte_at m' x = byte_at m x) →
     bytes_at m' ZERO_PAGE_START PARAMS_SIZE = params_bytes (F := F) (Mem := Mem) p → Q (Ok tt) m') →
  (∀ e m', Q (Err e) m') → wp Total (act (write_linux_params (F := F) p ZERO_PAGE_START)) Q m.
Proof.
  intros HQ He. apply wp_act. intros [[]|e] m' E; [|apply He]. apply write_linux_ok in E as [Hl Hb]. apply HQ; [done| |].
  - intros x Hx. rewrite Hb. apply overlay_out. rewrite params_len.
    unfold PARAMS_SIZE, PVH_INFO_START, ZERO_PAGE_START in *. lia.
  - eapply bytes_at_overlay; [|done]. by rewrite params_len.
Qed.

(** Booting Linux: [load_linux] always returns. When it succeeds, the command line is
    in memory with a terminating zero; the initrd is in memory, page aligned, between the
    end of the kernel and the end of RAM; and the kernel is entered through the protocol
    it supports, with parameters, not overwritten when the image ends above 1 MiB, that locate both, that list as RAM the memory below the
    EBDA and from 1 MiB to the end of guest memory, and, through PVH, the ACPI tables. *)
Theorem load_linux_hands_over kernel initrd cmdline rsdp m :
  HIMEM_START ≤ last_addr m < 2 ^ 32 →
  ∃ r m', load_linux kernel initrd cmdline rsdp m = Ret (r, m') ∧
    (∀ entry, r = Ok entry → ∃ f k m1 rd, kernel = Ok f ∧ load_image f m = Ret (Ok k, m1) ∧ last_addr m' = last_addr m ∧
       (HIMEM_START ≤ kernel_end k → handed_over k initrd cmdline rsdp rd m m1 entry m')).
Proof.
  intros Hm. apply (wp_total_inv _ (λ r m', ∀ entry, r = Ok entry → ∃ f k m1 rd, kernel = Ok f ∧
    load_image f m = Ret (Ok k, m1) ∧ last_addr m' = last_addr m ∧
    (HIMEM_START ≤ kernel_end k → handed_over k initrd cmdline rsdp rd m m1 entry m'))).
  unfold load_linux. wp_step. destruct kernel as [f|e]; cbn [map_err]; wp_step; [|done].
  wp_step. destruct (wp_total_inv _ _ _ (load_image_wp f m)) as (r & m1 & E1 & Hl1 & Hk).
  eapply wp_unfold; [exact E1|]. destruct r as [k|e]; [|done].
  wp_step. destruct (cmdline_fits 4096 cmdline) as [[]|e] eqn:Ec; cbn [map_err]; wp_step; [|done].
  apply cmdline_fits_ok in Ec. wp_step. apply wp_act. intros r m2 E2. wp_step.
  destruct r as [[]|e]; cbn [map_err]; wp_step; [|done]. apply load_cmdline_ok in E2 as [Hl2 Hb2].
  wp_step. eapply wp_mono; [apply load_initrd_wp; [unfold HIMEM_START in *; lia|done]|].
  intros [rd|e] m3; [|done]. intros (Hrd & Hl3 & Hb3).
  assert (initrd_at k initrd rd m m3) as Hrd' by (unfold initrd_at in *; by rewrite <-Hl1, <-Hl2).
  pose proof (λ Hh, loaded_kept k initrd cmdline rd m m1 m2 m3 Hh Ec Hb2 (Hb3 Hh) Hrd') as Hkeep.
  destruct (pvh_entry k) as [e|] eqn:Epvh.
  - wp_step. eapply wp_mono; [apply (write_pvh_info_wp _ _ m); congruence|]. intros [[]|e'] m4; [|done].
    intros (Hl4 & Hb4 & Hp). wp_step. intros ? [= <-]. exists f, k, m1, rd. split_and!; [done|done|congruence|].
    intros Hh. destruct (Hkeep Hh m4 Hb4) as (? & ? & ?). split; [|done|done]. split; [done|done|]. by rewrite Epvh.
  - do 2 wp_step. wp_step. destruct (build_boot_params m3 k) as [p|e] eqn:Ep; wp_step; [|done].
    wp_step. apply write_linux_wp; [|intros e m4; wp_step; cbn [map_err]; by wp_step]. intros m4 Hl4 Hb4 Hp.
    wp_step. cbn [map_err]. wp_step. wp_step.
    destruct (linux64_entry k) as [rip|e] eqn:Er; wp_step; [|done]. intros ? [= <-].
    exists f, k, m1, rd. split_and!; [done|done|congruence|]. intros Hh. destruct (Hkeep Hh m4 Hb4) as (? & ? & ?).
    split; [|congruence|done]. split; [done|done|]. rewrite Epvh. exists rip, (with_locations cmdline rd p). split_and!; [done..|].
    rewrite (build_boot_params_last m3 m) in Ep by congruence.
    eapply with_locations_hand_over; [lia|done|done|done|done].
Qed.

End load.

(** ** An implementation *)

(** A kernel file: what the loaders make of it, and its image. *)
Record KFile := mkKFile { kf_elf : result elf_error KernelLoaderResult; kf_bzimage : result string KernelLoaderResult;
  kf_image : list Z }.

(** A loader that gives [r], with the image at the load address [a]. *)
Definition kf_load {E} (e : E) (r : result E KernelLoaderResult) (image : list Z) (a : Z) (m : ByteMem)
    : result E KernelLoaderResult * ByteMem :=
  match r with
  | Ok k => if Z.max 0 a <=? kernel_end k then (Ok k, (write_slice a image m).2) else (Err e, m)
  | Err e => (Err e, m)
  end.

Definition pad (n : nat) (l : list Z) : list Z := take n (l ++ replicate n 0).

Definition kf_start_info (si : hvm_start_info) : list Z :=
  pad 56 (le_bytes 4 (magic si) ++ le_bytes 4 (si_version si) ++ le_bytes 4 (si_flags si) ++ le_bytes 4 (nr_modules si)
          ++ le_bytes 8 (modlist_paddr si) ++ le_bytes 8 (cmdline_paddr si) ++ le_bytes 8 (rsdp_paddr si)
          ++ le_bytes 8 (memmap_paddr si) ++ le_bytes 4 (memmap_entries si)).
Definition kf_memmap (l : list e820_entry) : list Z :=
  l ≫= λ e, le_bytes 8 (e_addr e) ++ le_bytes 8 (e_size e) ++ le_bytes 4 (e_type e) ++ le_bytes 4 0.
Definition kf_module (e : hvm_modlist_entry) : list Z :=
  le_bytes 8 (paddr e) ++ le_bytes 8 (msize e) ++ le_bytes 8 (mod_cmdline_paddr e) ++ le_bytes 8 0.
Definition kf_params (p : boot_params) : list Z :=
  pad PARAMS_SIZE (le_bytes 4 (cmd_line_ptr (hdr p)) ++ le_bytes 4 (cmdline_size (hdr p)) ++
    le_bytes 4 (ramdisk_image (hdr p)) ++ le_bytes 4 (ramdisk_size (hdr p)) ++ le_bytes 1 (e820_entries p)).

Definition kf_write_pvh (si : hvm_start_info) (a : Z) (mm : list e820_entry) (b : Z) (ml : option (hvm_modlist_entry * Z))
    (m : ByteMem) : result string unit * ByteMem :=
  match write_slice b (kf_memmap mm) m with
  | (Err e, m) => (Err e, m)
  | (Ok _, m) =>
      match (match ml with Some (e, c) => write_slice c (kf_module e) m | None => (Ok tt, m) end) with
      | (Err e, m) => (Err e, m)
      | (Ok _, m) => write_slice a (kf_start_info si) m
      end
  end.

#[export] Instance ByteMem_host : KernelHost KFile ByteMem := {
  elf_load f a m := kf_load (ElfError "program header") (kf_elf f) (kf_image f) a m;
  bzimage_load f a m := kf_load "setup header" (kf_bzimage f) (kf_image f) a m;
  rewind f := Ok f;
  cmdline_fits n c := if zlen c <? n then Ok tt else Err "command line too long";
  load_cmdline a c m := write_slice a (c ++ [0]) m;
  write_linux_params p a m := write_slice a (kf_params p) m;
  write_pvh_params := kf_write_pvh;
  params_bytes := kf_params;
  start_info_bytes := kf_start_info;
  memmap_bytes := kf_memmap;
  module_bytes := kf_module;
}.

Lemma kf_load_last {E} (e : E) r image a m : last_addr (kf_load e r image a m).2 = last_addr m.
Proof. unfold kf_load. destruct r; [|done]. destruct (_ <=? _); [|done]. apply write_slice_last_addr. Qed.

Lemma kf_load_end {E} (e : E) r image a m k m' : kf_load e r image a m = (Ok k, m') → Z.max 0 a ≤ kernel_end k.
Proof. unfold kf_load. destruct r as [k'|]; [|done]. destruct (Z.leb_spec (Z.max 0 a) (kernel_end k')); [|done]. by intros [= -> _]. Qed.

Lemma length_pad n l : length (pad n l) = n.
Proof. unfold pad. rewrite length_take, length_app, length_replicate. lia. Qed.

Lemma length_kf_memmap l : length (kf_memmap l) = (24 * length l)%nat.
Proof.
  unfold kf_memmap. induction l as [|e l IH]; [done|]. rewrite bind_cons, length_app, IH. cbn [length app le_bytes]. lia.
Qed.

Lemma bm_write_ok a data (m m' : ByteMem) :
  write_slice a data m = (Ok tt, m') →
  last_addr m' = last_addr m ∧ (∀ x, byte_at m' x = overlay a data (byte_at m) x).
Proof. cbn. destruct (_ && _); [|done]. intros [= <-]. split; [done|]. intros x. apply bm_store_lookup. Qed.

#[export] Instance ByteMem_host_laws : KernelHostLaws KFile ByteMem.
Proof.
  split.
  - intros p. apply length_pad.
  - intros p. apply length_pad.
  - intros l. apply length_kf_memmap.
  - intros e. done.
  - intros f a m. apply kf_load_last.
  - intros f a m m' k E%kf_load_end. lia.
  - intros f a m. apply kf_load_last.
  - intros f a m m' k E%kf_load_end. lia.
  - intros n c. cbn. by destruct (Z.ltb_spec (zlen c) n).
  - intros a c m m'. apply bm_write_ok.
  - intros p a m m'. apply bm_write_ok.
  - intros si a mm b ml m m' E Hab Hbc. cbn [write_pvh_params ByteMem_host] in E. unfold kf_write_pvh in E.
    pose proof (length_kf_memmap mm) as Lm. assert (length (kf_start_info si) = 56%nat) as Ls by apply length_pad. unfold zlen in *.
    cbn [start_info_bytes memmap_bytes module_bytes ByteMem_host].
    destruct (write_slice b (kf_memmap mm) m) as [[[]|e] m1] eqn:E1; [|done]. apply bm_write_ok in E1 as [L1 B1].
    destruct ml as [[e c]|].
    + specialize (Hbc e c eq_refl).
      destruct (write_slice c (kf_module e) m1) as [[[]|] m2] eqn:E2; [|done]. apply bm_write_ok in E2 as [L2 B2].
      apply bm_write_ok in E as [L3 B3]. split_and!; [congruence|by apply (bytes_at_overlay m2)|..].
      * rewrite (bytes_at_ext m' m1); [by apply (bytes_at_overlay m)|]. intros x Hx.
        rewrite B3, overlay_out, B2, overlay_out; [done|lia|rewrite Ls; lia].
      * intros ? ? [= <- <-]. rewrite (bytes_at_ext m' m2); [by apply (bytes_at_overlay m1)|]. intros x Hx.
        rewrite B3, overlay_out; [done|rewrite Ls; lia].
      * intros x Ha Hb Hc. specialize (Hc e c eq_refl).
        rewrite B3, overlay_out, B2, overlay_out, B1, overlay_out; [done|rewrite Lm|change (length (kf_module e)) with 32%nat|rewrite Ls]; lia.
    + apply bm_write_ok in E as [L3 B3]. split_and!; [congruence|by apply (bytes_at_overlay m1)| |done|].
      * rewrite (bytes_at_ext m' m1); [by apply (bytes_at_overlay m)|]. intros x Hx.
        rewrite B3, overlay_out; [done|rewrite Ls; lia].
      * intros x Ha Hb _. rewrite B3, overlay_out, B1, overlay_out; [done|rewrite Lm|rewrite Ls]; lia.
Qed.

Definition demo_bzimage : KFile :=
  mkKFile (Err InvalidElfMagicNumber) (Ok (mkLoad HIMEM_START 0x110000 (Some hdr_default) None)) [0x90; 0xf4].

Lemma load_linux_hands_over_witness :
  ∃ k m1 rd m', load_image demo_bzimage demo_guest = Ret (Ok k, m1) ∧
    handed_over k (Some (Ok [1; 2; 3])) [0x61] 0xe0000 rd demo_guest m1 (Linux64 0x100200) m'.
Proof.
  destruct (load_linux_hands_over (Ok demo_bzimage) (Some (Ok [1; 2; 3])) [0x61] 0xe0000 demo_guest)
    as (r & m' & E & H); [by zcompute|].
  assert (ret_of fst (load_linux (Ok demo_bzimage) (Some (Ok [1; 2; 3])) [0x61] 0xe0000 demo_guest)
          = Some (Ok (Linux64 0x100200))) as Er by (vm_compute; reflexivity).
  rewrite E in Er. injection Er as ->. destruct (H _ eq_refl) as (f & k & m1 & rd & [= <-] & E1 & _ & Ho).
  exists k, m1, rd, m'. split; [exact E1|]. apply Ho. apply (f_equal (ret_of (λ p, match p.1 with Ok k => kernel_end k | Err _ => 0 end))) in E1.
  vm_compute in E1. injection E1 as E1. change (0x110000 = kernel_end k) in E1. rewrite <-E1. by zcompute.
Defined.
