(* ===== verification/Gdt.v ===== *)
(** * The boot descriptor tables

    [gdt.rs]: segment descriptors, the two boot GDTs and their place in guest
    memory. *)

From S2P Require Import Prelude Words Errors GuestMem Kvm.
Local Open Scope Z_scope.

(** ** Constants *)

Definition BOOT_GDT_OFFSET : Z := 0x500.
Definition BOOT_IDT_OFFSET : Z := 0x520.

(** ** Segment descriptors

    A descriptor is a 64-bit word. *)

Definition descriptor_from (flags base limit : Z) : Z :=
  Z.lor (Z.lor (Z.lor (Z.lor
    (Z.shiftl (Z.land base 0xff000000) (56 - 24))
    (Z.shiftl (Z.land flags 0x0000f0ff) 40))
    (Z.shiftl (Z.land limit 0x000f0000) (48 - 16)))
    (Z.shiftl (Z.land base 0x00ffffff) 16))
    (Z.land limit 0x0000ffff).

Definition desc_base (d : Z) : Z :=
  Z.lor (Z.lor (Z.shiftr (Z.land d 0xff00000000000000) 32)
               (Z.shiftr (Z.land d 0x000000ff00000000) 16))
        (Z.shiftr (Z.land d 0x00000000ffff0000) 16).

Definition desc_limit (d : Z) : Z :=
  cast 32 (Z.lor (Z.shiftr (Z.land d 0x000f000000000000) 32) (Z.land d 0x000000000000ffff)).

Definition desc_g (d : Z) : Z := cast 8 (Z.shiftr (Z.land d 0x0080000000000000) 55).
Definition desc_db (d : Z) : Z := cast 8 (Z.shiftr (Z.land d 0x0040000000000000) 54).
Definition desc_l (d : Z) : Z := cast 8 (Z.shiftr (Z.land d 0x0020000000000000) 53).
Definition desc_avl (d : Z) : Z := cast 8 (Z.shiftr (Z.land d 0x0010000000000000) 52).
Definition desc_p (d : Z) : Z := cast 8 (Z.shiftr (Z.land d 0x0000800000000000) 47).
Definition desc_dpl (d : Z) : Z := cast 8 (Z.shiftr (Z.land d 0x0000600000000000) 45).
Definition desc_s (d : Z) : Z := cast 8 (Z.shiftr (Z.land d 0x0000100000000000) 44).
Definition desc_type (d : Z) : Z := cast 8 (Z.shiftr (Z.land d 0x00000f0000000000) 40).

(** The limit is expanded from pages to bytes in 32 bits. *)
Definition to_kvm_segment (d : Z) (table_index : Z) : kvm_segment :=
  let limit := if negb (desc_g d =? 0) then Z.lor (cast 32 (Z.shiftl (desc_limit d) 12)) 0xfff
               else desc_limit d in
  mkSegment (desc_base d) limit (cast 16 (table_index * 8)) (desc_type d) (desc_p d) (desc_dpl d)
    (desc_db d) (desc_s d) (desc_l d) (desc_g d) (desc_avl d) (Z.b2z (desc_p d =? 0)).

(** ** The boot GDTs *)

Definition BootGdt : Type := list Z.

Definition gdt_new : BootGdt :=
  [descriptor_from 0 0 0; descriptor_from 0xa09b 0 0xfffff;
   descriptor_from 0xc093 0 0xfffff; descriptor_from 0x808b 0 0xfffff].

Definition gdt_pvh : BootGdt :=
  [descriptor_from 0 0 0; descriptor_from 0xc09b 0 0xfffff;
   descriptor_from 0xc093 0 0xfffff; descriptor_from 0x808b 0 0xfffff].

Definition code_segment (g : BootGdt) : kvm_segment := to_kvm_segment (nth 1 g 0) 1.
Definition data_segment (g : BootGdt) : kvm_segment := to_kvm_segment (nth 2 g 0) 2.
Definition tss_segment (g : BootGdt) : kvm_segment := to_kvm_segment (nth 3 g 0) 3.

Definition gdt_limit (g : BootGdt) : Z := cast 16 (8 * zlen g - 1).

Section write.
Context {Mem : Type} `{GM : !GuestMemory Mem}.

(** The loop over the entries, [i] first. *)
Fixpoint write_entries (i : Z) (l : list Z) : prog Mem (result Error unit) :=
  match l with
  | [] => mret (Ok tt)
  | entry :: l =>
      addr ←? mret (ok_or (MemoryAccess (Msg "GDT address overflow")) (checked_add 64 BOOT_GDT_OFFSET (i * 8)));
      _ ←? put_obj 8 entry addr;
      write_entries (i + 1) l
  end.

Definition write_to_mem (g : BootGdt) : prog Mem (result Error unit) := write_entries 0 g.

Definition write_idt : prog Mem (result Error unit) := put_obj 8 0 BOOT_IDT_OFFSET.

End write.

(** ** Bit fields *)

(** The bits [k .. k + n) of [x]. *)
Definition field (x k n : Z) : Z := Z.land (Z.shiftr x k) (Z.ones n).

Lemma testbit_field x k n i :
  0 ≤ k → 0 ≤ n → 0 ≤ i → Z.testbit (field x k n) i = (i <? n) && Z.testbit x (i + k).
Proof.
  intros. unfold field. rewrite Z.land_spec, Z.shiftr_spec by done. rewrite Z.testbit_ones_nonneg by done.
  apply andb_comm.
Qed.

Lemma testbit_shl x k i : 0 ≤ i → Z.testbit (Z.shiftl x k) i = (k <=? i) && Z.testbit x (i - k).
Proof.
  intros. rewrite Z.shiftl_spec by done. destruct (Z.leb_spec k i); [done|].
  by rewrite Z.testbit_neg_r by lia.
Qed.

(** A mask of [n] ones at [k]. *)
Lemma testbit_mask k n i : 0 ≤ k → 0 ≤ n → 0 ≤ i →
  Z.testbit (Z.shiftl (Z.ones n) k) i = (k <=? i) && (i <? k + n).
Proof.
  intros. rewrite testbit_shl by done. destruct (Z.leb_spec k i); [|done]. cbn.
  rewrite Z.testbit_ones_nonneg by lia.
  destruct (Z.ltb_spec (i - k) n), (Z.ltb_spec i (k + n)); try done; lia.
Qed.

(** A masked field shifted up or down. *)
Lemma testbit_shl_mask x k n s i : 0 ≤ k → 0 ≤ n → 0 ≤ i →
  Z.testbit (Z.shiftl (Z.land x (Z.shiftl (Z.ones n) k)) s) i
  = (k + s <=? i) && (i <? k + s + n) && Z.testbit x (i - s).
Proof.
  intros. rewrite testbit_shl by done. destruct (Z.leb_spec s i).
  - rewrite Z.land_spec, testbit_mask by lia. cbn.
    destruct (Z.leb_spec k (i - s)), (Z.leb_spec (k + s) i); try (exfalso; lia); [|by rewrite andb_false_r].
    destruct (Z.ltb_spec (i - s) (k + n)), (Z.ltb_spec i (k + s + n)); try (exfalso; lia); by rewrite ?andb_true_r, ?andb_false_r.
  - destruct (Z.leb_spec (k + s) i); [lia|done].
Qed.

Lemma testbit_shr_mask x k n s i : 0 ≤ k → 0 ≤ n → 0 ≤ s → 0 ≤ i →
  Z.testbit (Z.shiftr (Z.land x (Z.shiftl (Z.ones n) k)) s) i
  = (k - s <=? i) && (i <? k - s + n) && Z.testbit x (i + s).
Proof.
  intros. rewrite Z.shiftr_spec, Z.land_spec, testbit_mask by lia.
  destruct (Z.leb_spec k (i + s)), (Z.leb_spec (k - s) i); try (exfalso; lia); [|by rewrite andb_false_r].
  destruct (Z.ltb_spec (i + s) (k + n)), (Z.ltb_spec i (k - s + n)); try (exfalso; lia); by rewrite ?andb_true_r, ?andb_false_r.
Qed.

Lemma testbit_cast x n i : 0 ≤ n → 0 ≤ i → Z.testbit (cast n x) i = (i <? n) && Z.testbit x i.
Proof.
  intros. unfold cast. rewrite <-Z.land_ones, Z.land_spec, Z.testbit_ones_nonneg by done. apply andb_comm.
Qed.

(** Decide an equation between bits: split on every comparison, drop the impossible
    cases, align the positions. *)
Ltac bit_cases :=
  repeat match goal with
  | |- context [?a <=? ?b] => destruct (Z.leb_spec a b); try (exfalso; lia)
  | |- context [?a <? ?b] => destruct (Z.ltb_spec a b); try (exfalso; lia)
  end; cbn [andb orb];
  rewrite ?andb_true_r, ?andb_false_r, ?orb_false_r, ?orb_true_r; try done;
  try (f_equal; lia).

(** The bits of a descriptor. *)
Lemma testbit_descriptor flags base limit i :
  is_u32 base → 0 ≤ i →
  Z.testbit (descriptor_from flags base limit) i =
    if i <? 16 then Z.testbit limit i
    else if i <? 40 then Z.testbit base (i - 16)
    else if i <? 48 then Z.testbit flags (i - 40)
    else if i <? 52 then Z.testbit limit (i - 32)
    else if i <? 56 then Z.testbit flags (i - 40)
    else Z.testbit base (i - 32).
Proof.
  intros Hb Hi. unfold descriptor_from.
  replace (Z.land flags 0x0000f0ff)
    with (Z.lor (Z.land flags (Z.shiftl (Z.ones 4) 12)) (Z.land flags (Z.shiftl (Z.ones 8) 0)))
    by (by rewrite <-Z.land_lor_distr_r).
  rewrite Z.shiftl_lor, <-(Z.shiftl_0_r (Z.land limit 0x0000ffff)).
  change 0xff000000 with (Z.shiftl (Z.ones 8) 24).
  change 0x000f0000 with (Z.shiftl (Z.ones 4) 16).
  change 0x00ffffff with (Z.shiftl (Z.ones 24) 0).
  change 0x0000ffff with (Z.shiftl (Z.ones 16) 0).
  rewrite !Z.lor_spec, !testbit_shl_mask by done.
  assert (64 ≤ i → Z.testbit base (i - 32) = false) by (intros; apply (testbit_uint 32); [done|lia]).
  bit_cases. by rewrite H by lia.
Qed.

(** The fields of a descriptor, through its bits. *)
Ltac desc_field :=
  apply Z.bits_inj'; let i := fresh "i" in intros i ?;
  rewrite ?testbit_cast, ?testbit_field, ?Z.lor_spec, ?testbit_shr_mask by lia;
  rewrite ?testbit_descriptor by (done || lia); bit_cases.

Section fields.
Variables flags base limit : Z.
Hypothesis Hb : is_u32 base.
Let d := descriptor_from flags base limit.

Lemma desc_base_from : desc_base d = base.
Proof.
  unfold desc_base, d. change 0xff00000000000000 with (Z.shiftl (Z.ones 8) 56).
  change 0x000000ff00000000 with (Z.shiftl (Z.ones 8) 32). change 0x00000000ffff0000 with (Z.shiftl (Z.ones 16) 16).
  desc_field; symmetry; (apply (testbit_uint 32); [done|lia]).
Qed.

Lemma desc_limit_from : desc_limit d = field limit 0 20.
Proof.
  unfold desc_limit, d. rewrite <-(Z.shiftr_0_r (Z.land _ 0x000000000000ffff)).
  change 0x000f000000000000 with (Z.shiftl (Z.ones 4) 48). change 0x000000000000ffff with (Z.shiftl (Z.ones 16) 0).
  desc_field.
Qed.

Lemma desc_g_from : desc_g d = field flags 15 1.
Proof. unfold desc_g, d. change 0x0080000000000000 with (Z.shiftl (Z.ones 1) 55). desc_field. Qed.

Lemma desc_db_from : desc_db d = field flags 14 1.
Proof. unfold desc_db, d. change 0x0040000000000000 with (Z.shiftl (Z.ones 1) 54). desc_field. Qed.

Lemma desc_l_from : desc_l d = field flags 13 1.
Proof. unfold desc_l, d. change 0x0020000000000000 with (Z.shiftl (Z.ones 1) 53). desc_field. Qed.

Lemma desc_avl_from : desc_avl d = field flags 12 1.
Proof. unfold desc_avl, d. change 0x0010000000000000 with (Z.shiftl (Z.ones 1) 52). desc_field. Qed.

Lemma desc_p_from : desc_p d = field flags 7 1.
Proof. unfold desc_p, d. change 0x0000800000000000 with (Z.shiftl (Z.ones 1) 47). desc_field. Qed.

Lemma desc_dpl_from : desc_dpl d = field flags 5 2.
Proof. unfold desc_dpl, d. change 0x0000600000000000 with (Z.shiftl (Z.ones 2) 45). desc_field. Qed.

Lemma desc_s_from : desc_s d = field flags 4 1.
Proof. unfold desc_s, d. change 0x0000100000000000 with (Z.shiftl (Z.ones 1) 44). desc_field. Qed.

Lemma desc_type_from : desc_type d = field flags 0 4.
Proof. unfold desc_type, d. change 0x00000f0000000000 with (Z.shiftl (Z.ones 4) 40). desc_field. Qed.

End fields.

(** The byte limit of a segment: a limit in pages covers its last page. *)
Definition byte_limit (g limit20 : Z) : Z := if g =? 0 then limit20 else limit20 * 4096 + 4095.

Lemma field_range x k n : 0 ≤ n → 0 ≤ field x k n < 2 ^ n.
Proof. intros. unfold field. rewrite Z.land_ones by done. apply Z.mod_pos_bound. lia. Qed.

(** The tables in guest memory. *)
Section written.
Context {Mem : Type} `{GL : GuestMemoryLaws Mem}.

Lemma write_entries_wp t i l (m : Mem) Q :
  0 ≤ i → BOOT_GDT_OFFSET + 8 * (i + zlen l) ≤ last_addr m + 1 → last_addr m < 2 ^ 63 → Forall is_u64 l →
  (∀ m', last_addr m' = last_addr m →
     (∀ k d, l !! k = Some d → word_at 8 m' (BOOT_GDT_OFFSET + 8 * (i + Z.of_nat k)) = d) →
     (∀ x, x < BOOT_GDT_OFFSET + 8 * i ∨ BOOT_GDT_OFFSET + 8 * (i + zlen l) ≤ x → byte_at m' x = byte_at m x) →
     Q (Ok tt) m') →
  wp t (write_entries i l) Q m.
Proof.
  unfold BOOT_GDT_OFFSET. revert i m. induction l as [|d l IH]; intros i m Hi Hfit Hlast Hl HQ; cbn [write_entries].
  { wp_step. by apply HQ. }
  apply Forall_cons in Hl as [Hd Hl]. unfold zlen in *. cbn [length] in *.
  do 2 wp_step. unfold BOOT_GDT_OFFSET. replace (checked_add 64 0x500 (i * 8)) with (Some (0x500 + i * 8))
    by (symmetry; apply checked_add_Some; lia). cbn [ok_or]. wp_step.
  apply put_obj_wp; [lia|lia|done|]. intros m1 Hst. pose proof Hst as [L1 L2 L3]. apply IH; [lia|lia|lia|done|].
  intros m' H1 H2 H3. apply HQ; [congruence| |].
  - intros [|k] d' Hk; cbn in Hk.
    + injection Hk as <-. rewrite <-L2. replace (0x500 + 8 * (i + Z.of_nat 0)) with (0x500 + i * 8) by lia.
      apply word_at_ext. intros x Hx. apply H3. lia.
    + replace (i + Z.of_nat (S k)) with (i + 1 + Z.of_nat k) by lia. by apply H2.
  - intros x Hx. rewrite H3 by lia. apply L3. lia.
Qed.

Lemma write_idt_wp t (m : Mem) Q :
  BOOT_IDT_OFFSET + 8 ≤ last_addr m + 1 →
  (∀ m', stored 8 0 BOOT_IDT_OFFSET m m' → Q (Ok tt) m') → wp t write_idt Q m.
Proof. intros Hfit HQ. by apply put_obj_wp. Qed.

End written.

(** C39: a segment built from its flags, base and limit and handed to KVM: the base
    comes back whole, the limit is the low 20 bits scaled to bytes when the
    granularity flag is set, every flag lands in its field, the selector is the
    index in the table, and the segment is usable exactly when it is present. *)
Theorem segment_roundtrip flags base limit idx :
  is_u32 base → 0 ≤ idx < 2 ^ 13 →
  to_kvm_segment (descriptor_from flags base limit) idx
  = mkSegment base (byte_limit (field flags 15 1) (field limit 0 20)) (idx * 8)
      (field flags 0 4) (field flags 7 1) (field flags 5 2) (field flags 14 1) (field flags 4 1)
      (field flags 13 1) (field flags 15 1) (field flags 12 1) (1 - field flags 7 1).
Proof.
  intros Hb Hi. unfold to_kvm_segment.
  rewrite desc_base_from, desc_limit_from, desc_g_from, desc_db_from, desc_l_from, desc_avl_from,
    desc_p_from, desc_dpl_from, desc_s_from, desc_type_from by done.
  f_equal.
  - unfold byte_limit. destruct (field flags 15 1 =? 0); [done|]. cbn [negb].
    pose proof (field_range limit 0 20 ltac:(lia)).
    rewrite cast_small by (rewrite Z.shiftl_mul_pow2 by lia; unfold uint; lia).
    rewrite Z.lor_comm, (lor_shiftl_add 12) by (try lia; unfold uint; lia). lia.
  - rewrite cast_small; [done|]. unfold uint. lia.
  - pose proof (field_range flags 7 1 ltac:(lia)). destruct (Z.eqb_spec (field flags 7 1) 0); cbn; lia.
Qed.

Lemma segment_roundtrip_witness :
  to_kvm_segment (descriptor_from 0xa09b 0x12345678 0xfffff) 1
  = mkSegment 0x12345678 0xffffffff 8 0xb 1 0 0 1 1 1 0 0.
Proof. rewrite (segment_roundtrip 0xa09b 0x12345678 0xfffff 1) by (zcompute). reflexivity. Defined.
