(* ===== verification/Paging.v ===== *)
(** * The boot page tables

    [setup_identity_map] of [vcpu.rs]: the tables a 64-bit boot starts on. The
    specification is the page walk of the processor in 4-level paging, by which the
    tables map every address of guest RAM to itself. *)

From S2P Require Import Prelude Words Errors GuestMem Boot.
Local Open Scope Z_scope.

(** ** Constants *)

Definition PML4_START : Z := 0x9000.
Definition PDPT_START : Z := 0xa000.
Definition PD_TABLES_START : Z := 0xb000.
Definition PAGE_SIZE : Z := 0x1000.
Definition HUGE_PAGE_2M : Z := 0x200000.
Definition PD_ENTRIES : Z := 512.
Definition PTE_PRESENT_WRITABLE : Z := 0x03.
Definition PTE_PRESENT_WRITABLE_PS : Z := 0x83.

(** ** The tables *)

Section tables.
Context {Mem : Type} `{GM : !GuestMemory Mem}.

(** The entry of a page directory with the global index [global]. *)
Definition pd_entry (num_2mib global : Z) : Z :=
  if global <? num_2mib then Z.lor (global * HUGE_PAGE_2M) PTE_PRESENT_WRITABLE_PS else 0.

(** One page directory: its entry in the table above, then its own entries. *)
Definition write_pd (num_2mib pd_idx : Z) : prog Mem (result Error unit) :=
  let pd_gpa := PD_TABLES_START + pd_idx * PAGE_SIZE in
  _ ←? put_obj 8 (Z.lor pd_gpa PTE_PRESENT_WRITABLE) (PDPT_START + pd_idx * 8);
  let base_2mib := pd_idx * PD_ENTRIES in
  for_range (Z.to_nat PD_ENTRIES) 0 (λ i, put_obj 8 (pd_entry num_2mib (base_2mib + i)) (pd_gpa + i * 8)).

Definition setup_identity_map : prog Mem (result Error unit) :=
  mem ← get;
  ram_end ←? mret (ok_or (GuestMemoryErr (Msg "guest RAM end overflow")) (checked_add 64 (last_addr mem) 1));
  let map_end := saturating_mul 64 (div_ceil ram_end HUGE_PAGE_2M) HUGE_PAGE_2M in
  let num_2mib := map_end / HUGE_PAGE_2M in
  let num_pd := div_ceil num_2mib PD_ENTRIES in
  if (num_pd =? 0) || (PD_ENTRIES <? num_pd)
  then mret (Err (GuestMemoryErr (MsgNum "cannot identity-map guest RAM" ram_end)))
  else
    pt_end ←? mret (ok_or (GuestMemoryErr (Msg "page table range overflow"))
                      (checked_add 64 PD_TABLES_START (saturating_mul 64 num_pd PAGE_SIZE)));
    if CMDLINE_START <? pt_end
    then mret (Err (GuestMemoryErr (MsgNum "page tables overlap cmdline" pt_end)))
    else
      _ ←? put_obj 8 (Z.lor PDPT_START PTE_PRESENT_WRITABLE) PML4_START;
      _ ←? for_range (Z.to_nat num_pd) 0 (write_pd num_2mib);
      for_range (Z.to_nat (PD_ENTRIES - num_pd)) num_pd (λ pd_idx, put_obj 8 0 (PDPT_START + pd_idx * 8)).

(** ** The page walk

    Bits 51..12 of an entry are the address of the next table, bit 0 is present,
    bit 1 writable, bit 7 in an upper level makes it a large page. The result is the
    physical address and whether it can be written. *)

Definition table_addr (e : Z) : Z := Z.land e 0x000ffffffffff000.
Definition table_index (va level : Z) : Z := Z.land (Z.shiftr va (12 + 9 * level)) 511.
Definition page_offset (va bits : Z) : Z := Z.land va (Z.ones bits).
(** The base of a page of size [2 ^ bits]. *)
Definition page_base (e bits : Z) : Z := Z.ldiff (table_addr e) (Z.ones bits).

Fixpoint walk_from (m : Mem) (level : nat) (table va : Z) (rw : bool) : option (Z * bool) :=
  let e := word_at 8 m (table + 8 * table_index va (Z.of_nat level)) in
  let bits := 12 + 9 * Z.of_nat level in
  let rw := rw && Z.testbit e 1 in
  if negb (Z.testbit e 0) then None
  else
    match level with
    | O => Some (Z.lor (table_addr e) (page_offset va 12), rw)
    | S l => if Z.testbit e 7 && (Z.of_nat level <? 3) then Some (Z.lor (page_base e bits) (page_offset va bits), rw)
             else walk_from m l (table_addr e) va rw
    end.

Definition page_walk (m : Mem) (cr3 va : Z) : option (Z * bool) := walk_from m 3 (table_addr cr3) va true.

End tables.

(** ** The tables as built *)

Section proofs.
Context {Mem : Type} `{GL : GuestMemoryLaws Mem}.
Variables (m0 : Mem) (num_2mib num_pd : Z).

(** The entry of the upper table. *)
Definition pdpt_entry (q : Z) : Z :=
  if q <? num_pd then Z.lor (PD_TABLES_START + q * PAGE_SIZE) PTE_PRESENT_WRITABLE else 0.

(** The first [np] entries of the upper table and the first [ng] of the directories
    are written, and nothing else changed. *)
Record built (np ng : Z) (m : Mem) : Prop := mkBuilt {
  built_last : last_addr m = last_addr m0;
  built_pml4 : word_at 8 m PML4_START = Z.lor PDPT_START PTE_PRESENT_WRITABLE;
  built_pdpt : ∀ q, 0 ≤ q < np → word_at 8 m (PDPT_START + 8 * q) = pdpt_entry q;
  built_pd : ∀ g, 0 ≤ g < ng → word_at 8 m (PD_TABLES_START + 8 * g) = pd_entry num_2mib g;
  built_frame : ∀ x, ¬ (PML4_START ≤ x < PML4_START + 8) →
    ¬ (PDPT_START ≤ x < PD_TABLES_START + num_pd * PAGE_SIZE) → byte_at m x = byte_at m0 x;
}.

Hypothesis Hpd : 1 ≤ num_pd ≤ PD_ENTRIES.
Hypothesis H2m : num_2mib ≤ num_pd * PD_ENTRIES.
Hypothesis Hfit : PD_TABLES_START + num_pd * PAGE_SIZE ≤ last_addr m0 + 1.

Lemma pdpt_entry_u64 q : 0 ≤ q < PD_ENTRIES → is_u64 (pdpt_entry q).
Proof.
  intros Hq. unfold pdpt_entry. destruct (q <? num_pd); [|done].
  apply uint_lor; [done| |done]. unfold uint, PD_TABLES_START, PAGE_SIZE, PD_ENTRIES in *. lia.
Qed.

Lemma pd_entry_u64 g : 0 ≤ g < 2 ^ 18 → is_u64 (pd_entry num_2mib g).
Proof.
  intros Hg. unfold pd_entry. destruct (g <? num_2mib); [|done].
  apply uint_lor; [done| |done]. unfold uint, HUGE_PAGE_2M. lia.
Qed.

Lemma built_start t Q :
  (∀ m, built 0 0 m → Q (Ok tt) m) →
  wp t (put_obj 8 (Z.lor PDPT_START PTE_PRESENT_WRITABLE) PML4_START) Q m0.
Proof.
  unfold PML4_START, PD_TABLES_START, PAGE_SIZE in *. intros HQ.
  apply put_obj_wp; [done|lia|done|]. intros m [H1 H2 H3]. apply HQ. split; try done; try lia.
  intros x Hx _. apply H3. unfold PML4_START in *. lia.
Qed.

(** Writing the next entry of either table. *)
Lemma built_next_pdpt t np ng v addr m Q :
  built np ng m → 0 ≤ np < PD_ENTRIES → v = pdpt_entry np → addr = PDPT_START + np * 8 →
  (∀ m', built (np + 1) ng m' → Q (Ok tt) m') →
  wp t (put_obj 8 v addr) Q m.
Proof.
  intros [H1 H2 H3 H4 H5] Hnp -> -> HQ. pose proof (pdpt_entry_u64 np ltac:(done)).
  unfold PML4_START, PDPT_START, PD_TABLES_START, PAGE_SIZE, PD_ENTRIES in *.
  apply put_obj_wp; [lia|lia|done|]. intros m' Hst. apply HQ. pose proof Hst as [L1 L2 L3].
  split; unfold PML4_START, PDPT_START, PD_TABLES_START, PAGE_SIZE, PD_ENTRIES; [congruence|..].
  - rewrite (stored_word_other _ _ _ _ _ 8 _ Hst) by lia. done.
  - intros q Hq. destruct (decide (q = np)) as [->|].
    + by replace (0xa000 + 8 * np) with (0xa000 + np * 8) by lia.
    + rewrite (stored_word_other _ _ _ _ _ 8 _ Hst) by lia. apply H3. lia.
  - intros g Hg. rewrite (stored_word_other _ _ _ _ _ 8 _ Hst) by lia. by apply H4.
  - intros x Hx Hy. rewrite L3 by lia. by apply H5.
Qed.

Lemma built_next_pd t np ng v addr m Q :
  built np ng m → 0 ≤ np ≤ PD_ENTRIES → 0 ≤ ng < num_pd * PD_ENTRIES →
  v = pd_entry num_2mib ng → addr = PD_TABLES_START + ng * 8 →
  (∀ m', built np (ng + 1) m' → Q (Ok tt) m') →
  wp t (put_obj 8 v addr) Q m.
Proof.
  intros [H1 H2 H3 H4 H5] Hnp Hng -> -> HQ.
  pose proof (pd_entry_u64 ng ltac:(unfold PD_ENTRIES in *; lia)).
  unfold PML4_START, PDPT_START, PD_TABLES_START, PAGE_SIZE, PD_ENTRIES in *.
  apply put_obj_wp; [lia|lia|done|]. intros m' Hst. apply HQ. pose proof Hst as [L1 L2 L3].
  split; unfold PML4_START, PDPT_START, PD_TABLES_START, PAGE_SIZE, PD_ENTRIES; [congruence|..].
  - rewrite (stored_word_other _ _ _ _ _ 8 _ Hst) by lia. done.
  - intros q Hq. rewrite (stored_word_other _ _ _ _ _ 8 _ Hst) by lia. by apply H3.
  - intros g Hg. destruct (decide (g = ng)) as [->|].
    + by replace (0xb000 + 8 * ng) with (0xb000 + ng * 8) by lia.
    + rewrite (stored_word_other _ _ _ _ _ 8 _ Hst) by lia. apply H4. lia.
  - intros x Hx Hy. rewrite L3 by lia. by apply H5.
Qed.

Lemma write_pd_wp t p m Q :
  built p (p * PD_ENTRIES) m → 0 ≤ p < num_pd →
  (∀ m', built (p + 1) ((p + 1) * PD_ENTRIES) m' → Q (Ok tt) m') →
  wp t (write_pd num_2mib p) Q m.
Proof.
  intros Hb Hp HQ. unfold write_pd. wp_step.
  eapply built_next_pdpt; [exact Hb|lia| |done|].
  { unfold pdpt_entry. by rewrite (proj2 (Z.ltb_lt p num_pd)) by lia. }
  intros m1 Hb1. apply (wp_for_range _ (λ i, built (p + 1) (p * PD_ENTRIES + i))).
  - by rewrite Z.add_0_r.
  - intros i m2 Hi Hb2. eapply built_next_pd; [exact Hb2|unfold PD_ENTRIES in *; lia..|done| |].
    + unfold PD_ENTRIES, PAGE_SIZE. lia.
    + intros m3. by rewrite <-Z.add_assoc.
  - intros m2. replace (p * PD_ENTRIES + (0 + _)) with ((p + 1) * PD_ENTRIES); [by apply HQ|].
    unfold PD_ENTRIES. lia.
Qed.

(** *** The walk over them *)

Lemma entry_flags a f i :
  (4096 | a) → 0 ≤ f < 4096 → 0 ≤ i < 12 → Z.testbit (Z.lor a f) i = Z.testbit f i.
Proof.
  intros [k ->] Hf Hi. rewrite Z.lor_spec. change 4096 with (2 ^ 12).
  rewrite <-Z.shiftl_mul_pow2, Z.shiftl_spec, Z.testbit_neg_r by lia. done.
Qed.

Lemma table_addr_entry a f : (4096 | a) → 0 ≤ a < 2 ^ 52 → 0 ≤ f < 4096 → table_addr (Z.lor a f) = a.
Proof.
  intros [k ->] Ha Hf. unfold table_addr. change 0x000ffffffffff000 with (Z.shiftl (Z.ones 40) 12).
  rewrite Z.lor_comm. replace (k * 4096) with (Z.shiftl k 12) by (rewrite Z.shiftl_mul_pow2; lia).
  rewrite Z.land_lor_distr_l, land_shiftl_disjoint by (done || (unfold uint; lia)). rewrite Z.lor_0_l, <-Z.shiftl_land.
  f_equal. rewrite Z.land_ones by done. apply Z.mod_small. lia.
Qed.

Lemma page_base_entry k f : 0 ≤ k < 2 ^ 31 → 0 ≤ f < 4096 → page_base (Z.lor (k * HUGE_PAGE_2M) f) 21 = k * HUGE_PAGE_2M.
Proof.
  intros Hk Hf. unfold page_base. rewrite table_addr_entry; [|exists (k * 512); unfold HUGE_PAGE_2M; lia|unfold HUGE_PAGE_2M; lia|done].
  rewrite Z.ldiff_ones_r by done. change HUGE_PAGE_2M with (2 ^ 21).
  by rewrite Z.shiftr_div_pow2, Z.div_mul, Z.shiftl_mul_pow2 by lia.
Qed.

Lemma table_index_div va level :
  0 ≤ level → table_index va level = (va / 2 ^ (12 + 9 * level)) mod 512.
Proof.
  intros. unfold table_index. change 511 with (Z.ones 9). by rewrite Z.land_ones, Z.shiftr_div_pow2 by lia.
Qed.

(** One level of the walk: an absent entry, a table, a large page. *)
Lemma walk_absent m l table va rw :
  word_at 8 m (table + 8 * table_index va (Z.of_nat l)) = 0 → walk_from m l table va rw = None.
Proof. intros E. destruct l; cbn [walk_from]; by rewrite E. Qed.

Lemma walk_table m l table va rw a :
  word_at 8 m (table + 8 * table_index va (Z.of_nat (S l))) = Z.lor a PTE_PRESENT_WRITABLE →
  (4096 | a) → 0 ≤ a < 2 ^ 52 → walk_from m (S l) table va rw = walk_from m l a va rw.
Proof.
  intros E Ha Hr. cbn [walk_from]. rewrite E, !entry_flags, table_addr_entry by (done || lia).
  cbn -[walk_from]. by rewrite andb_true_r.
Qed.

Lemma walk_large m table va rw k :
  word_at 8 m (table + 8 * table_index va 1) = Z.lor (k * HUGE_PAGE_2M) PTE_PRESENT_WRITABLE_PS →
  0 ≤ k < 2 ^ 31 → walk_from m 1 table va rw = Some (k * HUGE_PAGE_2M + va mod 2 ^ 21, rw).
Proof.
  intros E Hk. cbn [walk_from]. change (Z.of_nat 1) with 1.
  rewrite E, !entry_flags by (done || (exists (k * 512); unfold HUGE_PAGE_2M; lia) || lia).
  cbn -[page_base page_offset Z.pow Z.modulo]. change (12 + 9 * 1) with 21. rewrite page_base_entry by done.
  do 2 f_equal.
  - unfold page_offset. rewrite Z.land_ones by done. rewrite Z.lor_comm.
  change HUGE_PAGE_2M with (2 ^ 21). rewrite <-Z.shiftl_mul_pow2 by done.
  rewrite lor_shiftl_add by (done || (apply Z.mod_pos_bound; lia)). rewrite Z.shiftl_mul_pow2 by done. lia.
  - apply andb_true_r.
Qed.

Lemma walk_built m va :
  built PD_ENTRIES (num_pd * PD_ENTRIES) m → 0 ≤ va < 2 ^ 39 → num_2mib ≤ 2 ^ 31 →
  page_walk m PML4_START va = if va <? num_2mib * HUGE_PAGE_2M then Some (va, true) else None.
Proof.
  intros [_ Hpml4 Hpdpt Hpde _] Hva Hn. unfold page_walk. change (table_addr PML4_START) with PML4_START.
  assert (table_index va 3 = 0) as E3 by (rewrite table_index_div by done; cbn -[Z.pow]; rewrite Z.div_small by lia; done).
  assert (table_index va 2 = va / 2 ^ 30) as E2.
  { rewrite table_index_div by done. apply Z.mod_small. change (12 + 9 * 2) with 30. split; [apply Z.div_pos; lia|].
    apply Z.div_lt_upper_bound; lia. }
  set (q := va / 2 ^ 30) in *. set (i := table_index va 1).
  assert (0 ≤ q < 512) as Hq by (unfold q; split; [apply Z.div_pos; lia|apply Z.div_lt_upper_bound; lia]).
  assert (q * 512 + i = va / 2 ^ 21) as Hg.
  { unfold i, q. rewrite table_index_div by done. change (12 + 9 * 1) with 21.
    replace (va / 2 ^ 30) with (va / 2 ^ 21 / 512) by (rewrite Z.div_div by lia; done).
    pose proof (Z.div_mod (va / 2 ^ 21) 512 ltac:(lia)). lia. }
  assert (0 ≤ i < 512) as Hi by (unfold i; rewrite table_index_div by done; apply Z.mod_pos_bound; lia).
  rewrite (walk_table _ _ _ _ _ PDPT_START); [|by change (Z.of_nat 3) with 3; rewrite E3, Z.add_0_r|by exists 10|done].
  specialize (Hpdpt q Hq). unfold pdpt_entry in Hpdpt. destruct (Z.ltb_spec q num_pd) as [Hlt|Hge].
  - rewrite (walk_table _ _ _ _ _ (PD_TABLES_START + q * PAGE_SIZE));
      [|by change (Z.of_nat 2) with 2; rewrite E2
       |exists (11 + q); unfold PD_TABLES_START, PAGE_SIZE; lia|unfold PD_TABLES_START, PAGE_SIZE; lia].
    specialize (Hpde (q * 512 + i) ltac:(unfold PD_ENTRIES; lia)). unfold pd_entry in Hpde.
    replace (PD_TABLES_START + 8 * (q * 512 + i)) with (PD_TABLES_START + q * PAGE_SIZE + 8 * i) in Hpde
      by (unfold PAGE_SIZE; lia).
    rewrite Hg in *. pose proof (Z.div_mod va (2 ^ 21) ltac:(lia)). pose proof (Z.mod_pos_bound va (2 ^ 21) ltac:(lia)).
    destruct (Z.ltb_spec (va / 2 ^ 21) num_2mib), (Z.ltb_spec va (num_2mib * HUGE_PAGE_2M)); try (unfold HUGE_PAGE_2M in *; lia).
    + rewrite (walk_large _ _ _ _ _ Hpde) by lia. do 2 f_equal. unfold HUGE_PAGE_2M. lia.
    + by apply walk_absent.
  - rewrite walk_absent by (by change (Z.of_nat 2) with 2; rewrite E2).
    destruct (Z.ltb_spec va (num_2mib * HUGE_PAGE_2M)); [|done].
    unfold PD_ENTRIES, HUGE_PAGE_2M in *.
    assert (num_pd * 2 ^ 30 ≤ va) by (pose proof (Z.div_mod va (2 ^ 30) ltac:(lia)); pose proof (Z.mod_pos_bound va (2 ^ 30)); unfold q in *; lia).
    lia.
Qed.

End proofs.

(** ** Theorems *)

Section theorems.
Context {Mem : Type} `{GL : GuestMemoryLaws Mem}.

(** Sizes: the pages mapped, the directories used, the end of the tables. *)
Definition huge_pages (ram_end : Z) : Z := div_ceil ram_end HUGE_PAGE_2M.
Definition directories (ram_end : Z) : Z := div_ceil (huge_pages ram_end) PD_ENTRIES.
Definition tables_end (ram_end : Z) : Z := PD_TABLES_START + directories ram_end * PAGE_SIZE.

Lemma setup_identity_map_wp t (m : Mem) Q :
  let ram_end := last_addr m + 1 in
  0 < ram_end < 2 ^ 64 - HUGE_PAGE_2M →
  (tables_end ram_end ≤ CMDLINE_START → tables_end ram_end ≤ ram_end) →
  (tables_end ram_end ≤ CMDLINE_START →
     ∀ m', built m (huge_pages ram_end) (directories ram_end) PD_ENTRIES (directories ram_end * PD_ENTRIES) m' →
       Q (Ok tt) m') →
  (CMDLINE_START < tables_end ram_end → ∀ e, Q (Err (GuestMemoryErr e)) m) →
  wp t setup_identity_map Q m.
Proof.
  intros ram_end Hr Hfit HQ Herr. unfold setup_identity_map. wp_step. wp_step. wp_step. wp_step.
  assert (checked_add 64 (last_addr m) 1 = Some ram_end) as -> by (apply checked_add_Some; unfold HUGE_PAGE_2M in *; lia).
  cbn [ok_or].
  assert (0 < huge_pages ram_end ∧ huge_pages ram_end * HUGE_PAGE_2M < 2 ^ 64) as [Hh0 Hh1].
  { unfold huge_pages, HUGE_PAGE_2M in *. pose proof (div_ceil_spec ram_end 0x200000 ltac:(lia)). lia. }
  pose proof (div_ceil_spec (huge_pages ram_end) PD_ENTRIES ltac:(done)) as Hd. fold (directories ram_end) in Hd.
  replace (saturating_mul 64 (div_ceil ram_end HUGE_PAGE_2M) HUGE_PAGE_2M / HUGE_PAGE_2M) with (huge_pages ram_end).
  2: { unfold saturating_mul. fold (huge_pages ram_end). rewrite Z.min_l by lia. by rewrite Z.div_mul. }
  fold (directories ram_end).
  assert (1 ≤ directories ram_end) as Hd1 by (unfold PD_ENTRIES in *; lia).
  destruct (Z.eqb_spec (directories ram_end) 0); [lia|]. cbn [orb].
  destruct (Z.ltb_spec PD_ENTRIES (directories ram_end)) as [Hbig|Hsmall].
  { wp_step. apply Herr. unfold tables_end, PD_TABLES_START, PAGE_SIZE, CMDLINE_START, PD_ENTRIES in *. lia. }
  assert (checked_add 64 PD_TABLES_START (saturating_mul 64 (directories ram_end) PAGE_SIZE)
          = Some (tables_end ram_end)) as ->.
  { unfold saturating_mul. unfold tables_end, PD_TABLES_START, PAGE_SIZE, PD_ENTRIES in *.
    rewrite Z.min_l by lia. apply checked_add_Some. lia. }
  cbn [ok_or]. do 2 wp_step. destruct (Z.ltb_spec CMDLINE_START (tables_end ram_end)) as [Hc|Hc]; [wp_step; by apply Herr|].
  specialize (HQ Hc). specialize (Hfit Hc). unfold tables_end in Hfit.
  wp_step. eapply built_start; [done..|]. intros m1 Hb1. wp_step.
  apply (wp_for_range _ (λ p, built m (huge_pages ram_end) (directories ram_end) p (p * PD_ENTRIES))); [done| |].
  { intros p m2 Hp Hb2. eapply write_pd_wp; try done; lia. }
  rewrite Z2Nat.id, Z.add_0_l by lia. intros m2 Hb2.
  eapply (wp_for_range _ (λ p, built m (huge_pages ram_end) (directories ram_end) p (directories ram_end * PD_ENTRIES)));
    [done| |].
  - intros p m3 Hp Hb3. eapply built_next_pdpt; try done; [lia|].
    unfold pdpt_entry. by destruct (Z.ltb_spec p (directories ram_end)); [lia|].
  - rewrite Z2Nat.id by lia. replace (_ + (PD_ENTRIES - _)) with PD_ENTRIES by lia. done.
Qed.

Lemma walk_identity (m m' : Mem) va :
  let ram_end := last_addr m + 1 in
  0 < ram_end → tables_end ram_end ≤ CMDLINE_START → tables_end ram_end ≤ ram_end →
  built m (huge_pages ram_end) (directories ram_end) PD_ENTRIES (directories ram_end * PD_ENTRIES) m' →
  0 ≤ va < 2 ^ 39 →
  page_walk m' PML4_START va = if va <? huge_pages ram_end * HUGE_PAGE_2M then Some (va, true) else None.
Proof.
  intros ram_end Hr Hc Hfit Hb Hva.
  pose proof (div_ceil_spec (huge_pages ram_end) PD_ENTRIES ltac:(done)) as Hd. fold (directories ram_end) in Hd.
  pose proof (div_ceil_spec ram_end HUGE_PAGE_2M ltac:(done)) as Hp. fold (huge_pages ram_end) in Hp.
  unfold tables_end, PD_TABLES_START, PAGE_SIZE, CMDLINE_START, PD_ENTRIES in *.
  apply (walk_built m _ (directories ram_end)); unfold HUGE_PAGE_2M, PD_ENTRIES in *; try done; lia.
Qed.

(** C4: the boot page tables. When the tables fit below the command line and in RAM,
    setting them up succeeds; by the page walk of the processor every address up to
    the end of RAM, rounded up to 2 MiB, then maps to itself, present and writable,
    every other address below 512 GiB is not present, and no byte outside of the
    tables changed. When they would reach the command line, the call fails and guest
    memory is as before. *)
Theorem identity_map_correct (m : Mem) :
  let ram_end := last_addr m + 1 in
  0 < ram_end < 2 ^ 64 - HUGE_PAGE_2M →
  (tables_end ram_end ≤ CMDLINE_START → tables_end ram_end ≤ ram_end) →
  if tables_end ram_end <=? CMDLINE_START then
    ∃ m', setup_identity_map m = Ret (Ok tt, m') ∧ last_addr m' = last_addr m ∧
      ram_end ≤ huge_pages ram_end * HUGE_PAGE_2M < ram_end + HUGE_PAGE_2M ∧
      (∀ va, 0 ≤ va < 2 ^ 39 →
         page_walk m' PML4_START va
         = if va <? huge_pages ram_end * HUGE_PAGE_2M then Some (va, true) else None) ∧
      (∀ x, ¬ (PML4_START ≤ x < PML4_START + 8) → ¬ (PDPT_START ≤ x < tables_end ram_end) →
         byte_at m' x = byte_at m x)
  else ∃ e, setup_identity_map m = Ret (Err (GuestMemoryErr e), m).
Proof.
  intros ram_end Hr Hfit.
  pose proof (div_ceil_spec ram_end HUGE_PAGE_2M ltac:(done)) as Hp. fold (huge_pages ram_end) in Hp.
  destruct (Z.leb_spec (tables_end ram_end) CMDLINE_START) as [Hc|Hc].
  - destruct (wp_total_inv setup_identity_map (λ r m', r = Ok tt ∧
      built m (huge_pages ram_end) (directories ram_end) PD_ENTRIES (directories ram_end * PD_ENTRIES) m') m)
      as (r & m' & E & -> & Hb); [apply setup_identity_map_wp; [done|done|done|intros Hx; by apply Z.lt_nge in Hx]|].
    exists m'. pose proof (built_last _ _ _ _ _ _ Hb).
    split_and!; [done|done|lia|lia|intros va; apply walk_identity; (done || lia || auto)|by eapply built_frame].
  - destruct (wp_total_inv setup_identity_map (λ r m', ∃ e, r = Err (GuestMemoryErr e) ∧ m' = m) m)
      as (r & m' & E & e & -> & ->); [apply setup_identity_map_wp; [done|done|intros Hx; by apply Z.lt_nge in Hc|eauto]|by exists e].
Qed.

End theorems.

Lemma identity_map_correct_witness :
  ∃ m', setup_identity_map (mkByteMem 0x10000 ∅) = Ret (Ok tt, m') ∧
    page_walk m' PML4_START 0x12345 = Some (0x12345, true) ∧ page_walk m' PML4_START 0x200000 = None.
Proof.
  destruct (identity_map_correct (mkByteMem 0x10000 ∅)) as (m' & E & _ & _ & Hw & _); [zcompute..|].
  exists m'. split; [done|]. split; (rewrite Hw by zcompute); reflexivity.
Defined.
