(* ===== verification/Vcpu.v ===== *)
(** * vCPU setup

    [vcpu.rs]: the CPUID topology of a vCPU and its registers for the three boot
    modes. The page tables of the 64-bit mode are in [Paging]. *)

From S2P Require Import Prelude Words Errors GuestMem Kvm Memory Boot Gdt Paging.
Local Open Scope Z_scope.

(** ** Constants *)

Definition X86_CR0_PE : Z := 0x1.
Definition X86_CR0_PG : Z := 0x80000000.
Definition X86_CR4_PAE : Z := 0x20.
Definition EFER_LME : Z := 0x100.
Definition EFER_LMA : Z := 0x400.

Definition MSR_IA32_SYSENTER_CS : Z := 0x174.
Definition MSR_IA32_SYSENTER_ESP : Z := 0x175.
Definition MSR_IA32_SYSENTER_EIP : Z := 0x176.
Definition MSR_STAR : Z := 0xc0000081.
Definition MSR_LSTAR : Z := 0xc0000082.
Definition MSR_CSTAR : Z := 0xc0000083.
Definition MSR_SYSCALL_MASK : Z := 0xc0000084.
Definition MSR_KERNEL_GS_BASE : Z := 0xc0000102.
Definition MSR_IA32_TSC : Z := 0x10.
Definition MSR_IA32_MISC_ENABLE : Z := 0x1a0.
Definition MSR_IA32_MISC_ENABLE_FAST_STRING : Z := 1.

(** ** CPUID topology *)

Definition THREADS_PER_CORE : Z := 1.
Definition THREAD_LEVEL_SHIFT : Z := 0.

(** [next_power_of_two] of a [w]-bit integer; [None] is its overflow. *)
Definition next_power_of_two (w x : Z) : option Z :=
  let p := 2 ^ Z.log2_up x in if p <? 2 ^ w then Some p else None.

(** [trailing_zeros] of a power of two. *)
Definition trailing_zeros (x : Z) : Z := Z.log2 x.

Definition package_id_shift : option Z := trailing_zeros <$> next_power_of_two 32 MAX_VCPUS.

Definition max_logical_processors (num_vcpus : Z) : option Z := next_power_of_two 8 num_vcpus.

Definition ensure_subleaf (fn idx : Z) (entries : list kvm_cpuid_entry2) : list kvm_cpuid_entry2 :=
  if existsb (λ e, (function e =? fn) && (index e =? idx)) entries then entries
  else entries ++ [mkCpuid fn idx KVM_CPUID_FLAG_SIGNIFCANT_INDEX 0 0 0 0].

(** The first leaf 0 advertises leaf 0xb. *)
Fixpoint raise_leaf0 (entries : list kvm_cpuid_entry2) : list kvm_cpuid_entry2 :=
  match entries with
  | [] => []
  | e :: es => if function e =? 0 then (if eax e <? 0xb then e <| eax := 0xb |> else e) :: es
               else e :: raise_leaf0 es
  end.

(** [x & !(mask << k) | (v << k)] on 32 bits. *)
Definition set_bits (x mask k v : Z) : Z :=
  Z.lor (Z.land x (bnot 32 (Z.shiftl mask k))) (Z.shiftl v k).

(** The body of the loop over the entries. *)
Definition topo_entry (vcpu_id num_vcpus max_lps pkg_shift : Z) (e : kvm_cpuid_entry2) : kvm_cpuid_entry2 :=
  let fn := function e in
  if fn =? 0x1 then
    let brand := Z.land (ebx e) 0xff in
    let e := e <| ebx := Z.lor (Z.lor (Z.lor brand (Z.shiftl 8 8)) (Z.shiftl (Z.land max_lps 0xff) 16))
                           (Z.shiftl vcpu_id 24) |> in
    let e := e <| ecx ::= λ c, Z.lor c (Z.shiftl 1 31) |> in
    if 1 <? num_vcpus then e <| edx ::= λ d, Z.lor d (Z.shiftl 1 28) |>
    else e <| edx ::= λ d, Z.land d (bnot 32 (Z.shiftl 1 28)) |>
  else if fn =? 0xb then
    let e := e <| flags := KVM_CPUID_FLAG_SIGNIFCANT_INDEX |> <| edx := vcpu_id |> in
    if index e =? 0 then
      e <| eax := Z.land THREAD_LEVEL_SHIFT 0x1f |> <| ebx := Z.land THREADS_PER_CORE 0xffff |> <| ecx := Z.shiftl 1 8 |>
    else if index e =? 1 then
      e <| eax := Z.land pkg_shift 0x1f |> <| ebx := Z.land num_vcpus 0xffff |> <| ecx := Z.lor 1 (Z.shiftl 2 8) |>
    else e <| eax := 0 |> <| ebx := 0 |> <| ecx := index e |>
  else if fn =? 0x4 then
    if Z.lor (Z.lor (Z.lor (eax e) (ebx e)) (ecx e)) (edx e) =? 0 then e
    else
      let level := Z.land (Z.shiftr (eax e) 5) 0x7 in
      let share :=
        if (level =? 1) || (level =? 2) then Some (saturating_sub THREADS_PER_CORE 1)
        else if level =? 3 then Some (saturating_sub num_vcpus 1) else None in
      match share with
      | None => e
      | Some share =>
          let e := e <| eax ::= λ a, set_bits a 0xfff 14 (Z.land share 0xfff) |> in
          let cores_m1 := saturating_sub num_vcpus 1 in
          e <| eax ::= λ a, set_bits a 0x3f 26 (Z.land cores_m1 0x3f) |>
      end
  else if fn =? 0x80000008 then
    let nc := Z.land (saturating_sub num_vcpus 1) 0xff in
    let e := e <| ecx ::= λ c, Z.lor (Z.land c (bnot 32 0xff)) nc |> in
    e <| ecx ::= λ c, set_bits c 0xf 12 (Z.min pkg_shift 0xf) |>
  else if fn =? 0x8000001e then
    e <| eax := vcpu_id |> <| ebx := Z.lor vcpu_id (Z.shiftl (saturating_sub THREADS_PER_CORE 1) 8) |> <| ecx := 0 |>
  else e.

(** Leaf 0x1f mirrors leaf 0xb when the host has it. *)
Definition mirror_1f (entries : list kvm_cpuid_entry2) : list kvm_cpuid_entry2 :=
  if existsb (λ e, function e =? 0x1f) entries then
    let topology := filter (λ e, function e = 0xb) entries in
    filter (λ e, function e ≠ 0x1f) entries ++ ((λ e, e <| function := 0x1f |>) <$> topology)
  else entries.

(** [None] when the assertion on the number of vCPUs fails or its rounding overflows. *)
Definition apply_cpu_topology (vcpu_id num_vcpus : Z) (entries : list kvm_cpuid_entry2)
    : option (list kvm_cpuid_entry2) :=
  if num_vcpus <? 1 then None
  else
    let entries := ensure_subleaf 0xb 1 (ensure_subleaf 0xb 0 (raise_leaf0 entries)) in
    max_lps ← max_logical_processors num_vcpus;
    pkg_shift ← package_id_shift;
    Some (mirror_1f (topo_entry vcpu_id num_vcpus max_lps pkg_shift <$> entries)).

(** ** Registers *)

(** A vCPU descriptor and guest memory. *)
Record BootSt (V Mem : Type) := mkBootSt { bs_vcpu : V; bs_mem : Mem }.
Arguments mkBootSt {V Mem}.
Arguments bs_vcpu {V Mem}.
Arguments bs_mem {V Mem}.
#[export] Instance eta_BootSt {V Mem} : Eta (BootSt V Mem) := λ s, mkBootSt (bs_vcpu s) (bs_mem s).

Section setup.
Context {V Mem : Type} `{KV : !KvmVcpu V} `{GM : !GuestMemory Mem}.
Local Abbreviation Boot A := (prog (BootSt V Mem) (result Error A)).

(** A call on the descriptor, its error mapped. *)
Definition ioctl {A} (f : V → result Z A * V) : Boot A :=
  r ← act (λ s, let '(r, v) := f (bs_vcpu s) in (r, s <| bs_vcpu := v |>));
  mret (map_err KvmIoctl r).
Definition ioctl_get {A} (f : V → result Z A) : Boot A := ioctl (λ v, (f v, v)).

(** A computation on guest memory. *)
Definition on_mem {A} (m : prog Mem (result Error A)) : Boot A :=
  zoom bs_mem (λ x s, s <| bs_mem := x |>) m.

(** [supported] is what [get_supported_cpuid] returned. *)
Definition setup_cpuid (supported : result Z (list kvm_cpuid_entry2)) (vcpu_id num_vcpus : Z) : Boot unit :=
  entries ←? mret (map_err KvmIoctl supported);
  entries ← expect (apply_cpu_topology vcpu_id num_vcpus entries);
  if cpuid_fit entries then ioctl (set_cpuid2 entries) else mret (Err CpuidSetup).

Definition setup_real_mode (entry : Z) : Boot unit :=
  sregs ←? ioctl_get get_sregs;
  let sregs := sregs <| sr_cs ::= λ c, c <| seg_base := 0 |> <| seg_selector := 0 |> |> in
  _ ←? ioctl (set_sregs sregs);
  regs ←? ioctl_get get_regs;
  ioctl (set_regs (regs <| r_rip := entry |> <| r_rflags := 2 |>)).

Definition boot_msrs : list kvm_msr_entry :=
  [mkMsr MSR_IA32_SYSENTER_CS 0; mkMsr MSR_IA32_SYSENTER_ESP 0; mkMsr MSR_IA32_SYSENTER_EIP 0;
   mkMsr MSR_STAR 0; mkMsr MSR_CSTAR 0; mkMsr MSR_KERNEL_GS_BASE 0; mkMsr MSR_SYSCALL_MASK 0;
   mkMsr MSR_LSTAR 0; mkMsr MSR_IA32_TSC 0; mkMsr MSR_IA32_MISC_ENABLE MSR_IA32_MISC_ENABLE_FAST_STRING].

Definition setup_boot_msrs : Boot unit :=
  if negb (msrs_fit boot_msrs) then mret (Err MsrSetup)
  else
    written ←? ioctl (set_msrs boot_msrs);
    if written =? zlen boot_msrs then mret (Ok tt) else mret (Err MsrSetup).

(** The descriptor tables and the segment registers of both protocols. *)
Definition with_segments (gdt : BootGdt) (sregs : kvm_sregs) : kvm_sregs :=
  let code := code_segment gdt in
  let data := data_segment gdt in
  let tss := tss_segment gdt in
  sregs <| sr_gdt := mkDtable BOOT_GDT_OFFSET (gdt_limit gdt) |>
        <| sr_idt := mkDtable BOOT_IDT_OFFSET (cast 16 (8 - 1)) |>
        <| sr_cs := code |> <| sr_ds := data |> <| sr_es := data |> <| sr_fs := data |>
        <| sr_gs := data |> <| sr_ss := data |> <| sr_tr := tss |>.

Definition setup_sregs_long_mode : Boot unit :=
  sregs ←? ioctl_get get_sregs;
  _ ←? on_mem (write_to_mem gdt_new);
  _ ←? on_mem write_idt;
  let sregs := with_segments gdt_new sregs in
  _ ←? on_mem setup_identity_map;
  let sregs := sregs <| sr_cr3 := PML4_START |> <| sr_cr4 ::= λ c, Z.lor c X86_CR4_PAE |>
                     <| sr_cr0 ::= λ c, Z.lor c (Z.lor X86_CR0_PE X86_CR0_PG) |>
                     <| sr_efer ::= λ c, Z.lor c (Z.lor EFER_LME EFER_LMA) |> in
  ioctl (set_sregs sregs).

Definition setup_sregs_pvh : Boot unit :=
  sregs ←? ioctl_get get_sregs;
  _ ←? on_mem (write_to_mem gdt_pvh);
  _ ←? on_mem write_idt;
  let sregs := with_segments gdt_pvh sregs in
  let sregs := sregs <| sr_cr0 := X86_CR0_PE |> <| sr_cr3 := 0 |> <| sr_cr4 := 0 |> <| sr_efer := 0 |> in
  ioctl (set_sregs sregs).

Definition setup_regs_long_mode (entry : Z) : Boot unit :=
  ioctl (set_regs (regs_default <| r_rflags := 2 |> <| r_rip := entry |> <| r_rsp := BOOT_STACK_POINTER |>
                     <| r_rbp := BOOT_STACK_POINTER |> <| r_rsi := ZERO_PAGE_START |>)).

Definition setup_regs_pvh (entry start_info : Z) : Boot unit :=
  ioctl (set_regs (regs_default <| r_rflags := 2 |> <| r_rip := entry |> <| r_rsp := BOOT_STACK_POINTER |>
                     <| r_rbp := BOOT_STACK_POINTER |> <| r_rbx := start_info |>)).

Definition setup_fpu : Boot unit := ioctl (set_fpu (mkFpu 0x37f 0x1f80)).

Definition setup_long_mode (entry : Z) : Boot unit :=
  _ ←? setup_boot_msrs;
  _ ←? setup_sregs_long_mode;
  _ ←? setup_regs_long_mode entry;
  setup_fpu.

Definition setup_pvh (entry start_info : Z) : Boot unit :=
  _ ←? setup_boot_msrs;
  _ ←? setup_sregs_pvh;
  _ ←? setup_regs_pvh entry start_info;
  setup_fpu.

End setup.

(** ** Lemmas on the topology *)

Lemma package_id_shift_value : package_id_shift = Some 5.
Proof. reflexivity. Qed.

Lemma next_power_of_two_bounds n :
  1 ≤ n ≤ MAX_VCPUS → ∃ p, max_logical_processors n = Some p ∧ n ≤ p < 2 * n ∧ p ≤ 32.
Proof.
  intros Hn. unfold max_logical_processors, next_power_of_two, MAX_VCPUS in *.
  destruct (decide (n = 1)) as [->|]; [by exists 1|].
  pose proof (Z.log2_up_spec n ltac:(lia)) as [H1 H2].
  assert (Z.log2_up n ≤ 5) as H5 by (apply (Z.log2_up_le_mono n 32); lia).
  pose proof (Z.log2_up_pos n ltac:(lia)) as H0.
  pose proof (Z.pow_le_mono_r 2 _ 5 ltac:(lia) H5). exists (2 ^ Z.log2_up n).
  destruct (Z.ltb_spec (2 ^ Z.log2_up n) (2 ^ 8)); [|lia]. split; [done|]. split; [|lia]. split; [lia|].
  replace (Z.log2_up n) with (Z.succ (Z.pred (Z.log2_up n))) by lia. rewrite Z.pow_succ_r by lia. lia.
Qed.

Section topology.
Variables id n max_lps pkg_shift : Z.
Implicit Types (e : kvm_cpuid_entry2) (l : list kvm_cpuid_entry2).
Local Abbreviation topo := (topo_entry id n max_lps pkg_shift).

Lemma topo_entry_function e : function (topo e) = function e.
Proof. unfold topo_entry. by repeat case_match. Qed.

Lemma topo_entry_index e : index (topo e) = index e.
Proof. unfold topo_entry. by repeat case_match. Qed.

(** The leaves that are rewritten. *)
Definition topology_leaves : list Z := [0; 0x1; 0x4; 0xb; 0x1f; 0x80000008; 0x8000001e].
Definition other_leaf (e : kvm_cpuid_entry2) : Prop := function e ∉ topology_leaves.
#[export] Instance other_leaf_dec e : Decision (other_leaf e).
Proof. unfold other_leaf. apply _. Defined.

Lemma topo_entry_other e : other_leaf e → topo e = e.
Proof.
  unfold other_leaf, topology_leaves. intros He. unfold topo_entry.
  repeat (match goal with |- context [function e =? ?k] => destruct (Z.eqb_spec (function e) k); [set_solver|] end).
  done.
Qed.

Lemma filter_other_topo l : filter other_leaf (topo <$> l) = filter other_leaf l.
Proof.
  induction l as [|e l IH]; [done|]. rewrite fmap_cons, !filter_cons.
  destruct (decide (other_leaf e)) as [He|He].
  - rewrite topo_entry_other by done. rewrite decide_True by done. by f_equal.
  - rewrite decide_False; [done|]. unfold other_leaf. by rewrite topo_entry_function.
Qed.

Lemma filter_other_ensure fn idx l :
  fn ∈ topology_leaves → filter other_leaf (ensure_subleaf fn idx l) = filter other_leaf l.
Proof.
  intros Hf. unfold ensure_subleaf. case_match; [done|]. rewrite filter_app, filter_cons, filter_nil.
  rewrite decide_False; [by rewrite app_nil_r|]. unfold other_leaf. cbn. naive_solver.
Qed.

Lemma filter_other_raise l : filter other_leaf (raise_leaf0 l) = filter other_leaf l.
Proof.
  induction l as [|e l IH]; [done|]. cbn [raise_leaf0]. destruct (Z.eqb_spec (function e) 0) as [E|E].
  - rewrite !filter_cons. rewrite !decide_False; [done|unfold other_leaf, topology_leaves; rewrite E; set_solver|].
    case_match; unfold other_leaf, topology_leaves; cbn; rewrite E; set_solver.
  - rewrite !filter_cons. by rewrite IH.
Qed.

Lemma filter_other_mirror l : filter other_leaf (mirror_1f l) = filter other_leaf l.
Proof.
  unfold mirror_1f. case_match; [|done]. rewrite filter_app, list_filter_filter_l.
  2: { unfold other_leaf, topology_leaves. set_solver. }
  rewrite <-(app_nil_r (filter other_leaf l)) at 2. f_equal.
  induction (filter (λ e, function e = 0xb) l) as [|e k IH]; [done|]. rewrite fmap_cons, filter_cons.
  rewrite decide_False; [exact IH|]. unfold other_leaf, topology_leaves. set_solver.
Qed.

Lemma elem_of_mirror e l :
  e ∈ mirror_1f l →
  (e ∈ l ∧ function e ≠ 0x1f) ∨ ∃ e', e' ∈ l ∧ function e' = 0xb ∧ e = e' <| function := 0x1f |>.
Proof.
  unfold mirror_1f. destruct (existsb _ _) eqn:E.
  - intros [[? ?]%list_elem_of_filter|(e' & -> & [? ?]%list_elem_of_filter)%list_elem_of_fmap]%elem_of_app; [by left|].
    right. by exists e'.
  - intros He. left. split; [done|]. intros Hf.
    assert (existsb (λ e, function e =? 0x1f) l = true); [|congruence].
    apply existsb_exists. exists e. split; [by apply list_elem_of_In|by apply Z.eqb_eq].
Qed.

Lemma elem_of_ensure fn idx l : ∃ e, e ∈ ensure_subleaf fn idx l ∧ function e = fn ∧ index e = idx.
Proof.
  unfold ensure_subleaf. destruct (existsb _ _) eqn:E.
  - apply existsb_exists in E as (e & Hin%list_elem_of_In & [?%Z.eqb_eq ?%Z.eqb_eq]%andb_true_iff). by exists e.
  - exists (mkCpuid fn idx KVM_CPUID_FLAG_SIGNIFCANT_INDEX 0 0 0 0). set_solver.
Qed.

Lemma ensure_incl fn idx l e : e ∈ l → e ∈ ensure_subleaf fn idx l.
Proof. unfold ensure_subleaf. case_match; set_solver. Qed.

Lemma mirror_keeps e l : e ∈ l → function e ≠ 0x1f → e ∈ mirror_1f l.
Proof.
  intros. unfold mirror_1f. case_match; [|done]. apply elem_of_app. left. by apply list_elem_of_filter.
Qed.

(** What an entry of leaf 0xb says: one thread per core, [n] cores in one package. *)
Definition topology_level e : Prop :=
  edx e = id ∧
  (index e = 0 → eax e = 0 ∧ ebx e = 1 ∧ ecx e = 0x100) ∧
  (index e = 1 → eax e = Z.land pkg_shift 0x1f ∧ ebx e = n ∧ ecx e = 0x201).

Lemma topo_entry_level e : 0 ≤ n < 2 ^ 16 → function e = 0xb → topology_level (topo e).
Proof.
  intros Hn Hf. unfold topology_level. rewrite topo_entry_index. unfold topo_entry. rewrite Hf. cbn -[Z.land].
  destruct (Z.eqb_spec (index e) 0) as [E|]; [by rewrite E|].
  destruct (Z.eqb_spec (index e) 1) as [E|]; [|done]. rewrite E. cbn -[Z.land]. split_and!; [done|done|].
  intros _. split_and!; [done| |done]. change 0xffff with (Z.ones 16). rewrite Z.land_ones by done.
  by apply Z.mod_small.
Qed.

(** What leaf 1 says: the APIC id, the logical processors, a hypervisor, HTT. *)
Definition topology_leaf1 e : Prop :=
  Z.shiftr (ebx e) 24 = id ∧ Z.land (Z.shiftr (ebx e) 16) 0xff = max_lps ∧
  Z.testbit (ecx e) 31 = true ∧ Z.testbit (edx e) 28 = (1 <? n).

Lemma topo_entry_leaf1 e : is_u8 id → is_u8 max_lps → function e = 0x1 → topology_leaf1 (topo e).
Proof.
  intros Hid Hlps Hf.
  set (low := Z.lor (Z.land (ebx e) 0xff) (Z.shiftl 8 8)).
  assert (uint 16 low) as Hlow.
  { apply uint_lor; [done| |done]. change 0xff with (Z.ones 8). rewrite Z.land_ones by done.
    apply (uint_mono 8); [done|]. by apply uint_cast. }
  assert (ebx (topo e) = low + 2 ^ 16 * max_lps + 2 ^ 24 * id) as Hebx.
  { unfold topo_entry. rewrite Hf. transitivity (Z.lor (Z.lor low (Z.shiftl (Z.land max_lps 0xff) 16)) (Z.shiftl id 24)).
    { by destruct (1 <? n). }
    change 0xff with (Z.ones 8). rewrite Z.land_ones, (Z.mod_small max_lps) by done.
    rewrite (lor_shiftl_add 16) by done. rewrite lor_shiftl_add; [lia|done|]. unfold uint in *. lia. }
  split_and!.
  - rewrite Hebx, Z.shiftr_div_pow2 by done. symmetry. apply (Z.div_unique _ _ _ (low + 2 ^ 16 * max_lps)); unfold uint in *; lia.
  - rewrite Hebx, Z.shiftr_div_pow2 by done.
    replace ((low + 2 ^ 16 * max_lps + 2 ^ 24 * id) / 2 ^ 16) with (max_lps + id * 2 ^ 8)
      by (apply (Z.div_unique _ _ _ low); unfold uint in *; lia).
    change 0xff with (Z.ones 8). rewrite Z.land_ones, Z.mod_add by done. by apply Z.mod_small.
  - unfold topo_entry. rewrite Hf. transitivity (Z.testbit (Z.lor (ecx e) (Z.shiftl 1 31)) 31); [by destruct (1 <? n)|].
    rewrite Z.lor_spec. apply orb_true_r.
  - unfold topo_entry. rewrite Hf. cbn [Z.eqb]. destruct (1 <? n).
    + change (Z.testbit (Z.lor (edx e) (Z.shiftl 1 28)) 28 = true). rewrite Z.lor_spec. apply orb_true_r.
    + change (Z.testbit (Z.land (edx e) (bnot 32 (Z.shiftl 1 28))) 28 = false). rewrite Z.land_spec. apply andb_false_r.
Qed.

End topology.

(** ** Theorems on the topology *)

(** C28: the CPUID given to vCPU [id] of [n]: for every table the host supports, every
    leaf 1 carries the vCPU's APIC id and a logical processor count that covers [n];
    both levels of leaf 0xb exist, and 0xb and 0x1f agree that the machine is one
    package of [n] single-thread cores, in which every vCPU's package number is 0;
    every leaf without topology is passed on unchanged. *)
Theorem cpu_topology_correct id n entries :
  0 ≤ id < n → n ≤ MAX_VCPUS →
  ∃ l, apply_cpu_topology id n entries = Some l ∧
    (∀ e, e ∈ l → function e = 0x1 → ∃ lps, n ≤ lps < 2 * n ∧ topology_leaf1 id n lps e) ∧
    (∀ i, i = 0 ∨ i = 1 → ∃ e, e ∈ l ∧ function e = 0xb ∧ index e = i) ∧
    (∀ e, e ∈ l → function e = 0xb ∨ function e = 0x1f → topology_level id n 5 e) ∧
    Z.shiftr id 5 = 0 ∧
    filter other_leaf l = filter other_leaf entries.
Proof.
  intros Hid Hn. destruct (next_power_of_two_bounds n ltac:(lia)) as (lps & Elps & Hlps & H32).
  unfold apply_cpu_topology. rewrite Elps, package_id_shift_value. destruct (Z.ltb_spec n 1); [lia|]. cbn [mbind option_bind].
  set (es := ensure_subleaf 0xb 1 (ensure_subleaf 0xb 0 (raise_leaf0 entries))). unfold MAX_VCPUS in *.
  eexists. split; [done|]. split_and!.
  - intros e [[(e' & -> & Hin)%list_elem_of_fmap Hf]|(e' & _ & _ & ->)]%elem_of_mirror Hf1; [|done].
    exists lps. split; [lia|]. rewrite topo_entry_function in Hf1. apply topo_entry_leaf1; unfold uint; lia || done.
  - intros i Hi. assert (∃ e, e ∈ es ∧ function e = 0xb ∧ index e = i) as (e & Hin & Hf & Hx).
    { destruct Hi as [-> | ->]; [|apply elem_of_ensure].
      destruct (elem_of_ensure 0xb 0 (raise_leaf0 entries)) as (e & ? & ? & ?). exists e.
      split; [by apply ensure_incl|done]. }
    exists (topo_entry id n lps 5 e). rewrite topo_entry_function, topo_entry_index. split_and!; [|done..].
    apply mirror_keeps; [by apply list_elem_of_fmap_2|]. rewrite topo_entry_function. by rewrite Hf.
  - intros e [[(e' & -> & Hin)%list_elem_of_fmap Hf]|(e' & (e2 & -> & Hin)%list_elem_of_fmap & Hf & ->)]%elem_of_mirror Hor.
    + rewrite topo_entry_function in *. apply topo_entry_level; [lia|naive_solver].
    + rewrite topo_entry_function in Hf. by apply (topo_entry_level id n lps 5 e2 ltac:(lia)) in Hf.
  - rewrite Z.shiftr_div_pow2 by done. apply Z.div_small. lia.
  - rewrite filter_other_mirror, filter_other_topo. unfold es.
    rewrite !filter_other_ensure by (unfold topology_leaves; set_solver). apply filter_other_raise.
Qed.

Lemma cpu_topology_correct_witness :
  ∃ l, apply_cpu_topology 3 4 [mkCpuid 0 0 0 1 0 0 0; mkCpuid 1 0 0 0 0x800 0 0; mkCpuid 0xb 0 0 7 7 7 7;
                               mkCpuid 0x1f 0 0 9 9 9 9; mkCpuid 7 0 0 1 2 3 4] = Some l ∧
    (∀ e, e ∈ l → function e = 0xb ∨ function e = 0x1f → topology_level 3 4 5 e) ∧
    filter other_leaf l = [mkCpuid 7 0 0 1 2 3 4].
Proof.
  edestruct (cpu_topology_correct 3 4) as (l & E & _ & _ & Hl & _ & Ho); [zcompute..|].
  exists l. split; [exact E|]. split; [exact Hl|]. rewrite Ho. reflexivity.
Defined.

(** ** Register setup *)

Section registers.
Context {V Mem : Type} `{KV : !KvmVcpu V, KL : !KvmVcpuLaws V} `{GM : !GuestMemory Mem, GL : !GuestMemoryLaws Mem}.
Implicit Types (s : BootSt V Mem).

Lemma ioctl_wp {A} t (f : V → result Z A * V) s (Q : result Error A → BootSt V Mem → Prop) :
  (∀ a v, f (bs_vcpu s) = (Ok a, v) → Q (Ok a) (mkBootSt v (bs_mem s))) →
  (∀ e v, f (bs_vcpu s) = (Err e, v) → Q (Err (KvmIoctl e)) (mkBootSt v (bs_mem s))) →
  wp t (ioctl f) Q s.
Proof.
  intros H1 H2. unfold ioctl. wp_step. apply wp_act. intros r s'.
  destruct (f (bs_vcpu s)) as [[a|e] v] eqn:E; intros [= <- <-]; wp_step; [by apply H1|by apply H2].
Qed.

Lemma ioctl_get_wp {A} t (f : V → result Z A) s (Q : result Error A → BootSt V Mem → Prop) :
  (∀ a, f (bs_vcpu s) = Ok a → Q (Ok a) s) → (∀ e, Q (Err (KvmIoctl e)) s) → wp t (ioctl_get f) Q s.
Proof.
  intros H1 H2. destruct s as [v m]. apply ioctl_wp; intros a v' [= E <-]; [by apply H1|by apply H2].
Qed.

(** The failures of a setup that are KVM's. *)
Definition kvm_failure (r : result Error unit) : Prop := r = Err MsrSetup ∨ ∃ e, r = Err (KvmIoctl e).

(** The descriptor of a segment register in the table in memory. *)
Definition descriptor_matches (m : Mem) (sr : kvm_sregs) (sg : kvm_segment) : Prop :=
  seg_selector sg + 7 ≤ dt_limit (sr_gdt sr) ∧
  to_kvm_segment (word_at 8 m (dt_base (sr_gdt sr) + seg_selector sg)) (seg_selector sg / 8) = sg.

Definition segments_match (m : Mem) (sr : kvm_sregs) : Prop :=
  Forall (descriptor_matches m sr) [sr_cs sr; sr_ds sr; sr_es sr; sr_fs sr; sr_gs sr; sr_ss sr; sr_tr sr].

(** The bytes the setup may write: the descriptor tables and the page tables. *)
Definition boot_scratch (ram_end x : Z) : Prop :=
  BOOT_GDT_OFFSET ≤ x < BOOT_IDT_OFFSET + 8 ∨ PML4_START ≤ x < PML4_START + 8 ∨ PDPT_START ≤ x < tables_end ram_end.

Record long_mode_ready (m : Mem) (entry : Z) s : Prop := mkLongReady {
  lm_cr : let sr := v_sregs (bs_vcpu s) in
    sr_cr3 sr = PML4_START ∧ Z.testbit (sr_cr0 sr) 0 = true ∧ Z.testbit (sr_cr0 sr) 31 = true ∧
    Z.testbit (sr_cr4 sr) 5 = true ∧ Z.testbit (sr_efer sr) 8 = true ∧ Z.testbit (sr_efer sr) 10 = true;
  lm_code : sr_cs (v_sregs (bs_vcpu s)) = mkSegment 0 0xffffffff 8 0xb 1 0 0 1 1 1 0 0;
  lm_segments : segments_match (bs_mem s) (v_sregs (bs_vcpu s));
  lm_identity : ∀ va, 0 ≤ va ≤ last_addr m →
    page_walk (bs_mem s) (sr_cr3 (v_sregs (bs_vcpu s))) va = Some (va, true);
  lm_regs : v_regs (bs_vcpu s) = mkRegs entry 2 BOOT_STACK_POINTER BOOT_STACK_POINTER ZERO_PAGE_START 0;
  lm_rest : v_msrs (bs_vcpu s) = boot_msrs ∧ v_fpu (bs_vcpu s) = Some (mkFpu 0x37f 0x1f80);
  lm_memory : ∀ x, ¬ boot_scratch (last_addr m + 1) x → byte_at (bs_mem s) x = byte_at m x;
}.

Lemma setup_boot_msrs_wp t s Q :
  (∀ v, v_msrs v = boot_msrs → v_sregs v = v_sregs (bs_vcpu s) → Q (Ok tt) (mkBootSt v (bs_mem s))) →
  (∀ e s', kvm_failure (Err e) → Q (Err e) s') → wp t setup_boot_msrs Q s.
Proof.
  intros H1 H2. unfold setup_boot_msrs. wp_step; [wp_step; apply H2; by left|]. wp_step.
  apply ioctl_wp; [|intros e v _; apply H2; right; eauto].
  intros w v E. wp_step; wp_step; [|apply H2; by left]. apply Z.eqb_eq in Hif0. subst w.
  destruct (set_msrs_ok _ _ _ E) as (? & ? & _). by apply H1.
Qed.

(** Both protocols write their descriptors the same way. *)
Lemma write_tables_wp t gdt (m : Mem) s (k : prog (BootSt V Mem) (result Error unit)) Q :
  length gdt = 4%nat → Forall is_u64 gdt → bs_mem s = m → BOOT_IDT_OFFSET + 8 ≤ last_addr m + 1 < 2 ^ 63 →
  (∀ m', last_addr m' = last_addr m →
     (∀ k d, gdt !! k = Some d → word_at 8 m' (BOOT_GDT_OFFSET + 8 * Z.of_nat k) = d) →
     (∀ x, ¬ (BOOT_GDT_OFFSET ≤ x < BOOT_IDT_OFFSET + 8) → byte_at m' x = byte_at m x) →
     wp t k Q (mkBootSt (bs_vcpu s) m')) →
  wp t (_ ←? on_mem (write_to_mem gdt); _ ←? on_mem write_idt; k) Q s.
Proof.
  unfold BOOT_IDT_OFFSET, BOOT_GDT_OFFSET. intros Hlen Hu <- Hfit HQ. wp_step. unfold on_mem. apply wp_zoom. unfold write_to_mem.
  apply write_entries_wp; unfold BOOT_GDT_OFFSET, zlen; rewrite ?Hlen; [lia|lia|lia|done|].
  intros m1 L1 W1 F1. wp_step. apply wp_zoom. apply write_idt_wp; [unfold BOOT_IDT_OFFSET; cbn; lia|].
  intros m2 Hst. pose proof Hst as [L2 _ F2]. cbn in L2, F2. unfold BOOT_IDT_OFFSET in *. apply (HQ m2); [congruence| |].
  - intros j d Hk. pose proof (lookup_lt_Some _ _ _ Hk). specialize (W1 j d Hk).
    rewrite <-W1. rewrite (stored_word_other _ _ _ _ _ 8 _ Hst) by lia. by rewrite Z.add_0_l.
  - intros x Hx. rewrite F2 by lia. apply F1. lia.
Qed.

(** The words of a table of four descriptors are those its segments were made from. *)
Lemma gdt_segments_match gdt (m : Mem) sr :
  length gdt = 4%nat →
  (∀ k d, gdt !! k = Some d → word_at 8 m (BOOT_GDT_OFFSET + 8 * Z.of_nat k) = d) →
  segments_match m (with_segments gdt sr).
Proof.
  intros Hl Hw. assert (∀ k : nat, (1 ≤ k < 4)%nat →
    descriptor_matches m (with_segments gdt sr) (to_kvm_segment (nth k gdt 0) (Z.of_nat k))) as Hk.
  { intros k Hk. destruct (lookup_lt_is_Some_2 gdt k ltac:(lia)) as [d Hd]. specialize (Hw k d Hd).
    rewrite (nth_lookup_Some _ _ _ _ Hd).
    assert (seg_selector (to_kvm_segment d (Z.of_nat k)) = Z.of_nat k * 8) as Hs
      by (cbn; apply cast_small; unfold uint; lia).
    split; rewrite Hs; cbn -[to_kvm_segment word_at].
    - unfold gdt_limit, zlen. rewrite Hl. change (cast 16 _) with 31. lia.
    - replace (BOOT_GDT_OFFSET + Z.of_nat k * 8) with (BOOT_GDT_OFFSET + 8 * Z.of_nat k) by lia.
      by rewrite Hw, Z.div_mul. }
  repeat apply Forall_cons_2; [apply (Hk 1%nat)|apply (Hk 2%nat)..|apply (Hk 3%nat)|by apply Forall_nil_2]; lia.
Qed.

(** The control registers do not matter to it. *)
Lemma segments_match_long (m : Mem) sr a b c d :
  segments_match m sr →
  segments_match m (sr <| sr_cr3 ::= a |> <| sr_cr4 ::= b |> <| sr_cr0 ::= c |> <| sr_efer ::= d |>).
Proof. by destruct sr. Qed.

Lemma segments_match_pvh (m : Mem) sr a b c d :
  segments_match m sr →
  segments_match m (sr <| sr_cr0 ::= a |> <| sr_cr3 ::= b |> <| sr_cr4 ::= c |> <| sr_efer ::= d |>).
Proof. by destruct sr. Qed.

Lemma gdt_words_ext (m m' : Mem) (gdt : BootGdt) :
  length gdt = 4%nat →
  (∀ x, BOOT_GDT_OFFSET ≤ x < BOOT_IDT_OFFSET → byte_at m' x = byte_at m x) →
  (∀ k d, gdt !! k = Some d → word_at 8 m (BOOT_GDT_OFFSET + 8 * Z.of_nat k) = d) →
  (∀ k d, gdt !! k = Some d → word_at 8 m' (BOOT_GDT_OFFSET + 8 * Z.of_nat k) = d).
Proof.
  intros Hl Hx Hw k d Hk. rewrite <-(Hw k d Hk). apply word_at_ext. intros x Hr. apply Hx.
  pose proof (lookup_lt_Some _ _ _ Hk). unfold BOOT_GDT_OFFSET, BOOT_IDT_OFFSET in *. lia.
Qed.

(** Guest RAM that holds all boot data and was accepted by [validate_mem_size]. *)
Definition ram_ok (m : Mem) : Prop := CMDLINE_START ≤ last_addr m + 1 ≤ MAX_GUEST_MEM_SIZE.

Lemma ram_ok_tables (m : Mem) : ram_ok m → tables_end (last_addr m + 1) ≤ 0xf000.
Proof.
  unfold ram_ok, tables_end, directories, huge_pages, CMDLINE_START, MAX_GUEST_MEM_SIZE, GUEST_RAM_END, GUEST_MEM_START.
  intros Hr. pose proof (div_ceil_spec (last_addr m + 1) HUGE_PAGE_2M ltac:(done)).
  pose proof (div_ceil_spec (div_ceil (last_addr m + 1) HUGE_PAGE_2M) PD_ENTRIES ltac:(done)).
  unfold PD_TABLES_START, PAGE_SIZE, PD_ENTRIES, HUGE_PAGE_2M in *. lia.
Qed.

Lemma setup_sregs_long_mode_wp t s Q :
  ram_ok (bs_mem s) →
  (∀ v m', let sr := v_sregs v in
     sr_cr3 sr = PML4_START → Z.testbit (sr_cr0 sr) 0 = true → Z.testbit (sr_cr0 sr) 31 = true →
     Z.testbit (sr_cr4 sr) 5 = true → Z.testbit (sr_efer sr) 8 = true → Z.testbit (sr_efer sr) 10 = true →
     sr_cs sr = code_segment gdt_new → segments_match m' sr →
     (∀ va, 0 ≤ va ≤ last_addr (bs_mem s) → page_walk m' PML4_START va = Some (va, true)) →
     (∀ x, ¬ boot_scratch (last_addr (bs_mem s) + 1) x → byte_at m' x = byte_at (bs_mem s) x) →
     v_msrs v = v_msrs (bs_vcpu s) → Q (Ok tt) (mkBootSt v m')) →
  (∀ e s', kvm_failure (Err e) → Q (Err e) s') → wp t setup_sregs_long_mode Q s.
Proof.
  intros Hram HQ Herr. pose proof (ram_ok_tables _ Hram) as Htab. unfold setup_sregs_long_mode. wp_step.
  apply ioctl_get_wp; [|intros e; apply Herr; right; eauto]. intros sregs _.
  unfold ram_ok, CMDLINE_START, MAX_GUEST_MEM_SIZE, GUEST_RAM_END, GUEST_MEM_START in Hram.
  eapply write_tables_wp; [done|repeat constructor; zcompute|done|unfold BOOT_IDT_OFFSET; lia|].
  intros m1 L1 W1 F1. wp_step. unfold on_mem. apply wp_zoom. cbn [bs_mem].
  apply setup_identity_map_wp; rewrite L1; [unfold HUGE_PAGE_2M; lia|lia| |unfold CMDLINE_START; lia].
  intros _ m2 Hb. pose proof (built_frame _ _ _ _ _ _ Hb) as F2.
  apply ioctl_wp; [|intros e v _; apply Herr; right; eauto]. intros [] v E. cbn [bs_vcpu bs_mem] in *.
  destruct (set_sregs_ok _ _ _ E) as (Hsr & _ & _ & Hmsr & _).
  assert (segments_match m2 (v_sregs v)) as Hseg.
  { rewrite Hsr. apply segments_match_long.
    apply gdt_segments_match; [done|]. eapply gdt_words_ext; [done| |done].
    intros x Hx. unfold BOOT_GDT_OFFSET, BOOT_IDT_OFFSET in *. apply F2; unfold PML4_START, PDPT_START; lia. }
  apply (HQ v m2); [| | | | | | |exact Hseg| | |exact Hmsr]; rewrite ?Hsr.
  7: by destruct sregs.
  1-6: generalize (with_segments gdt_new sregs); intros []; cbn -[Z.testbit Z.lor]; rewrite ?Z.lor_spec; done || apply orb_true_r.
  - intros va Hva. rewrite <-L1 in *. rewrite walk_identity with (m := m1); try done; try (unfold CMDLINE_START; lia).
    pose proof (div_ceil_spec (last_addr m1 + 1) HUGE_PAGE_2M ltac:(done)). unfold huge_pages.
    destruct (Z.ltb_spec va (div_ceil (last_addr m1 + 1) HUGE_PAGE_2M * HUGE_PAGE_2M)) as [_|]; [reflexivity|exfalso; lia].
  - unfold boot_scratch. intros x Hx. rewrite F2 by (unfold tables_end in *; lia). apply F1. lia.
Qed.

(** A vCPU set up for the 64-bit boot protocol. Unless KVM refuses a call, the setup
    succeeds, and the vCPU is in long mode with paging on page tables that map all of
    guest RAM to itself; the segment registers hold what the descriptors in guest
    memory at their selectors say, the code segment is a 64-bit one; the instruction
    pointer is the entry point, RSI the zero page; and guest memory changed only in the
    descriptor and page tables. *)
Theorem long_mode_boot_state (v : V) (m : Mem) entry :
  ram_ok m →
  ∃ r s', setup_long_mode entry (mkBootSt v m) = Ret (r, s') ∧
    (r = Ok tt ∧ long_mode_ready m entry s' ∨ kvm_failure r).
Proof.
  intros Hram. apply (wp_total_inv (setup_long_mode entry) (λ r s', r = Ok tt ∧ long_mode_ready m entry s' ∨ kvm_failure r)).
  unfold setup_long_mode. wp_step. apply setup_boot_msrs_wp; [|by right]. intros v1 M1 S1.
  wp_step. apply setup_sregs_long_mode_wp; [done| |by right]. cbn [bs_vcpu bs_mem].
  intros v2 m2 C1 C2 C3 C4 C5 C6 C7 C8 C9 C10 M2.
  wp_step. unfold setup_regs_long_mode. apply ioctl_wp; [|intros e v3 _; right; right; eauto].
  intros [] v3 E3. destruct (set_regs_ok _ _ _ E3) as (R3 & S3 & F3 & M3 & _). cbn [bs_vcpu bs_mem] in *.
  apply ioctl_wp; [|intros e v4 _; right; right; eauto].
  intros [] v4 E4. destruct (set_fpu_ok _ _ _ E4) as (F4 & S4 & R4 & M4 & _). cbn [bs_vcpu bs_mem] in *.
  left. split; [done|]. split; cbn [bs_vcpu bs_mem]; rewrite ?S4, ?S3, ?C1; [split_and!; congruence|done|done|done|..|done].
  - by rewrite R4, R3.
  - split; congruence.
Qed.

Record pvh_ready (m : Mem) (entry start_info : Z) s : Prop := mkPvhReady {
  pv_cr : let sr := v_sregs (bs_vcpu s) in
    sr_cr0 sr = X86_CR0_PE ∧ sr_cr3 sr = 0 ∧ sr_cr4 sr = 0 ∧ sr_efer sr = 0;
  pv_code : sr_cs (v_sregs (bs_vcpu s)) = mkSegment 0 0xffffffff 8 0xb 1 0 1 1 0 1 0 0;
  pv_segments : segments_match (bs_mem s) (v_sregs (bs_vcpu s));
  pv_regs : v_regs (bs_vcpu s) = mkRegs entry 2 BOOT_STACK_POINTER BOOT_STACK_POINTER 0 start_info;
  pv_rest : v_msrs (bs_vcpu s) = boot_msrs ∧ v_fpu (bs_vcpu s) = Some (mkFpu 0x37f 0x1f80);
  pv_memory : ∀ x, ¬ (BOOT_GDT_OFFSET ≤ x < BOOT_IDT_OFFSET + 8) → byte_at (bs_mem s) x = byte_at m x;
}.

(** A vCPU set up for PVH. Unless KVM refuses a call, the setup succeeds, and the
    vCPU is in 32-bit protected mode without paging, its segments hold what the
    descriptors in guest memory say, the instruction pointer is the entry point and
    RBX the start info; guest memory changed only in the descriptor tables. *)
Theorem pvh_boot_state (v : V) (m : Mem) entry start_info :
  BOOT_IDT_OFFSET + 8 ≤ last_addr m + 1 < 2 ^ 63 →
  ∃ r s', setup_pvh entry start_info (mkBootSt v m) = Ret (r, s') ∧
    (r = Ok tt ∧ pvh_ready m entry start_info s' ∨ kvm_failure r).
Proof.
  intros Hram.
  apply (wp_total_inv (setup_pvh entry start_info) (λ r s', r = Ok tt ∧ pvh_ready m entry start_info s' ∨ kvm_failure r)).
  unfold setup_pvh. wp_step. apply setup_boot_msrs_wp; [|by right]. intros v1 M1 S1.
  wp_step. unfold setup_sregs_pvh. wp_step. apply ioctl_get_wp; [|intros e; right; right; eauto]. intros sregs _.
  eapply write_tables_wp; [done|repeat constructor; zcompute|done|done|]. intros m2 L2 W2 F2.
  apply ioctl_wp; [|intros e v2 _; right; right; eauto]. intros [] v2 E2.
  destruct (set_sregs_ok _ _ _ E2) as (S2 & _ & _ & M2 & _). cbn [bs_vcpu bs_mem] in *.
  wp_step. unfold setup_regs_pvh. apply ioctl_wp; [|intros e v3 _; right; right; eauto].
  intros [] v3 E3. destruct (set_regs_ok _ _ _ E3) as (R3 & S3 & F3 & M3 & _). cbn [bs_vcpu bs_mem] in *.
  apply ioctl_wp; [|intros e v4 _; right; right; eauto].
  intros [] v4 E4. destruct (set_fpu_ok _ _ _ E4) as (F4 & S4 & R4 & M4 & _). cbn [bs_vcpu bs_mem] in *.
  left. split; [done|]. split; cbn [bs_vcpu bs_mem]; rewrite ?S4, ?S3, ?S2; [| | | | |done].
  - generalize (with_segments gdt_pvh sregs). by intros [].
  - by destruct sregs.
  - apply segments_match_pvh. by apply gdt_segments_match.
  - by rewrite R4, R3.
  - split; congruence.
Qed.

End registers.

(** A vCPU after reset and 128 KiB of RAM. *)
Definition demo_boot : BootSt SVcpu ByteMem := mkBootSt svcpu_reset (mkByteMem 0x20000 ∅).

Lemma demo_ram : ram_ok (bs_mem demo_boot).
Proof. unfold ram_ok. cbn [bs_mem demo_boot last_addr ByteMem_memory bm_size]. split; apply Z.leb_le; reflexivity. Qed.

Lemma long_mode_boot_state_witness :
  ∃ s', setup_long_mode 0x100200 demo_boot = Ret (Ok tt, s') ∧
    page_walk (bs_mem s') PML4_START 0x1f123 = Some (0x1f123, true).
Proof.
  destruct (long_mode_boot_state svcpu_reset (bs_mem demo_boot) 0x100200 demo_ram) as (r & s' & E & H).
  assert (r = Ok tt) as -> by (apply (f_equal (ret_of fst)) in E; vm_compute in E; congruence).
  exists s'. split; [exact E|]. destruct H as [[_ H]|[H|[e H]]]; [|discriminate H..].
  rewrite <-(lm_identity _ _ _ H 0x1f123 ltac:(zcompute)). f_equal.
  by destruct (lm_cr _ _ _ H) as [<- _].
Defined.

Lemma pvh_boot_state_witness :
  ∃ s', setup_pvh 0x1000000 PVH_INFO_START demo_boot = Ret (Ok tt, s') ∧ pvh_ready (mkByteMem 0x20000 ∅) 0x1000000 PVH_INFO_START s'.
Proof.
  assert (BOOT_IDT_OFFSET + 8 ≤ last_addr (bs_mem demo_boot) + 1 < 2 ^ 63) as Hr
    by (pose proof demo_ram; unfold ram_ok, CMDLINE_START, MAX_GUEST_MEM_SIZE, GUEST_RAM_END, GUEST_MEM_START, BOOT_IDT_OFFSET in *; lia).
  destruct (pvh_boot_state svcpu_reset (bs_mem demo_boot) 0x1000000 PVH_INFO_START Hr) as (r & s' & E & H).
  assert (r = Ok tt) as -> by (apply (f_equal (ret_of fst)) in E; vm_compute in E; congruence).
  exists s'. split; [exact E|]. by destruct H as [[_ H]|[H|[e H]]].
Defined.
