(* ===== verification/LegacyIo.v ===== *)
(** * Legacy port I/O: reboot and power-off

    [devices/legacy_io.rs]: the i8042 controller, the CF9 reset register and
    the ACPI sleep registers, with the power action each guest write asks the
    run loop for. *)

From S2P Require Import Prelude Words.
Local Open Scope Z_scope.

Inductive PowerAction :=
| PowerNone
| PowerReset
| PowerShutdown.

#[export] Instance PowerAction_eq_dec : EqDecision PowerAction.
Proof. solve_decision. Defined.

Definition I8042_DATA_PORT : Z := 0x60.
Definition I8042_CMD_PORT : Z := 0x64.
Definition I8042_CMD_RESET_CPU : Z := 0xfe.
Definition I8042_STATUS_KBD_ENABLED : Z := 0x10.
Definition CF9_PORT : Z := 0xcf9.
Definition CF9_RST_CPU : Z := 0x04.
Definition SLEEP_CONTROL_PORT : Z := 0x600.
Definition SLEEP_STATUS_PORT : Z := 0x601.
Definition SLEEP_TYP_S5 : Z := 5.
Definition SLEEP_TYPE_MASK : Z := 0x1c.
Definition SLEEP_TYPE_SHIFT : Z := 2.
Definition SLEEP_ENABLE : Z := 0x20.
Definition SLEEP_WAKE_STATUS : Z := 0x80.

Record LegacyIo := mkLegacyIo {
  i8042_status : Z;
  cf9 : Z;
  sleep_control : Z;
  sleep_status : Z;
}.

#[export] Instance eta_LegacyIo : Eta LegacyIo := λ r,
  mkLegacyIo (i8042_status r) (cf9 r) (sleep_control r) (sleep_status r).

Definition legacy_new : LegacyIo := mkLegacyIo I8042_STATUS_KBD_ENABLED 0 0 0.

Definition legacy_handles_port (port : Z) : bool :=
  (port =? I8042_DATA_PORT) || (port =? I8042_CMD_PORT) || (port =? CF9_PORT)
  || (port =? SLEEP_CONTROL_PORT) || (port =? SLEEP_STATUS_PORT).

(** [bus_read]: the buffer [data] after the read. *)
Definition legacy_bus_read (io : LegacyIo) (port : Z) (data : list Z) : list Z :=
  match data with
  | [] => []
  | _ :: rest =>
      let value :=
        if port =? I8042_CMD_PORT then i8042_status io
        else if port =? I8042_DATA_PORT then 0
        else if port =? CF9_PORT then cf9 io
        else if port =? SLEEP_CONTROL_PORT then sleep_control io
        else if port =? SLEEP_STATUS_PORT then sleep_status io
        else 0xff in
      value :: replicate (length rest) 0
  end.

Definition sleep_control_action (value : Z) : PowerAction :=
  if Z.land value SLEEP_ENABLE =? 0 then PowerNone
  else
    let typ := Z.shiftr (Z.land value SLEEP_TYPE_MASK) SLEEP_TYPE_SHIFT in
    if typ =? SLEEP_TYP_S5 then PowerShutdown else PowerNone.

Definition legacy_bus_write (io : LegacyIo) (port : Z) (data : list Z)
    : PowerAction * LegacyIo :=
  match data with
  | [] => (PowerNone, io)
  | value :: _ =>
      if (port =? I8042_CMD_PORT) && (value =? I8042_CMD_RESET_CPU) then (PowerReset, io)
      else if (port =? I8042_CMD_PORT) || (port =? I8042_DATA_PORT) then (PowerNone, io)
      else if port =? CF9_PORT then
        (if negb (Z.land value CF9_RST_CPU =? 0) then PowerReset else PowerNone,
         io <| cf9 := value |>)
      else if port =? SLEEP_CONTROL_PORT then
        (sleep_control_action value, io <| sleep_control := value |>)
      else if port =? SLEEP_STATUS_PORT then
        (PowerNone,
         io <| sleep_status ::= λ s, Z.land s (bnot 8 (Z.land value SLEEP_WAKE_STATUS)) |>)
      else (PowerNone, io)
  end.

(** A sequence of guest accesses to the ports. *)
Fixpoint legacy_writes (io : LegacyIo) (ws : list (Z * list Z)) : list PowerAction * LegacyIo :=
  match ws with
  | [] => ([], io)
  | (port, data) :: ws' =>
      let '(a, io') := legacy_bus_write io port data in
      let '(acts, io'') := legacy_writes io' ws' in
      (a :: acts, io'')
  end.

(** ** What a byte written to a port asks for, by the data sheets *)

(** The reset request: command [0xfe] to the i8042, or the RST_CPU bit of CF9. *)
Definition asks_reset (port value : Z) : bool :=
  ((port =? I8042_CMD_PORT) && (value =? 0xfe)) || ((port =? CF9_PORT) && Z.testbit value 2).

(** The soft-off request: SLP_EN (bit 5) with SLP_TYP (bits 4 to 2) equal to 5. *)
Definition asks_soft_off (port value : Z) : bool :=
  (port =? SLEEP_CONTROL_PORT)
  && (Z.testbit value 5 && Z.testbit value 4 && negb (Z.testbit value 3) && Z.testbit value 2).

(** ** Lemmas *)

Lemma sleep_type_bits v :
  (Z.shiftr (Z.land v SLEEP_TYPE_MASK) SLEEP_TYPE_SHIFT =? SLEEP_TYP_S5)
  = Z.testbit v 4 && negb (Z.testbit v 3) && Z.testbit v 2.
Proof.
  unfold SLEEP_TYPE_MASK, SLEEP_TYPE_SHIFT, SLEEP_TYP_S5.
  set (t := Z.shiftr _ _).
  assert (t = Z.b2z (Z.testbit v 2) + 2 * Z.b2z (Z.testbit v 3) + 4 * Z.b2z (Z.testbit v 4)) as ->.
  { apply Z.bits_inj'. intros i Hi. unfold t.
    rewrite Z.shiftr_spec, Z.land_spec by done.
    destruct (decide (i = 0)) as [->|]; [|destruct (decide (i = 1)) as [->|];
      [|destruct (decide (i = 2)) as [->|]]].
    1: change (0 + 2) with 2. 2: change (1 + 2) with 3. 3: change (2 + 2) with 4.
    1-3: by destruct (Z.testbit v 2), (Z.testbit v 3), (Z.testbit v 4).
    assert (Z.testbit 0x1c (i + 2) = false) as ->
      by (apply Z.bits_above_log2; cbn; lia).
    rewrite andb_false_r. symmetry. apply (testbit_uint 3); [|lia].
    unfold uint. by destruct (Z.testbit v 2), (Z.testbit v 3), (Z.testbit v 4). }
  by destruct (Z.testbit v 2), (Z.testbit v 3), (Z.testbit v 4).
Qed.

Lemma sleep_control_action_bits v :
  sleep_control_action v =
  if Z.testbit v 5 && Z.testbit v 4 && negb (Z.testbit v 3) && Z.testbit v 2
  then PowerShutdown else PowerNone.
Proof.
  unfold sleep_control_action. change SLEEP_ENABLE with (2 ^ 5).
  rewrite land_pow2_eqb, sleep_type_bits by lia.
  by destruct (Z.testbit v 5), (Z.testbit v 4), (Z.testbit v 3), (Z.testbit v 2).
Qed.

(** The registers hold bytes, the i8042 input buffer is empty, and WAK_STS is
    clear. *)
Definition legacy_inv (io : LegacyIo) : Prop :=
  i8042_status io = I8042_STATUS_KBD_ENABLED ∧ is_u8 (cf9 io) ∧ is_u8 (sleep_control io)
  ∧ sleep_status io = 0.

Lemma legacy_new_inv : legacy_inv legacy_new.
Proof. done. Qed.

Lemma legacy_bus_write_inv io port data :
  bytes_ok data → legacy_inv io → legacy_inv (legacy_bus_write io port data).2.
Proof.
  intros Hd (H1 & H2 & H3 & H4). destruct Hd as [|v data Hv _]; [done|]. cbn.
  repeat case_match; cbn; split_and!; cbn; try done.
  by rewrite H4, Z.land_0_l.
Qed.

Lemma legacy_writes_inv io ws :
  Forall (λ w, bytes_ok w.2) ws → legacy_inv io → legacy_inv (legacy_writes io ws).2.
Proof.
  revert io. induction ws as [|[port data] ws IH]; intros io Hws Hio; [done|].
  apply Forall_cons in Hws as [Hd Hws]. cbn.
  pose proof (legacy_bus_write_inv io port data Hd Hio) as Hio'.
  destruct (legacy_bus_write io port data) as [a io'].
  specialize (IH io' Hws Hio'). by destruct (legacy_writes io' ws).
Qed.

(** ** Properties *)

(** C38: the power action of every byte written to a port is the one the
    i8042, CF9 and ACPI sleep-control encodings give it, and no other port or
    empty access asks for anything. *)
Theorem legacy_power_action io port data :
  (legacy_bus_write io port data).1 =
  match data with
  | [] => PowerNone
  | v :: _ => if asks_reset port v then PowerReset
              else if asks_soft_off port v then PowerShutdown else PowerNone
  end.
Proof.
  destruct data as [|v data]; [done|].
  unfold legacy_bus_write, asks_reset, asks_soft_off, I8042_CMD_RESET_CPU.
  change CF9_RST_CPU with (2 ^ 2). rewrite land_pow2_eqb, negb_involutive by lia.
  destruct (Z.eqb_spec port I8042_CMD_PORT) as [->|]; cbn.
  { by destruct (v =? 254). }
  destruct (Z.eqb_spec port I8042_DATA_PORT) as [->|]; cbn; [done|].
  destruct (Z.eqb_spec port CF9_PORT) as [->|]; cbn.
  { by destruct (Z.testbit v 2). }
  destruct (Z.eqb_spec port SLEEP_CONTROL_PORT) as [->|]; cbn.
  { apply sleep_control_action_bits. }
  by destruct (port =? SLEEP_STATUS_PORT).
Qed.

(** After any sequence of guest port writes the keyboard status reads as
    "input buffer empty", WAK_STS reads 0 and every access returns a buffer of
    the size asked for whose first byte is a [u8] and whose rest is zero. *)
Theorem legacy_registers_invariant ws port data :
  Forall (λ w : Z * list Z, bytes_ok w.2) ws →
  let io := (legacy_writes legacy_new ws).2 in
  let out := legacy_bus_read io port data in
  length out = length data ∧ bytes_ok out ∧ Forall (λ b, b = 0) (tail out)
  ∧ (port = I8042_CMD_PORT → Forall (λ b, Z.testbit b 1 = false) out)
  ∧ (port = SLEEP_STATUS_PORT → Forall (λ b, b = 0) out).
Proof.
  intros Hws io out.
  destruct (legacy_writes_inv legacy_new ws Hws legacy_new_inv) as (H1 & H2 & H3 & H4).
  fold io in H1, H2, H3, H4. unfold out, legacy_bus_read.
  destruct data as [|b data]; [by repeat split; constructor|].
  split; [cbn; by rewrite length_replicate|].
  split_and!; try intros ->; try (constructor; [|by apply Forall_replicate]); cbn;
    try by apply Forall_replicate.
  - repeat case_match; try done; [by rewrite H1|by rewrite H4].
  - by rewrite H1.
  - done.
Qed.

Lemma legacy_registers_invariant_witness :
  let ws := [(CF9_PORT, [0x02]); (SLEEP_STATUS_PORT, [0x80])] in
  bytes_ok (legacy_bus_read (legacy_writes legacy_new ws).2 CF9_PORT [0; 0]).
Proof.
  intros ws. apply (legacy_registers_invariant ws CF9_PORT [0; 0]).
  repeat constructor; cbn; lia.
Defined.
