(* ===== verification/VirtQueue.v ===== *)
(** * Virtqueues and event descriptors

    The interfaces of the [virtio_queue] and [vmm_sys_util::eventfd] crates as
    the devices use them, with the documented behaviour the proofs rely on as
    law classes, and a scripted implementation used to evaluate the model. *)

From S2P Require Import Prelude Words Errors.
Local Open Scope Z_scope.

(** ** Event descriptors *)

Class EventFd (Efd : Type) := {
  (** the outcome of the [n]-th creation of a device *)
  efd_new : nat → result string Efd;
  (** [write(1)] *)
  efd_write : Efd → result string unit * Efd;
  (** [read()]: clears the counter *)
  efd_read : Efd → Efd;
  (** observation: the kernel counter *)
  efd_count : Efd → Z;
}.

Class EventFdLaws (Efd : Type) `{EventFd Efd} : Prop := {
  efd_write_ok : ∀ e e', efd_write e = (Ok tt, e') → efd_count e' = efd_count e + 1;
  efd_write_err : ∀ e e' x, efd_write e = (Err x, e') → efd_count e' = efd_count e;
  efd_read_count : ∀ e, efd_count (efd_read e) = 0;
}.

(** What one [poll] of a worker brings: the events of the descriptors in the
    order in which they were given, or an error. *)
Inductive poll_turn :=
| Polled (revents : list Z)
| PollErr (e : io_error).

(** ** Queues, descriptor chains, readers and writers *)

Class VirtQueue (Q Mem Chain Rd Wr : Type) := {
  q_new : Z → result string Q;
  q_max_size : Q → Z;
  q_ready : Q → bool;
  q_set_ready : bool → Q → Q;
  q_set_size : Z → Q → Q;
  q_is_valid : Mem → Q → bool;
  q_reset : Q → Q;
  q_set_desc_table_address : option Z → option Z → Q → Q;
  q_set_avail_ring_address : option Z → option Z → Q → Q;
  q_set_used_ring_address : option Z → option Z → Q → Q;
  (** [pop_descriptor_chain] *)
  q_pop : Mem → Q → option Chain * Q;
  (** [add_used(mem, head, len)] *)
  q_add_used : Z → Z → Q → Mem → result string unit * Q * Mem;
  chain_head : Chain → Z;
  (** [Reader::new], [available_bytes] and [read_exact]: the bytes put into
      the front of the caller's buffer, and whether the buffer was filled *)
  reader_new : Mem → Chain → result string Rd;
  reader_avail : Rd → Z;
  reader_read : Mem → Z → Rd → list Z * result string unit * Rd;
  (** [Writer::new], [available_bytes] and [write_all] *)
  writer_new : Mem → Chain → result string Wr;
  writer_avail : Wr → Z;
  writer_write : list Z → Wr → Mem → result string unit * Wr * Mem;
  (** observations: what the device wrote into chains, by head index and oldest
      first; the chain a writer belongs to; the entries put on the used ring; the
      chains popped *)
  mem_log : Mem → list (Z * list Z);
  writer_head : Wr → Z;
  q_used_log : Q → list (Z * Z);
  q_popped : Q → list Chain;
}.

(** Changes of a queue's settings by the driver. *)
Inductive queue_setting `{VirtQueue Q Mem Chain Rd Wr} : (Q → Q) → Prop :=
| qs_ready b : queue_setting (q_set_ready b)
| qs_size n : queue_setting (q_set_size n)
| qs_desc l h : queue_setting (q_set_desc_table_address l h)
| qs_avail l h : queue_setting (q_set_avail_ring_address l h)
| qs_used l h : queue_setting (q_set_used_ring_address l h)
| qs_reset : queue_setting q_reset.

Class VirtQueueLaws (Q Mem Chain Rd Wr : Type) `{VirtQueue Q Mem Chain Rd Wr} : Prop := {
  q_ready_set_ready : ∀ b q, q_ready (q_set_ready b q) = b;
  q_ready_reset : ∀ q, q_ready (q_reset q) = false;
  q_ready_set_size : ∀ n q, q_ready (q_set_size n q) = q_ready q;
  q_ready_set_desc : ∀ l h q, q_ready (q_set_desc_table_address l h q) = q_ready q;
  q_ready_set_avail : ∀ l h q, q_ready (q_set_avail_ring_address l h q) = q_ready q;
  q_ready_set_used : ∀ l h q, q_ready (q_set_used_ring_address l h q) = q_ready q;
  q_ready_pop : ∀ m q, q_ready (q_pop m q).2 = q_ready q;
  q_ready_add_used : ∀ h n q m, q_ready (q_add_used h n q m).1.2 = q_ready q;
  reader_avail_nonneg : ∀ r, 0 ≤ reader_avail r;
  writer_avail_nonneg : ∀ w, 0 ≤ writer_avail w;
  (** a read of at most the available bytes fills the buffer *)
  reader_read_ok : ∀ m n r, 0 ≤ n ≤ reader_avail r → ∃ bs r',
    reader_read m n r = (bs, Ok tt, r') ∧ Z.of_nat (length bs) = n ∧ bytes_ok bs
    ∧ reader_avail r' = reader_avail r - n;
  reader_read_short : ∀ m n r, reader_avail r < n → ∃ bs e r',
    reader_read m n r = (bs, Err e, r') ∧ Z.of_nat (length bs) < n ∧ bytes_ok bs;
  (** a write of at most the available bytes succeeds *)
  writer_write_ok : ∀ m bs w, Z.of_nat (length bs) ≤ writer_avail w → ∃ w' m',
    writer_write bs w m = (Ok tt, w', m')
    ∧ writer_avail w' = writer_avail w - Z.of_nat (length bs)
    ∧ writer_head w' = writer_head w
    ∧ mem_log m' = mem_log m ++ [(writer_head w, bs)];
  writer_write_short : ∀ m bs w, writer_avail w < Z.of_nat (length bs) → ∃ e w' m',
    writer_write bs w m = (Err e, w', m') ∧ (writer_avail w = 0 → mem_log m' = mem_log m);
  writer_new_head : ∀ m c w, writer_new m c = Ok w → writer_head w = chain_head c;
  (** a chain has at most 2^16 descriptors of less than 2^32 bytes *)
  reader_new_bound : ∀ m c r, reader_new m c = Ok r → reader_avail r < 2 ^ 48;
  writer_new_bound : ∀ m c w, writer_new m c = Ok w → writer_avail w < 2 ^ 48;
  q_pop_logs : ∀ m q c q', q_pop m q = (c, q') →
    q_used_log q' = q_used_log q ∧
    q_popped q' = q_popped q ++ match c with Some c => [c] | None => [] end;
  q_add_used_ok : ∀ h n q m q' m', q_add_used h n q m = (Ok tt, q', m') →
    q_used_log q' = q_used_log q ++ [(h, n)] ∧ q_popped q' = q_popped q ∧ mem_log m' = mem_log m;
  q_add_used_err : ∀ h n q m e q' m', q_add_used h n q m = (Err e, q', m') →
    q_used_log q' = q_used_log q ∧ q_popped q' = q_popped q ∧ mem_log m' = mem_log m;
  q_setting_logs : ∀ f q, queue_setting f →
    q_used_log (f q) = q_used_log q ∧ q_popped (f q) = q_popped q;
}.

(** The driver stops making chains available: at most [q_backlog q] more can be
    popped. *)
Class QueueFair (Q Mem Chain Rd Wr : Type) `{VirtQueue Q Mem Chain Rd Wr} := {
  q_backlog : Q → nat;
  q_pop_backlog : ∀ m q c q', q_pop m q = (Some c, q') → (q_backlog q' < q_backlog q)%nat;
  q_pop_backlog_le : ∀ m q, (q_backlog (q_pop m q).2 ≤ q_backlog q)%nat;
  q_add_used_backlog : ∀ h n q m, (q_backlog (q_add_used h n q m).1.2 ≤ q_backlog q)%nat;
  q_setting_backlog : ∀ f q, queue_setting f → (q_backlog (f q) ≤ q_backlog q)%nat;
}.

(** ** A scripted implementation

    The available ring is a list of chains given in advance. A chain has the
    bytes of its readable descriptors, the size of its writable part and two
    flags that make the reader or the writer constructor fail. Guest memory is
    the record of the writes, oldest first, each with its chain's head. *)

Record SChain := mkSChain {
  sc_head : Z;
  sc_readable : list Z;
  sc_writable : nat;
  sc_bad_reader : bool;
  sc_bad_writer : bool;
}.

Record SQueue := mkSQueue {
  sq_max : Z;
  sq_size : Z;
  sq_ready : bool;
  sq_valid : bool;
  sq_avail : list SChain;
  sq_used : list (Z * Z);
  sq_used_fails : bool;
  sq_popped : list SChain;
}.

#[export] Instance eta_SQueue : Eta SQueue := λ q,
  mkSQueue (sq_max q) (sq_size q) (sq_ready q) (sq_valid q) (sq_avail q) (sq_used q)
    (sq_used_fails q) (sq_popped q).

Abbreviation SMem := (list (Z * list Z)).

Record SReader := mkSReader { sr_bytes : list Z }.
Record SWriter := mkSWriter { sw_head : Z; sw_left : nat }.

#[export] Instance Scripted_queue : VirtQueue SQueue SMem SChain SReader SWriter := {
  q_new n := Ok (mkSQueue n n false true [] [] false []);
  q_max_size := sq_max;
  q_ready := sq_ready;
  q_set_ready b q := q <| sq_ready := b |>;
  q_set_size n q := q <| sq_size := n |>;
  q_is_valid _ q := sq_valid q;
  q_reset q := q <| sq_ready := false |>;
  q_set_desc_table_address _ _ q := q;
  q_set_avail_ring_address _ _ q := q;
  q_set_used_ring_address _ _ q := q;
  q_pop _ q :=
    match sq_avail q with
    | [] => (None, q)
    | c :: cs => (Some c, q <| sq_avail := cs |> <| sq_popped ::= λ l, l ++ [c] |>)
    end;
  q_add_used h n q m :=
    if sq_used_fails q then (Err "used ring", q, m)
    else (Ok tt, q <| sq_used ::= λ l, l ++ [(h, n)] |>, m);
  chain_head := sc_head;
  reader_new _ c :=
    if sc_bad_reader c || (2 ^ 48 <=? Z.of_nat (length (sc_readable c))) then Err "bad chain" else Ok (mkSReader (sc_readable c));
  reader_avail r := Z.of_nat (length (sr_bytes r));
  reader_read _ n r :=
    ((λ b, b mod 256) <$> take (Z.to_nat n) (sr_bytes r),
     if n <=? Z.of_nat (length (sr_bytes r)) then Ok tt else Err "unexpected end of chain",
     mkSReader (drop (Z.to_nat n) (sr_bytes r)));
  writer_new _ c :=
    if sc_bad_writer c || (2 ^ 48 <=? Z.of_nat (sc_writable c)) then Err "bad chain" else Ok (mkSWriter (sc_head c) (sc_writable c));
  writer_avail w := Z.of_nat (sw_left w);
  writer_write bs w m :=
    if (length bs <=? sw_left w)%nat
    then (Ok tt, mkSWriter (sw_head w) (sw_left w - length bs), m ++ [(sw_head w, bs)])
    else (Err "chain is full", w, m);
  mem_log m := m;
  writer_head := sw_head;
  q_used_log := sq_used;
  q_popped := sq_popped;
}.

#[export] Instance Counter_efd : EventFd Z := {
  efd_new _ := Ok 0;
  efd_write n := (Ok tt, n + 1);
  efd_read _ := 0;
  efd_count n := n;
}.

(** ** The implementations satisfy the laws *)

#[export] Instance Counter_efd_laws : EventFdLaws Z.
Proof. split; cbn; naive_solver. Qed.

Lemma bytes_ok_mod l : bytes_ok ((λ b, b mod 256) <$> l).
Proof. apply Forall_fmap, Forall_true. intros b. apply (Z.mod_pos_bound b 256). lia. Qed.

#[export] Instance Scripted_queue_laws : VirtQueueLaws SQueue SMem SChain SReader SWriter.
Proof.
  split; cbn; try done; try lia.
  - intros _ q. by destruct (sq_avail q).
  - intros h n q m. by destruct (sq_used_fails q).
  - intros _ n r Hn. replace (n <=? _) with true by (symmetry; apply Z.leb_le; lia).
    eexists _, _; split_and!; [done| |apply bytes_ok_mod|].
    + rewrite length_fmap, length_take. lia.
    + cbn. rewrite length_drop. lia.
  - intros _ n r Hn. replace (n <=? _) with false by (symmetry; apply Z.leb_gt; lia).
    eexists _, _, _; split_and!; [done| |apply bytes_ok_mod].
    rewrite length_fmap, length_take. lia.
  - intros m bs w Hb. replace (_ <=? _)%nat with true by (symmetry; apply Nat.leb_le; lia).
    eexists _, _; split_and!; [done| |done|done]. cbn. lia.
  - intros m bs w Hb. replace (_ <=? _)%nat with false by (symmetry; apply Nat.leb_gt; lia).
    by eexists _, _, _.
  - intros m c w. case_match; [done|]. by intros [= <-].
  - intros m c r. destruct (Z.leb_spec (2 ^ 48) (Z.of_nat (length (sc_readable c))));
      destruct (sc_bad_reader c); cbn; try done. intros [= <-]. cbn. lia.
  - intros m c r. destruct (Z.leb_spec (2 ^ 48) (Z.of_nat (sc_writable c)));
      destruct (sc_bad_writer c); cbn; try done. intros [= <-]. cbn. lia.
  - intros m q c q'. destruct (sq_avail q); intros [= <- <-]; [|done]. by rewrite app_nil_r.
  - intros h n q m q' m'. destruct (sq_used_fails q); [done|]. by intros [= <- <-].
  - intros h n q m e q' m'. destruct (sq_used_fails q); [|done]. by intros [= _ <- <-].
  - by intros f q [].
Qed.

#[export] Program Instance Scripted_queue_fair : QueueFair SQueue SMem SChain SReader SWriter := {
  q_backlog q := length (sq_avail q);
}.
Next Obligation.
  intros m q c q'. cbn. destruct (sq_avail q) as [|c' cs] eqn:E; [done|].
  intros [= <- <-]. cbn. lia.
Qed.
Next Obligation. intros m q. cbn. destruct (sq_avail q) as [|c' cs] eqn:E; cbn; rewrite ?E; cbn; lia. Qed.
Next Obligation. intros h n q m. cbn. by destruct (sq_used_fails q). Qed.
Next Obligation. by intros f q []. Qed.
