(* ===== verification/Serial.v ===== *)
(** * The serial console

    [devices/serial.rs]: COM1 bridged to the host's standard streams, the probe that
    answers cursor position queries of the guest, and the worker that feeds standard
    input to the UART. The UART is [vm_superio::Serial], a parameter here. The terminal
    settings of the host are in [HostStdio]. *)

From S2P Require Import Prelude Words Errors VirtQueue.
Local Open Scope Z_scope.

(** ** Constants *)

Definition SERIAL_PORT_BASE : Z := 0x3f8.
Definition SERIAL_PORT_SIZE : Z := 8.
Definition SERIAL_IRQ : Z := 4.
Definition UART_FIFO_SIZE : Z := 0x40.

Definition POLLIN : Z := 1.
Definition POLLERR : Z := 8.
Definition POLLHUP : Z := 16.
Definition POLLNVAL : Z := 32.

(** The answer to a query: [ESC \[ 1 ; 8 0 R]. *)
Definition DSR_REPLY : list Z := [0x1b; 0x5b; 0x31; 0x3b; 0x38; 0x30; 0x52].

(** ** The UART and the host

    [U] is the UART with the interrupt descriptor it shares with the console, and the
    host's standard streams. *)

Inductive uart_error := UartIo (e : io_error) | UartOther (msg : string).

Class SerialHost (U : Type) := {
  (** [Serial::write], [read], [fifo_capacity], [enqueue_raw_bytes] *)
  uart_write : Z → Z → U → result uart_error unit * U;
  uart_read : Z → U → Z * U;
  fifo_capacity : U → Z;
  enqueue_raw_bytes : list Z → U → result uart_error Z * U;
  (** [irq_fd.write(1)] *)
  irq_write : U → result string unit * U;
  (** [libc::read] of standard input, at most so many bytes *)
  stdin_read : Z → U → result io_error (list Z) * U;
  stdout_flush : U → U;
}.

Definition uart_msg (e : uart_error) : Error :=
  match e with UartIo e => SerialErr (MsgIo "" e) | UartOther s => SerialErr (MsgExt "" s) end.

Inductive DsrProbe := DsrIdle | DsrEsc | DsrBracket | DsrSix.

#[export] Instance DsrProbe_eq_dec : EqDecision DsrProbe.
Proof. solve_decision. Defined.

Record DrainStatus := mkDrainStatus { stdin_open : bool; fifo_has_space : bool }.

Record SerialConsole (U Efd : Type) := mkSerial {
  inner : U;
  rx_space_fd : Efd;
  stdin_ready : bool;
  dsr_probe : DsrProbe;
  pending_rx : list Z;
  dsr_auto_reply : bool;
}.
Arguments mkSerial {U Efd}.
Arguments inner {U Efd}.
Arguments rx_space_fd {U Efd}.
Arguments stdin_ready {U Efd}.
Arguments dsr_probe {U Efd}.
Arguments pending_rx {U Efd}.
Arguments dsr_auto_reply {U Efd}.
#[export] Instance eta_SerialConsole {U Efd} : Eta (SerialConsole U Efd) := λ s,
  mkSerial (inner s) (rx_space_fd s) (stdin_ready s) (dsr_probe s) (pending_rx s) (dsr_auto_reply s).

Definition handles_port (port : Z) : bool :=
  (SERIAL_PORT_BASE <=? port) && (port <? SERIAL_PORT_BASE + SERIAL_PORT_SIZE).

Section serial.
Context {U Efd : Type} `{SH : !SerialHost U} `{EF : !EventFd Efd}.
(** How often in a row a call may be interrupted. *)
Variable fuel : nat.
Local Abbreviation M := (prog (SerialConsole U Efd)).

(** [SerialConsole::new] once the descriptors exist and the interrupt is registered. *)
Definition serial_new (u : U) (space : Efd) (stdin_is_ready stdout_is_tty : bool) : SerialConsole U Efd :=
  mkSerial u space stdin_is_ready DsrIdle [] (negb stdout_is_tty).

(** An operation on the UART or the host. *)
Definition on_uart {A} (f : U → A * U) : M A :=
  act (λ s, let '(a, u) := f (inner s) in (a, s <| inner := u |>)).

Definition write_uart (offset byte : Z) : M (result Error unit) :=
  iter_prog fuel (λ _ : unit,
    r ← on_uart (uart_write offset byte);
    match r with
    | Ok _ => mret (inr (Ok tt))
    | Err (UartIo e) =>
        if kind_is Interrupted e then mret (inl tt) else mret (inr (Err (uart_msg (UartIo e))))
    | Err e => mret (inr (Err (uart_msg e)))
    end) tt.

Definition enqueue_rx (bytes : list Z) : M (result Error unit) :=
  r ← on_uart (enqueue_raw_bytes bytes);
  mret (map_err uart_msg ((λ _, tt) <$> r)).

(** One turn of [flush_pending_rx]; [drain(..written)] panics past the end. *)
Definition flush_rx_step (_ : unit) : M (unit + result Error unit) :=
  s ← get;
  if bool_decide (pending_rx s = []) then mret (inr (Ok tt))
  else
    let capacity := fifo_capacity (inner s) in
    if capacity =? 0 then mret (inr (Ok tt))
    else
      let n := Z.min capacity (zlen (pending_rx s)) in
      r ← on_uart (enqueue_raw_bytes (take (Z.to_nat n) (pending_rx s)));
      match r with
      | Ok written =>
          assert_that (written <=? zlen (pending_rx s));;
          modify (λ s, s <| pending_rx ::= drop (Z.to_nat written) |>);;
          mret (inl tt)
      | Err e => mret (inr (Err (uart_msg e)))
      end.

Definition flush_pending_rx : M (result Error unit) :=
  n ← gets (λ s, length (pending_rx s));
  iter_prog (S n) flush_rx_step tt.

Definition reassert_rx_irq : M (result Error unit) :=
  c ← gets (λ s, fifo_capacity (inner s));
  if c <? UART_FIFO_SIZE then
    r ← on_uart irq_write;
    mret (map_err (λ e, SerialErr (MsgExt "" e)) r)
  else mret (Ok tt).

Definition notify_rx_space : M unit :=
  modify (λ s, if 0 <? fifo_capacity (inner s) then s <| rx_space_fd ::= λ e, (efd_write e).2 |> else s).

(** The state the probe goes to; [None] is a complete query. *)
Definition dsr_next (p : DsrProbe) (byte : Z) : option DsrProbe :=
  if byte =? 0x1b then Some DsrEsc
  else match p with
  | DsrEsc => Some (if byte =? 0x5b then DsrBracket else DsrIdle)
  | DsrBracket => Some (if byte =? 0x36 then DsrSix else DsrIdle)
  | DsrSix => if byte =? 0x6e then None else Some DsrIdle
  | DsrIdle => Some DsrIdle
  end.

Definition observe_guest_tx (byte : Z) : M (result Error unit) :=
  s ← get;
  match dsr_next (dsr_probe s) byte with
  | Some p => modify (λ s, s <| dsr_probe := p |>);; mret (Ok tt)
  | None =>
      r ← (if dsr_auto_reply s then
             modify (λ s, s <| pending_rx ::= λ l, l ++ DSR_REPLY |>);;
             _ ←? flush_pending_rx;
             _ ←? reassert_rx_irq;
             notify_rx_space;; mret (Ok tt)
           else mret (Ok tt));
      match r with
      | Err e => mret (Err e)
      | Ok _ => modify (λ s, s <| dsr_probe := DsrIdle |>);; mret (Ok tt)
      end
  end.

Fixpoint write_bytes (offset : Z) (data : list Z) : M (result Error unit) :=
  match data with
  | [] => mret (Ok tt)
  | byte :: data' =>
      _ ←? write_uart offset byte;
      _ ←? (if offset =? 0 then observe_guest_tx byte else mret (Ok tt));
      write_bytes offset data'
  end.

Definition bus_write (port : Z) (data : list Z) : M (result Error unit) :=
  o ← expect (checked_sub port SERIAL_PORT_BASE);
  let offset := cast 8 o in
  _ ←? write_bytes offset data;
  if (offset =? 0) && negb (bool_decide (data = []))
  then modify (λ s, s <| inner ::= stdout_flush |>);; mret (Ok tt)
  else mret (Ok tt).

Fixpoint read_bytes (offset : Z) (n : nat) : M (list Z) :=
  match n with
  | O => mret []
  | S n => b ← on_uart (uart_read offset); bs ← read_bytes offset n; mret (b :: bs)
  end.

(** The buffer after the read. *)
Definition bus_read (port : Z) (data : list Z) : M (list Z) :=
  o ← expect (checked_sub port SERIAL_PORT_BASE);
  let offset := cast 8 o in
  bs ← read_bytes offset (length data);
  (if offset =? 0 then notify_rx_space else mret tt);;
  mret bs.

(** One turn of the loop of [drain_stdin]. *)
Definition drain_step (_ : unit) : M (unit + result Error unit) :=
  capacity ← gets (λ s, fifo_capacity (inner s));
  if capacity =? 0 then mret (inr (Ok tt))
  else
    r ← on_uart (stdin_read (Z.min capacity 64));
    match r with
    | Ok [] => modify (λ s, s <| stdin_ready := false |>);; mret (inr (Ok tt))
    | Ok bs =>
        r ← enqueue_rx bs;
        match r with Ok _ => mret (inl tt) | Err e => mret (inr (Err e)) end
    | Err e =>
        if kind_is WouldBlock e then mret (inr (Ok tt))
        else if raw_is EINTR e then mret (inl tt)
        else mret (inr (Err (SerialErr (MsgIo "" e))))
    end.

Definition drain_stdin : M (result Error DrainStatus) :=
  _ ←? flush_pending_rx;
  _ ←? reassert_rx_irq;
  s ← get;
  if negb (stdin_ready s) then mret (Ok (mkDrainStatus false (0 <? fifo_capacity (inner s))))
  else
    _ ←? iter_prog (fuel * S (Z.to_nat (fifo_capacity (inner s)))) drain_step tt;
    s ← get;
    mret (Ok (mkDrainStatus (stdin_ready s) (0 <? fifo_capacity (inner s)))).

(** ** The worker *)

(** An access of a vCPU to the console, under its lock. *)
Inductive guest_access := GuestRead (port : Z) (data : list Z) | GuestWrite (port : Z) (data : list Z).

Definition access (a : guest_access) : M unit :=
  match a with
  | GuestRead p d => _ ← bus_read p d; mret tt
  | GuestWrite p d => _ ← bus_write p d; mret tt
  end.

Fixpoint accesses (l : list guest_access) : M unit :=
  match l with [] => mret tt | a :: l => access a;; accesses l end.

(** The local variables of the loop. *)
Record StdinLoop := mkStdinLoop { watch_stdin : bool; wait_for_space : bool }.

(** One [poll]: the events of the stop descriptor and of the second one, with the
    accesses of the guest while the lock is free before the drain and after it. *)
Record stdin_turn := mkTurn { turn_poll : poll_turn; acc_before : list guest_access; acc_after : list guest_access }.

Definition clear_space : M unit := modify (λ s, s <| rx_space_fd ::= efd_read |>).

(** What both paths do with the outcome of a drain. *)
Definition after_drain (acc : list guest_access) (st : DrainStatus) : M (StdinLoop + result Error unit) :=
  accesses acc;;
  if stdin_open st && negb (fifo_has_space st)
  then clear_space;; mret (inl (mkStdinLoop (stdin_open st) true))
  else mret (inl (mkStdinLoop (stdin_open st) false)).

Definition stdin_worker_turn (t : stdin_turn) (l : StdinLoop) : M (StdinLoop + result Error unit) :=
  match turn_poll t with
  | PollErr e =>
      if raw_is EINTR e then mret (inl l) else mret (inr (Err (SerialErr (MsgIo "stdin poll: " e))))
  | Polled revents =>
      let nfds := if wait_for_space l || watch_stdin l then 2 else 1 in
      let rev := default 0 (revents !! 1%nat) in
      if negb (default 0 (revents !! 0%nat) =? 0) then mret (inr (Ok tt))
      else if (nfds <? 2) || (rev =? 0) then mret (inl l)
      else if wait_for_space l then
        if negb (Z.land rev (Z.lor POLLERR POLLNVAL) =? 0)
        then mret (inr (Err (SerialErr (Msg "serial rx space eventfd error"))))
        else
          clear_space;;
          accesses (acc_before t);;
          r ← drain_stdin;
          match r with Err e => mret (inr (Err e)) | Ok st => after_drain (acc_after t) st end
      else if negb (Z.land rev (Z.lor POLLERR POLLNVAL) =? 0) then mret (inl (mkStdinLoop false (wait_for_space l)))
      else if negb (Z.land rev POLLHUP =? 0) && (Z.land rev POLLIN =? 0) then
        accesses (acc_before t);;
        r ← drain_stdin;
        match r with Err e => mret (inr (Err e)) | Ok _ => mret (inl (mkStdinLoop false (wait_for_space l))) end
      else if Z.land rev POLLIN =? 0 then mret (inl l)
      else
        accesses (acc_before t);;
        r ← drain_stdin;
        match r with Err e => mret (inr (Err e)) | Ok st => after_drain (acc_after t) st end
  end.

Fixpoint stdin_turns (ts : list stdin_turn) (l : StdinLoop) : M (StdinLoop + result Error unit) :=
  match ts with
  | [] => mret (inl l)
  | t :: ts =>
      r ← stdin_worker_turn t l;
      match r with inl l => stdin_turns ts l | inr r => mret (inr r) end
  end.

Definition stdin_worker_loop (ts : list stdin_turn) : M (StdinLoop + result Error unit) :=
  ready ← gets stdin_ready;
  stdin_turns ts (mkStdinLoop ready false).

End serial.

(** ** What the code relies on

    The receive FIFO of the UART holds the bytes on their way to the guest. Out of
    loopback mode, [enqueue_raw_bytes] appends as much as there is room for; in loopback
    mode, which the guest switches on and off, it takes nothing and says so. *)

Class SerialHostLaws (U : Type) `{SerialHost U} := {
  (** observations: the FIFO, the loopback bit, the bytes read from standard input *)
  rx_fifo : U → list Z;
  loopback : U → bool;
  stdin_log : U → list Z;
  capacity_spec : ∀ u, fifo_capacity u = UART_FIFO_SIZE - zlen (rx_fifo u);
  capacity_nonneg : ∀ u, 0 ≤ fifo_capacity u;
  enqueue_ok : ∀ bs u n u', loopback u = false → 0 < fifo_capacity u → enqueue_raw_bytes bs u = (Ok n, u') →
    n = Z.min (fifo_capacity u) (zlen bs) ∧ rx_fifo u' = rx_fifo u ++ take (Z.to_nat n) bs ∧
    loopback u' = false ∧ stdin_log u' = stdin_log u;
  enqueue_loopback : ∀ bs u, loopback u = true → enqueue_raw_bytes bs u = (Ok 0, u);
  enqueue_count : ∀ bs u n u', enqueue_raw_bytes bs u = (Ok n, u') → n ≤ zlen bs;
  irq_write_frame : ∀ u r u', irq_write u = (r, u') →
    rx_fifo u' = rx_fifo u ∧ loopback u' = loopback u ∧ stdin_log u' = stdin_log u;
  stdin_read_ok : ∀ n u bs u', 0 ≤ n → stdin_read n u = (Ok bs, u') →
    zlen bs ≤ n ∧ rx_fifo u' = rx_fifo u ∧ loopback u' = loopback u ∧ stdin_log u' = stdin_log u ++ bs;
  stdin_read_err : ∀ n u e u', stdin_read n u = (Err e, u') →
    rx_fifo u' = rx_fifo u ∧ loopback u' = loopback u ∧ stdin_log u' = stdin_log u;
}.

(** Reads of standard input are interrupted only so often in a row. *)
Class SerialHostFair (U : Type) `{SerialHost U} (fuel : nat) := {
  patience : U → nat;
  patience_bound : ∀ u, (patience u < fuel)%nat;
  stdin_patience : ∀ n u e u', stdin_read n u = (Err e, u') → raw_is EINTR e = true →
    (patience u' < patience u)%nat;
}.

(** ** A concrete UART

    Standard input is a list of available bytes; [su_eintr] reads are interrupted, when
    fewer than [SU_BURST]. *)

Definition SU_BURST : nat := 4.

Record SUart := mkSUart {
  su_fifo : list Z; su_loop : bool; su_irq : Z; su_stdin : list Z; su_read : list Z; su_out : list Z; su_eintr : nat;
}.
#[export] Instance eta_SUart : Eta SUart := λ u,
  mkSUart (su_fifo u) (su_loop u) (su_irq u) (su_stdin u) (su_read u) (su_out u) (su_eintr u).

Definition su_capacity (u : SUart) : Z := Z.max 0 (UART_FIFO_SIZE - zlen (su_fifo u)).
(** The FIFO never holds more than its size. *)
Definition su_clip (l : list Z) : list Z := take (Z.to_nat UART_FIFO_SIZE) l.
Definition su_interrupted (u : SUart) : nat := if (su_eintr u <? SU_BURST)%nat then su_eintr u else 0%nat.

#[export] Instance Scripted_uart : SerialHost SUart := {
  uart_write off b u :=
    (Ok tt, if off =? 0 then (if su_loop u then u <| su_fifo ::= λ l, su_clip (l ++ [b]) |> else u <| su_out ::= λ l, l ++ [b] |>)
            else if off =? 4 then u <| su_loop := Z.testbit b 4 |> else u);
  uart_read off u :=
    if off =? 0 then (default 0 (head (su_fifo u)), u <| su_fifo ::= tail |>) else (0, u);
  fifo_capacity u := UART_FIFO_SIZE - zlen (su_clip (su_fifo u));
  enqueue_raw_bytes bs u :=
    if su_loop u then (Ok 0, u)
    else let c := UART_FIFO_SIZE - zlen (su_clip (su_fifo u)) in
         if c =? 0 then (Err (UartOther "full"), u)
         else let n := Z.min c (zlen bs) in
              (Ok n, u <| su_fifo := su_clip (su_fifo u) ++ take (Z.to_nat n) bs |> <| su_irq ::= Z.succ |>);
  irq_write u := (Ok tt, u <| su_irq ::= Z.succ |>);
  stdin_read n u :=
    match su_interrupted u with
    | S k => (Err (OsError EINTR), u <| su_eintr := k |>)
    | O => if bool_decide (su_stdin u = []) then (Err (OsError EAGAIN), u)
           else let bs := take (Z.to_nat n) (su_stdin u) in
                (Ok bs, u <| su_stdin ::= drop (Z.to_nat n) |> <| su_read ::= λ l, l ++ bs |>)
    end;
  stdout_flush u := u;
}.

Lemma su_clip_le l : zlen (su_clip l) ≤ UART_FIFO_SIZE.
Proof. unfold su_clip, zlen, UART_FIFO_SIZE. rewrite length_take. lia. Qed.

Lemma su_clip_id l : zlen l ≤ UART_FIFO_SIZE → su_clip l = l.
Proof. unfold su_clip, zlen, UART_FIFO_SIZE. intros. apply take_ge. lia. Qed.

#[export] Program Instance Scripted_uart_laws : SerialHostLaws SUart := {
  rx_fifo u := su_clip (su_fifo u); loopback := su_loop; stdin_log := su_read;
}.
Next Obligation. done. Qed.
Next Obligation. intros u. cbn. pose proof (su_clip_le (su_fifo u)). lia. Qed.
Next Obligation.
  intros bs u n u' Hl Hc. cbn. rewrite Hl. cbn in Hc. destruct (Z.eqb_spec (UART_FIFO_SIZE - zlen (su_clip (su_fifo u))) 0); [lia|].
  intros [= <- <-]. cbn. split_and!; try done. apply su_clip_id. rewrite zlen_app.
  pose proof (zlen_nonneg bs). rewrite zlen_take by lia. lia.
Qed.
Next Obligation. intros bs u Hl. cbn. by rewrite Hl. Qed.
Next Obligation.
  intros bs u n u'. pose proof (zlen_nonneg bs). cbn. repeat case_match; intros [= <- <-]; lia.
Qed.
Next Obligation. by intros u r u' [= <- <-]. Qed.
Next Obligation.
  intros n u bs u' Hn. cbn. destruct (su_interrupted u); [|done]. case_bool_decide; [done|]. intros [= <- <-].
  split_and!; try done. unfold zlen. rewrite length_take. lia.
Qed.
Next Obligation.
  intros n u e u'. cbn. destruct (su_interrupted u); [case_bool_decide; [|done]|]; by intros [= <- <-].
Qed.

#[export] Program Instance Scripted_uart_fair : SerialHostFair SUart SU_BURST := { patience := su_interrupted }.
Next Obligation. intros u. unfold su_interrupted, SU_BURST. destruct (Nat.ltb_spec (su_eintr u) 4); lia. Qed.
Next Obligation.
  intros n u e u'. cbn. destruct (su_interrupted u) as [|k] eqn:E; [case_bool_decide; [|done]|]; intros [= <- <-]; [done|].
  intros _. unfold su_interrupted in *. cbn. destruct (Nat.ltb_spec (su_eintr u) SU_BURST); [|done].
  case_match; lia.
Qed.

(** ** Lemmas *)

Section facts.
Context {U Efd : Type} `{SH : !SerialHost U, SL : !SerialHostLaws U} `{EF : !EventFd Efd}.
Context {fuel : nat} {SF : SerialHostFair U fuel}.
Implicit Types s : SerialConsole U Efd.

(** What is on its way to the guest. *)
Definition to_guest s : list Z := rx_fifo (inner s) ++ pending_rx s.

(** A step that moves nothing but the front of the pending bytes. *)
Record rx_kept s s' : Prop := mkRxKept {
  rk_bytes : to_guest s' = to_guest s;
  rk_loop : loopback (inner s') = loopback (inner s);
  rk_log : stdin_log (inner s') = stdin_log (inner s);
  rk_ready : stdin_ready s' = stdin_ready s;
  rk_probe : dsr_probe s' = dsr_probe s;
  rk_reply : dsr_auto_reply s' = dsr_auto_reply s;
}.

Lemma rx_kept_refl s : rx_kept s s.
Proof. by split. Qed.

Lemma rx_kept_trans s1 s2 s3 : rx_kept s1 s2 → rx_kept s2 s3 → rx_kept s1 s3.
Proof. intros [] []. split; congruence. Qed.

Lemma on_uart_wp {A} t (f : U → A * U) s (Q : A → SerialConsole U Efd → Prop) :
  (∀ a u, f (inner s) = (a, u) → Q a (s <| inner := u |>)) → wp t (on_uart f) Q s.
Proof.
  intros H. unfold on_uart. apply wp_act. intros a s'. destruct (f (inner s)) as [x u] eqn:E. intros [= <- <-]. by apply H.
Qed.

Lemma serial_flush_wp s Q :
  loopback (inner s) = false →
  (∀ s', rx_kept s s' → rx_space_fd s' = rx_space_fd s → pending_rx s' = [] ∨ fifo_capacity (inner s') = 0 → Q (Ok tt) s') →
  (∀ e s', Q (Err e) s') →
  wp Total flush_pending_rx Q s.
Proof.
  intros Hl HQ He. unfold flush_pending_rx. wp_step. wp_step.
  apply (wp_iter Total (λ _ s', rx_kept s s' ∧ rx_space_fd s' = rx_space_fd s) (λ _ s', length (pending_rx s')));
    [split; [apply rx_kept_refl|done]|lia|].
  intros [] s1 [K1 E1]. unfold flush_rx_step. do 2 wp_step.
  case_bool_decide as Hp; [wp_step; by apply HQ; [| |left]|].
  destruct (Z.eqb_spec (fifo_capacity (inner s1)) 0) as [Hc|Hc]; [wp_step; by apply HQ; [| |right]|].
  pose proof (capacity_nonneg (inner s1)) as Hc0. pose proof (zlen_pos _ Hp) as Hlen.
  wp_step. apply on_uart_wp. intros [n|e] u Eq; [|by wp_step; apply He].
  apply enqueue_ok in Eq as (-> & Hrx & Hlo & Hlog); [|by rewrite (rk_loop _ _ K1)|lia].
  rewrite zlen_take in * by lia. rewrite (Z.min_r _ (Z.min _ _)) in * by lia.
  wp_step. apply wp_assert; [apply Z.leb_le; lia|]. do 3 wp_step. split; [split; [|done]|].
  - eapply rx_kept_trans; [done|]. split; try done; cbn; [|by rewrite Hlo, (rk_loop _ _ K1)].
    unfold to_guest. cbn. rewrite Hrx, take_take, Nat.min_id, <-app_assoc. by rewrite take_drop.
  - cbn. rewrite length_drop. unfold zlen in *. lia.
Qed.

Lemma reassert_rx_irq_wp s Q :
  (∀ s', rx_kept s s' → rx_space_fd s' = rx_space_fd s → pending_rx s' = pending_rx s →
     fifo_capacity (inner s') = fifo_capacity (inner s) → Q (Ok tt) s') →
  (∀ e s', Q (Err e) s') → wp Total reassert_rx_irq Q s.
Proof.
  intros HQ He. unfold reassert_rx_irq. do 2 wp_step. wp_step; [|wp_step; by apply HQ].
  wp_step. apply on_uart_wp. intros [[]|e] u (Hrx & Hlo & Hlog)%irq_write_frame; wp_step; [|by apply He].
  apply HQ; try done; [|by cbn; rewrite !capacity_spec, Hrx]. split; try done. unfold to_guest. cbn. by rewrite Hrx.
Qed.

(** The loop of the drain: the bytes read reach the FIFO, in order. *)
Record drained s (read : list Z) s' : Prop := mkDrained {
  dr_fifo : rx_fifo (inner s') = rx_fifo (inner s) ++ read;
  dr_pending : pending_rx s' = pending_rx s;
  dr_loop : loopback (inner s') = loopback (inner s);
  dr_log : stdin_log (inner s') = stdin_log (inner s) ++ read;
}.

Lemma drain_loop_wp s (Q : result Error unit → SerialConsole U Efd → Prop) :
  loopback (inner s) = false →
  (∀ read s', drained s read s' → (read ≠ [] → fifo_capacity (inner s) ≠ 0) → Q (Ok tt) s') → (∀ e s', Q (Err e) s') →
  wp Total (iter_prog (fuel * S (Z.to_nat (fifo_capacity (inner s)))) drain_step tt) Q s.
Proof.
  intros Hl HQ He.
  apply (wp_iter Total (λ _ s', ∃ read, drained s read s' ∧ (read ≠ [] → fifo_capacity (inner s) ≠ 0))
    (λ _ s', fuel * Z.to_nat (fifo_capacity (inner s')) + patience (inner s'))%nat).
  { exists []. split; [|done]. split; by rewrite ?app_nil_r. }
  { pose proof (patience_bound (inner s)). lia. }
  intros [] s1 (read & D1 & Hr). unfold drain_step. do 2 wp_step.
  destruct (Z.eqb_spec (fifo_capacity (inner s1)) 0) as [Hc|Hc]; [wp_step; by eapply HQ|].
  pose proof (capacity_nonneg (inner s1)) as Hc0. pose proof (capacity_nonneg (inner s)) as Hcs.
  assert (fifo_capacity (inner s) ≠ 0) as Hne.
  { rewrite !capacity_spec in *. rewrite (dr_fifo _ _ _ D1), zlen_app in *. pose proof (zlen_nonneg read). lia. }
  wp_step. apply on_uart_wp. intros [bs|e] u Eq.
  - apply stdin_read_ok in Eq as (Hn & Hrx & Hlo & Hlog); [|lia]. destruct bs as [|b bs].
    + do 3 wp_step. eapply (HQ read); [|done]. rewrite app_nil_r in Hlog.
      split; cbn; rewrite ?Hrx, ?Hlo, ?Hlog; apply D1.
    + assert (fifo_capacity u = fifo_capacity (inner s1)) as Hcu by (by rewrite !capacity_spec, Hrx).
      wp_step. unfold enqueue_rx. wp_step. apply on_uart_wp. intros [n|e] u2 Eq; wp_step; cbn [fmap result_fmap map_err]; [|wp_step; by apply He].
      apply enqueue_ok in Eq as (-> & Hrx2 & Hlo2 & Hlog2);
        [|cbn; by rewrite Hlo, (dr_loop _ _ _ D1)|cbn; rewrite Hcu; lia].
      cbn in Hrx2, Hlo2, Hlog2. rewrite Hcu in Hrx2. rewrite Z.min_r, take_ge in Hrx2 by (unfold zlen in *; lia). wp_step. split.
      * exists (read ++ b :: bs). split; [|done]. destruct D1 as [F P L G].
        split; cbn; [by rewrite Hrx2, Hrx, F, <-app_assoc|done|by rewrite Hlo2, Hl|by rewrite Hlog2, Hlog, G, <-app_assoc].
      * cbn. pose proof (patience_bound u2). pose proof (capacity_nonneg u2).
        assert (fifo_capacity u2 < fifo_capacity (inner s1)).
        { rewrite !capacity_spec, Hrx2, Hrx, zlen_app. pose proof (zlen_pos (b :: bs) ltac:(done)). lia. }
        assert (S (Z.to_nat (fifo_capacity u2)) ≤ Z.to_nat (fifo_capacity (inner s1)))%nat as Hle by lia.
        apply (Nat.mul_le_mono_l _ _ fuel) in Hle. lia.
  - pose proof Eq as Eq'. apply stdin_read_err in Eq as (Hrx & Hlo & Hlog).
    assert (drained s read (s1 <| inner := u |>)) as D2.
    { destruct D1 as [F P L G]. split; cbn; [by rewrite Hrx|done|by rewrite Hlo|by rewrite Hlog]. }
    wp_step; [wp_step; by eapply HQ|]. wp_step; wp_step; [|by apply He].
    split; [by exists read|]. cbn. rewrite !capacity_spec, Hrx, <-capacity_spec.
    pose proof (stdin_patience _ _ _ _ Eq' ltac:(done)). lia.
Qed.

(** *** In loopback mode *)

(** The bytes read are lost. *)
Record discarded s (read : list Z) s' : Prop := mkDiscarded {
  di_fifo : rx_fifo (inner s') = rx_fifo (inner s);
  di_pending : pending_rx s' = pending_rx s;
  di_loop : loopback (inner s') = true;
  di_log : stdin_log (inner s') = stdin_log (inner s) ++ read;
}.

(** The flush makes no progress. *)
Lemma loopback_flush_wp s Q :
  loopback (inner s) = true → (∀ r, Q r s) → wp Partial flush_pending_rx Q s.
Proof.
  intros Hl HQ. unfold flush_pending_rx. wp_step. wp_step.
  apply (wp_iter_partial (λ _ s', s' = s)); [done|]. intros [] ? ->. unfold flush_rx_step. do 2 wp_step.
  case_bool_decide as Hp; [wp_step; apply HQ|].
  destruct (Z.eqb_spec (fifo_capacity (inner s)) 0) as [Hc|Hc]; [wp_step; apply HQ|].
  wp_step. apply on_uart_wp. intros r u. rewrite enqueue_loopback by done. intros [= <- <-].
  pose proof (zlen_nonneg (pending_rx s)). wp_step. apply wp_assert; [by apply Z.leb_le|]. do 3 wp_step. by destruct s.
Qed.

Lemma loopback_drain_wp n s (Q : result Error unit → SerialConsole U Efd → Prop) :
  loopback (inner s) = true → (∀ read s', discarded s read s' → Q (Ok tt) s') → (∀ e s', Q (Err e) s') →
  wp Partial (iter_prog n drain_step tt) Q s.
Proof.
  intros Hl HQ He. apply (wp_iter_partial (λ _ s', ∃ read, discarded s read s')).
  { exists []. split; by rewrite ?app_nil_r. }
  intros [] s1 (read & D1). unfold drain_step. do 2 wp_step. wp_step; [wp_step; by eapply HQ|].
  pose proof (capacity_nonneg (inner s1)). wp_step. apply on_uart_wp. intros [bs|e] u Eq.
  - apply stdin_read_ok in Eq as (_ & Hrx & Hlo & Hlog); [|lia].
    assert (∀ s', inner s' = u → pending_rx s' = pending_rx s1 → discarded s (read ++ bs) s') as D2.
    { intros s' Hi Hp. destruct D1 as [F P L G]. split; rewrite ?Hi; [congruence|congruence|congruence|]. by rewrite Hlog, G, app_assoc. }
    destruct bs as [|b bs]; [do 3 wp_step; by eapply HQ, D2|].
    wp_step. unfold enqueue_rx. wp_step. apply on_uart_wp. intros r u2.
    rewrite enqueue_loopback by (cbn; by rewrite Hlo, (di_loop _ _ _ D1)). intros [= <- <-]. wp_step. cbn [fmap result_fmap map_err]. wp_step. eexists. by apply D2.
  - apply stdin_read_err in Eq as (Hrx & Hlo & Hlog).
    assert (discarded s read (s1 <| inner := u |>)) as D2 by (destruct D1; split; cbn; congruence).
    wp_step; [wp_step; by eapply HQ|]. wp_step; wp_step; [by eexists|by apply He].
Qed.

Lemma drain_loopback s :
  loopback (inner s) = true →
  match drain_stdin fuel s with
  | Ret (Ok _, s') => to_guest s' = to_guest s ∧ ∃ lost, stdin_log (inner s') = stdin_log (inner s) ++ lost
  | Ret (Err _, _) | Running => True
  | Panic => False
  end.
Proof.
  intros Hl. assert (wp Partial (drain_stdin fuel) (λ r s', is_ok r = true →
    to_guest s' = to_guest s ∧ ∃ lost, stdin_log (inner s') = stdin_log (inner s) ++ lost) s) as H.
  { unfold drain_stdin. wp_step. apply loopback_flush_wp; [done|]. intros [[]|e]; [|done]. wp_step.
    apply wp_total_weaken, reassert_rx_irq_wp; [|done]. intros s2 K _ Ep Ec. do 2 wp_step.
    destruct (stdin_ready s2); cbn [negb].
    - wp_step. apply loopback_drain_wp; [by rewrite (rk_loop _ _ K)| |done]. intros read s3 [F P L G]. do 3 wp_step.
      intros _. rewrite G, (rk_log _ _ K). split; [|by eexists]. rewrite <-(rk_bytes _ _ K). unfold to_guest. by rewrite F, P.
    - wp_step. intros _. split; [apply K|]. exists []. by rewrite app_nil_r, (rk_log _ _ K). }
  unfold wp in H. destruct (drain_stdin fuel s) as [[[st|e] s']| |]; [by apply H|done..].
Qed.

Lemma drain_exact s :
  loopback (inner s) = false →
  ∃ r s', drain_stdin fuel s = Ret (r, s') ∧
    match r with
    | Ok st =>
        (∃ read, to_guest s' = to_guest s ++ read ∧ stdin_log (inner s') = stdin_log (inner s) ++ read) ∧
        (pending_rx s' = [] ∨ fifo_capacity (inner s') = 0) ∧
        stdin_open st = stdin_ready s' ∧ fifo_has_space st = (0 <? fifo_capacity (inner s'))
    | Err _ => True
    end.
Proof.
  intros Hl. apply (wp_total_inv (drain_stdin fuel)). unfold drain_stdin. wp_step.
  apply serial_flush_wp; [done| |done]. intros s1 K1 _ Hp1. wp_step.
  apply reassert_rx_irq_wp; [|done]. intros s2 K2 _ Ep Ec. pose proof (rx_kept_trans _ _ _ K1 K2) as K.
  rewrite <-Ep, <-Ec in Hp1. do 2 wp_step. destruct (stdin_ready s2) eqn:Hready; cbn [negb].
  - wp_step. apply drain_loop_wp; [by rewrite (rk_loop _ _ K)| |done]. intros read s3 D Hr. do 3 wp_step.
    assert (read = [] ∨ pending_rx s2 = []) as Hor by (destruct read; [by left|right]; by destruct Hp1 as [?|?%Hr]).
    split_and!; [|rewrite (dr_pending _ _ _ D); destruct Hp1 as [?|Hc]; [by left|right]|done|done].
    + exists read. rewrite (dr_log _ _ _ D), (rk_log _ _ K). split; [|done]. rewrite <-(rk_bytes _ _ K). unfold to_guest.
      rewrite (dr_fifo _ _ _ D), (dr_pending _ _ _ D). destruct Hor as [-> | ->]; by rewrite ?app_nil_r, <-?app_assoc.
    + destruct read as [|b l]; [|by destruct (Hr ltac:(done))].
      by rewrite capacity_spec, (dr_fifo _ _ _ D), app_nil_r, <-capacity_spec.
  - wp_step. split_and!; [|done|done|done]. exists []. rewrite !app_nil_r. split; apply K.
Qed.

(** ** Theorems *)

(** C23: a drain of standard input. Out of loopback mode it returns, and when it succeeds
    every byte it read is on its way to the guest, after all bytes that already were, in
    order and exactly once; bytes the console owes the guest go first; and the status
    reports the state of the FIFO and of standard input truthfully. In loopback mode,
    which is the guest's choice, it never panics, but if it returns with success then
    nothing it read reaches the guest: the bytes on their way are the ones from before. *)
Theorem drain_stdin_exact s :
  if loopback (inner s) then
    match drain_stdin fuel s with
    | Ret (Ok _, s') => to_guest s' = to_guest s ∧ ∃ lost, stdin_log (inner s') = stdin_log (inner s) ++ lost
    | Ret (Err _, _) | Running => True
    | Panic => False
    end
  else
    ∃ r s', drain_stdin fuel s = Ret (r, s') ∧
      match r with
      | Ok st =>
          (∃ read, to_guest s' = to_guest s ++ read ∧ stdin_log (inner s') = stdin_log (inner s) ++ read) ∧
          (pending_rx s' = [] ∨ fifo_capacity (inner s') = 0) ∧
          stdin_open st = stdin_ready s' ∧ fifo_has_space st = (0 <? fifo_capacity (inner s'))
      | Err _ => True
      end.
Proof.
  destruct (loopback (inner s)) eqn:Hl; [by apply drain_loopback|by apply drain_exact].
Qed.







(** If the UART accepts no byte while its FIFO has room, as in loopback mode, the
    flush of the bytes owed to the guest does not return: for every bound on its
    iterations it is still running. *)
Theorem flush_never_returns s n :
  pending_rx s ≠ [] → 0 < fifo_capacity (inner s) →
  (∀ bs, enqueue_raw_bytes bs (inner s) = (Ok 0, inner s)) →
  iter_prog n flush_rx_step tt s = Running.
Proof.
  intros Hp Hc He. induction n as [|n IH]; [done|]. cbn [iter_prog].
  assert (flush_rx_step tt s = Ret (inl tt, s)) as E.
  { unfold flush_rx_step, mbind, prog_bind, get. rewrite bool_decide_eq_false_2 by done.
    destruct (Z.eqb_spec (fifo_capacity (inner s)) 0); [lia|]. unfold on_uart, act. rewrite He.
    unfold assert_that. pose proof (zlen_nonneg (pending_rx s)).
    destruct (Z.leb_spec 0 (zlen (pending_rx s))); [|lia]. cbn. by destruct s. }
  unfold mbind, prog_bind. rewrite E. exact IH.
Qed.

End facts.

(** ** Witnesses *)

(** A console with 70 bytes of standard input; the third read is interrupted. *)
Definition demo_uart : SUart := mkSUart [1; 2] false 0 (replicate 70 9) [] [] 2.
Definition demo_serial : SerialConsole SUart Z := serial_new demo_uart 0 true false.

Lemma drain_stdin_exact_witness :
  ∃ st s', drain_stdin SU_BURST demo_serial = Ret (Ok st, s') ∧
    to_guest s' = to_guest demo_serial ++ replicate 62 9 ∧ fifo_has_space st = false.
Proof.
  destruct (drain_stdin_exact (SL := Scripted_uart_laws) (SF := Scripted_uart_fair) demo_serial) as (r & s' & E & H).
  assert (ret_of (λ '(r, s), (r, rx_fifo (inner s), pending_rx s)) (drain_stdin SU_BURST demo_serial)
          = Some (Ok (mkDrainStatus true false), [1; 2] ++ replicate 62 9, [])) as E' by (vm_compute; reflexivity).
  rewrite E in E'. cbn [ret_of] in E'. injection E' as -> E1 E2. exists (mkDrainStatus true false), s'.
  split; [exact E|]. split; [|reflexivity]. unfold to_guest. cbn [rx_fifo Scripted_uart_laws] in *. by rewrite E1, E2.
Defined.


(** The UART of the witnesses in loopback mode, with an answer owed to the guest. *)
Lemma flush_never_returns_witness :
  iter_prog 100 flush_rx_step tt
    (demo_serial <| inner := demo_uart <| su_loop := true |> |> <| pending_rx := DSR_REPLY |>) = Running.
Proof.
  apply flush_never_returns; [discriminate|reflexivity|reflexivity].
Defined.

(** In loopback mode a drain takes the bytes from standard input, reports success and loses
    them. *)
Theorem loopback_loses_stdin :
  ∃ st s', drain_stdin SU_BURST (demo_serial <| inner := mkSUart [1; 2] true 0 [7; 8; 9] [] [] 0 |>) = Ret (Ok st, s') ∧
    to_guest s' = [1; 2] ∧ su_stdin (inner s') = [] ∧ stdin_log (inner s') = [7; 8; 9].
Proof. do 2 eexists. split; [vm_compute; reflexivity|]. by split_and!. Qed.

(** A wake-up of the standard input worker can be lost. The worker drains until the
    FIFO is full and releases the lock; the guest then reads the FIFO empty, which
    signals the descriptor; the worker clears that signal as stale and waits on the
    descriptor alone. Standard input has more bytes, the FIFO is empty, and as long as
    the guest does not read the empty FIFO again the worker does not look. *)
Theorem stdin_wakeup_lost :
  ∃ s', stdin_worker_loop SU_BURST [mkTurn (Polled [0; POLLIN]) [] [GuestRead 0x3f8 (replicate 64 0)]]
          (demo_serial <| inner := mkSUart [] false 0 (replicate 70 9) [] [] 0 |>)
        = Ret (inl (mkStdinLoop true true), s') ∧
    efd_count (rx_space_fd s') = 0 ∧ rx_fifo (inner s') = [] ∧ su_stdin (inner s') = replicate 6 9 ∧
    ∀ n, stdin_turns SU_BURST (replicate n (mkTurn (Polled [0; 0]) [] [])) (mkStdinLoop true true) s'
         = Ret (inl (mkStdinLoop true true), s').
Proof.
  eexists. split; [vm_compute; reflexivity|]. split_and!; [reflexivity..|].
  induction n as [|n IH]; [reflexivity|]. exact IH.
Qed.
