(* ===== verification/HostStdio.v ===== *)
(** * The host's terminal

    The rest of [devices/serial.rs]: [SerialConsole::new] takes standard input over from
    the shell (non-blocking, raw but for the interrupt characters), and [drop] or the
    handlers of [SIGINT] and [SIGTERM] give it back. The calls of the C library are a
    class; the three statics that the handlers read are part of the state. *)

From S2P Require Import Prelude Words Errors VirtQueue Serial.
Local Open Scope Z_scope.

Definition O_NONBLOCK : Z := 0x800.
Definition SIGINT : Z := 2.
Definition SIGTERM : Z := 15.

(** What a signal does: [SIG_DFL] or the handler of this file. *)
Inductive Disposition := DefaultAction | RestoreStdio.

(** [W] is the process and its terminal, [T] is [libc::termios]. *)
Class StdioHost (W T : Type) := {
  (** [fcntl] of standard input with [F_GETFL] and [F_SETFL] *)
  getfl : W → Z;
  setfl : Z → W → Z * W;
  isatty_stdin : W → bool;
  isatty_stdout : W → bool;
  (** [tcgetattr], [tcsetattr] and [cfmakeraw]; [true] is the result 0 *)
  tcgetattr : W → option T;
  tcsetattr : T → W → bool * W;
  cfmakeraw : T → T;
  (** [c_lflag |= ISIG] *)
  set_isig : T → T;
  (** [sigaction] and [signal], whose results are not used, and [raise] *)
  set_action : Z → Disposition → W → W;
  raise_signal : Z → W → W;
  (** [EventFd::new] and [register_irqfd] *)
  eventfd_new : W → result string unit * W;
  register_irqfd : Z → W → result Z unit * W;
}.

Record HostStdioState (T : Type) := mkHostStdio { fcntl_flags : option Z; termios : option T }.
Arguments mkHostStdio {T}.
Arguments fcntl_flags {T}.
Arguments termios {T}.

(** The process with [STDIO_HAS_BACKUP], [STDIO_SAVED_FLAGS] and [STDIO_SAVED_TERMIOS]. *)
Record Stdio (W T : Type) := mkStdio { io_host : W; has_backup : bool; saved_flags : Z; saved_termios : T }.
Arguments mkStdio {W T}.
Arguments io_host {W T}.
Arguments has_backup {W T}.
Arguments saved_flags {W T}.
Arguments saved_termios {W T}.
#[export] Instance eta_Stdio {W T} : Eta (Stdio W T) := λ s, mkStdio (io_host s) (has_backup s) (saved_flags s) (saved_termios s).

(** ** Operations *)

Section stdio.
Context {W T : Type} `{SI : !StdioHost W T}.
Local Abbreviation M := (prog (Stdio W T)).

Definition on_io {A} (f : W → A * W) : M A :=
  act (λ s, let '(a, w) := f (io_host s) in (a, s <| io_host := w |>)).

Definition install_stdio_signal_handlers : M unit :=
  modify (λ s, s <| io_host ::= set_action SIGINT RestoreStdio |>);;
  modify (λ s, s <| io_host ::= set_action SIGTERM RestoreStdio |>).

(** The status flags: those read, and those to restore. *)
Definition prepare_flags : M (Z * option Z) :=
  s ← get;
  let flags := getfl (io_host s) in
  if 0 <=? flags then
    rc ← on_io (setfl (Z.lor flags O_NONBLOCK));
    mret (flags, if rc =? 0 then Some flags else None)
  else mret (flags, None).

(** The terminal settings to restore. *)
Definition prepare_termios (flags : Z) : M (option T) :=
  s ← get;
  if isatty_stdin (io_host s) then
    match tcgetattr (io_host s) with
    | None => mret None
    | Some original =>
        ok ← on_io (tcsetattr (set_isig (cfmakeraw original)));
        if ok : bool then
          modify (λ s, s <| saved_flags := flags |> <| saved_termios := original |> <| has_backup := true |>);;
          install_stdio_signal_handlers;;
          mret (Some original)
        else mret None
    end
  else mret None.

Definition prepare_host_stdio : M (result Error (HostStdioState T)) :=
  p ← prepare_flags;
  tio ← prepare_termios p.1;
  mret (Ok (mkHostStdio p.2 tio)).

Definition restore_host_stdio (flags : option Z) (tio : option T) : M unit :=
  (match flags with Some f => _ ← on_io (setfl f); mret tt | None => mret tt end);;
  match tio with Some t => _ ← on_io (tcsetattr t); mret tt | None => mret tt end.

Definition restore_stdio_then_reraise (sig : Z) : M unit :=
  s ← get;
  (if has_backup s then
     restore_host_stdio (Some (saved_flags s)) (Some (saved_termios s));;
     modify (λ s, s <| has_backup := false |>)
   else mret tt);;
  modify (λ s, s <| io_host ::= set_action sig DefaultAction |>);;
  modify (λ s, s <| io_host ::= raise_signal sig |>).

(** [drop] of the console. *)
Definition console_drop (h : HostStdioState T) : M unit :=
  modify (λ s, s <| has_backup := false |>);;
  restore_host_stdio (fcntl_flags h) (termios h).

(** [SerialConsole::new] for a new UART [u] and a new descriptor [space]. A
    [HostStdioState] has no [drop] of its own. *)
Definition console_new {U Efd} (u : U) (space : Efd) : M (result Error (HostStdioState T * SerialConsole U Efd)) :=
  h ←? prepare_host_stdio;
  s ← get;
  let stdout_is_tty := isatty_stdout (io_host s) in
  r ← on_io eventfd_new;
  _ ←? mret (map_err (λ e, SerialErr (MsgExt "serial irq eventfd: " e)) r);
  r ← on_io (register_irqfd SERIAL_IRQ);
  _ ←? mret (map_err KvmIoctl r);
  r ← on_io eventfd_new;
  _ ←? mret (map_err (λ e, SerialErr (MsgExt "serial rx space eventfd: " e)) r);
  mret (Ok (h, serial_new u space (bool_decide (is_Some (fcntl_flags h))) stdout_is_tty)).

End stdio.

(** ** What is relied on

    Of [fcntl], [termios] and the signals: a failed call changes nothing, and what was
    read can be set again. [fl_of] and [tio_of] are the flags and the settings as the
    host has them. *)

Class StdioHostLaws (W T : Type) `{!StdioHost W T} := {
  fl_of : W → Z;
  tio_of : W → T;
  action_of : W → Z → Disposition;
  raised : W → list (Z * Disposition);
  getfl_reads : ∀ w, 0 ≤ getfl w → getfl w = fl_of w;
  setfl_sets : ∀ f w rc w', setfl f w = (rc, w') →
    fl_of w' = (if rc =? 0 then f else fl_of w) ∧ tio_of w' = tio_of w ∧ action_of w' = action_of w ∧ raised w' = raised w;
  setfl_again : ∀ w0 w, 0 ≤ getfl w0 → (setfl (getfl w0) w).1 = 0;
  tcgetattr_reads : ∀ w t, tcgetattr w = Some t → t = tio_of w;
  tcsetattr_sets : ∀ t w ok w', tcsetattr t w = (ok, w') →
    (ok = false → tio_of w' = tio_of w) ∧ fl_of w' = fl_of w ∧ action_of w' = action_of w ∧ raised w' = raised w;
  tcsetattr_again : ∀ w0 t w, tcgetattr w0 = Some t → tio_of (tcsetattr t w).2 = t;
  set_action_sets : ∀ sig d w g, action_of (set_action sig d w) g = if g =? sig then d else action_of w g;
  set_action_frame : ∀ sig d w, fl_of (set_action sig d w) = fl_of w ∧ tio_of (set_action sig d w) = tio_of w ∧
    raised (set_action sig d w) = raised w;
  raise_signal_raises : ∀ sig w, raised (raise_signal sig w) = raised w ++ [(sig, action_of w sig)];
  raise_signal_frame : ∀ sig w, fl_of (raise_signal sig w) = fl_of w ∧ tio_of (raise_signal sig w) = tio_of w;
}.

(** ** Giving the terminal back *)

Section restore.
Context {W T : Type} `{SI : !StdioHost W T, SL : !StdioHostLaws W T}.
Implicit Types s : Stdio W T.

(** Standard input is as it was. *)
Definition same_stdin s s' : Prop := fl_of (io_host s') = fl_of (io_host s) ∧ tio_of (io_host s') = tio_of (io_host s).

(** [f] and [t] were read from standard input in the state [s], where they are given. *)
Definition read_in s (f : option Z) (t : option T) : Prop :=
  (∀ x, f = Some x → 0 ≤ x ∧ getfl (io_host s) = x) ∧ (∀ x, t = Some x → ∃ w, tcgetattr w = Some x ∧ tio_of (io_host s) = x).

(** What is left to restore: with [f] and [t] put back, the state is as in [s]. *)
Definition restorable s s' (f : option Z) (t : option T) : Prop :=
  read_in s f t ∧
  (f = None → fl_of (io_host s') = fl_of (io_host s)) ∧ (t = None → tio_of (io_host s') = tio_of (io_host s)).

Lemma wp_on_io {A} (f : W → A * W) (Q : A → Stdio W T → Prop) s :
  (∀ a w, f (io_host s) = (a, w) → Q a (s <| io_host := w |>)) → wp Total (on_io f) Q s.
Proof. intros H. apply wp_act. intros a s' E. destruct (f (io_host s)) as [a0 w] eqn:E'. injection E as <- <-. by apply H. Qed.

Lemma prepare_flags_wp s :
  wp Total prepare_flags (λ p s',
    p.1 = getfl (io_host s) ∧ restorable s s' p.2 None ∧ has_backup s' = has_backup s ∧
    raised (io_host s') = raised (io_host s) ∧
    (p.2 = None ∨ fl_of (io_host s') = Z.lor (fl_of (io_host s)) O_NONBLOCK)) s.
Proof.
  unfold prepare_flags. wp_step. wp_step. wp_step; [|wp_step; split_and!; auto; repeat split; naive_solver].
  apply Z.leb_le in Hif. wp_step. apply wp_on_io. intros rc w E. wp_step.
  apply setfl_sets in E as (Hf & Ht & _ & Hr). unfold restorable, read_in. cbn.
  pose proof (getfl_reads (io_host s) Hif) as Hg. rewrite Hg in Hf.
  destruct (rc =? 0); split_and!; naive_solver.
Qed.

Lemma prepare_termios_wp flags s :
  wp Total (prepare_termios flags) (λ o s',
    fl_of (io_host s') = fl_of (io_host s) ∧ raised (io_host s') = raised (io_host s) ∧
    (∀ t, o = Some t → tcgetattr (io_host s) = Some t ∧ has_backup s' = true ∧ saved_flags s' = flags ∧ saved_termios s' = t ∧
       action_of (io_host s') SIGINT = RestoreStdio ∧ action_of (io_host s') SIGTERM = RestoreStdio) ∧
    (o = None → tio_of (io_host s') = tio_of (io_host s))) s.
Proof.
  unfold prepare_termios. wp_step. wp_step. wp_step; [|wp_step; naive_solver].
  wp_step; [|wp_step; naive_solver]. wp_step. apply wp_on_io. intros ok w E.
  apply tcsetattr_sets in E as (Ht & Hf & _ & Hr). wp_step; [|wp_step; naive_solver].
  do 2 wp_step. unfold install_stdio_signal_handlers. do 5 wp_step. cbn.
  destruct (set_action_frame SIGINT RestoreStdio w) as (F1 & F2 & F3).
  destruct (set_action_frame SIGTERM RestoreStdio (set_action SIGINT RestoreStdio w)) as (G1 & G2 & G3).
  rewrite G1, G3, F1, F3, !set_action_sets. split_and!; naive_solver.
Qed.

Lemma restore_host_stdio_wp s0 f t s :
  restorable s0 s f t →
  wp Total (restore_host_stdio f t) (λ _ s', same_stdin s0 s' ∧ has_backup s' = has_backup s ∧
    action_of (io_host s') = action_of (io_host s) ∧ raised (io_host s') = raised (io_host s)) s.
Proof.
  intros [[Rf Rt] [Nf Nt]]. unfold restore_host_stdio. wp_step.
  apply (wp_mono _ _ (λ _ s', fl_of (io_host s') = fl_of (io_host s0) ∧ tio_of (io_host s') = tio_of (io_host s) ∧
    has_backup s' = has_backup s ∧ action_of (io_host s') = action_of (io_host s) ∧ raised (io_host s') = raised (io_host s))).
  - destruct f as [f|]; [|wp_step; naive_solver]. destruct (Rf f eq_refl) as [H0 Hg]. wp_step. apply wp_on_io. intros rc w E. wp_step.
    pose proof (setfl_again (io_host s0) (io_host s)) as Ha. rewrite Hg, E in Ha. cbn in Ha. rewrite Ha in E by done.
    apply setfl_sets in E as (Hf & Ht & Hac & Hr). cbn. rewrite Hf, <-Hg. split_and!; auto. apply getfl_reads. lia.
  - intros [] s1 (Hf & Ht & Hb & Ha & Hr). destruct t as [t|]; [|wp_step; specialize (Nt eq_refl); unfold same_stdin; split_and!; congruence].
    destruct (Rt t eq_refl) as (w0 & Hg & H0). wp_step. apply wp_on_io. intros ok w E. wp_step.
    pose proof (tcsetattr_again w0 t (io_host s1) Hg) as Hs. rewrite E in Hs.
    apply tcsetattr_sets in E as (_ & Hf' & Ha' & Hr'). unfold same_stdin. cbn in *. split_and!; congruence.
Qed.

(** Standard input taken over from [s], as [h] says. *)
Record taken_over s (h : HostStdioState T) s1 : Prop := mkTaken {
  tk_restorable : restorable s s1 (fcntl_flags h) (termios h);
  tk_raised : raised (io_host s1) = raised (io_host s);
  tk_nonblock : fcntl_flags h = None ∨ fl_of (io_host s1) = Z.lor (fl_of (io_host s)) O_NONBLOCK;
  tk_backup : ∀ t, termios h = Some t → has_backup s1 = true ∧ saved_flags s1 = getfl (io_host s) ∧ saved_termios s1 = t;
  tk_handlers : is_Some (termios h) → ∀ sig, sig = SIGINT ∨ sig = SIGTERM → action_of (io_host s1) sig = RestoreStdio;
}.

Lemma prepare_host_stdio_wp s :
  wp Total prepare_host_stdio (λ r s1, ∃ h, r = Ok h ∧ taken_over s h s1) s.
Proof.
  unfold prepare_host_stdio. wp_step. wp_apply prepare_flags_wp. intros p s' (Hp & [[Rf _] [Nf Nt]] & _ & Hr & Hn).
  wp_step. wp_apply prepare_termios_wp. intros o s2 (Hf & Hr2 & Ho & No). wp_step.
  exists (mkHostStdio p.2 o). split; [done|]. specialize (Nt eq_refl).
  assert (∀ t, o = Some t → ∃ w, tcgetattr w = Some t ∧ tio_of (io_host s) = t) as Ht.
  { intros t Et. destruct (Ho t Et) as [Hg _]. exists (io_host s'). split; [done|]. apply tcgetattr_reads in Hg. congruence. }
  split; cbn; unfold restorable, read_in; rewrite ?Hf, ?Hr2; [|done|done| |].
  - split_and!; try done. intros Eo. rewrite <-Nt. by apply No.
  - intros t Et. destruct (Ho t Et) as (_ & Hb & Hs & Hst & _). by rewrite Hs.
  - intros [t Et] sig [->| ->]; by apply (Ho t Et).
Qed.

Lemma console_drop_wp s h s1 :
  taken_over s h s1 → wp Total (console_drop h) (λ u s2, same_stdin s s2 ∧ has_backup s2 = false) s1.
Proof.
  intros [Hres _ _ _ _]. unfold console_drop. wp_step. wp_step.
  wp_apply (restore_host_stdio_wp s); [exact Hres|]. naive_solver.
Qed.

Lemma reraise_wp s h s1 sig :
  taken_over s h s1 → is_Some (termios h) → 0 ≤ getfl (io_host s) →
  wp Total (restore_stdio_then_reraise sig) (λ _ s2, same_stdin s s2 ∧ has_backup s2 = false ∧
    raised (io_host s2) = raised (io_host s) ++ [(sig, DefaultAction)]) s1.
Proof.
  intros [[[Rf Rt] _] Hra _ Hb _] [t Et] H0. destruct (Hb t Et) as (Hbk & Hfl & Htio).
  unfold restore_stdio_then_reraise. wp_step. wp_step. rewrite Hbk. wp_step. wp_step.
  wp_apply (restore_host_stdio_wp s).
  { rewrite Hfl, Htio. split; [|done]. split; [by intros x [= <-]|]. intros x [= <-]. by apply Rt. }
  intros [] s2 ([Hf Ht] & _ & _ & Hr). do 4 wp_step. cbn.
  destruct (set_action_frame sig DefaultAction (io_host s2)) as (F1 & F2 & F3).
  destruct (raise_signal_frame sig (set_action sig DefaultAction (io_host s2))) as (G1 & G2).
  unfold same_stdin. cbn. rewrite raise_signal_raises, set_action_sets, Z.eqb_refl, G1, G2, F1, F2, F3, Hr, Hra. done.
Qed.

(** C40: the terminal is given back. Taking standard input over always returns, and when it
    reports the status flags to restore it made standard input non-blocking. Dropping the
    console restores the flags and the terminal settings from before. So do the handlers
    of SIGINT and SIGTERM, which are installed whenever standard input is a terminal that
    was made raw: they then raise the signal again with its default action. *)
Theorem stdio_restored s :
  ∃ h s1, prepare_host_stdio s = Ret (Ok h, s1) ∧
    (fcntl_flags h = None ∨ fl_of (io_host s1) = Z.lor (fl_of (io_host s)) O_NONBLOCK) ∧
    (∃ s2, console_drop h s1 = Ret (tt, s2) ∧ same_stdin s s2 ∧ has_backup s2 = false) ∧
    (is_Some (termios h) → 0 ≤ getfl (io_host s) → ∀ sig, sig = SIGINT ∨ sig = SIGTERM →
       action_of (io_host s1) sig = RestoreStdio ∧
       ∃ s2, restore_stdio_then_reraise sig s1 = Ret (tt, s2) ∧ same_stdin s s2 ∧ has_backup s2 = false ∧
         raised (io_host s2) = raised (io_host s) ++ [(sig, DefaultAction)]).
Proof.
  destruct (wp_total_inv _ _ _ (prepare_host_stdio_wp s)) as (r & s1 & E & h & -> & H). exists h, s1.
  split; [exact E|]. split; [apply H|]. split.
  - destruct (wp_total_inv _ _ _ (console_drop_wp _ _ _ H)) as ([] & s2 & H2). by exists s2.
  - intros Ht H0 sig Hsig. split; [by apply H|].
    destruct (wp_total_inv _ _ _ (reraise_wp _ _ _ sig H Ht H0)) as ([] & s2 & H2). by exists s2.
Qed.

End restore.

(** ** A scripted host *)

(** Settings are the local flags; [ss_irq] is the result of [register_irqfd]. *)
Record SStdio := mkSStdio {
  ss_fl : Z; ss_tty : bool; ss_tio : Z; ss_actions : gmap Z Disposition;
  ss_raised : list (Z * Disposition); ss_irq : result Z unit;
}.
#[export] Instance eta_SStdio : Eta SStdio := λ h,
  mkSStdio (ss_fl h) (ss_tty h) (ss_tio h) (ss_actions h) (ss_raised h) (ss_irq h).

Definition ss_action (h : SStdio) (sig : Z) : Disposition := default DefaultAction (ss_actions h !! sig).

#[export] Instance Scripted_stdio : StdioHost SStdio Z := {
  getfl := ss_fl;
  setfl f h := (0, h <| ss_fl := f |>);
  isatty_stdin := ss_tty;
  isatty_stdout := ss_tty;
  tcgetattr h := if ss_tty h then Some (ss_tio h) else None;
  tcsetattr t h := (true, h <| ss_tio := t |>);
  cfmakeraw _ := 0;
  set_isig t := Z.lor t 1;
  set_action sig d h := h <| ss_actions ::= <[sig := d]> |>;
  raise_signal sig h := h <| ss_raised ::= λ l, l ++ [(sig, ss_action h sig)] |>;
  eventfd_new h := (Ok tt, h);
  register_irqfd _ h := (ss_irq h, h);
}.

#[export] Instance Scripted_stdio_laws : StdioHostLaws SStdio Z.
Proof.
  refine {| fl_of := ss_fl; tio_of := ss_tio; action_of := ss_action; raised := ss_raised |}; try done.
  - intros f h rc h' [= <- <-]. done.
  - intros h t. cbn. by destruct (ss_tty h) => [[= <-]|].
  - intros t h ok h' [= <- <-]. done.
  - intros sig d h g. unfold ss_action. cbn. destruct (Z.eqb_spec g sig) as [->|Hg].
    + by rewrite lookup_insert_eq.
    + by rewrite lookup_insert_ne.
Defined.

(** A shell's terminal: standard input open for reading and writing, with echo. *)
Definition demo_stdio (tty : bool) (irq : result Z unit) : Stdio SStdio Z :=
  mkStdio (mkSStdio 2 tty 0x8a3b ∅ [] irq) false 0 0.

Lemma stdio_restored_witness :
  ∃ h s1 s2, prepare_host_stdio (demo_stdio true (Ok tt)) = Ret (Ok h, s1) ∧ ss_fl (io_host s1) = 0x802 ∧ ss_tio (io_host s1) = 1 ∧
    restore_stdio_then_reraise SIGINT s1 = Ret (tt, s2) ∧ ss_fl (io_host s2) = 2 ∧ ss_tio (io_host s2) = 0x8a3b ∧
    ss_raised (io_host s2) = [(SIGINT, DefaultAction)].
Proof.
  destruct (stdio_restored (demo_stdio true (Ok tt))) as (h & s1 & E & _ & _ & H). exists h, s1.
  assert (ret_of (λ '(r, s), (r, ss_fl (io_host s), ss_tio (io_host s))) (prepare_host_stdio (demo_stdio true (Ok tt)))
          = Some (Ok (mkHostStdio (Some 2) (Some 0x8a3b)), 0x802, 1)) as E' by (vm_compute; reflexivity).
  rewrite E in E'. cbn [ret_of] in E'. injection E' as -> Hf Ht.
  destruct (H (ex_intro _ _ eq_refl) ltac:(cbn; lia) SIGINT (or_introl eq_refl)) as (_ & s2 & E2 & [Hf2 Ht2] & _ & Hr).
  exists s2. split_and!; [exact E|exact Hf|exact Ht|exact E2|exact Hf2|exact Ht2|exact Hr].
Defined.

(** ** Where it is not given back *)

(** When the console cannot be created after the terminal was taken over, nothing restores
    it: the terminal stays raw and non-blocking. *)
Theorem stdio_kept_on_failure :
  ∃ e s1, console_new tt 0 (demo_stdio true (Err 22)) = Ret (Err e, s1) ∧
    ss_fl (io_host s1) = 0x802 ∧ ss_tio (io_host s1) = 1 ∧ ss_tio (io_host (demo_stdio true (Err 22))) = 0x8a3b.
Proof. do 2 eexists. split; [vm_compute; reflexivity|]. by vm_compute. Qed.

(** Standard input that is not a terminal is made non-blocking, but no handler is
    installed: a signal ends the process with the flag set. *)
Theorem stdio_kept_without_terminal :
  ∃ h s1, prepare_host_stdio (demo_stdio false (Ok tt)) = Ret (Ok h, s1) ∧
    fcntl_flags h = Some 2 ∧ ss_fl (io_host s1) = 0x802 ∧
    action_of (io_host s1) SIGINT = DefaultAction ∧ action_of (io_host s1) SIGTERM = DefaultAction.
Proof. do 2 eexists. split; [vm_compute; reflexivity|]. by vm_compute. Qed.
