(* ===== verification/VirtioMmio.v ===== *)
(** * The virtio-mmio transport

    [devices/virtio_mmio.rs]: the register file a guest driver programs,
    feature negotiation, queue set-up and the interrupt line. The queues, the
    event descriptors and guest memory are the interfaces of [VirtQueue]. *)

From S2P Require Import Prelude Words Errors VirtQueue.
Local Open Scope Z_scope.

Definition MMIO_SIZE : Z := 0x1000.
Definition VIRTIO_F_VERSION_1 : Z := Z.shiftl 1 32.
Definition MMIO_MAGIC : Z := 0x74726976.
Definition MMIO_VERSION : Z := 2.
Definition VENDOR_ID : Z := 0x1000.
Definition STATUS_FEATURES_OK : Z := 8.
Definition STATUS_FAILED : Z := 128.
Definition VIRTIO_MMIO_INT_VRING : Z := 1.

Definition REG_MAGIC : Z := 0x00.
Definition REG_VERSION : Z := 0x04.
Definition REG_DEVICE_ID : Z := 0x08.
Definition REG_VENDOR_ID : Z := 0x0c.
Definition REG_DEVICE_FEATURES : Z := 0x10.
Definition REG_DEVICE_FEATURES_SEL : Z := 0x14.
Definition REG_DRIVER_FEATURES : Z := 0x20.
Definition REG_DRIVER_FEATURES_SEL : Z := 0x24.
Definition REG_QUEUE_SEL : Z := 0x30.
Definition REG_QUEUE_NUM_MAX : Z := 0x34.
Definition REG_QUEUE_NUM : Z := 0x38.
Definition REG_QUEUE_READY : Z := 0x44.
Definition REG_QUEUE_NOTIFY : Z := 0x50.
Definition REG_INTERRUPT_STATUS : Z := 0x60.
Definition REG_INTERRUPT_ACK : Z := 0x64.
Definition REG_STATUS : Z := 0x70.
Definition REG_QUEUE_DESC_LOW : Z := 0x80.
Definition REG_QUEUE_DESC_HIGH : Z := 0x84.
Definition REG_QUEUE_AVAIL_LOW : Z := 0x90.
Definition REG_QUEUE_AVAIL_HIGH : Z := 0x94.
Definition REG_QUEUE_USED_LOW : Z := 0xa0.
Definition REG_QUEUE_USED_HIGH : Z := 0xa4.
Definition REG_CONFIG_GENERATION : Z := 0xfc.
Definition REG_CONFIG : Z := 0x100.

Record VirtioMmio (Q Efd : Type) := mkVirtioMmio {
  base : Z;
  device_id : Z;
  device_features : Z;
  status : Z;
  device_features_sel : Z;
  driver_features_sel : Z;
  driver_features : Z;
  queue_sel : Z;
  interrupt_status : Z;
  irq_fd : Efd;
  notify_fd : Efd;
  queues : list Q;
}.
Arguments mkVirtioMmio {Q Efd}.
Arguments base {Q Efd}.
Arguments device_id {Q Efd}.
Arguments device_features {Q Efd}.
Arguments status {Q Efd}.
Arguments device_features_sel {Q Efd}.
Arguments driver_features_sel {Q Efd}.
Arguments driver_features {Q Efd}.
Arguments queue_sel {Q Efd}.
Arguments interrupt_status {Q Efd}.
Arguments irq_fd {Q Efd}.
Arguments notify_fd {Q Efd}.
Arguments queues {Q Efd}.

#[export] Instance eta_VirtioMmio {Q Efd} : Eta (VirtioMmio Q Efd) := λ m,
  mkVirtioMmio (base m) (device_id m) (device_features m) (status m)
    (device_features_sel m) (driver_features_sel m) (driver_features m) (queue_sel m)
    (interrupt_status m) (irq_fd m) (notify_fd m) (queues m).

(** [read_le]: at most four bytes of the access. *)
Definition read_le (data : list Z) : Z :=
  let n := (length data `min` 4)%nat in
  from_le_bytes (take n data ++ replicate (4 - n) 0).

(** [write_le]: the access buffer after the read. *)
Definition write_le (data : list Z) (value : Z) : list Z :=
  let n := (length data `min` 4)%nat in
  take n (le_bytes 4 value) ++ drop n data.

(** A turn of the worker of a device: the register writes of the vCPUs before it looks at
    its state and while it waits, when it does not hold the lock, and what [poll] brings. *)
Record Turn := mkWorkerTurn {
  wt_before : list (Z * list Z);
  wt_during : list (Z * list Z);
  wt_poll : poll_turn;
}.

Section mmio.
Context {Q Mem Chain Rd Wr Efd : Type} `{VQ : !VirtQueue Q Mem Chain Rd Wr} `{EF : !EventFd Efd}.
Implicit Types m : VirtioMmio Q Efd.

Fixpoint new_queues (n : nat) (queue_max_size : Z) : result string (list Q) :=
  match n with
  | O => Ok []
  | S n' => q ← q_new queue_max_size; qs ← new_queues n' queue_max_size; mret (q :: qs)
  end.

Definition mmio_new (base device_id device_features : Z) (num_queues : nat)
    (queue_max_size : Z) : result Error (VirtioMmio Q Efd) :=
  match num_queues with
  | O => Err (VirtioErr (Msg "virtio-mmio requires at least one queue"))
  | S _ =>
      irq ← map_err (λ e, VirtioErr (MsgExt "" e)) (efd_new 0);
      notify ← map_err (λ e, VirtioErr (MsgExt "" e)) (efd_new 1);
      qs ← map_err (λ e, VirtioErr (MsgExt "" e)) (new_queues num_queues queue_max_size);
      mret (mkVirtioMmio base device_id device_features 0 0 0 0 0 0 irq notify qs)
  end.

(** The ioeventfds asked of KVM: address and datamatch, one per queue. *)
Definition ioeventfds m : list (Z * Z) :=
  (λ index, (base m + REG_QUEUE_NOTIFY, Z.of_nat index)) <$> seq 0 (length (queues m)).

(** [register_ioeventfds]: one request per queue, stopping at the first
    failure. *)
Fixpoint register_all {W} (register_ioevent : Z → Z → W → result Z unit * W)
    (reqs : list (Z * Z)) (w : W) : result Z unit * W :=
  match reqs with
  | [] => (Ok tt, w)
  | (addr, index) :: reqs' =>
      let '(r, w') := register_ioevent addr index w in
      match r with
      | Ok _ => register_all register_ioevent reqs' w'
      | Err e => (Err e, w')
      end
  end.

Definition register_ioeventfds {W} (register_ioevent : Z → Z → W → result Z unit * W) m (w : W)
    : result Z unit * W :=
  register_all register_ioevent (ioeventfds m) w.

Definition queue m (index : Z) : option Q := queues m !! Z.to_nat index.
Definition selected_queue m : option Q := queue m (queue_sel m).

(** Update of the selected queue; nothing happens when there is none. *)
Definition on_selected (f : Q → Q) m : VirtioMmio Q Efd :=
  m <| queues := alter f (Z.to_nat (queue_sel m)) (queues m) |>.

Definition mmio_reset m : VirtioMmio Q Efd :=
  m <| status := 0 |> <| device_features_sel := 0 |> <| driver_features_sel := 0 |>
    <| driver_features := 0 |> <| queue_sel := 0 |> <| interrupt_status := 0 |>
    <| queues ::= fmap q_reset |>.

Definition read_reg m (offset : Z) : Z :=
  if offset =? REG_MAGIC then MMIO_MAGIC
  else if offset =? REG_VERSION then MMIO_VERSION
  else if offset =? REG_DEVICE_ID then device_id m
  else if offset =? REG_VENDOR_ID then VENDOR_ID
  else if offset =? REG_DEVICE_FEATURES then
    if device_features_sel m =? 0 then cast 32 (Z.land (device_features m) 0xffffffff)
    else if device_features_sel m =? 1 then cast 32 (Z.shiftr (device_features m) 32)
    else 0
  else if offset =? REG_QUEUE_NUM_MAX then
    match selected_queue m with Some q => q_max_size q | None => 0 end
  else if offset =? REG_QUEUE_READY then
    match selected_queue m with Some q => Z.b2z (q_ready q) | None => 0 end
  else if offset =? REG_INTERRUPT_STATUS then interrupt_status m
  else if offset =? REG_STATUS then status m
  else if offset =? REG_CONFIG_GENERATION then 0
  else 0.

(** The REG_STATUS arm: zero resets, [FEATURES_OK] is refused unless the
    driver's features are a subset of the device's and include VERSION_1. *)
Definition write_status m (value : Z) : VirtioMmio Q Efd :=
  if value =? 0 then mmio_reset m
  else
    let m1 := m <| status := cast 8 value |> in
    if negb (Z.land (status m1) STATUS_FEATURES_OK =? 0) then
      let unknown := Z.land (driver_features m1) (bnot 64 (device_features m1)) in
      if negb (unknown =? 0) || (Z.land (driver_features m1) VIRTIO_F_VERSION_1 =? 0) then
        let m2 := m1 <| status ::= λ s, Z.land s (bnot 8 STATUS_FEATURES_OK) |> in
        m2 <| status ::= λ s, Z.lor s STATUS_FAILED |>
      else m1
    else m1.

(** The REG_QUEUE_READY arm on the selected queue. *)
Definition queue_ready_write (mem : Mem) (value : Z) (q : Q) : Q :=
  let ready := value =? 1 in
  let q1 := q_set_ready ready q in
  if ready && negb (q_is_valid mem q1) then q_set_ready false q1 else q1.

Definition write_reg (mem : Mem) m (offset value : Z) : option Z * VirtioMmio Q Efd :=
  if offset =? REG_DEVICE_FEATURES_SEL then (None, m <| device_features_sel := value |>)
  else if offset =? REG_DRIVER_FEATURES then
    (None,
     if driver_features_sel m =? 0 then
       m <| driver_features ::= λ f, Z.lor (Z.land f (bnot 64 0xffffffff)) value |>
     else if driver_features_sel m =? 1 then
       m <| driver_features ::= λ f, Z.lor (Z.land f 0xffffffff) (Z.shiftl value 32) |>
     else m)
  else if offset =? REG_DRIVER_FEATURES_SEL then (None, m <| driver_features_sel := value |>)
  else if offset =? REG_QUEUE_SEL then (None, m <| queue_sel := value |>)
  else if offset =? REG_QUEUE_NUM then (None, on_selected (q_set_size (cast 16 value)) m)
  else if offset =? REG_QUEUE_READY then (None, on_selected (queue_ready_write mem value) m)
  else if offset =? REG_QUEUE_NOTIFY then
    (if value <? Z.of_nat (length (queues m)) then Some value else None, m)
  else if offset =? REG_INTERRUPT_ACK then
    (None, m <| interrupt_status ::= λ s, Z.land s (bnot 32 value) |>)
  else if offset =? REG_STATUS then (None, write_status m value)
  else if offset =? REG_QUEUE_DESC_LOW then
    (None, on_selected (q_set_desc_table_address (Some value) None) m)
  else if offset =? REG_QUEUE_DESC_HIGH then
    (None, on_selected (q_set_desc_table_address None (Some value)) m)
  else if offset =? REG_QUEUE_AVAIL_LOW then
    (None, on_selected (q_set_avail_ring_address (Some value) None) m)
  else if offset =? REG_QUEUE_AVAIL_HIGH then
    (None, on_selected (q_set_avail_ring_address None (Some value)) m)
  else if offset =? REG_QUEUE_USED_LOW then
    (None, on_selected (q_set_used_ring_address (Some value) None) m)
  else if offset =? REG_QUEUE_USED_HIGH then
    (None, on_selected (q_set_used_ring_address None (Some value)) m)
  else (None, m).

(** [read]: the access buffer after the read; [None] when [addr - base]
    underflows. *)
Definition mmio_read m (addr : Z) (data config : list Z) : option (list Z) :=
  offset ← checked_sub addr (base m);
  let config_end := REG_CONFIG + Z.of_nat (length config) in
  if (REG_CONFIG <=? offset) && (offset <? config_end) then
    Some (imap (λ i _, nth (Z.to_nat (offset - REG_CONFIG) + i) config 0) data)
  else Some (write_le data (read_reg m offset)).

Definition mmio_write (mem : Mem) m (addr : Z) (data : list Z)
    : option (option Z * VirtioMmio Q Efd) :=
  offset ← checked_sub addr (base m);
  Some (write_reg mem m offset (read_le data)).

Definition signal_used_queue m : result Error unit * VirtioMmio Q Efd :=
  let m1 := m <| interrupt_status ::= λ s, Z.lor s VIRTIO_MMIO_INT_VRING |> in
  let '(r, e) := efd_write (irq_fd m1) in
  (map_err (λ x, VirtioErr (MsgExt "" x)) r, m1 <| irq_fd := e |>).

(** ** The transport as a state machine

    A step is a guest access to the window or the device signalling the used
    ring. *)

Inductive mmio_step (mem : Mem) : VirtioMmio Q Efd → VirtioMmio Q Efd → Prop :=
| step_write m addr data r m' :
    bytes_ok data → mmio_write mem m addr data = Some (r, m') → mmio_step mem m m'
| step_signal m r m' :
    signal_used_queue m = (r, m') → mmio_step mem m m'.

(** Steps with guest memory changing between them. *)
Inductive mmio_reach : VirtioMmio Q Efd → VirtioMmio Q Efd → Prop :=
| reach_refl m : mmio_reach m m
| reach_step mem m1 m2 m3 : mmio_reach m1 m2 → mmio_step mem m2 m3 → mmio_reach m1 m3.

(** Register widths. *)
Definition mmio_ok m : Prop :=
  is_u8 (status m) ∧ is_u32 (device_features_sel m) ∧ is_u32 (driver_features_sel m)
  ∧ is_u64 (driver_features m) ∧ is_u32 (queue_sel m) ∧ is_u32 (interrupt_status m).

(** ** Lemmas *)

Lemma read_le_u32 data : bytes_ok data → is_u32 (read_le data).
Proof.
  intros Hd. unfold read_le. set (n := (length data `min` 4)%nat).
  assert (bytes_ok (take n data ++ replicate (4 - n) 0)) as Hb.
  { apply bytes_ok_app. split; [by apply bytes_ok_take|by apply Forall_replicate]. }
  apply from_le_bytes_range in Hb.
  rewrite length_app, length_take, length_replicate in Hb.
  replace (n `min` length data + (4 - n))%nat with 4%nat in Hb by lia. done.
Qed.

Lemma read_le_word v data : is_u32 v → read_le (le_bytes 4 v ++ data) = v.
Proof.
  intros Hv. unfold read_le. rewrite length_app, length_le_bytes.
  replace ((4 + length data) `min` 4)%nat with 4%nat by lia.
  rewrite (take_app_length' (le_bytes 4 v)) by (by rewrite length_le_bytes).
  rewrite app_nil_r. by apply from_le_le_bytes_small.
Qed.

Lemma mmio_new_ok b id f n sz m :
  mmio_new b id f n sz = Ok m →
  mmio_ok m ∧ base m = b ∧ device_id m = id ∧ device_features m = f ∧ status m = 0.
Proof.
  unfold mmio_new. destruct n as [|n]; [done|].
  destruct (new_queues (S n) sz) as [qs|], (efd_new 0) as [i|], (efd_new 1) as [i'|]; cbn; try done.
  intros [= <-]. cbn. unfold mmio_ok, uint. cbn. lia.
Qed.

Lemma mmio_reset_ok m : mmio_ok (mmio_reset m).
Proof. unfold mmio_ok, uint. cbn. lia. Qed.

Lemma write_status_ok m v : mmio_ok m → mmio_ok (write_status m v).
Proof.
  intros Hm. unfold write_status. case_match; [apply mmio_reset_ok|].
  destruct Hm as (H1 & H2 & H3 & H4 & H5 & H6).
  assert (is_u8 (cast 8 v)) by (by apply uint_cast).
  repeat case_match; split_and!; cbn; try done.
  apply uint_lor; [done| |by unfold uint].
  apply uint_land; [done|done|]. by apply uint_bnot.
Qed.

Lemma is_u64_low v : is_u32 v → is_u64 v.
Proof. apply uint_mono. lia. Qed.

Lemma is_u64_shiftl v : is_u32 v → is_u64 (Z.shiftl v 32).
Proof.
  intros [? ?]. rewrite Z.shiftl_mul_pow2 by lia. unfold uint.
  change (2 ^ 64) with (2 ^ 32 * 2 ^ 32). nia.
Qed.

Lemma write_reg_ok mem m off v : is_u32 v → mmio_ok m → mmio_ok (write_reg mem m off v).2.
Proof.
  intros Hv Hm. unfold write_reg.
  repeat case_match; cbn; try done; try (by apply write_status_ok);
    destruct Hm as (?&?&?&?&?&?); split_and!; cbn; try done.
  - apply uint_lor; [done| |by apply is_u64_low]. apply uint_land; [done|done|].
    by apply uint_bnot.
  - apply uint_lor; [done| |by apply is_u64_shiftl]. apply uint_land; [done|done|done].
  - apply uint_land; [done|done|]. by apply uint_bnot.
Qed.

Lemma mmio_step_ok mem m m' : mmio_step mem m m' → mmio_ok m → mmio_ok m'.
Proof.
  intros [m1 addr data r m2 Hd Hw|m1 r m2 Hs] Hm.
  - unfold mmio_write in Hw. destruct (checked_sub addr (base m1)) as [off|]; [|done].
    cbn in Hw. injection Hw as Hw.
    pose proof (write_reg_ok mem m1 off (read_le data) (read_le_u32 data Hd) Hm) as Hok.
    by rewrite Hw in Hok.
  - unfold signal_used_queue in Hs. cbn in Hs.
    destruct (efd_write (irq_fd m1)) as [x e]. injection Hs as _ <-.
    destruct Hm as (H1 & H2 & H3 & H4 & H5 & H6). split_and!; cbn; try done.
    by apply uint_lor.
Qed.

(** A guest access changes a queue by a sequence of settings only, and leaves
    the interrupt line alone. *)
Inductive settings : Q → Q → Prop :=
| settings_refl q : settings q q
| settings_step f q q' : queue_setting f → settings (f q) q' → settings q q'.

Lemma settings_one f q : queue_setting f → settings q (f q).
Proof. intros H. eapply settings_step; [exact H|]. apply settings_refl. Qed.

Lemma settings_trans q1 q2 q3 : settings q1 q2 → settings q2 q3 → settings q1 q3.
Proof. induction 1 as [|f q q' Hf _ IH]; [done|]. intros H. eapply settings_step; [exact Hf|by apply IH]. Qed.

Lemma queue_ready_settings mem v q : settings q (queue_ready_write mem v q).
Proof.
  unfold queue_ready_write. destruct (v =? 1).
  - eapply settings_step; [apply (qs_ready true)|]. cbn.
    destruct (q_is_valid _ _); [apply settings_refl|]. apply (settings_one (q_set_ready false)). constructor.
  - apply (settings_one (q_set_ready false)). constructor.
Qed.

Lemma on_selected_settings f m i q :
  (∀ q, settings q (f q)) → queues m !! i = Some q →
  ∃ q', queues (on_selected f m) !! i = Some q' ∧ settings q q'.
Proof.
  intros Hf Hq. unfold on_selected. cbn. destruct (decide (i = Z.to_nat (queue_sel m))) as [->|Hne].
  - rewrite list_lookup_alter_eq, Hq. eexists. split; [done|apply Hf].
  - rewrite list_lookup_alter_ne by done. eexists. split; [done|apply settings_refl].
Qed.

Lemma write_reg_settings mem m off v i q :
  queues m !! i = Some q →
  irq_fd (write_reg mem m off v).2 = irq_fd m ∧
  ∃ q', queues (write_reg mem m off v).2 !! i = Some q' ∧ settings q q'.
Proof.
  intros Hq. assert (∃ q', queues m !! i = Some q' ∧ settings q q') as Hid
    by (eexists; split; [done|apply settings_refl]).
  assert (∃ q', (q_reset <$> queues m) !! i = Some q' ∧ settings q q') as Hreset.
  { rewrite list_lookup_fmap, Hq. eexists. split; [done|]. apply settings_one. constructor. }
  unfold write_reg, write_status. repeat case_match; cbn; (split; [done|]); try done;
    apply on_selected_settings; try done; intros q0;
    first [apply queue_ready_settings | apply (settings_one (q_set_size _)); constructor
          | apply (settings_one (q_set_desc_table_address _ _)); constructor
          | apply (settings_one (q_set_avail_ring_address _ _)); constructor
          | apply (settings_one (q_set_used_ring_address _ _)); constructor].
Qed.

Lemma mmio_write_settings mem m addr data r m' i q :
  mmio_write mem m addr data = Some (r, m') → queues m !! i = Some q →
  irq_fd m' = irq_fd m ∧ ∃ q', queues m' !! i = Some q' ∧ settings q q'.
Proof.
  unfold mmio_write. destruct (checked_sub addr (base m)) as [off|]; [|done]. cbn.
  intros [= E] Hq. pose proof (write_reg_settings mem m off (read_le data) i q Hq) as H. by rewrite E in H.
Qed.

(** Accesses of the vCPUs while a worker has released the lock: the addresses and the
    bytes they write, in order. *)
Definition vcpu_access (mem : Mem) m (a : Z * list Z) : VirtioMmio Q Efd :=
  match mmio_write mem m a.1 a.2 with Some (_, m') => m' | None => m end.

Lemma vcpu_accesses_settings mem l m i q :
  queues m !! i = Some q →
  irq_fd (foldl (vcpu_access mem) m l) = irq_fd m ∧
  ∃ q', queues (foldl (vcpu_access mem) m l) !! i = Some q' ∧ settings q q'.
Proof.
  revert m q. induction l as [|[addr data] l IH]; intros m q Hq; cbn [foldl].
  { split; [done|]. eexists. split; [done|apply settings_refl]. }
  unfold vcpu_access at 2 4. cbn.
  destruct (mmio_write mem m addr data) as [[r m']|] eqn:E; [|by apply IH].
  destruct (mmio_write_settings _ _ _ _ _ _ _ _ E Hq) as (Hirq & q1 & Hq1 & Hs1).
  destruct (IH m' q1 Hq1) as (Hirq2 & q2 & Hq2 & Hs2).
  split; [congruence|]. exists q2. split; [done|by eapply settings_trans].
Qed.

Lemma settings_logs `{VL : !VirtQueueLaws Q Mem Chain Rd Wr, QF : !QueueFair Q Mem Chain Rd Wr} q q' :
  settings q q' → q_used_log q' = q_used_log q ∧ q_popped q' = q_popped q ∧ (q_backlog q' ≤ q_backlog q)%nat.
Proof.
  induction 1 as [|f q q' Hf _ (IH1 & IH2 & IH3)]; [done|].
  destruct (q_setting_logs f q Hf) as [H1 H2]. pose proof (q_setting_backlog f q Hf).
  split_and!; [congruence|congruence|lia].
Qed.

(** The identity of the device and its set of queues never change. *)
Definition mmio_same_device m m' : Prop :=
  base m' = base m ∧ device_id m' = device_id m ∧ device_features m' = device_features m
  ∧ length (queues m') = length (queues m).

Lemma write_reg_same_device mem m off v : mmio_same_device m (write_reg mem m off v).2.
Proof.
  unfold write_reg, write_status, mmio_same_device.
  repeat case_match; cbn; split_and!; try done;
    rewrite ?length_alter, ?length_fmap; done.
Qed.

Lemma mmio_step_same_device mem m m' : mmio_step mem m m' → mmio_same_device m m'.
Proof.
  intros [m1 addr data r m2 Hd Hw|m1 r m2 Hs].
  - unfold mmio_write in Hw. destruct (checked_sub addr (base m1)) as [off|]; [|done].
    cbn in Hw. injection Hw as Hw.
    pose proof (write_reg_same_device mem m1 off (read_le data)) as H. by rewrite Hw in H.
  - unfold signal_used_queue in Hs. cbn in Hs.
    destruct (efd_write (irq_fd m1)) as [x e]. by injection Hs as _ <-.
Qed.

(** What the driver has acknowledged is offered, and includes VERSION_1. *)
Definition features_acceptable m : Prop :=
  (∀ i, 0 ≤ i → Z.testbit (driver_features m) i = true → Z.testbit (device_features m) i = true)
  ∧ Z.testbit (driver_features m) 32 = true.

Lemma ldiff_zero_subset a b : Z.ldiff a b = 0 ↔
  ∀ i, 0 ≤ i → Z.testbit a i = true → Z.testbit b i = true.
Proof.
  split.
  - intros H0 i Hi Ha. assert (Z.testbit (Z.ldiff a b) i = false) as Hb
      by (rewrite H0; apply Z.testbit_0_l).
    rewrite Z.ldiff_spec, Ha in Hb. by destruct (Z.testbit b i).
  - intros Hs. apply Z.bits_inj'. intros i Hi. rewrite Z.ldiff_spec, Z.testbit_0_l.
    destruct (Z.testbit a i) eqn:Ha; [|done]. by rewrite Hs.
Qed.

(** The status write in closed form. *)
Lemma write_status_accepted m v :
  v ≠ 0 → features_acceptable m → is_u64 (driver_features m) →
  write_status m v = m <| status := cast 8 v |>.
Proof.
  intros Hv [Hsub Hver] Hd. unfold write_status.
  rewrite (proj2 (Z.eqb_neq v 0) Hv). cbn.
  rewrite land_bnot by done. apply ldiff_zero_subset in Hsub. rewrite Hsub.
  change VIRTIO_F_VERSION_1 with (2 ^ 32). rewrite land_pow2_eqb, Hver by lia. cbn.
  by destruct (negb _).
Qed.

Lemma write_status_refused m v :
  v ≠ 0 → ¬ features_acceptable m → is_u64 (driver_features m) → Z.testbit v 3 = true →
  write_status m v
  = m <| status := Z.lor (Z.land (cast 8 v) (bnot 8 STATUS_FEATURES_OK)) STATUS_FAILED |>.
Proof.
  intros Hv Hno Hd Hbit. unfold write_status.
  rewrite (proj2 (Z.eqb_neq v 0) Hv). cbn.
  change STATUS_FEATURES_OK with (2 ^ 3). rewrite (land_pow2_eqb (cast 8 v)) by lia.
  unfold cast at 1. rewrite Z.mod_pow2_bits_low, Hbit by lia. cbn.
  rewrite land_bnot by done. change VIRTIO_F_VERSION_1 with (2 ^ 32).
  rewrite land_pow2_eqb by lia.
  destruct (Z.eqb_spec (Z.ldiff (driver_features m) (device_features m)) 0) as [E|E]; cbn; [|done].
  destruct (Z.testbit (driver_features m) 32) eqn:Ever; cbn; [|done].
  exfalso. apply Hno. split; [by apply ldiff_zero_subset|done].
Qed.

Lemma write_status_features_ok m v :
  is_u64 (driver_features m) → Z.testbit (status (write_status m v)) 3 = true →
  features_acceptable (write_status m v).
Proof.
  intros Hd. destruct (Z.eq_dec v 0) as [->|Hv]; [done|].
  assert (Decision (features_acceptable m)) as [Hyes|Hno].
  { destruct (decide (Z.ldiff (driver_features m) (device_features m) = 0
               ∧ Z.testbit (driver_features m) 32 = true)) as [[H1 H2]|H].
    - left. split; [by apply ldiff_zero_subset|done].
    - right. intros [H1 H2]. apply H. split; [by apply ldiff_zero_subset|done]. }
  - by rewrite write_status_accepted.
  - destruct (Z.testbit v 3) eqn:E.
    + rewrite write_status_refused by done. cbn [status].
      cbn. rewrite Z.lor_spec, Z.land_spec. unfold bnot. rewrite Z.ldiff_spec.
      by rewrite andb_false_r.
    + intros Hb. exfalso. revert Hb. unfold write_status.
      rewrite (proj2 (Z.eqb_neq v 0) Hv). cbn.
      change STATUS_FEATURES_OK with (2 ^ 3). rewrite (land_pow2_eqb (cast 8 v)) by lia.
      assert (Z.testbit (cast 8 v) 3 = false) as E'
        by (unfold cast; by rewrite Z.mod_pow2_bits_low by lia).
      by rewrite E'; cbn; rewrite E'.
Qed.

Lemma queue_ready_write_valid mem v q :
  (∀ b q, q_ready (q_set_ready b q) = b) →
  q_ready (queue_ready_write mem v q) = true →
  v = 1 ∧ q_is_valid mem (queue_ready_write mem v q) = true.
Proof.
  intros Hr. unfold queue_ready_write.
  destruct (Z.eqb_spec v 1) as [->|]; cbn; [|by rewrite Hr].
  destruct (q_is_valid mem (q_set_ready true q)) eqn:E; cbn; [done|by rewrite Hr].
Qed.

Lemma on_selected_ready (f : Q → Q) m idx q' :
  (∀ q, q_ready (f q) = q_ready q) →
  queue (on_selected f m) idx = Some q' → q_ready q' = true →
  ∃ q, queue m idx = Some q ∧ q_ready q = true.
Proof.
  intros Hf. unfold queue, on_selected. cbn. rewrite list_lookup_alter.
  case_decide as E; [|eauto].
  destruct (queues m !! Z.to_nat idx) as [q|] eqn:Eq; rewrite E, Eq; cbn; [|done].
  intros [= <-] Hr. exists q. split; [done|]. by rewrite <-(Hf q).
Qed.

End mmio.

(** ** Properties *)

Section mmio_properties.
Context {Q Mem Chain Rd Wr Efd : Type} `{VQ : !VirtQueue Q Mem Chain Rd Wr} `{EF : !EventFd Efd}.
Implicit Types m : VirtioMmio Q Efd.

(** From creation on, whatever the guest writes and however memory changes
    in between, every register stays in its width and the device's identity,
    offered features and number of queues never change. *)
Theorem mmio_reachable_invariant b id f n sz m0 m :
  mmio_new b id f n sz = Ok m0 → mmio_reach m0 m →
  mmio_ok m ∧ mmio_same_device m0 m ∧ base m = b ∧ device_features m = f.
Proof.
  intros Hnew Hreach. apply mmio_new_ok in Hnew as (Hok & Hb & _ & Hf & _).
  enough (mmio_ok m ∧ mmio_same_device m0 m) as [Hok' (E1 & E2 & E3 & E4)].
  { split_and!; try done; [by rewrite E1|by rewrite E3]. }
  induction Hreach as [m|mem m0 m m' Hr IH Hs]; [done|].
  destruct (IH Hok Hb Hf) as [Hm (E1 & E2 & E3 & E4)].
  pose proof (mmio_step_same_device _ _ _ Hs) as (F1 & F2 & F3 & F4).
  split; [by eapply mmio_step_ok|]. split_and!; congruence.
Qed.

(** Writing the device status with FEATURES_OK keeps the bit exactly when
    the acknowledged features are offered and include VERSION_1; otherwise the
    bit reads back clear and FAILED reads back set. *)
Theorem mmio_status_negotiation m v :
  mmio_ok m → v ≠ 0 → Z.testbit v 3 = true →
  let m' := write_status m v in
  (features_acceptable m → read_reg m' REG_STATUS = cast 8 v)
  ∧ (¬ features_acceptable m →
     Z.testbit (read_reg m' REG_STATUS) 3 = false ∧ Z.testbit (read_reg m' REG_STATUS) 7 = true)
  ∧ driver_features m' = driver_features m ∧ queues m' = queues m.
Proof.
  intros (_ & _ & _ & Hd & _) Hv Hbit m'. unfold m'.
  assert (Hc : Z.testbit (cast 8 v) 3 = true)
    by (unfold cast; by rewrite Z.mod_pow2_bits_low by lia).
  split_and!.
  - intros Hyes. by rewrite write_status_accepted.
  - intros Hno. rewrite write_status_refused by done. cbn.
    by rewrite !Z.lor_spec, !Z.land_spec; unfold bnot; rewrite !Z.ldiff_spec, andb_false_r, orb_true_r.
  - unfold write_status. rewrite (proj2 (Z.eqb_neq v 0) Hv). by repeat case_match.
  - unfold write_status. rewrite (proj2 (Z.eqb_neq v 0) Hv). by repeat case_match.
Qed.

(** C20: a step of the transport turns FEATURES_OK on only in a state whose
    acknowledged features are offered and include VERSION_1. *)
Theorem mmio_features_ok_safe mem m m' :
  mmio_ok m → mmio_step mem m m' →
  Z.testbit (status m) 3 = false → Z.testbit (status m') 3 = true → features_acceptable m'.
Proof.
  intros Hok Hstep Hoff Hon. destruct Hstep as [m1 addr data r m2 Hdata Hw|m1 r m2 Hs].
  - unfold mmio_write in Hw. destruct (checked_sub addr (base m1)) as [off|]; [|done].
    cbn in Hw. injection Hw as Hw. unfold write_reg in Hw.
    repeat case_match; injection Hw as _ <-; try (cbn in Hon; congruence).
    apply write_status_features_ok; [|done]. apply Hok.
  - unfold signal_used_queue in Hs. cbn in Hs.
    destruct (efd_write (irq_fd m1)) as [x e]. injection Hs as _ <-. cbn in Hon. congruence.
Qed.

(** The guest reads the 64 offered feature bits through the two 32-bit
    windows, and the two 32-bit words it acknowledges become the 64-bit
    feature set. *)
Theorem mmio_feature_words mem m lo hi :
  is_u64 (device_features m) → is_u64 (driver_features m) → is_u32 lo → is_u32 hi →
  let wr m off v := (write_reg mem m off v).2 in
  let r0 := read_reg (wr m REG_DEVICE_FEATURES_SEL 0) REG_DEVICE_FEATURES in
  let r1 := read_reg (wr m REG_DEVICE_FEATURES_SEL 1) REG_DEVICE_FEATURES in
  let m1 := wr (wr m REG_DRIVER_FEATURES_SEL 0) REG_DRIVER_FEATURES lo in
  let m2 := wr (wr m1 REG_DRIVER_FEATURES_SEL 1) REG_DRIVER_FEATURES hi in
  r0 + 2 ^ 32 * r1 = device_features m ∧ driver_features m2 = lo + 2 ^ 32 * hi.
Proof.
  intros Hdev Hdrv Hlo Hhi wr r0 r1 m1 m2. cbn. split.
  - unfold r0, r1. cbn. unfold cast.
    change 0xffffffff with (Z.ones 32). rewrite Z.land_ones, Z.mod_mod, Z.shiftr_div_pow2 by lia.
    unfold uint in Hdev. change (2 ^ 64) with (2 ^ 32 * 2 ^ 32) in Hdev.
    rewrite (Z.mod_small (_ / _)).
    + pose proof (Z.div_mod (device_features m) (2 ^ 32) ltac:(done)). lia.
    + split; [apply Z.div_pos; lia|]. apply Z.div_lt_upper_bound; lia.
  - unfold m2, m1. cbn. change 0xffffffff with (Z.ones 32).
    rewrite Z.land_lor_distr_l, <-Z.land_assoc.
    assert (Z.land (bnot 64 (Z.ones 32)) (Z.ones 32) = 0) as -> by done.
    rewrite Z.land_0_r, Z.lor_0_l, Z.land_ones, Z.mod_small by done.
    rewrite lor_shiftl_add by (done || lia). done.
Qed.

(** C32: a queue that is ready after a guest access was ready before, and the access was
    not a reset of the device, or the access was the write of 1 to QueueReady with that
    queue selected, and its rings are valid in guest memory. So no other register makes
    a queue ready, none with invalid rings is, and a reset leaves none ready. *)
Theorem mmio_queue_ready_guard `{!VirtQueueLaws Q Mem Chain Rd Wr} mem m addr data r m' idx q' :
  mmio_write mem m addr data = Some (r, m') →
  queue m' idx = Some q' → q_ready q' = true →
  (∃ q, queue m idx = Some q ∧ q_ready q = true ∧ ¬ (addr = base m + REG_STATUS ∧ read_le data = 0))
  ∨ (addr = base m + REG_QUEUE_READY ∧ read_le data = 1 ∧ Z.to_nat idx = Z.to_nat (queue_sel m) ∧
     q_is_valid mem q' = true).
Proof.
  intros Hw Hq Hr. unfold mmio_write in Hw.
  destruct (checked_sub addr (base m)) as [off|] eqn:Eoff; [|done].
  apply checked_sub_Some in Eoff as [Eoff _].
  cbn in Hw. injection Hw as Hw. unfold write_reg in Hw.
  destruct (Z.eqb_spec off REG_QUEUE_READY) as [->|Hne].
  - cbn in Hw. injection Hw as _ <-. unfold queue, on_selected in Hq. cbn in Hq.
    rewrite list_lookup_alter in Hq. case_decide as E.
    2:{ left. exists q'. split_and!; [done|done|]. intros [H _]. unfold REG_STATUS, REG_QUEUE_READY in *. lia. }
    unfold queue. destruct (queues m !! Z.to_nat idx) as [q|] eqn:Eq; rewrite E, Eq in Hq; [|done].
    cbn in Hq. injection Hq as <-. right.
    apply queue_ready_write_valid in Hr as [? ?]; [|apply q_ready_set_ready].
    split_and!; [lia|done|done|done].
  - left. destruct (Z.eqb_spec off REG_STATUS) as [->|Hns].
    + cbn in Hw. injection Hw as _ <-. unfold write_status in Hq. destruct (Z.eqb_spec (read_le data) 0) as [E0|H0].
      * unfold queue in Hq. cbn in Hq. rewrite list_lookup_fmap in Hq.
        destruct (queues m !! Z.to_nat idx) as [q|]; [|done]. injection Hq as <-. by rewrite q_ready_reset in Hr.
      * exists q'. split_and!; [|done|by intros [_ ?]]. by repeat case_match.
    + assert (¬ (addr = base m + REG_STATUS ∧ read_le data = 0)) as Hnot by (intros [H _]; lia).
      assert (∃ q, queue m idx = Some q ∧ q_ready q = true) as (q & ? & ?); [|by exists q; split_and!].
      repeat case_match; simplify_eq; try (by exists q');
        try (eapply on_selected_ready; [|done|done]; intros;
             first [apply q_ready_set_size|apply q_ready_set_desc
                   |apply q_ready_set_avail|apply q_ready_set_used]).
Qed.

(** A read of the device configuration returns, byte by byte, the
    configuration space with zeros past its end; outside of it a read returns
    the register, little-endian, in the first four bytes of the access. *)
Theorem mmio_read_spec m addr data config i :
  base m ≤ addr → (i < length data)%nat →
  let off := addr - base m in
  ∃ out, mmio_read m addr data config = Some out ∧ length out = length data ∧
  out !! i =
    if (REG_CONFIG <=? off) && (off <? REG_CONFIG + Z.of_nat (length config))
    then Some (default 0 (config !! (Z.to_nat (off - REG_CONFIG) + i)%nat))
    else if (i <? 4)%nat then le_bytes 4 (read_reg m off) !! i else data !! i.
Proof.
  intros Ha Hi off. unfold mmio_read.
  assert (checked_sub addr (base m) = Some off) as -> by (by apply checked_sub_Some).
  cbn [mbind option_bind]. destruct (_ && _); eexists; split; try done.
  - rewrite length_imap. split; [done|]. rewrite list_lookup_imap.
    destruct (lookup_lt_is_Some_2 data i Hi) as [b ->]. cbn. f_equal.
    rewrite nth_lookup. done.
  - unfold write_le. rewrite length_app, length_take, length_drop, length_le_bytes.
    split; [lia|]. destruct (Nat.ltb_spec i 4).
    + rewrite lookup_app_l by (rewrite length_take, length_le_bytes; lia).
      by rewrite lookup_take_lt by lia.
    + rewrite lookup_app_r by (rewrite length_take, length_le_bytes; lia).
      rewrite lookup_drop, length_take, length_le_bytes. f_equal. lia.
Qed.

End mmio_properties.

(** ** Witnesses *)

Definition demo_mmio : VirtioMmio SQueue Z :=
  mkVirtioMmio 0xd0000000 2 (2 ^ 32 + 0x246) 0 0 0 (2 ^ 32 + 0x200) 0 0 0 0
    [mkSQueue 256 256 false true [] [] false []].

Lemma demo_mmio_ok : mmio_ok demo_mmio.
Proof. unfold mmio_ok, uint. cbn. lia. Qed.

Lemma mmio_reachable_invariant_witness :
  ∃ m0 : VirtioMmio SQueue Z, mmio_new 0xd0000000 2 (2 ^ 32) 1 256 = Ok m0
    ∧ mmio_ok (signal_used_queue m0).2.
Proof.
  eexists. split; [reflexivity|].
  eapply (mmio_reachable_invariant 0xd0000000 2 (2 ^ 32) 1 256); [reflexivity|].
  eapply (reach_step []); [apply reach_refl|]. by eapply step_signal.
Defined.

Lemma mmio_status_negotiation_witness :
  driver_features (write_status demo_mmio 11) = driver_features demo_mmio.
Proof. apply (mmio_status_negotiation demo_mmio 11); [apply demo_mmio_ok|done|done]. Defined.

Lemma mmio_features_ok_safe_witness : features_acceptable (write_status demo_mmio 11).
Proof.
  eapply (mmio_features_ok_safe [] demo_mmio); [apply demo_mmio_ok| |done|done].
  apply (step_write _ _ (0xd0000000 + REG_STATUS) [11; 0; 0; 0] None); [|done].
  repeat constructor; cbn; lia.
Defined.

Lemma mmio_feature_words_witness :
  let wr m off v := (write_reg ([] : SMem) m off v).2 in
  let m1 := wr (wr demo_mmio REG_DRIVER_FEATURES_SEL 0) REG_DRIVER_FEATURES 0x200 in
  driver_features (wr (wr m1 REG_DRIVER_FEATURES_SEL 1) REG_DRIVER_FEATURES 1) = 0x200 + 2 ^ 32 * 1.
Proof.
  apply (mmio_feature_words [] demo_mmio 0x200 1); unfold uint; cbn; lia.
Defined.

Lemma mmio_queue_ready_guard_witness :
  q_is_valid [] (mkSQueue 256 256 true true [] [] false []) = true.
Proof.
  destruct (mmio_queue_ready_guard (Mem := SMem) [] demo_mmio (0xd0000000 + REG_QUEUE_READY)
    [1; 0; 0; 0] None (write_reg [] demo_mmio REG_QUEUE_READY 1).2 0
    (mkSQueue 256 256 true true [] [] false [])) as [(q & Hq & Hr & _)|(_ & _ & _ & H)];
    [reflexivity|reflexivity|reflexivity| |exact H].
  cbn in Hq. injection Hq as <-. discriminate Hr.
Defined.

Lemma mmio_read_spec_witness :
  ∃ out, mmio_read demo_mmio (0xd0000000 + REG_CONFIG) [0; 0] [8; 0; 1] = Some out
    ∧ out !! 0%nat = Some 8.
Proof.
  destruct (mmio_read_spec demo_mmio (0xd0000000 + REG_CONFIG) [0; 0] [8; 0; 1] 0)
    as (out & E & _ & H); [unfold REG_CONFIG; cbn; lia|cbn; lia|].
  exists out. split; [exact E|exact H].
Defined.
