(* ===== verification/VsockMux.v ===== *)
(** * The host side of virtio-vsock

    [devices/vsock_mux.rs]: the multiplexer between the guest's stream
    sockets and host Unix sockets. It parses guest packets, keeps one [Conn]
    per flow with its credit counters, and queues packets for the guest.

    The host kernel is the interface [VsockHost]: every system call is a
    function of an opaque world. Loops that the host drives (retries after
    [EINTR], accepting connections) take the iteration bound [fuel]; loops that
    the data drives get a bound computed from the data. *)

From S2P Require Import Prelude Words Errors.
Local Open Scope Z_scope.

(** ** Constants *)

Definition HOST_CID : Z := 2.
Definition TYPE_STREAM : Z := 1.
Definition OP_REQUEST : Z := 1.
Definition OP_RESPONSE : Z := 2.
Definition OP_RST : Z := 3.
Definition OP_SHUTDOWN : Z := 4.
Definition OP_RW : Z := 5.
Definition OP_CREDIT_UPDATE : Z := 6.
Definition OP_CREDIT_REQUEST : Z := 7.
Definition SHUTDOWN_RCV : Z := 1.
Definition SHUTDOWN_SEND : Z := 2.

Definition HDR_LEN : nat := 44.
Definition BUF_ALLOC : Z := 256 * 1024.
Definition MAX_CHUNK : Z := 16 * 1024.
Definition MAX_PAYLOAD : Z := 64 * 1024.
Definition MAX_CONNS : Z := 128.
Definition MAX_PREFETCH : Z := 64 * 1024.
Definition MAX_UDS_PATH : Z := 107 - 11.
(** Two seconds, in nanoseconds. *)
Definition REQUEST_TIMEOUT : Z := 2000000000.
Definition SHUTDOWN_TIMEOUT : Z := 2000000000.

Definition POLLIN : Z := 1.
Definition POLLOUT : Z := 4.
Definition POLLERR : Z := 8.
Definition POLLHUP : Z := 16.
Definition POLLNVAL : Z := 32.
Definition SHUT_RD : Z := 0.
Definition SHUT_WR : Z := 1.

(** ** Data *)

Definition validate_guest_cid (cid : Z) : result Error unit :=
  if (3 <=? cid) && (cid <? 0xffffffff) then Ok tt
  else Err (VsockErr (MsgNum "guest CID is reserved or does not fit in 32 bits" cid)).

Record Header := mkHeader {
  src_cid : Z; dst_cid : Z;
  src_port : Z; dst_port : Z;
  hlen : Z; htype : Z; hop : Z; hflags : Z;
  hbuf_alloc : Z; hfwd_cnt : Z;
}.

(** The integer in [raw[off..off + n]]. *)
Definition le_at (raw : list Z) (off n : nat) : Z := from_le_bytes (take n (drop off raw)).

Definition header_parse (raw : list Z) : Header :=
  mkHeader (le_at raw 0 8) (le_at raw 8 8) (le_at raw 16 4) (le_at raw 20 4)
    (le_at raw 24 4) (le_at raw 28 2) (le_at raw 30 2) (le_at raw 32 4)
    (le_at raw 36 4) (le_at raw 40 4).

Record Flow := mkFlow { guest_port : Z; host_port : Z }.

#[export] Instance Flow_eq_dec : EqDecision Flow.
Proof. solve_decision. Defined.

#[export] Program Instance Flow_countable : Countable Flow :=
  inj_countable' (λ f, (guest_port f, host_port f)) (λ p, mkFlow p.1 p.2) _.
Next Obligation. by intros []. Qed.

Record OutPkt := mkOutPkt {
  pkt_flow : Flow;
  pkt_op : Z;
  pkt_flags : Z;
  pkt_data : list Z;
}.

Definition pkt_ctrl (flow : Flow) (op flags : Z) : OutPkt := mkOutPkt flow op flags [].

(** [OutPkt::header]: the 44-byte packet header. *)
Definition pkt_header (p : OutPkt) (guest_cid buf_alloc fwd_cnt : Z) : list Z :=
  let raw := replicate HDR_LEN 0 in
  let raw := copy_at 0 (le_bytes 8 HOST_CID) raw in
  let raw := copy_at 8 (le_bytes 8 guest_cid) raw in
  let raw := copy_at 16 (le_bytes 4 (host_port (pkt_flow p))) raw in
  let raw := copy_at 20 (le_bytes 4 (guest_port (pkt_flow p))) raw in
  let raw := copy_at 24 (le_bytes 4 (cast 32 (zlen (pkt_data p)))) raw in
  let raw := copy_at 28 (le_bytes 2 TYPE_STREAM) raw in
  let raw := copy_at 30 (le_bytes 2 (pkt_op p)) raw in
  let raw := copy_at 32 (le_bytes 4 (pkt_flags p)) raw in
  let raw := copy_at 36 (le_bytes 4 buf_alloc) raw in
  copy_at 40 (le_bytes 4 fwd_cnt) raw.

Inductive Phase := WaitGuest | Established.

#[export] Instance Phase_eq_dec : EqDecision Phase.
Proof. solve_decision. Defined.

Record Conn := mkConn {
  c_fd : Z;
  phase : Phase;
  connecting : bool;
  peer_buf_alloc : Z;
  peer_fwd_cnt : Z;
  sent_to_guest : Z;
  received : Z;
  fwd_cnt : Z;
  last_fwd_sent : Z;
  buf_alloc : Z;
  to_host : list Z;
  ok_pending : list Z;
  prefetched : list Z;
  local_shut_send : bool;
  local_shut_recv : bool;
  peer_shut_send : bool;
  peer_shut_recv : bool;
  host_write_shut : bool;
  expiry : option Z;
}.

#[export] Instance eta_Conn : Eta Conn := λ c,
  mkConn (c_fd c) (phase c) (connecting c) (peer_buf_alloc c) (peer_fwd_cnt c)
    (sent_to_guest c) (received c) (fwd_cnt c) (last_fwd_sent c) (buf_alloc c)
    (to_host c) (ok_pending c) (prefetched c) (local_shut_send c) (local_shut_recv c)
    (peer_shut_send c) (peer_shut_recv c) (host_write_shut c) (expiry c).

Definition conn_new (fd : Z) (ph : Phase) : Conn :=
  mkConn fd ph false 0 0 0 0 0 0 BUF_ALLOC [] [] [] false false false false false None.

(** Bytes the guest can still take. *)
Definition peer_avail (c : Conn) : Z :=
  let inflight := wrapping_sub 32 (sent_to_guest c) (peer_fwd_cnt c) in
  saturating_sub (peer_buf_alloc c) inflight.

(** Bytes this side can still take. *)
Definition local_free (c : Conn) : Z :=
  let held := wrapping_sub 32 (received c) (fwd_cnt c) in
  saturating_sub (buf_alloc c) held.

Record Incoming := mkIncoming { inc_fd : Z; inc_buf : list Z }.

Inductive ConnectResult := ConnDone | ConnPending | ConnFail.

Record Mux := mkMux {
  guest_cid : Z;
  path : list Z;
  listener : Z;
  incoming : list Incoming;
  conns : gmap Flow Conn;
  next_host_port : Z;
  out_ctrl : list OutPkt;
  out_data : list OutPkt;
}.

#[export] Instance eta_Mux : Eta Mux := λ m,
  mkMux (guest_cid m) (path m) (listener m) (incoming m) (conns m) (next_host_port m)
    (out_ctrl m) (out_data m).

(** ** Text *)

(** The bytes of an ASCII string literal. *)
Definition ascii_bytes (s : string) : list Z :=
  (λ b, Z.of_N (Byte.to_N b)) <$> String.list_byte_of_string s.

(** Decimal digits of [n], most significant first, with [fuel] digits at most. *)
Fixpoint dec_digits (fuel : nat) (n : Z) (acc : list Z) : list Z :=
  match fuel with
  | O => acc
  | S f => let acc' := (48 + n mod 10) :: acc in
           if n <? 10 then acc' else dec_digits f (n / 10) acc'
  end.

(** [format!("{n}")] of a [u32]: ten digits are enough. *)
Definition dec_u32 (n : Z) : list Z := dec_digits 10 n [].

Definition is_ascii_digit (b : Z) : bool := (48 <=? b) && (b <=? 57).

Definition digits_value (l : list Z) : Z := fold_left (λ v b, 10 * v + (b - 48)) l 0.

(** [str::parse::<u32>] on ASCII digits. *)
Definition parse_u32 (l : list Z) : option Z :=
  if digits_value l <? 2 ^ 32 then Some (digits_value l) else None.

Definition strip_prefix (pre l : list Z) : option (list Z) :=
  if decide (take (length pre) l = pre) then Some (drop (length pre) l) else None.

Definition parse_connect (line : list Z) : option Z :=
  rest ← strip_prefix (ascii_bytes "CONNECT ") line;
  if bool_decide (rest = []) || negb (forallb is_ascii_digit rest) then None
  else
    port ← parse_u32 rest;
    if port =? 0 then None else Some port.

(** [position(|b| b == byte)]. *)
Fixpoint position (byte : Z) (l : list Z) : option nat :=
  match l with
  | [] => None
  | b :: l' => if b =? byte then Some O else S <$> position byte l'
  end.

Definition NL : Z := 10.
Definition CR : Z := 13.

Definition transient (e : io_error) : bool := kind_is WouldBlock e || raw_is EINTR e.

(** ** The host *)

Class VsockHost (W : Type) := {
  sys_send : Z → list Z → W → result io_error Z * W;
  sys_read : Z → Z → W → result io_error (list Z) * W;
  sys_accept4 : Z → W → result io_error Z * W;
  sys_socket : W → result io_error Z * W;
  sys_connect : Z → list Z → W → result io_error unit * W;
  sys_so_error : Z → W → result io_error Z * W;
  sys_shutdown : Z → Z → W → W;
  sys_close : Z → W → W;
  sys_bind : Z → list Z → W → result io_error unit * W;
  sys_listen : Z → W → result io_error unit * W;
  (** [symlink_metadata]: whether the path is a socket, when it exists *)
  fs_is_socket : list Z → W → option bool;
  fs_remove_file : list Z → W → result io_error unit * W;
  now : W → Z * W;
}.

(** The multiplexer together with the host it runs on. *)
Record St (W : Type) := mkSt { mx : Mux; hw : W }.
Arguments mkSt {W}.
Arguments mx {W}.
Arguments hw {W}.
#[export] Instance eta_St {W} : Eta (St W) := λ s, mkSt (mx s) (hw s).

(** ** Operations *)

Section mux.
Context {W : Type} `{VH : !VsockHost W}.
(** bound on host-driven loops *)
Variable fuel : nat.
(** the iteration order of the connection table *)
Variable hash_order : gmap Flow Conn → list (Flow * Conn).

Abbreviation M := (prog (St W)).

Definition host {A} (f : W → A * W) : M A :=
  act (λ s, let '(a, w) := f (hw s) in (a, s <| hw := w |>)).
Definition host_ (f : W → W) : M unit := modify (λ s, s <| hw ::= f |>).
Definition upd_mux (f : Mux → Mux) : M unit := modify (λ s, s <| mx ::= f |>).
Definition get_conn (flow : Flow) : M (option Conn) := gets (λ s, conns (mx s) !! flow).
Definition upd_conn (flow : Flow) (f : Conn → Conn) : M unit :=
  upd_mux (λ m, m <| conns ::= alter f flow |>).

(** *** System calls retried on [EINTR] *)

Definition send_nosig (fd : Z) (buf : list Z) : M (result io_error Z) :=
  iter_prog fuel (λ _ : unit,
    r ← host (sys_send fd buf);
    match r with
    | Ok n => mret (inr (Ok n))
    | Err e => if raw_is EINTR e then mret (inl tt) else mret (inr (Err e))
    end) tt.

Definition read_fd (fd len : Z) : M (result io_error (list Z)) :=
  iter_prog fuel (λ _ : unit,
    r ← host (sys_read fd len);
    match r with
    | Ok bs => mret (inr (Ok bs))
    | Err e => if raw_is EINTR e then mret (inl tt) else mret (inr (Err e))
    end) tt.

Definition connect_unix (fd : Z) (p : list Z) : M ConnectResult :=
  if 107 <? zlen p then mret ConnFail
  else
    r ← host (sys_connect fd p);
    match r with
    | Ok _ => mret ConnDone
    | Err e => mret (if raw_is EINPROGRESS e then ConnPending else ConnFail)
    end.

(** *** Output queues *)

Definition has_out : M bool :=
  gets (λ s, negb (bool_decide (out_ctrl (mx s) = [])) || negb (bool_decide (out_data (mx s) = []))).

Definition pop_out : M (option OutPkt) :=
  act (λ s,
    match out_ctrl (mx s) with
    | p :: ps => (Some p, s <| mx ::= λ m, m <| out_ctrl := ps |> |>)
    | [] =>
        match out_data (mx s) with
        | p :: ps => (Some p, s <| mx ::= λ m, m <| out_data := ps |> |>)
        | [] => (None, s)
        end
    end).

Definition push_front_out (p : OutPkt) : M unit :=
  upd_mux (λ m, if pkt_op p =? OP_RW then m <| out_data ::= λ l, p :: l |>
                else m <| out_ctrl ::= λ l, p :: l |>).

Definition enqueue (p : OutPkt) : M unit :=
  upd_mux (λ m, if pkt_op p =? OP_RW then m <| out_data ::= λ l, l ++ [p] |>
                else m <| out_ctrl ::= λ l, l ++ [p] |>).

Definition enqueue_rst (flow : Flow) : M unit :=
  upd_mux (λ m, m <| out_ctrl ::= filter (λ p, ¬ (pkt_flow p = flow ∧ pkt_op p = OP_RST)) |>);;
  enqueue (pkt_ctrl flow OP_RST 0).

Definition credit_of (flow : Flow) : M (Z * Z) :=
  c ← get_conn flow;
  mret (match c with Some c => (buf_alloc c, fwd_cnt c) | None => (0, 0) end).

(** A packet of kind [op] for [flow] waits in the control queue. *)
Definition queued (flow : Flow) (op : Z) (m : Mux) : bool :=
  existsb (λ p, bool_decide (pkt_flow p = flow) && (pkt_op p =? op)) (out_ctrl m).

(** *** Closing *)

(** [drop_conn]; dropping the [Conn] closes its descriptor. *)
Definition drop_conn (flow : Flow) (rst : bool) : M unit :=
  c ← get_conn flow;
  match c with Some c => host_ (sys_close (c_fd c)) | None => mret tt end;;
  upd_mux (λ m, m <| conns ::= delete flow |>
                  <| out_ctrl ::= filter (λ p, pkt_flow p ≠ flow) |>
                  <| out_data ::= filter (λ p, pkt_flow p ≠ flow) |>);;
  if rst then enqueue_rst flow else mret tt.

Definition reset_flow (guest_port host_port : Z) : M unit :=
  drop_conn (mkFlow guest_port host_port) true.

Definition mark_local_shut (flow : Flow) (recv send : bool) : M unit :=
  c ← get_conn flow;
  match c with
  | Some c =>
      if bool_decide (phase c = WaitGuest) then drop_conn flow true
      else
        let do_send := send && negb (local_shut_send c) in
        let do_recv := recv && negb (local_shut_recv c) in
        let flags := Z.lor (if do_send then SHUTDOWN_SEND else 0)
                           (if do_recv then SHUTDOWN_RCV else 0) in
        upd_conn flow (λ c, c <| local_shut_send ::= λ b, b || do_send |>
                              <| local_shut_recv ::= λ b, b || do_recv |>);;
        if negb (flags =? 0) then
          t ← host now;
          upd_conn flow (λ c, c <| expiry := Some (t + SHUTDOWN_TIMEOUT) |>);;
          enqueue (pkt_ctrl flow OP_SHUTDOWN flags)
        else mret tt
  | None => mret tt
  end.

(** *** Credit *)

Definition request_credit (flow : Flow) : M unit :=
  already ← gets (λ s, queued flow OP_CREDIT_REQUEST (mx s));
  if already : bool then mret tt else enqueue (pkt_ctrl flow OP_CREDIT_REQUEST 0).

Definition enqueue_credit (flow : Flow) : M unit :=
  already ← gets (λ s, queued flow OP_CREDIT_UPDATE (mx s));
  if already : bool then mret tt
  else
    upd_conn flow (λ c, c <| last_fwd_sent := fwd_cnt c |>);;
    enqueue (pkt_ctrl flow OP_CREDIT_UPDATE 0).

Definition maybe_credit (flow : Flow) : M unit :=
  c ← get_conn flow;
  match c with
  | None => mret tt
  | Some c =>
      let delta := wrapping_sub 32 (fwd_cnt c) (last_fwd_sent c) in
      let thresh := Z.max (buf_alloc c / 4) 4096 in
      if delta <? thresh then mret tt
      else
        already ← gets (λ s, queued flow OP_CREDIT_UPDATE (mx s));
        if already : bool then mret tt
        else
          upd_conn flow (λ c, c <| last_fwd_sent := fwd_cnt c |>);;
          enqueue (pkt_ctrl flow OP_CREDIT_UPDATE 0)
  end.

(** *** Host to guest *)

Definition stash_prefetch (flow : Flow) (data : list Z) : M unit :=
  upd_conn flow (λ c,
    let room := saturating_sub MAX_PREFETCH (zlen (prefetched c)) in
    let n := Z.min (zlen data) room in
    c <| prefetched ::= λ l, l ++ take (Z.to_nat n) data |>).

(** One turn of the loop of [ingest]. *)
Definition ingest_step (flow : Flow) (rest : list Z) : M (list Z + unit) :=
  if bool_decide (rest = []) then mret (inr tt)
  else
    c ← get_conn flow;
    match c with
    | None => mret (inr tt)
    | Some c =>
        if negb (bool_decide (phase c = Established)) || local_shut_send c || peer_shut_recv c then
          (if zlen (prefetched c) <? MAX_PREFETCH then
             let room := MAX_PREFETCH - zlen (prefetched c) in
             let n := Z.min (zlen rest) room in
             upd_conn flow (λ c, c <| prefetched ::= λ l, l ++ take (Z.to_nat n) rest |>)
           else mret tt);;
          mret (inr tt)
        else
          let credit := peer_avail c in
          if credit =? 0 then
            stash_prefetch flow rest;;
            request_credit flow;;
            mret (inr tt)
          else
            let n := Z.min (Z.min (zlen rest) credit) MAX_CHUNK in
            let chunk := take (Z.to_nat n) rest in
            upd_conn flow (λ c, c <| sent_to_guest ::= λ x, wrapping_add 32 x (cast 32 n) |>);;
            upd_mux (λ m, m <| out_data ::= λ l, l ++ [mkOutPkt flow OP_RW 0 chunk] |>);;
            mret (inl (drop (Z.to_nat n) rest))
    end.

(** Every turn that continues consumes at least one byte. *)
Definition ingest (flow : Flow) (data : list Z) : M unit :=
  iter_prog (S (length data)) (ingest_step flow) data.

(** *** Guest to host *)

Definition flush_ok_step (c : Conn) : M (Conn + result io_error unit * Conn) :=
  if bool_decide (ok_pending c = []) then mret (inr (Ok tt, c))
  else
    r ← send_nosig (c_fd c) (ok_pending c);
    match r with
    | Err e => mret (inr (Err e, c))
    | Ok n =>
        if n =? 0 then
          mret (inr (Err (SimpleError WriteZero "vsock handshake write returned 0"), c))
        else
          assert_that (n <=? zlen (ok_pending c));;
          mret (inl (c <| ok_pending ::= drop (Z.to_nat n) |>))
    end.

Definition flush_ok (c : Conn) : M (result io_error unit * Conn) :=
  iter_prog (S (length (ok_pending c))) flush_ok_step c.

Definition flush_to_host_step (c : Conn) : M (Conn + result io_error unit * Conn) :=
  if bool_decide (to_host c = []) then mret (inr (Ok tt, c))
  else
    r ← send_nosig (c_fd c) (to_host c);
    match r with
    | Err e => mret (inr (Err e, c))
    | Ok n =>
        if n =? 0 then
          mret (inr (Err (SimpleError WriteZero "vsock write returned 0"), c))
        else
          assert_that (n <=? zlen (to_host c));;
          mret (inl (c <| to_host ::= drop (Z.to_nat n) |>
                       <| fwd_cnt ::= λ x, wrapping_add 32 x (cast 32 n) |>))
    end.

Definition flush_to_host (c : Conn) : M (result io_error unit * Conn) :=
  iter_prog (S (length (to_host c))) flush_to_host_step c.

(** [flush_ok(conn).and_then(|()| flush_to_host(conn))]. *)
Definition flush_both (c : Conn) : M (result io_error unit * Conn) :=
  '(r1, c1) ← flush_ok c;
  match r1 with
  | Ok _ => flush_to_host c1
  | Err e => mret (Err e, c1)
  end.

Definition flush_conn (flow : Flow) : M unit :=
  c ← get_conn flow;
  match c with
  | None => mret tt
  | Some c =>
      '(flushed, c2) ← flush_both c;
      upd_conn flow (λ _, c2);;
      match flushed with
      | Err _ => mark_local_shut flow true true
      | Ok _ =>
          (if peer_shut_send c2 && bool_decide (to_host c2 = []) && negb (host_write_shut c2) then
             host_ (sys_shutdown (c_fd c2) SHUT_WR);;
             upd_conn flow (λ c, c <| host_write_shut := true |>)
           else mret tt);;
          if negb (bool_decide (ok_pending c2 = [])) then mret tt
          else
            upd_conn flow (λ c, c <| prefetched := [] |>);;
            (if negb (bool_decide (prefetched c2 = [])) then ingest flow (prefetched c2) else mret tt);;
            maybe_credit flow
      end
  end.

Definition on_response (flow : Flow) : M unit :=
  c ← get_conn flow;
  match c with
  | None => mret tt
  | Some c =>
      if negb (bool_decide (phase c = WaitGuest)) then mret tt
      else
        upd_conn flow (λ c,
          c <| phase := Established |> <| expiry := None |>
            <| ok_pending := ascii_bytes "OK " ++ dec_u32 (host_port flow) ++ [NL] |>);;
        flush_conn flow
  end.

Definition on_shutdown (flow : Flow) (flags : Z) : M unit :=
  let peer_recv := negb (Z.land flags SHUTDOWN_RCV =? 0) in
  let peer_send := negb (Z.land flags SHUTDOWN_SEND =? 0) in
  c ← get_conn flow;
  match c with
  | None => mret tt
  | Some c =>
      (if peer_recv then
         upd_conn flow (λ c, c <| peer_shut_recv := true |> <| local_shut_send := true |>);;
         host_ (sys_shutdown (c_fd c) SHUT_RD)
       else mret tt);;
      (if peer_send then upd_conn flow (λ c, c <| peer_shut_send := true |>) else mret tt)
  end;;
  flush_conn flow.

Definition on_rw (flow : Flow) (data : list Z) : M unit :=
  if bool_decide (data = []) then mret tt
  else
    c ← get_conn flow;
    let accept :=
      match c with
      | Some c => bool_decide (phase c = Established) && negb (local_shut_recv c)
                  && negb (peer_shut_send c)
      | None => false
      end in
    if negb accept then mret tt
    else
      let free := match c with Some c => local_free c | None => 0 end in
      if free <? cast 32 (zlen data) then drop_conn flow true
      else
        upd_conn flow (λ c,
          c <| received ::= λ x, wrapping_add 32 x (cast 32 (zlen data)) |>
            <| to_host ::= λ l, l ++ data |>);;
        flush_conn flow.

(** *** Connection set-up *)

Definition peer_socket_path (m : Mux) (port : Z) : option (list Z) :=
  let name := path m ++ ascii_bytes "_" ++ dec_u32 port in
  if 107 <? zlen name then None else Some name.

Definition on_guest_request (flow : Flow) (hdr : Header) : M unit :=
  c ← get_conn flow;
  match c with
  | Some _ => drop_conn flow true
  | None =>
      if negb (hlen hdr =? 0) then enqueue_rst flow
      else
        p ← gets (λ s, peer_socket_path (mx s) (host_port flow));
        match p with
        | None => enqueue_rst flow
        | Some p =>
            r ← host sys_socket;
            match r with
            | Err _ => enqueue_rst flow
            | Ok fd =>
                cr ← connect_unix fd p;
                match cr with
                | ConnDone =>
                    let conn := (conn_new fd Established)
                      <| peer_buf_alloc := hbuf_alloc hdr |> <| peer_fwd_cnt := hfwd_cnt hdr |> in
                    upd_mux (λ m, m <| conns ::= <[flow := conn]> |>);;
                    enqueue (pkt_ctrl flow OP_RESPONSE 0)
                | ConnPending =>
                    t ← host now;
                    let conn := (conn_new fd Established)
                      <| connecting := true |>
                      <| peer_buf_alloc := hbuf_alloc hdr |> <| peer_fwd_cnt := hfwd_cnt hdr |>
                      <| expiry := Some (t + REQUEST_TIMEOUT) |> in
                    upd_mux (λ m, m <| conns ::= <[flow := conn]> |>)
                | ConnFail =>
                    enqueue_rst flow;;
                    (* the socket is dropped when the function returns *)
                    host_ (sys_close fd)
                end
            end
        end
  end.

Definition handle_guest_pkt (hdr : Header) (data : list Z) : M unit :=
  cid ← gets (λ s, guest_cid (mx s));
  if negb (src_cid hdr =? cid) || negb (dst_cid hdr =? HOST_CID) then mret tt
  else
    let flow := mkFlow (src_port hdr) (dst_port hdr) in
    if negb (htype hdr =? TYPE_STREAM) then
      (if negb (hop hdr =? OP_RST) then enqueue_rst flow else mret tt)
    else if hop hdr =? OP_REQUEST then on_guest_request flow hdr
    else
      c ← get_conn flow;
      match c with
      | None => if negb (hop hdr =? OP_RST) then enqueue_rst flow else mret tt
      | Some _ =>
          upd_conn flow (λ c, c <| peer_buf_alloc := hbuf_alloc hdr |>
                                <| peer_fwd_cnt := hfwd_cnt hdr |>);;
          if hop hdr =? OP_RESPONSE then on_response flow
          else if hop hdr =? OP_RST then drop_conn flow false
          else if hop hdr =? OP_SHUTDOWN then on_shutdown flow (hflags hdr)
          else if hop hdr =? OP_RW then
            (if MAX_PAYLOAD <? zlen data then drop_conn flow true else on_rw flow data)
          else if hop hdr =? OP_CREDIT_REQUEST then enqueue_credit flow
          else if hop hdr =? OP_CREDIT_UPDATE then mret tt
          else mret tt
      end.

(** The search of [alloc_host_port]: the port found and the next one to try. *)
Fixpoint alloc_loop (n : nat) (used : Z → bool) (next : Z) : option Z * Z :=
  match n with
  | O => (None, next)
  | S n' =>
      let port := next in
      let next' := if port =? 2 ^ 32 - 1 then 1024 else port + 1 in
      if port <? 1024 then alloc_loop n' used next'
      else if used port then alloc_loop n' used next'
      else (Some port, next')
  end.

(** [conns.keys().any(|flow| flow.host_port == port)]. *)
Definition port_in_use (cs : gmap Flow Conn) (port : Z) : bool :=
  existsb (λ kv, host_port kv.1 =? port) (map_to_list cs).

Definition ALLOC_TRIES : nat := Z.to_nat 60000.

Definition alloc_host_port : M (option Z) :=
  act (λ s,
    let '(r, next) := alloc_loop ALLOC_TRIES (port_in_use (conns (mx s))) (next_host_port (mx s)) in
    (r, s <| mx ::= λ m, m <| next_host_port := next |> |>)).

(** [incoming.remove(idx)]. *)
Definition remove_incoming (idx : nat) : M Incoming :=
  l ← gets (λ s, incoming (mx s));
  inc ← expect (l !! idx);
  upd_mux (λ m, m <| incoming ::= delete idx |>);;
  mret inc.

Definition close_incoming (idx : nat) : M unit :=
  inc ← remove_incoming idx;
  host_ (sys_close (inc_fd inc)).

(** The line before the newline at [nl], without a trailing carriage return. *)
Definition connect_line (buf : list Z) (nl : nat) : list Z :=
  let line := take nl buf in
  if bool_decide (last line = Some CR) then take (length line - 1) line else line.

Definition finish_incoming (idx : nat) : M unit :=
  inc ← remove_incoming idx;
  match position NL (inc_buf inc) with
  | None => host_ (sys_close (inc_fd inc))
  | Some nl =>
      let rest := drop (nl + 1) (inc_buf inc) in
      match parse_connect (connect_line (inc_buf inc) nl) with
      | None => host_ (sys_close (inc_fd inc))
      | Some guest_port =>
          hp ← alloc_host_port;
          match hp with
          | None => host_ (sys_close (inc_fd inc))
          | Some host_port =>
              let flow := mkFlow guest_port host_port in
              c ← get_conn flow;
              match c with
              | Some _ => enqueue_rst flow;; host_ (sys_close (inc_fd inc))
              | None =>
                  t ← host now;
                  let conn := (conn_new (inc_fd inc) WaitGuest)
                    <| prefetched := rest |> <| expiry := Some (t + REQUEST_TIMEOUT) |> in
                  upd_mux (λ m, m <| conns ::= <[flow := conn]> |>);;
                  enqueue (pkt_ctrl flow OP_REQUEST 0)
              end
          end
      end
  end.

Definition read_incoming (idx : nat) : M unit :=
  l ← gets (λ s, incoming (mx s));
  inc ← expect (l !! idx);
  r ← read_fd (inc_fd inc) 64;
  match r with
  | Ok [] => close_incoming idx
  | Ok bs =>
      let buf := inc_buf inc ++ bs in
      upd_mux (λ m, m <| incoming ::= alter (λ i, mkIncoming (inc_fd i) buf) idx |>);;
      let ready := bool_decide (NL ∈ buf) in
      let too_long := (64 <? zlen buf) && negb ready in
      if too_long then close_incoming idx
      else if ready then finish_incoming idx
      else mret tt
  | Err e => if transient e then mret tt else close_incoming idx
  end.

Definition accept_loop : M unit :=
  iter_prog fuel (λ _ : unit,
    l ← gets (λ s, listener (mx s));
    r ← host (sys_accept4 l);
    match r with
    | Err e => if raw_is EINTR e then mret (inl tt) else mret (inr tt)
    | Ok fd =>
        total ← gets (λ s, zlen (incoming (mx s)) + Z.of_nat (size (conns (mx s))));
        if MAX_CONNS <=? total then
          host_ (sys_close fd);; mret (inl tt)
        else
          upd_mux (λ m, m <| incoming ::= λ l, l ++ [mkIncoming fd []] |>);;
          mret (inl tt)
    end) tt.

Definition finish_connect (flow : Flow) : M unit :=
  c ← get_conn flow;
  match c with
  | None => mret tt
  | Some c =>
      r ← host (sys_so_error (c_fd c));
      match r with
      | Ok 0 =>
          upd_conn flow (λ c, c <| connecting := false |> <| expiry := None |>);;
          enqueue (pkt_ctrl flow OP_RESPONSE 0)
      | _ => drop_conn flow true
      end
  end.

Definition on_host_eof (flow : Flow) : M unit :=
  c ← get_conn flow;
  let waiting := match c with Some c => bool_decide (phase c = WaitGuest) | None => false end in
  if waiting then drop_conn flow true else mark_local_shut flow false true.

Definition read_conn (flow : Flow) : M unit :=
  c ← get_conn flow;
  match c with
  | None => mret tt
  | Some c =>
      r ← read_fd (c_fd c) MAX_CHUNK;
      match r with
      | Ok [] => on_host_eof flow
      | Ok bs => ingest flow bs
      | Err e => if transient e then mret tt else mark_local_shut flow true true
      end
  end.

(** *** The event loop's view *)

(** Poll events wanted for a connection. *)
Definition conn_events (c : Conn) : Z :=
  let out := connecting c || negb (bool_decide (ok_pending c = [])) || negb (bool_decide (to_host c = [])) in
  let want_read := negb (connecting c) && bool_decide (ok_pending c = [])
                   && negb (local_shut_send c) && (zlen (prefetched c) <? MAX_PREFETCH) in
  Z.lor (if out then POLLOUT else 0) (if want_read then POLLIN else 0).

Definition interests (m : Mux) : list (Z * Z) :=
  (listener m, POLLIN)
  :: ((λ i, (inc_fd i, POLLIN)) <$> incoming m)
  ++ filter (λ e, e.2 ≠ 0) ((λ kv, (c_fd kv.2, conn_events kv.2)) <$> hash_order (conns m)).

(** [revents & mask != 0]. *)
Definition any_event (revents mask : Z) : bool := negb (Z.land revents mask =? 0).

(** [iter().position(p)]. *)
Fixpoint find_index {A} (p : A → bool) (l : list A) : option nat :=
  match l with
  | [] => None
  | x :: l' => if p x then Some O else S <$> find_index p l'
  end.

Definition on_fd (fd revents : Z) : M unit :=
  m ← gets mx;
  if fd =? listener m then accept_loop
  else
    match find_index (λ i, inc_fd i =? fd) (incoming m) with
    | Some idx => read_incoming idx
    | None =>
        match find (λ kv, c_fd kv.2 =? fd) (hash_order (conns m)) with
        | None => mret tt
        | Some (flow, _) =>
            (if any_event revents (Z.lor (Z.lor POLLIN POLLHUP) (Z.lor POLLERR POLLNVAL))
             then read_conn flow else mret tt);;
            c ← get_conn flow;
            match c with
            | Some c =>
                if any_event revents (Z.lor POLLOUT (Z.lor POLLERR POLLNVAL)) then
                  (if connecting c then finish_connect flow else flush_conn flow)
                else mret tt
            | None => mret tt
            end
        end
    end.

Fixpoint drop_all (flows : list Flow) : M unit :=
  match flows with
  | [] => mret tt
  | f :: fs => drop_conn f true;; drop_all fs
  end.

Definition is_expired (t : Z) (c : Conn) : bool :=
  match expiry c with Some d => d <=? t | None => false end.

Definition check_timeouts (t : Z) : M unit :=
  expired ← gets (λ s, (filter (λ kv, is_expired t kv.2) (hash_order (conns (mx s)))).*1);
  drop_all expired.

(** [kill_connections]; clearing the collections closes their descriptors. *)
Definition kill_connections : M unit :=
  m ← gets mx;
  host_ (λ w, foldl (λ w i, sys_close (inc_fd i) w) w (incoming m));;
  host_ (λ w, foldl (λ w kv, sys_close (c_fd kv.2) w) w (hash_order (conns m)));;
  upd_mux (λ m, m <| incoming := [] |> <| conns := ∅ |> <| out_ctrl := [] |> <| out_data := [] |>).

End mux.

(** ** Creation and destruction *)

Section bind.
Context {W : Type} `{VH : !VsockHost W}.

(** [Mux::bind]; descriptors opened before a failure are closed. *)
Definition mux_bind (cid : Z) (p : list Z) : prog W (result Error Mux) :=
  _ ←? mret (validate_guest_cid cid);
  if bool_decide (p = []) || (MAX_UDS_PATH <? zlen p) then
    mret (Err (VsockErr (Msg "vsock socket path is empty or too long")))
  else if bool_decide (0 ∈ p) then
    mret (Err (VsockErr (Msg "vsock socket path contains an interior NUL")))
  else
    kind ← gets (fs_is_socket p);
    _ ←? (match kind with
          | Some true =>
              r ← act (fs_remove_file p);
              mret (map_err (λ e, VsockErr (MsgIo "remove" e)) r)
          | Some false => mret (Err (VsockErr (Msg "exists and is not a socket")))
          | None => mret (Ok tt)
          end);
    r ← act sys_socket;
    fd ←? mret (map_err (λ e, VsockErr (MsgIo "vsock socket: " e)) r);
    r ← act (sys_bind fd p);
    match r with
    | Err e => modify (sys_close fd);; mret (Err (VsockErr (MsgIo "bind" e)))
    | Ok _ =>
        r ← act (sys_listen fd);
        match r with
        | Err e => modify (sys_close fd);; mret (Err (VsockErr (MsgIo "listen" e)))
        | Ok _ => mret (Ok (mkMux cid p fd [] ∅ 1024 [] []))
        end
    end.

End bind.

(** ** What the host promises *)

Class VsockHostLaws (W : Type) `{VsockHost W} := {
  (** observation: every byte accepted by [send] on a descriptor *)
  sent_on : W → Z → list Z;
  send_bound : ∀ fd buf w n w', sys_send fd buf w = (Ok n, w') → 0 ≤ n ≤ zlen buf;
  send_log : ∀ fd buf w n w' fd', sys_send fd buf w = (Ok n, w') →
    sent_on w' fd' = if decide (fd' = fd) then sent_on w fd ++ take (Z.to_nat n) buf else sent_on w fd';
  send_log_err : ∀ fd buf w e w' fd', sys_send fd buf w = (Err e, w') → sent_on w' fd' = sent_on w fd';
  shutdown_log : ∀ fd how w fd', sent_on (sys_shutdown fd how w) fd' = sent_on w fd';
  close_log : ∀ fd w fd', sent_on (sys_close fd w) fd' = sent_on w fd';
  now_log : ∀ w t w' fd', now w = (t, w') → sent_on w' fd' = sent_on w fd';
  read_bound : ∀ fd len w bs w', 0 ≤ len → sys_read fd len w = (Ok bs, w') →
    zlen bs ≤ len ∧ bytes_ok bs;
}.

(** Interruptions and connection attempts come in bounded bursts: at most
    [fuel] calls in a row are interrupted (or, for [accept4], succeed). *)
Class VsockHostFair (W : Type) `{VsockHost W} (fuel : nat) := {
  patience : W → nat;
  patience_bound : ∀ w, (patience w < fuel)%nat;
  send_patience : ∀ fd buf w e w', sys_send fd buf w = (Err e, w') → raw_is EINTR e = true →
    (patience w' < patience w)%nat;
  read_patience : ∀ fd len w e w', sys_read fd len w = (Err e, w') → raw_is EINTR e = true →
    (patience w' < patience w)%nat;
  accept_patience : ∀ fd w r w', sys_accept4 fd w = (r, w') →
    match r with Ok _ => True | Err e => raw_is EINTR e = true end → (patience w' < patience w)%nat;
  close_patience : ∀ fd w, (patience (sys_close fd w) ≤ patience w)%nat;
}.

(** ** A scripted host

    Replies are given in advance per system call. When a script is used up,
    [send] takes the whole buffer and the other calls would block. At most
    [SH_BURST] calls in a row are interrupted or bring a new connection; the
    next one would block instead. *)

Record SHost := mkSHost {
  sh_send : list (result io_error Z);
  sh_read : list (result io_error (list Z));
  sh_accept : list (result io_error Z);
  sh_connect : list (result io_error unit);
  sh_next_fd : Z;
  sh_clock : Z;
  sh_sent : list (Z * list Z);
  sh_burst : nat;
}.
#[export] Instance eta_SHost : Eta SHost := λ h,
  mkSHost (sh_send h) (sh_read h) (sh_accept h) (sh_connect h) (sh_next_fd h) (sh_clock h)
    (sh_sent h) (sh_burst h).

Definition SH_BURST : nat := 8.
Definition sh_empty : SHost := mkSHost [] [] [] [] 10 0 [] 0.

Definition sh_do_send (fd n : Z) (buf : list Z) (h : SHost) : result io_error Z * SHost :=
  let n := Z.max 0 (Z.min n (zlen buf)) in
  (Ok n, h <| sh_sent ::= λ l, l ++ [(fd, take (Z.to_nat n) buf)] |> <| sh_burst := O |>).

(** Give the reply [r], which continues a burst, or block when the burst is long. *)
Definition sh_bursty {A} (r : result io_error A) (h : SHost) : result io_error A * SHost :=
  if bool_decide (sh_burst h < SH_BURST)%nat then (r, h <| sh_burst ::= S |>)
  else (Err (OsError EAGAIN), h <| sh_burst := O |>).

Definition sh_fail {A} (e : io_error) (h : SHost) : result io_error A * SHost :=
  if raw_is EINTR e then sh_bursty (Err e) h else (Err e, h <| sh_burst := O |>).

#[export] Instance Scripted_host : VsockHost SHost := {
  sys_send fd buf h :=
    match sh_send h with
    | [] => sh_do_send fd (zlen buf) buf h
    | Ok n :: l => sh_do_send fd n buf (h <| sh_send := l |>)
    | Err e :: l => sh_fail e (h <| sh_send := l |>)
    end;
  sys_read fd len h :=
    match sh_read h with
    | [] => sh_fail (OsError EAGAIN) h
    | Ok bs :: l => (Ok ((λ b, b mod 256) <$> take (Z.to_nat len) bs), h <| sh_read := l |>)
    | Err e :: l => sh_fail e (h <| sh_read := l |>)
    end;
  sys_accept4 _ h :=
    match sh_accept h with
    | [] => sh_fail (OsError EAGAIN) h
    | Ok fd :: l => sh_bursty (Ok fd) (h <| sh_accept := l |>)
    | Err e :: l => sh_fail e (h <| sh_accept := l |>)
    end;
  sys_socket h := (Ok (sh_next_fd h), h <| sh_next_fd ::= Z.succ |>);
  sys_connect _ _ h :=
    match sh_connect h with
    | [] => (Ok tt, h)
    | r :: l => (r, h <| sh_connect := l |>)
    end;
  sys_so_error _ h := (Ok 0, h);
  sys_shutdown _ _ h := h;
  sys_close _ h := h;
  sys_bind _ _ h := (Ok tt, h);
  sys_listen _ h := (Ok tt, h);
  fs_is_socket _ _ := None;
  fs_remove_file _ h := (Ok tt, h);
  now h := (sh_clock h, h);
}.

(** The bytes [send] took on [fd]. *)
Definition sh_sent_on (h : SHost) (fd : Z) : list Z :=
  concat (snd <$> filter (λ e, e.1 = fd) (sh_sent h)).

Lemma sh_fail_sent {A} e h (r : result io_error A) h' : sh_fail e h = (r, h') → sh_sent h' = sh_sent h.
Proof. unfold sh_fail, sh_bursty. repeat case_match; by intros [= <- <-]. Qed.

Lemma sh_fail_err {A} e h (r : result io_error A) h' : sh_fail e h = (r, h') → is_ok r = false.
Proof. unfold sh_fail, sh_bursty. repeat case_match; by intros [= <- <-]. Qed.

Lemma sh_do_send_spec fd n buf h r h' :
  sh_do_send fd n buf h = (r, h') →
  ∃ k, r = Ok k ∧ 0 ≤ k ≤ zlen buf ∧ sh_sent h' = sh_sent h ++ [(fd, take (Z.to_nat k) buf)].
Proof.
  unfold sh_do_send. intros [= <- <-]. exists (Z.max 0 (Z.min n (zlen buf))).
  assert (0 ≤ zlen buf) by (unfold zlen; lia). split_and!; [done|lia|lia|done].
Qed.

Lemma sh_send_spec fd buf (h : SHost) r h' :
  sys_send fd buf h = (r, h') →
  match r with
  | Ok k => 0 ≤ k ≤ zlen buf ∧ sh_sent h' = sh_sent h ++ [(fd, take (Z.to_nat k) buf)]
  | Err _ => sh_sent h' = sh_sent h
  end.
Proof.
  cbn. destruct (sh_send h) as [|[n|e] l].
  - intros (k & -> & ? & ?)%sh_do_send_spec. done.
  - intros (k & -> & ? & ?)%sh_do_send_spec. done.
  - intros E. pose proof (sh_fail_sent _ _ _ _ E). apply sh_fail_err in E. by destruct r.
Qed.

Lemma sh_bursty_patience {A} (r r' : result io_error A) h h' :
  sh_bursty r h = (r', h') →
  match r' with Ok _ => True | Err e => raw_is EINTR e = true end →
  (SH_BURST - sh_burst h' < SH_BURST - sh_burst h)%nat.
Proof.
  unfold sh_bursty. case_bool_decide as Hb; intros [= <- <-]; [|done]. intros _.
  cbn [sh_burst set_field]. unfold set_field. cbn [sh_burst]. lia.
Qed.

Lemma sh_fail_patience {A} e (r : result io_error A) h h' :
  sh_fail e h = (r, h') →
  match r with Ok _ => True | Err e => raw_is EINTR e = true end →
  (SH_BURST - sh_burst h' < SH_BURST - sh_burst h)%nat.
Proof.
  unfold sh_fail. destruct (raw_is EINTR e) eqn:Ee; [apply sh_bursty_patience|].
  intros [= <- <-]. by rewrite Ee.
Qed.

#[export] Program Instance Scripted_host_laws : VsockHostLaws SHost := {
  sent_on := sh_sent_on;
}.
Next Obligation. intros fd buf w n w' E%sh_send_spec. by destruct E. Qed.
Next Obligation.
  intros fd buf w n w' fd' [_ E]%sh_send_spec. unfold sh_sent_on. rewrite E, filter_app.
  case_decide as Hd; [subst|].
  - rewrite filter_cons_True, filter_nil by done. rewrite fmap_app, concat_app. cbn. by rewrite app_nil_r.
  - rewrite filter_cons_False, filter_nil, app_nil_r by (cbn; congruence). done.
Qed.
Next Obligation. intros fd buf w e w' fd' E%sh_send_spec. unfold sh_sent_on. by rewrite E. Qed.
Next Obligation. done. Qed.
Next Obligation. done. Qed.
Next Obligation. by intros w t w' fd' [= <- <-]. Qed.
Next Obligation.
  intros fd len w bs w' Hlen. cbn. destruct (sh_read w) as [|[b|e] l].
  - intros E%sh_fail_err. done.
  - intros [= <- <-]. split.
    + unfold zlen. rewrite length_fmap, length_take. lia.
    + apply Forall_fmap, Forall_true. intros x. unfold is_u8, uint, compose. apply Z.mod_pos_bound. lia.
  - intros E%sh_fail_err. done.
Qed.

#[export] Program Instance Scripted_host_fair fuel : VsockHostFair SHost (S SH_BURST + fuel) := {
  patience h := (SH_BURST - sh_burst h)%nat;
}.
Next Obligation. intros. unfold SH_BURST. lia. Qed.
Next Obligation.
  intros _ fd buf w e w'. cbn. destruct (sh_send w) as [|[n|e'] l].
  - intros (k & ? & _)%sh_do_send_spec. done.
  - intros (k & ? & _)%sh_do_send_spec. done.
  - intros E Hr. exact (sh_fail_patience _ _ _ _ E Hr).
Qed.
Next Obligation.
  intros _ fd len w e w'. cbn. destruct (sh_read w) as [|[n|e'] l]; [|done|];
    intros E Hr; exact (sh_fail_patience _ _ _ _ E Hr).
Qed.
Next Obligation.
  intros _ fd w r w'. cbn. destruct (sh_accept w) as [|[n|e'] l].
  - intros E Hr. exact (sh_fail_patience _ _ _ _ E Hr).
  - intros E Hr. exact (sh_bursty_patience _ _ _ _ E Hr).
  - intros E Hr. exact (sh_fail_patience _ _ _ _ E Hr).
Qed.
Next Obligation. intros. done. Qed.
