(* ===== verification/Acpi.v ===== *)
(** * ACPI tables

    [acpi.rs]: the AML of the DSDT, the five tables and where they go. The encoders of
    the [acpi_tables] crate are parameters; what is modelled is which objects are
    described, and the layout of the tables in guest memory. *)

From stdpp Require Import sorting.
From S2P Require Import Prelude Words Errors GuestMem Memory LegacyIo VirtQueue Serial VsockMux.
Local Open Scope Z_scope.

(** ** Constants *)

Definition ACPI_TABLES_BASE : Z := 0xe0000.
Definition OEM_ID : list Z := ascii_bytes "KITUNE".
Definition OEM_TABLE_ID : list Z := ascii_bytes "KITSUNE ".
Definition OEM_REVISION : Z := 1.
Definition LAPIC_ADDR : Z := 0xfee00000.
Definition IOAPIC_ADDR : Z := 0xfec00000.

Record VirtioMmioAcpi := mkAcpi { va_base : Z; va_size : Z; va_irq : Z; va_uid : Z }.

(** ** Objects of the [acpi_tables] crate

    The arguments of the constructors the code calls. *)

Inductive aml :=
| AmlU8 (v : Z)
| AmlU32 (v : Z)
| AmlOne
| AmlStr (s : list Z)
| EISAName (s : list Z)
| Interrupt (consumer edge_triggered active_low shared : bool) (gsi : Z)
| AmlIO (min max alignment length : Z)
| Memory32Fixed (read_write : bool) (base length : Z)
| ResourceTemplate (resources : list aml)
| Package (elements : list aml)
| Name (path : list Z) (body : aml)
| Device (path : list Z) (children : list aml).

Inductive madt_entry :=
| ProcessorLocalApic (processor_uid apic_id : Z) (enabled : bool)
| IoApic (ioapic_id address gsi_base : Z).

(** A generic address structure. *)
Record GAS := mkGas { gas_system_io : bool; gas_bit_width : Z; gas_bit_offset : Z; gas_byte_access : bool; gas_address : Z }.

Class AcpiTables := {
  to_aml_bytes : aml → list Z;
  (** [Sdt::new(signature, 36, revision, ..)] and [append_slice] *)
  sdt_bytes : list Z → Z → list Z → list Z → Z → list Z → list Z;
  (** [FADTBuilder] with the 64-bit DSDT address, [HwReducedAcpi] and the sleep registers *)
  fadt_bytes : list Z → list Z → Z → Z → GAS → GAS → list Z;
  (** [MADT::new] with the address of the local APIC *)
  madt_bytes : list Z → list Z → Z → Z → list madt_entry → list Z;
  xsdt_bytes : list Z → list Z → Z → list Z → list Z;
  rsdp_bytes : list Z → Z → list Z;
}.

(** The lengths of the tables, from the ACPI specification. *)
Definition madt_entry_size (e : madt_entry) : Z :=
  match e with ProcessorLocalApic _ _ _ => 8 | IoApic _ _ _ => 12 end.

Class AcpiTablesLaws `{AcpiTables} : Prop := {
  sdt_len : ∀ sig rev id tid orev body, zlen (sdt_bytes sig rev id tid orev body) = 36 + zlen body;
  fadt_len : ∀ id tid orev dsdt ctrl status, zlen (fadt_bytes id tid orev dsdt ctrl status) = 276;
  madt_len : ∀ id tid orev lapic es,
    zlen (madt_bytes id tid orev lapic es) = 44 + foldr (λ e n, madt_entry_size e + n) 0 es;
  xsdt_len : ∀ id tid orev es, zlen (xsdt_bytes id tid orev es) = 36 + 8 * zlen es;
  rsdp_len : ∀ id xsdt, zlen (rsdp_bytes id xsdt) = 36;
}.

(** ** AML *)

(** [format!("{n:03X}")] of a [u32]. *)
Definition upper_hex_digit (d : Z) : Z := if d <? 10 then 48 + d else 55 + d.
Fixpoint upper_hex_digits (fuel : nat) (n : Z) (acc : list Z) : list Z :=
  match fuel with
  | O => acc
  | S f => let acc' := upper_hex_digit (n mod 16) :: acc in
           if n <? 16 then acc' else upper_hex_digits f (n / 16) acc'
  end.
Definition hex_03 (n : Z) : list Z :=
  let ds := upper_hex_digits 8 n [] in replicate (3 - length ds) 48 ++ ds.

Definition s5_object : aml :=
  Name (ascii_bytes "\_S5_") (Package [AmlU8 SLEEP_TYP_S5; AmlU8 SLEEP_TYP_S5]).

Definition com1_object : aml :=
  let hid := EISAName (ascii_bytes "PNP0501") in
  let irq := Interrupt true true false false SERIAL_IRQ in
  let io := AmlIO 0x3f8 0x3f8 0 0x8 in
  let crs := ResourceTemplate [irq; io] in
  Device (ascii_bytes "_SB_.COM1") [Name (ascii_bytes "_HID") hid; Name (ascii_bytes "_CRS") crs].

Definition virtio_mmio_path (uid : Z) : list Z := ascii_bytes "_SB_.V" ++ hex_03 uid.

Definition virtio_mmio_object (dev : VirtioMmioAcpi) : aml :=
  let mem32 := Memory32Fixed true (va_base dev) (va_size dev) in
  let irq := Interrupt true true false false (va_irq dev) in
  let crs := ResourceTemplate [mem32; irq] in
  Device (virtio_mmio_path (va_uid dev))
    [Name (ascii_bytes "_HID") (AmlStr (ascii_bytes "LNRO0005")); Name (ascii_bytes "_UID") (AmlU32 (va_uid dev));
     Name (ascii_bytes "_CCA") AmlOne; Name (ascii_bytes "_CRS") crs].

Definition sleep_gas (port : Z) : GAS := mkGas true 8 0 true port.

(** Lengths of vectors are below [2^63], so the additions here and to the cursor do not
    overflow. *)
Definition align_up (value align : Z) : Z := Z.land (value + align - 1) (bnot 64 (align - 1)).

(** ** Tables *)

Section tables.
Context {Mem : Type} `{GM : !GuestMemory Mem} `{AT : !AcpiTables}.

Definition append_s5 (out : list Z) : list Z := out ++ to_aml_bytes s5_object.
Definition append_com1_device (out : list Z) : list Z := out ++ to_aml_bytes com1_object.
Definition append_virtio_mmio_device (out : list Z) (dev : VirtioMmioAcpi) : list Z :=
  out ++ to_aml_bytes (virtio_mmio_object dev).

Definition dsdt_aml (devs : list VirtioMmioAcpi) : list Z :=
  foldl append_virtio_mmio_device (append_com1_device (append_s5 [])) devs.

Definition dsdt_table (devs : list VirtioMmioAcpi) : list Z :=
  sdt_bytes (ascii_bytes "DSDT") 2 OEM_ID OEM_TABLE_ID OEM_REVISION (dsdt_aml devs).

Definition fadt_table (dsdt_addr : Z) : list Z :=
  fadt_bytes OEM_ID OEM_TABLE_ID OEM_REVISION dsdt_addr (sleep_gas SLEEP_CONTROL_PORT) (sleep_gas SLEEP_STATUS_PORT).

Definition madt_entries (num_vcpus : Z) : list madt_entry :=
  ((λ id, ProcessorLocalApic (Z.of_nat id) (Z.of_nat id) true) <$> seq 0 (Z.to_nat num_vcpus)) ++ [IoApic 0 IOAPIC_ADDR 0].

Definition madt_table (num_vcpus : Z) : list Z :=
  madt_bytes OEM_ID OEM_TABLE_ID OEM_REVISION LAPIC_ADDR (madt_entries num_vcpus).

Definition xsdt_table (entries : list Z) : list Z := xsdt_bytes OEM_ID OEM_TABLE_ID OEM_REVISION entries.

Definition write_bytes (addr : Z) (data : list Z) : prog Mem (result Error unit) :=
  r ← act (write_slice addr data);
  mret (map_err (λ e, MemoryAccess (MsgExt "" e)) r).

Definition install_tables (virtio_devices : list VirtioMmioAcpi) (num_vcpus : Z) : prog Mem (result Error Z) :=
  if num_vcpus =? 0 then mret (Err (InvalidVcpuCount 0 MAX_VCPUS))
  else
    mem ← get;
    if last_addr mem <? 0x100000 then mret (Err (GuestMemoryErr (Msg "guest memory too small for ACPI tables")))
    else
      let cursor := ACPI_TABLES_BASE in
      let dsdt := dsdt_table virtio_devices in
      let dsdt_addr := cursor in
      _ ←? write_bytes dsdt_addr dsdt;
      let cursor := cursor + align_up (zlen dsdt) 16 in
      let fadt := fadt_table dsdt_addr in
      let fadt_addr := cursor in
      _ ←? write_bytes fadt_addr fadt;
      let cursor := cursor + align_up (zlen fadt) 16 in
      let madt := madt_table num_vcpus in
      let madt_addr := cursor in
      _ ←? write_bytes madt_addr madt;
      let cursor := cursor + align_up (zlen madt) 16 in
      let xsdt := xsdt_table [fadt_addr; madt_addr] in
      let xsdt_addr := cursor in
      _ ←? write_bytes xsdt_addr xsdt;
      let cursor := cursor + align_up (zlen xsdt) 16 in
      let rsdp := rsdp_bytes OEM_ID xsdt_addr in
      let rsdp_addr := cursor in
      _ ←? write_bytes rsdp_addr rsdp;
      mret (Ok rsdp_addr).

End tables.

(** ** Theorems *)

Lemma align_up_16 n : 0 ≤ n < 2 ^ 63 → (16 | align_up n 16) ∧ n ≤ align_up n 16 < n + 16.
Proof.
  intros Hn. unfold align_up. rewrite land_bnot by (unfold uint; lia). change (16 - 1) with (Z.ones 4).
  rewrite Z.ldiff_ones_r, Z.shiftr_div_pow2, Z.shiftl_mul_pow2 by done. change (2 ^ 4) with 16.
  pose proof (Z.div_mod (n + 16 - 1) 16 ltac:(lia)). pose proof (Z.mod_pos_bound (n + 16 - 1) 16 ltac:(lia)).
  split; [by exists ((n + 16 - 1) / 16)|lia].
Qed.

Lemma madt_entries_size n :
  0 ≤ n → foldr (λ e k, madt_entry_size e + k) 0 (madt_entries n) = 8 * n + 12.
Proof.
  intros Hn. unfold madt_entries. rewrite foldr_app. cbn [foldr madt_entry_size].
  replace n with (Z.of_nat (Z.to_nat n)) at 2 by lia. generalize (Z.to_nat n), 0%nat.
  intros k. induction k as [|k IH]; intros i; cbn [seq fmap list_fmap foldr madt_entry_size]; [lia|].
  rewrite IH. lia.
Qed.

Section layout.
Context {Mem : Type} `{GM : !GuestMemory Mem, GL : !GuestMemoryLaws Mem} `{AT : !AcpiTables, AL : !AcpiTablesLaws}.
Implicit Types m : Mem.

(** The tables [ts], in order, aligned and disjoint between the base and [cur], and
    nothing else has changed. *)
Record laid m0 m (cur : Z) (ts : list (Z * list Z)) : Prop := mkLaid {
  ld_cur : (16 | cur) ∧ ACPI_TABLES_BASE ≤ cur;
  ld_tables : Forall (λ t, (16 | t.1) ∧ ACPI_TABLES_BASE ≤ t.1 ∧ t.1 + zlen t.2 ≤ cur ∧
                           bytes_at m t.1 (length t.2) = t.2) ts;
  ld_disjoint : StronglySorted (λ t u : Z * list Z, t.1 + zlen t.2 ≤ u.1) ts;
  ld_last : last_addr m = last_addr m0;
  ld_other : ∀ x, x < ACPI_TABLES_BASE ∨ cur ≤ x → byte_at m x = byte_at m0 x;
}.

Lemma laid_write m0 m cur ts data (Q : result Error unit → Mem → Prop) :
  laid m0 m cur ts → zlen data < 2 ^ 63 → cur + zlen data ≤ last_addr m0 + 1 →
  (∀ m', laid m0 m' (cur + align_up (zlen data) 16) (ts ++ [(cur, data)]) → Q (Ok tt) m') →
  wp Total (write_bytes cur data) Q m.
Proof.
  intros [[Hdiv Hge] Hts Hd Hl Ho] Hlen Hfit HQ. pose proof (zlen_nonneg data) as H0. destruct (align_up_16 (zlen data)) as [Ha Hb]; [done|].
  unfold ACPI_TABLES_BASE in *.
  destruct (write_slice_in_range m cur data) as (m' & E & Hx); [lia|fold (zlen data); lia|].
  unfold write_bytes. wp_step. apply wp_act. intros r m1. rewrite E. intros [= <- <-]. wp_step. apply HQ. split.
  - split; [apply Z.divide_add_r; [done|done]|unfold ACPI_TABLES_BASE; lia].
  - apply Forall_app. split.
    + eapply Forall_impl; [exact Hts|]. intros t (? & ? & Ht & <-). rewrite length_bytes_at. unfold zlen in *.
      rewrite length_bytes_at in *. split_and!; [done|done|lia|]. apply bytes_at_ext. intros x Hx'. rewrite Hx. apply overlay_out. lia.
    + apply Forall_singleton. cbn. split_and!; [done|done|lia|]. by apply (bytes_at_overlay m m' cur data).
  - apply StronglySorted_app. split_and!; [|done|repeat constructor].
    intros t u Ht ->%list_elem_of_singleton. cbn. rewrite Forall_forall in Hts. by destruct (Hts t Ht) as (_ & _ & ? & _).
  - pose proof (write_slice_last_addr m cur data) as Hla. rewrite E in Hla. cbn in Hla. congruence.
  - unfold ACPI_TABLES_BASE. intros x Hx'. rewrite Hx, overlay_out by (fold (zlen data); lia). apply Ho. lia.
Qed.

(** The five tables, each with the addresses of those it points to. *)
Definition acpi_installed (devs : list VirtioMmioAcpi) (n : Z) m (rsdp : Z) m' : Prop :=
  ∃ fadt madt xsdt hi, hi ≤ 0x100000 ∧
    laid m m' hi [(ACPI_TABLES_BASE, dsdt_table devs); (fadt, fadt_table ACPI_TABLES_BASE); (madt, madt_table n);
                  (xsdt, xsdt_table [fadt; madt]); (rsdp, rsdp_bytes OEM_ID xsdt)].

(** The tables as a guest finds them, whatever else is in memory. *)
Definition acpi_present (devs : list VirtioMmioAcpi) (n rsdp : Z) m : Prop :=
  ∃ fadt madt xsdt, Forall (λ t, bytes_at m t.1 (length t.2) = t.2)
    [(ACPI_TABLES_BASE, dsdt_table devs); (fadt, fadt_table ACPI_TABLES_BASE); (madt, madt_table n);
     (xsdt, xsdt_table [fadt; madt]); (rsdp, rsdp_bytes OEM_ID xsdt)].

Lemma acpi_installed_present devs n m rsdp m1 m2 :
  acpi_installed devs n m rsdp m1 →
  (∀ x, ACPI_TABLES_BASE ≤ x < 0x100000 → byte_at m2 x = byte_at m1 x) → acpi_present devs n rsdp m2.
Proof.
  intros (fadt & madt & xsdt & hi & Hhi & [_ Hts _ _ _]) Hx. exists fadt, madt, xsdt.
  eapply Forall_impl; [exact Hts|]. intros [a data] (_ & Ha & Hd & Hb). cbn [fst snd] in *. rewrite <-Hb at 2.
  apply bytes_at_ext. intros x Hr. apply Hx. unfold zlen in *. lia.
Qed.

Lemma acpi_installed_frame devs n m rsdp m' :
  acpi_installed devs n m rsdp m' →
  last_addr m' = last_addr m ∧ (∀ x, x < ACPI_TABLES_BASE ∨ 0x100000 ≤ x → byte_at m' x = byte_at m x).
Proof.
  intros (fadt & madt & xsdt & hi & Hhi & [_ _ _ Hl Ho]). split; [done|]. intros x Hx. apply Ho. lia.
Qed.

Lemma install_tables_wp devs n m :
  0 < n < 256 → 0x100000 ≤ last_addr m → zlen (dsdt_aml devs) ≤ 0x10000 →
  wp Total (install_tables devs n) (λ r m', ∃ rsdp, r = Ok rsdp ∧ acpi_installed devs n m rsdp m') m.
Proof.
  intros Hn Hm Haml. unfold install_tables. destruct (Z.eqb_spec n 0); [lia|]. do 2 wp_step.
  destruct (Z.ltb_spec (last_addr m) 0x100000); [lia|].
  pose proof (zlen_nonneg (dsdt_aml devs)). assert (ACPI_TABLES_BASE = 0xe0000) as B by done.
  assert (zlen (dsdt_table devs) = 36 + zlen (dsdt_aml devs)) as L1 by apply sdt_len.
  assert (zlen (fadt_table ACPI_TABLES_BASE) = 276) as L2 by apply fadt_len.
  assert (zlen (madt_table n) = 44 + (8 * n + 12)) as L3.
  { unfold madt_table. rewrite madt_len, madt_entries_size; lia. }
  destruct (align_up_16 (zlen (dsdt_table devs))) as [_ A1]; [lia|].
  destruct (align_up_16 (zlen (fadt_table ACPI_TABLES_BASE))) as [_ A2]; [lia|].
  destruct (align_up_16 (zlen (madt_table n))) as [_ A3]; [lia|].
  set (c1 := ACPI_TABLES_BASE + align_up (zlen (dsdt_table devs)) 16).
  set (c2 := c1 + align_up (zlen (fadt_table ACPI_TABLES_BASE)) 16).
  set (c3 := c2 + align_up (zlen (madt_table n)) 16).
  assert (zlen (xsdt_table [c1; c2]) = 52) as L4 by (unfold xsdt_table; by rewrite xsdt_len).
  destruct (align_up_16 (zlen (xsdt_table [c1; c2]))) as [_ A4]; [lia|].
  pose proof (rsdp_len OEM_ID c3) as L5.
  destruct (align_up_16 (zlen (rsdp_bytes OEM_ID c3))) as [_ A5]; [lia|].
  assert (c1 ≤ 0xe0000 + 36 + 0x10000 + 16 ∧ c2 ≤ c1 + 292 ∧ c3 ≤ c2 + 2200) as C by (unfold c1, c2, c3; lia).
  wp_step. apply (laid_write m _ _ []); [|lia|lia|].
  { split; [split; [by exists 0xe000|done]|done|constructor|done|done]. }
  intros m1 P1. wp_step. eapply laid_write; [exact P1|lia|lia|].
  intros m2 P2. wp_step. eapply laid_write; [exact P2|lia|lia|].
  intros m3 P3. wp_step. eapply laid_write; [exact P3|lia|lia|].
  intros m4 P4. wp_step. eapply laid_write; [exact P4|lia|lia|].
  intros m5 P5. wp_step. eexists. split; [done|]. exists c1, c2, c3. eexists. split; [|exact P5]. lia.
Qed.

(** C19: installing the ACPI tables. For a machine with a vCPU and more than 1 MiB of
    memory, the DSDT, the FADT, the MADT, the XSDT and the RSDP are written at increasing,
    16-byte aligned addresses that do not overlap, from 0xe0000 and below 1 MiB; the FADT
    points to the DSDT, the XSDT to the FADT and the MADT, the RSDP to the XSDT, and the
    address of the RSDP is returned; no other byte of memory changes. Otherwise the call
    fails and memory is as before. *)
Theorem acpi_tables_installed devs n m :
  0 ≤ n < 256 → zlen (dsdt_aml devs) ≤ 0x10000 →
  (0 < n ∧ 0x100000 ≤ last_addr m →
     ∃ rsdp m', install_tables devs n m = Ret (Ok rsdp, m') ∧ acpi_installed devs n m rsdp m') ∧
  (n = 0 ∨ last_addr m < 0x100000 → ∃ e, install_tables devs n m = Ret (Err e, m)).
Proof.
  intros Hn Haml. split.
  - intros [Hpos Hm]. destruct (wp_total_inv _ _ _ (install_tables_wp devs n m ltac:(lia) Hm Haml)) as (r & m' & E & rsdp & -> & H).
    by exists rsdp, m'.
  - intros H. unfold install_tables. destruct (Z.eqb_spec n 0); [by eexists|]. destruct H as [H|H]; [done|].
    unfold mbind, prog_bind, get. destruct (Z.ltb_spec (last_addr m) 0x100000); [by eexists|lia].
Qed.

End layout.

(** ** An implementation *)

(** Encoders that give tables of the right size and nothing else. *)
#[export] Instance Zero_tables : AcpiTables := {
  to_aml_bytes _ := replicate 64 0;
  sdt_bytes _ _ _ _ _ body := replicate 36 0 ++ body;
  fadt_bytes _ _ _ _ _ _ := replicate 276 0;
  madt_bytes _ _ _ _ es := replicate (Z.to_nat (44 + foldr (λ e n, madt_entry_size e + n) 0 es)) 0;
  xsdt_bytes _ _ _ es := replicate (36 + 8 * length es) 0;
  rsdp_bytes _ xsdt := replicate 28 0 ++ le_bytes 8 xsdt;
}.

#[export] Instance Zero_tables_laws : AcpiTablesLaws.
Proof.
  split; intros; cbn [sdt_bytes fadt_bytes madt_bytes xsdt_bytes rsdp_bytes Zero_tables];
    unfold zlen; rewrite ?length_app, ?length_replicate, ?length_le_bytes; try lia.
  assert (0 ≤ foldr (λ e n, madt_entry_size e + n) 0 es); [|lia].
  induction es as [|e es IH]; cbn [foldr]; [lia|]. destruct e; cbn [madt_entry_size]; lia.
Qed.


Lemma acpi_tables_installed_witness :
  ∃ rsdp m', install_tables [mkAcpi 0xd0000000 0x1000 5 0] 4 (mkByteMem 0x200000 ∅) = Ret (Ok rsdp, m')
    ∧ acpi_installed [mkAcpi 0xd0000000 0x1000 5 0] 4 (mkByteMem 0x200000 ∅) rsdp m'.
Proof.
  apply (acpi_tables_installed [mkAcpi 0xd0000000 0x1000 5 0] 4 (mkByteMem 0x200000 ∅)); [lia|by zcompute|by zcompute].
Defined.
