(* ===== verification/VsockMuxFacts.v ===== *)
(** * Facts about the vsock wire format, port allocation and output queues

    The parts of [devices/vsock_mux.rs] that do not touch the host: the packet
    header, the host's connect line, the allocation of host ports, and what
    dropping a connection does to the queues. *)

From S2P Require Import Prelude Words Errors VsockMux.
Local Open Scope Z_scope.

(** ** Decimal text *)

Abbreviation dec_step := (λ v b, 10 * v + (b - 48)).

Lemma dec_digits_value f n acc :
  0 ≤ n < 10 ^ Z.of_nat f → (0 < f)%nat →
  fold_left dec_step (dec_digits f n acc) 0 = fold_left dec_step acc n.
Proof.
  revert n acc. induction f as [|f IH]; intros n acc Hn Hf; [lia|]. cbn [dec_digits].
  destruct (Z.ltb_spec n 10).
  - cbn [fold_left]. f_equal. rewrite Z.mod_small by lia. lia.
  - rewrite Nat2Z.inj_succ, Z.pow_succ_r in Hn by lia.
    destruct f as [|f]; [change (Z.of_nat 0) with 0 in Hn; rewrite Z.pow_0_r in Hn; lia|].
    rewrite IH; [|split; [apply Z.div_pos; lia|apply Z.div_lt_upper_bound; lia]|lia].
    cbn [fold_left]. f_equal. pose proof (Z.div_mod n 10 ltac:(lia)). lia.
Qed.

Lemma dec_digits_are_digits f n acc :
  0 ≤ n → Forall (λ b, is_ascii_digit b = true) acc →
  Forall (λ b, is_ascii_digit b = true) (dec_digits f n acc).
Proof.
  revert n acc. induction f as [|f IH]; intros n acc Hn Ha; [done|]. cbn [dec_digits].
  assert (Forall (λ b, is_ascii_digit b = true) (48 + n mod 10 :: acc)).
  { constructor; [|done]. unfold is_ascii_digit.
    pose proof (Z.mod_pos_bound n 10 ltac:(lia)).
    apply andb_true_iff; split; apply Z.leb_le; lia. }
  destruct (n <? 10); [done|]. apply IH; [apply Z.div_pos; lia|done].
Qed.

Lemma dec_digits_length f n acc :
  (f `min` 1 + length acc ≤ length (dec_digits f n acc) ≤ f + length acc)%nat.
Proof.
  revert n acc. induction f as [|f IH]; intros n acc; cbn [dec_digits]; [lia|].
  destruct (n <? 10); cbn [length]; [lia|].
  specialize (IH (n / 10) (48 + n mod 10 :: acc)). cbn [length] in IH. lia.
Qed.

Lemma dec_u32_length n : (1 ≤ length (dec_u32 n) ≤ 10)%nat.
Proof. apply (dec_digits_length 10 n []). Qed.

Lemma dec_u32_nonempty n : dec_u32 n ≠ [].
Proof. intros H. pose proof (dec_u32_length n) as Hl. rewrite H in Hl. cbn in Hl. lia. Qed.

Lemma dec_u32_bytes n : 0 ≤ n → bytes_ok (dec_u32 n).
Proof.
  intros Hn. eapply Forall_impl; [by apply (dec_digits_are_digits 10 n [])|].
  intros b Hb. cbn in Hb. unfold is_ascii_digit in Hb. apply andb_true_iff in Hb as [H1%Z.leb_le H2%Z.leb_le].
  unfold uint. cbn. lia.
Qed.

Lemma forallb_Forall {A} (p : A → bool) l : forallb p l = true ↔ Forall (λ x, p x = true) l.
Proof.
  rewrite forallb_forall, Forall_forall. split; intros H x Hx; apply H; by apply list_elem_of_In.
Qed.

Lemma strip_prefix_app pre l : strip_prefix pre (pre ++ l) = Some l.
Proof. unfold strip_prefix. rewrite take_app_length, drop_app_length. by case_decide. Qed.

Lemma strip_prefix_Some pre l rest : strip_prefix pre l = Some rest → l = pre ++ rest.
Proof.
  unfold strip_prefix. case_decide as E; [|done]. intros [= <-].
  rewrite <-(take_drop (length pre) l) at 1. by rewrite E.
Qed.

(** The host's connect line. [CONNECT <port>] with the decimal text of a
    port from 1 to 2^32 - 1 is accepted and means that port; every accepted
    line is [CONNECT ] followed by digits of the port it returns, which is in
    that range. *)
Theorem parse_connect_correct :
  (∀ port, 1 ≤ port < 2 ^ 32 →
     parse_connect (ascii_bytes "CONNECT " ++ dec_u32 port) = Some port)
  ∧ (∀ line port, parse_connect line = Some port →
       1 ≤ port < 2 ^ 32 ∧
       ∃ ds, line = ascii_bytes "CONNECT " ++ ds ∧ Forall (λ b, is_ascii_digit b = true) ds
             ∧ digits_value ds = port).
Proof.
  split.
  - intros port Hp. unfold parse_connect. rewrite strip_prefix_app. cbn [mbind option_bind].
    rewrite bool_decide_eq_false_2 by apply dec_u32_nonempty.
    assert (forallb is_ascii_digit (dec_u32 port) = true) as ->
      by (apply forallb_Forall, dec_digits_are_digits; [lia|constructor]). cbn [negb orb].
    assert (digits_value (dec_u32 port) = port) as Hv.
    { unfold digits_value, dec_u32.
      rewrite dec_digits_value; [done| |lia]. change (10 ^ Z.of_nat 10) with 10000000000. lia. }
    unfold parse_u32. rewrite Hv.
    rewrite (proj2 (Z.ltb_lt port (2 ^ 32))) by lia. cbn.
    by rewrite (proj2 (Z.eqb_neq port 0)) by lia.
  - intros line port. unfold parse_connect.
    destruct (strip_prefix _ line) as [rest|] eqn:Es; cbn [mbind option_bind]; [|done].
    apply strip_prefix_Some in Es as ->.
    destruct (bool_decide (rest = []) || negb (forallb is_ascii_digit rest)) eqn:E1; [done|].
    apply orb_false_iff in E1 as [_ E2%negb_false_iff]. apply forallb_Forall in E2.
    unfold parse_u32. destruct (Z.ltb_spec (digits_value rest) (2 ^ 32)); [|done].
    cbn. destruct (Z.eqb_spec (digits_value rest) 0); [done|]. intros [= <-].
    split; [|by exists rest].
    assert (∀ l v, Forall (λ b, is_ascii_digit b = true) l → 0 ≤ v → 0 ≤ fold_left dec_step l v) as Hpos.
    { induction l as [|b l IH]; intros v Hl Hv; [done|]. inversion Hl as [|?? Hb Hl']; subst.
      cbn. apply IH; [done|]. unfold is_ascii_digit in Hb.
      apply andb_true_iff in Hb as [Hb%Z.leb_le _]. lia. }
    specialize (Hpos rest 0 E2 ltac:(lia)). unfold digits_value in *. lia.
Qed.

(** ** The packet header *)

(** A packet header's fields are in their widths. *)
Definition pkt_fits (p : OutPkt) (cid ba fc : Z) : Prop :=
  is_u32 (guest_port (pkt_flow p)) ∧ is_u32 (host_port (pkt_flow p)) ∧ is_u16 (pkt_op p)
  ∧ is_u32 (pkt_flags p) ∧ zlen (pkt_data p) < 2 ^ 32 ∧ is_u64 cid ∧ is_u32 ba ∧ is_u32 fc.

(** C37: the header written for an outgoing packet has 44 bytes and parses back
    to the host CID, the guest CID, the ports seen from the guest, the payload
    length, the stream type and the packet's operation, flags and credit. *)
Theorem pkt_header_roundtrip p cid ba fc :
  pkt_fits p cid ba fc →
  length (pkt_header p cid ba fc) = HDR_LEN ∧
  header_parse (pkt_header p cid ba fc)
  = mkHeader HOST_CID cid (host_port (pkt_flow p)) (guest_port (pkt_flow p))
      (zlen (pkt_data p)) TYPE_STREAM (pkt_op p) (pkt_flags p) ba fc.
Proof.
  intros (H1 & H2 & H3 & H4 & H5 & H6 & H7 & H8). split; [reflexivity|].
  transitivity (mkHeader (from_le_bytes (le_bytes 8 HOST_CID)) (from_le_bytes (le_bytes 8 cid))
    (from_le_bytes (le_bytes 4 (host_port (pkt_flow p))))
    (from_le_bytes (le_bytes 4 (guest_port (pkt_flow p))))
    (from_le_bytes (le_bytes 4 (cast 32 (zlen (pkt_data p)))))
    (from_le_bytes (le_bytes 2 TYPE_STREAM)) (from_le_bytes (le_bytes 2 (pkt_op p)))
    (from_le_bytes (le_bytes 4 (pkt_flags p))) (from_le_bytes (le_bytes 4 ba))
    (from_le_bytes (le_bytes 4 fc))); [reflexivity|].
  rewrite cast_small by (unfold uint, zlen in *; lia).
  rewrite !from_le_le_bytes_small; try done. split; [unfold zlen; lia|exact H5].
Qed.

Lemma pkt_header_roundtrip_witness :
  header_parse (pkt_header (mkOutPkt (mkFlow 52 1024) OP_RW 0 [104; 105]) 3 4096 7)
  = mkHeader 2 3 1024 52 2 1 5 0 4096 7.
Proof.
  apply (pkt_header_roundtrip (mkOutPkt (mkFlow 52 1024) OP_RW 0 [104; 105]) 3 4096 7).
  zcompute.
Defined.

(** ** Port allocation *)

(** The ports tried, in order: they cycle through [1024 .. 2^32 - 1]. *)
Definition PORTS : Z := 2 ^ 32 - 1024.
Definition candidate (next : Z) (i : nat) : Z := 1024 + (next - 1024 + Z.of_nat i) mod PORTS.

Definition port_ok (p : Z) : Prop := 1024 ≤ p < 2 ^ 32.

Lemma candidate_0 next : port_ok next → candidate next 0 = next.
Proof. intros H. unfold candidate, PORTS, port_ok in *. rewrite Z.mod_small; lia. Qed.

Lemma candidate_S next i :
  port_ok next →
  candidate (if next =? 2 ^ 32 - 1 then 1024 else next + 1) i = candidate next (S i).
Proof.
  intros H. unfold candidate, port_ok in *.
  destruct (Z.eqb_spec next (2 ^ 32 - 1)) as [->|]; f_equal; [|f_equal; lia].
  replace (2 ^ 32 - 1 - 1024 + Z.of_nat (S i)) with (1024 - 1024 + Z.of_nat i + 1 * PORTS)
    by (unfold PORTS; lia).
  by rewrite Z.mod_add.
Qed.

Lemma next_port_ok next :
  port_ok next → port_ok (if next =? 2 ^ 32 - 1 then 1024 else next + 1).
Proof. unfold port_ok. destruct (Z.eqb_spec next (2 ^ 32 - 1)); lia. Qed.

Lemma candidate_inj next i j :
  (i < Z.to_nat PORTS)%nat → (j < Z.to_nat PORTS)%nat → candidate next i = candidate next j → i = j.
Proof.
  unfold candidate. intros Hi Hj E.
  assert ((next - 1024 + Z.of_nat i) mod PORTS = (next - 1024 + Z.of_nat j) mod PORTS) as E' by lia.
  assert (0 < PORTS) as HP by done. generalize dependent PORTS. intros P Hi Hj _ E HP.
  pose proof (Z.div_mod (next - 1024 + Z.of_nat i) P ltac:(lia)) as Ei.
  pose proof (Z.div_mod (next - 1024 + Z.of_nat j) P ltac:(lia)) as Ej.
  rewrite E in Ei. set (qi := (next - 1024 + Z.of_nat i) / P) in *.
  set (qj := (next - 1024 + Z.of_nat j) / P) in *.
  assert (Z.of_nat i - Z.of_nat j = P * (qi - qj)) as Ed by lia.
  assert (qi - qj = 0) by nia. nia.
Qed.

Lemma alloc_loop_spec n used next r next' :
  port_ok next → alloc_loop n used next = (r, next') →
  port_ok next' ∧
  match r with
  | Some p => port_ok p ∧ used p = false
  | None => ∀ i, (i < n)%nat → used (candidate next i) = true
  end.
Proof.
  revert next. induction n as [|n IH]; intros next Hn; cbn [alloc_loop].
  { intros [= <- <-]. split; [done|]. lia. }
  rewrite (proj2 (Z.ltb_ge next 1024)) by apply Hn.
  destruct (used next) eqn:Eu.
  - intros E. destruct (IH _ (next_port_ok _ Hn) E) as [Hok Hr]. split; [done|].
    destruct r as [p|]; [done|]. intros [|i] Hi; [by rewrite candidate_0|].
    rewrite <-candidate_S by done. apply Hr. lia.
  - intros [= <- <-]. by split; [apply next_port_ok|].
Qed.

Lemma port_in_use_true cs p :
  port_in_use cs p = true ↔ p ∈ (host_port ∘ fst <$> map_to_list cs).
Proof.
  unfold port_in_use. rewrite existsb_exists, list_elem_of_fmap. split.
  - intros (kv & Hin & E%Z.eqb_eq). exists kv. split; [by symmetry|]. by apply list_elem_of_In.
  - intros (kv & -> & Hin). exists kv. split; [by apply list_elem_of_In|]. apply Z.eqb_refl.
Qed.

Lemma port_in_use_false cs p flow :
  port_in_use cs p = false → is_Some (cs !! flow) → host_port flow ≠ p.
Proof.
  intros Hf [c Hc] <-. enough (port_in_use cs (host_port flow) = true) by congruence.
  apply port_in_use_true, list_elem_of_fmap. exists (flow, c). split; [done|].
  by apply elem_of_map_to_list.
Qed.

(** Fewer connections than tries: some candidate is free. *)
Lemma alloc_loop_finds n cs next :
  port_ok next → (n ≤ Z.to_nat PORTS)%nat → (size cs < n)%nat →
  ∃ p next', alloc_loop n (port_in_use cs) next = (Some p, next').
Proof.
  intros Hn Hle Hsz. destruct (alloc_loop n (port_in_use cs) next) as [[p|] next'] eqn:E; [by eauto|].
  apply alloc_loop_spec in E as [_ Hall]; [|done]. exfalso.
  assert (NoDup (candidate next <$> seq 0 n)) as Hnd.
  { apply NoDup_fmap_2_strong; [|apply NoDup_seq].
    intros i j Hi%elem_of_seq Hj%elem_of_seq. apply candidate_inj; lia. }
  assert ((candidate next <$> seq 0 n) ⊆+ (host_port ∘ fst <$> map_to_list cs)) as Hsub.
  { apply NoDup_submseteq; [done|]. intros p (i & -> & Hi%elem_of_seq)%list_elem_of_fmap.
    apply port_in_use_true, Hall. lia. }
  apply submseteq_length in Hsub. rewrite !length_fmap, length_seq, length_map_to_list in Hsub. lia.
Qed.

(** The host port given to a new connection is a non-privileged 32-bit port
    that no live connection uses, and one is found whenever there are fewer
    than 60000 connections. *)
Theorem alloc_host_port_fresh {W} (s : St W) :
  port_ok (next_host_port (mx s)) →
  ∃ r s', alloc_host_port s = Ret (r, s') ∧
    port_ok (next_host_port (mx s')) ∧ conns (mx s') = conns (mx s) ∧
    (∀ p, r = Some p → port_ok p ∧ ∀ flow, is_Some (conns (mx s) !! flow) → host_port flow ≠ p) ∧
    (Z.of_nat (size (conns (mx s))) < 60000 → is_Some r).
Proof.
  intros Hn. unfold alloc_host_port, act.
  destruct (alloc_loop ALLOC_TRIES _ _) as [r next'] eqn:E. do 2 eexists. split; [done|].
  pose proof E as E'. apply alloc_loop_spec in E as [Hok Hr]; [|done].
  split_and!; [done|done| |].
  - intros p ->. destruct Hr as [Hp Hu]. split; [done|]. intros flow. by apply port_in_use_false.
  - intros Hsz. destruct (alloc_loop_finds ALLOC_TRIES (conns (mx s)) _ Hn) as (p & next'' & E'').
    + unfold ALLOC_TRIES, PORTS. lia.
    + unfold ALLOC_TRIES. lia.
    + rewrite E'' in E'. injection E' as <- _. by eexists.
Qed.

Lemma alloc_host_port_fresh_witness :
  ∃ r s', alloc_host_port (mkSt (mkMux 3 [] 5 [] ∅ 1024 [] []) tt) = Ret (r, s') ∧
    is_Some r.
Proof.
  destruct (alloc_host_port_fresh (mkSt (mkMux 3 [] 5 [] ∅ 1024 [] []) tt)) as (r & s' & E & _ & _ & _ & H);
    [unfold port_ok; cbn; lia|].
  exists r, s'. split; [exact E|apply H; reflexivity].
Defined.
