(* ===== verification/VsockMuxInv.v ===== *)
(** * The invariant of the vsock multiplexer

    What holds of the connection table and the output queues between events,
    and the proof that every operation of [devices/vsock_mux.rs] keeps it,
    never panics, and returns when the host interrupts calls only boundedly
    often. *)

From S2P Require Import Prelude Words Errors VsockMux VsockMuxFacts.
Local Open Scope Z_scope.

(** ** The invariant *)

(** A connection: it advertises a buffer of [BUF_ALLOC] bytes; the bytes it
    holds for the host are exactly those received and not yet forwarded, and
    fit the buffer; the bytes it holds for the guest are bounded. *)
Record conn_ok (c : Conn) : Prop := {
  co_buf : buf_alloc c = BUF_ALLOC;
  co_held : wrapping_sub 32 (received c) (fwd_cnt c) = zlen (to_host c);
  co_to_host : zlen (to_host c) ≤ BUF_ALLOC;
  co_prefetch : zlen (prefetched c) ≤ MAX_PREFETCH;
  co_received : is_u32 (received c);
  co_fwd : is_u32 (fwd_cnt c);
  co_sent : is_u32 (sent_to_guest c);
  co_last : is_u32 (last_fwd_sent c);
}.

(** A data packet: a chunk of a live connection. *)
Definition data_pkt_ok (cs : gmap Flow Conn) (p : OutPkt) : Prop :=
  pkt_op p = OP_RW ∧ pkt_data p ≠ [] ∧ zlen (pkt_data p) ≤ MAX_CHUNK ∧ is_Some (cs !! pkt_flow p).

(** A control packet: no payload, and of a live connection unless it is a reset. *)
Definition ctrl_pkt_ok (cs : gmap Flow Conn) (p : OutPkt) : Prop :=
  pkt_op p ≠ OP_RW ∧ pkt_data p = [] ∧ (pkt_op p ≠ OP_RST → is_Some (cs !! pkt_flow p)).

(** A host socket that has not sent its connect line yet. *)
Definition incoming_ok (i : Incoming) : Prop := zlen (inc_buf i) ≤ 64 ∧ NL ∉ inc_buf i.

Record mux_ok (m : Mux) : Prop := {
  mo_conns : map_Forall (λ _, conn_ok) (conns m);
  mo_data : Forall (data_pkt_ok (conns m)) (out_data m);
  mo_ctrl : Forall (ctrl_pkt_ok (conns m)) (out_ctrl m);
  mo_incoming : Forall incoming_ok (incoming m);
  mo_port : port_ok (next_host_port m);
}.

(** ** Pure preservation lemmas *)

Lemma conn_ok_new fd ph : conn_ok (conn_new fd ph).
Proof. split; zcompute. Qed.

Lemma conn_ok_local_free c : conn_ok c → local_free c = BUF_ALLOC - zlen (to_host c).
Proof.
  intros H. unfold local_free, saturating_sub. rewrite (co_held c H), (co_buf c H).
  pose proof (co_to_host c H). lia.
Qed.

Lemma conn_ok_receive c data :
  conn_ok c → zlen data ≤ local_free c →
  conn_ok (c <| received ::= λ x, wrapping_add 32 x (cast 32 (zlen data)) |>
             <| to_host ::= λ l, l ++ data |>).
Proof.
  intros H Hfree. rewrite conn_ok_local_free in Hfree by done.
  assert (BUF_ALLOC < 2 ^ 32) as HB by done.
  pose proof (zlen_nonneg data). pose proof (zlen_nonneg (to_host c)).
  destruct H as [B1 B2 B3 B4 B5 B6 B7 B8]. split; cbn; try done.
  - rewrite wrapping_sub_add, B2, zlen_app by done.
    rewrite cast_small by (unfold uint; lia). apply wrapping_add_small. lia.
  - rewrite zlen_app. lia.
  - by apply uint_wrapping_add.
Qed.

Lemma conn_ok_forward c n :
  conn_ok c → 0 ≤ n ≤ zlen (to_host c) →
  conn_ok (c <| to_host ::= drop (Z.to_nat n) |>
             <| fwd_cnt ::= λ x, wrapping_add 32 x (cast 32 n) |>).
Proof.
  intros H Hn. assert (BUF_ALLOC < 2 ^ 32) as HB by done.
  destruct H as [B1 B2 B3 B4 B5 B6 B7 B8]. split; cbn; try done.
  - rewrite wrapping_sub_wrapping_add_r, B2, zlen_drop by done.
    rewrite cast_small by (unfold uint; lia). unfold wrapping_sub. apply Z.mod_small. lia.
  - rewrite zlen_drop by done. lia.
  - by apply uint_wrapping_add.
Qed.

Lemma conn_ok_prefetch c l : conn_ok c → zlen l ≤ MAX_PREFETCH → conn_ok (c <| prefetched := l |>).
Proof. by intros []; split. Qed.

(** Fields the invariant does not mention. *)
Lemma conn_ok_ext c c' :
  conn_ok c →
  buf_alloc c' = buf_alloc c → received c' = received c → fwd_cnt c' = fwd_cnt c →
  to_host c' = to_host c → prefetched c' = prefetched c → sent_to_guest c' = sent_to_guest c →
  last_fwd_sent c' = last_fwd_sent c → conn_ok c'.
Proof. intros [] ???????. split; congruence. Qed.

Lemma conn_ok_peer ba fc c :
  conn_ok c → conn_ok (c <| peer_buf_alloc := ba |> <| peer_fwd_cnt := fc |>).
Proof. intros H. by apply (conn_ok_ext c). Qed.

Lemma data_pkt_ok_mono cs cs' p :
  (∀ f, is_Some (cs !! f) → is_Some (cs' !! f)) → data_pkt_ok cs p → data_pkt_ok cs' p.
Proof. intros Hd (?&?&?&?). split_and!; auto. Qed.

Lemma ctrl_pkt_ok_mono cs cs' p :
  (∀ f, is_Some (cs !! f) → is_Some (cs' !! f)) → ctrl_pkt_ok cs p → ctrl_pkt_ok cs' p.
Proof. intros Hd (?&?&?). split_and!; auto. Qed.

(** Replacing the table by one with at least the same connections. *)
Lemma mux_ok_conns m cs :
  mux_ok m → map_Forall (λ _, conn_ok) cs → (∀ f, is_Some (conns m !! f) → is_Some (cs !! f)) →
  mux_ok (m <| conns := cs |>).
Proof.
  intros [] Hcs Hd. split; cbn; try done.
  - eapply Forall_impl; [done|]. intros p. by apply data_pkt_ok_mono.
  - eapply Forall_impl; [done|]. intros p. by apply ctrl_pkt_ok_mono.
Qed.

Lemma mux_ok_alter m f flow :
  mux_ok m → (∀ c, conns m !! flow = Some c → conn_ok c → conn_ok (f c)) →
  mux_ok (m <| conns ::= alter f flow |>).
Proof.
  intros Hm Hf. apply (mux_ok_conns m (alter f flow (conns m))); [done| |].
  - intros fl c. rewrite lookup_alter. case_decide as E; [subst|by apply (mo_conns m Hm)].
    destruct (conns m !! fl) as [c0|] eqn:Ec; [|done]. intros [= <-].
    apply Hf; [done|]. by apply (mo_conns m Hm fl).
  - intros fl. rewrite lookup_alter. case_decide as E; [subst|done]. by rewrite fmap_is_Some.
Qed.

Lemma mux_ok_insert m flow c :
  mux_ok m → conn_ok c → mux_ok (m <| conns ::= <[flow := c]> |>).
Proof.
  intros Hm Hc. apply (mux_ok_conns m (<[flow := c]> (conns m))); [done| |].
  - apply map_Forall_insert_2; [done|apply (mo_conns m Hm)].
  - intros fl Hs. rewrite lookup_insert. by case_decide.
Qed.

Lemma mux_ok_push_ctrl m flow op flags :
  mux_ok m → op ≠ OP_RW → (op ≠ OP_RST → is_Some (conns m !! flow)) →
  mux_ok (m <| out_ctrl ::= λ l, l ++ [pkt_ctrl flow op flags] |>).
Proof.
  intros [] Hop Hlive. split; cbn; try done.
  apply Forall_app. split; [done|]. apply Forall_singleton. by split_and!.
Qed.

Lemma mux_ok_push_data m p :
  mux_ok m → data_pkt_ok (conns m) p → mux_ok (m <| out_data ::= λ l, l ++ [p] |>).
Proof.
  intros [] Hp. split; cbn; try done. apply Forall_app. split; [done|]. by apply Forall_singleton.
Qed.

Lemma mux_ok_filter_ctrl m (P : OutPkt → Prop) `{∀ p, Decision (P p)} :
  mux_ok m → mux_ok (m <| out_ctrl ::= filter P |>).
Proof. intros []. split; cbn; auto with kitsune. Qed.

Lemma mux_ok_drop m flow :
  mux_ok m →
  mux_ok (m <| conns ::= delete flow |> <| out_ctrl ::= filter (λ p, pkt_flow p ≠ flow) |>
            <| out_data ::= filter (λ p, pkt_flow p ≠ flow) |>).
Proof.
  intros [H1 H2 H3 H4 H5]. split; cbn; try done.
  - by apply map_Forall_delete.
  - rewrite Forall_forall in *. intros p [Hne Hp]%list_elem_of_filter.
    destruct (H2 p Hp) as (?&?&?&?). split_and!; try done. by rewrite lookup_delete_ne.
  - rewrite Forall_forall in *. intros p [Hne Hp]%list_elem_of_filter.
    destruct (H3 p Hp) as (?&?&Hl). split_and!; try done.
    intros Hr. rewrite lookup_delete_ne by done. by apply Hl.
Qed.

Lemma mux_ok_incoming m l :
  mux_ok m → Forall incoming_ok l → mux_ok (m <| incoming := l |>).
Proof. intros [] Hl. by split. Qed.

(** ** Every operation keeps the invariant *)

Lemma wp_host {W A} t (f : W → A * W) (Q : A → St W → Prop) s :
  (∀ a w, f (hw s) = (a, w) → Q a (s <| hw := w |>)) → wp t (host f) Q s.
Proof.
  intros H. unfold host. apply wp_act. intros a s'. destruct (f (hw s)) as [a' w] eqn:E.
  intros [= <- <-]. by apply H.
Qed.

(** Steps of the operations, down to calls of other operations. *)
Ltac mstep :=
  lazymatch goal with
  | |- wp _ (host _) _ _ => apply wp_host; let E := fresh "Eh" in intros ? ? E
  | |- wp _ (host_ _) _ _ => unfold host_; apply wp_modify
  | |- wp _ (upd_mux _) _ _ => unfold upd_mux; apply wp_modify
  | |- wp _ (upd_conn _ _) _ _ => unfold upd_conn, upd_mux; apply wp_modify
  | |- wp _ (get_conn _) _ _ => unfold get_conn; apply wp_gets
  | _ => wp_step
  end; cbn beta iota zeta.
Ltac msteps := repeat mstep.

Definition inv {W} (s : St W) : Prop := mux_ok (mx s).

Section ops.
Context {W : Type} `{VH : !VsockHost W} `{VL : !VsockHostLaws W}.
Variable fuel : nat.
Variable hash_order : gmap Flow Conn → list (Flow * Conn).
Variable t : mode.
Variable fair : t = Total → VsockHostFair W fuel.
Implicit Types s : St W.

Lemma send_nosig_wp fd buf Q s :
  (∀ r w,
     match r with
     | Ok n => 0 ≤ n ≤ zlen buf ∧
         ∀ fd', sent_on w fd' = if decide (fd' = fd) then sent_on (hw s) fd ++ take (Z.to_nat n) buf
                                else sent_on (hw s) fd'
     | Err _ => ∀ fd', sent_on w fd' = sent_on (hw s) fd'
     end → Q r (s <| hw := w |>)) →
  wp t (send_nosig fuel fd buf) Q s.
Proof.
  intros HQ. unfold send_nosig.
  eapply (wp_iter_mode t (λ _ s', mx s' = mx s ∧ ∀ fd', sent_on (hw s') fd' = sent_on (hw s) fd')
            (λ F _ s', patience (hw s')) _ _ _ _ _ fair);
    [intros; apply patience_bound|done|].
  intros _ s1 [Hmx Hlog]. apply wp_bind, wp_host. intros r w E.
  destruct s as [m0 w0], s1 as [m1 w1]. cbn in *. subst m1.
  destruct r as [n|e]; cbn beta iota.
  - apply wp_ret. apply (HQ (Ok n)). split; [by eapply send_bound|].
    intros fd'. rewrite (send_log _ _ _ _ _ fd' E). case_decide; by rewrite ?Hlog.
  - destruct (raw_is EINTR e) eqn:Ee; apply wp_ret.
    + split; [split; [done|]|].
      * intros fd'. by rewrite (send_log_err _ _ _ _ _ fd' E).
      * intros F. by eapply send_patience.
    + apply (HQ (Err e)). intros fd'. by rewrite (send_log_err _ _ _ _ _ fd' E).
Qed.

Lemma read_fd_wp fd len Q s :
  0 ≤ len →
  (∀ r w, (∀ bs, r = Ok bs → zlen bs ≤ len) → Q r (s <| hw := w |>)) →
  wp t (read_fd fuel fd len) Q s.
Proof.
  intros Hlen HQ. unfold read_fd.
  eapply (wp_iter_mode t (λ _ s', mx s' = mx s) (λ F _ s', patience (hw s')) _ _ _ _ _ fair);
    [intros; apply patience_bound|done|].
  intros _ s1 Hmx. apply wp_bind, wp_host. intros r w E.
  destruct s as [m0 w0], s1 as [m1 w1]. cbn in *. subst m1.
  destruct r as [bs|e]; cbn beta iota.
  - apply wp_ret. apply (HQ (Ok bs)). intros ? [= <-]. by eapply read_bound.
  - destruct (raw_is EINTR e) eqn:Ee; apply wp_ret.
    + split; [done|]. intros F. by eapply read_patience.
    + by apply (HQ (Err e)).
Qed.

Lemma enqueue_ok flow op flags s :
  inv s → op ≠ OP_RW → (op ≠ OP_RST → is_Some (conns (mx s) !! flow)) →
  wp t (enqueue (pkt_ctrl flow op flags)) (λ _, inv) s.
Proof.
  intros Hs Hop Hl. unfold enqueue. msteps. unfold inv. cbn.
  rewrite (proj2 (Z.eqb_neq op OP_RW) Hop). by apply mux_ok_push_ctrl.
Qed.

Lemma enqueue_rst_ok flow s : inv s → wp t (enqueue_rst flow) (λ _, inv) s.
Proof.
  intros Hs. unfold enqueue_rst. msteps. apply enqueue_ok; [|done|done].
  unfold inv. cbn. by apply mux_ok_filter_ctrl.
Qed.

Lemma drop_conn_ok flow rst s : inv s → wp t (drop_conn flow rst) (λ _, inv) s.
Proof.
  intros Hs. unfold drop_conn. mstep. mstep.
  assert (∀ s', inv s' → wp t (upd_mux (λ m, m <| conns ::= delete flow |>
                  <| out_ctrl ::= filter (λ p, pkt_flow p ≠ flow) |>
                  <| out_data ::= filter (λ p, pkt_flow p ≠ flow) |>);;
                if rst then enqueue_rst flow else mret tt) (λ _, inv) s') as Hrest.
  { intros s' Hs'. msteps; [apply enqueue_rst_ok|]; unfold inv; cbn; by apply mux_ok_drop. }
  mstep. destruct (conns (mx s) !! flow) as [c|]; msteps; by apply Hrest.
Qed.

Lemma mark_local_shut_ok flow recv send s :
  inv s → wp t (mark_local_shut flow recv send) (λ _, inv) s.
Proof.
  intros Hs. unfold mark_local_shut. msteps; try done; try (by apply drop_conn_ok).
  - apply enqueue_ok; [|done|intros _; cbn; rewrite !lookup_alter_eq, Hm; by eexists].
    unfold inv. cbn. apply mux_ok_alter; [apply mux_ok_alter; [done|]|];
      intros ? _ H; (eapply conn_ok_ext; [exact H|done..]).
  - unfold inv. cbn. apply mux_ok_alter; [done|].
    intros ? _ H; (eapply conn_ok_ext; [exact H|done..]).
Qed.

Lemma request_credit_ok flow s :
  inv s → is_Some (conns (mx s) !! flow) → wp t (request_credit flow) (λ _, inv) s.
Proof. intros Hs Hl. unfold request_credit. msteps; [done|]. by apply enqueue_ok. Qed.

Lemma conn_ok_ack c : conn_ok c → conn_ok (c <| last_fwd_sent := fwd_cnt c |>).
Proof. intros []. by split. Qed.

Lemma credit_update_ok flow s :
  inv s → is_Some (conns (mx s) !! flow) →
  wp t (upd_conn flow (λ c, c <| last_fwd_sent := fwd_cnt c |>);;
        enqueue (pkt_ctrl flow OP_CREDIT_UPDATE 0)) (λ _, inv) s.
Proof.
  intros Hs Hl. msteps. apply enqueue_ok; [|done|].
  - unfold inv. cbn. apply mux_ok_alter; [done|]. intros c _. apply conn_ok_ack.
  - intros _. cbn. rewrite lookup_alter_eq. by rewrite fmap_is_Some.
Qed.

Lemma enqueue_credit_ok flow s :
  inv s → is_Some (conns (mx s) !! flow) → wp t (enqueue_credit flow) (λ _, inv) s.
Proof. intros Hs Hl. unfold enqueue_credit. mstep. mstep. mstep; [by mstep|]. by apply credit_update_ok. Qed.

Lemma maybe_credit_ok flow s : inv s → wp t (maybe_credit flow) (λ _, inv) s.
Proof.
  intros Hs. unfold maybe_credit. mstep. mstep. mstep; [|by mstep].
  mstep; [by mstep|]. mstep. mstep. mstep; [by mstep|]. apply credit_update_ok; [done|]. by rewrite Hm.
Qed.

Lemma peer_avail_nonneg c : 0 ≤ peer_avail c.
Proof. unfold peer_avail, saturating_sub. lia. Qed.

(** The size of a chunk is positive and within the data, the credit and
    [MAX_CHUNK]. *)
Lemma chunk_bounds (rest : list Z) credit :
  rest ≠ [] → credit ≠ 0 → 0 ≤ credit →
  0 < Z.min (Z.min (zlen rest) credit) MAX_CHUNK ≤ zlen rest.
Proof. intros Hr%zlen_pos Hc Hc'. unfold MAX_CHUNK. lia. Qed.

Lemma stash_ok c data k :
  conn_ok c → 0 ≤ k ≤ saturating_sub MAX_PREFETCH (zlen (prefetched c)) →
  conn_ok (c <| prefetched ::= λ l, l ++ take (Z.to_nat k) data |>).
Proof.
  intros Hc Hk. apply (conn_ok_prefetch c (prefetched c ++ take (Z.to_nat k) data)); [done|].
  rewrite zlen_app. pose proof (co_prefetch c Hc). unfold saturating_sub in Hk.
  unfold zlen at 2. rewrite length_take. lia.
Qed.

Lemma ingest_step_ok flow rest s :
  inv s →
  wp t (ingest_step flow rest)
    (λ r s', inv s' ∧ match r with inl rest' => (length rest' < length rest)%nat | inr _ => True end) s.
Proof.
  intros Hs. unfold ingest_step. mstep; [by mstep|]. apply bool_decide_eq_false in Hif.
  mstep. mstep. mstep; [|by mstep].
  assert (conn_ok c) as Hc by (by apply (mo_conns _ Hs flow)).
  pose proof (zlen_nonneg (prefetched c)). pose proof (zlen_nonneg rest).
  mstep.
  - mstep. mstep; msteps; (split; [|done]); [|done].
    apply Z.ltb_lt in Hif1. unfold inv. cbn. apply mux_ok_alter; [done|].
    intros c' E _. rewrite Hm in E. injection E as <-.
    apply stash_ok; [done|]. unfold saturating_sub. lia.
  - mstep; [apply Z.eqb_eq in Hif1|apply Z.eqb_neq in Hif1].
    + unfold stash_prefetch. do 2 mstep. mstep.
      wp_apply request_credit_ok.
      * unfold inv. cbn. apply mux_ok_alter; [done|]. intros c' _ Hc'.
        pose proof (zlen_nonneg (prefetched c')). apply stash_ok; [done|].
        unfold saturating_sub. pose proof (co_prefetch c' Hc'). lia.
      * cbn. rewrite lookup_alter_eq, Hm. by eexists.
      * intros [] s' Hs'. by mstep.
    + pose proof (chunk_bounds rest _ Hif Hif1 (peer_avail_nonneg c)) as Hn.
      msteps. split; [|rewrite length_drop; unfold zlen in *; lia].
      unfold inv. cbn. apply mux_ok_push_data.
      * apply mux_ok_alter; [done|]. intros c' _ []. split; try done. cbn. by apply uint_wrapping_add.
      * split_and!; [done| | |cbn; rewrite lookup_alter_eq, Hm; by eexists]; cbn.
        -- intros E%(f_equal zlen). rewrite zlen_take, zlen_nil in E by lia. lia.
        -- rewrite zlen_take by lia. lia.
Qed.

Lemma ingest_ok flow data s : inv s → wp t (ingest flow data) (λ _, inv) s.
Proof.
  intros Hs. unfold ingest.
  apply (wp_iter t (λ _ s', inv s') (λ rest _, length rest)); [done|lia|].
  intros rest s' Hs'. eapply wp_mono; [by apply ingest_step_ok|].
  intros [rest'|[]] s'' [H1 H2]; done.
Qed.

(** *** Flushing to the host socket *)

(** What a loop over [send] did: [k] bytes of [buf] went out on the
    connection's descriptor, nothing else did. *)
Definition sent_prefix (w w' : W) (fd : Z) (buf : list Z) (k : Z) : Prop :=
  0 ≤ k ≤ zlen buf ∧
  ∀ fd', sent_on w' fd' = if decide (fd' = fd) then sent_on w fd ++ take (Z.to_nat k) buf
                          else sent_on w fd'.

Lemma sent_prefix_0 w fd buf : sent_prefix w w fd buf 0.
Proof.
  split; [pose proof (zlen_nonneg buf); lia|]. intros fd'. case_decide; subst; [|done].
  by rewrite app_nil_r.
Qed.

Lemma sent_prefix_trans w w1 w2 fd buf k n :
  sent_prefix w w1 fd buf k → sent_prefix w1 w2 fd (drop (Z.to_nat k) buf) n →
  sent_prefix w w2 fd buf (k + n).
Proof.
  intros [Hk H1] [Hn H2]. rewrite zlen_drop in Hn by done. split; [lia|].
  intros fd'. rewrite H2, H1. case_decide; [|by rewrite H1, decide_False].
  rewrite decide_True, <-app_assoc by done. f_equal.
  rewrite Z2Nat.inj_add, take_take_drop by lia. done.
Qed.

Lemma flush_ok_wp c Q s :
  (∀ r w k, sent_prefix (hw s) w (c_fd c) (ok_pending c) k →
     (r = Ok tt → k = zlen (ok_pending c)) →
     Q (r, c <| ok_pending ::= drop (Z.to_nat k) |>) (s <| hw := w |>)) →
  wp t (flush_ok fuel c) Q s.
Proof.
  intros HQ. unfold flush_ok.
  apply (wp_iter t (λ c' s', ∃ w k, s' = s <| hw := w |> ∧
            c' = c <| ok_pending ::= drop (Z.to_nat k) |> ∧
            sent_prefix (hw s) w (c_fd c) (ok_pending c) k) (λ c' _, length (ok_pending c')));
    [|lia|].
  { exists (hw s), 0. split_and!; [by destruct s|by destruct c|apply sent_prefix_0]. }
  intros c' s' (w & k & -> & -> & Hk). unfold flush_ok_step. mstep.
  - mstep. apply bool_decide_eq_true in Hif. cbn in Hif.
    apply HQ; [done|]. intros _. destruct Hk as [Hk _].
    apply (f_equal zlen) in Hif. rewrite zlen_drop, zlen_nil in Hif by done. lia.
  - apply bool_decide_eq_false in Hif. mstep. apply send_nosig_wp. intros r w' Hr. cbn in Hr.
    destruct r as [n|e]; cbn beta iota.
    + destruct Hr as [Hn Hlog].
      assert (sent_prefix (hw s) w' (c_fd c) (ok_pending c) (k + n)) as Hkn
        by (eapply sent_prefix_trans; [done|by split]).
      mstep; [apply Z.eqb_eq in Hif0; subst n|apply Z.eqb_neq in Hif0].
      * mstep. apply (HQ (Err _)); [|done]. by rewrite Z.add_0_r in Hkn.
      * mstep. apply wp_assert; [apply Z.leb_le, Hn|]. mstep. split.
        -- exists w', (k + n). split_and!; [done| |done]. unfold set_field. cbn.
           destruct Hk. by rewrite drop_drop, Z2Nat.inj_add by lia.
        -- cbn. rewrite !length_drop. cbn in Hif. rewrite <-length_zero_iff_nil, length_drop in Hif.
           unfold zlen in Hn. rewrite length_drop in Hn. lia.
    + mstep. apply (HQ (Err e)); [|done]. destruct Hk as [Hk Hlog]. split; [done|].
      intros fd'. by rewrite Hr, Hlog.
Qed.

Lemma flush_to_host_wp c Q s :
  (∀ r w k, sent_prefix (hw s) w (c_fd c) (to_host c) k →
     (r = Ok tt → k = zlen (to_host c)) →
     Q (r, c <| to_host ::= drop (Z.to_nat k) |> <| fwd_cnt ::= λ x, wrapping_add 32 x k |>)
       (s <| hw := w |>)) →
  is_u32 (fwd_cnt c) → zlen (to_host c) < 2 ^ 32 →
  wp t (flush_to_host fuel c) Q s.
Proof.
  intros HQ Hf Hlen. unfold flush_to_host.
  apply (wp_iter t (λ c' s', ∃ w k, s' = s <| hw := w |> ∧
            c' = c <| to_host ::= drop (Z.to_nat k) |> <| fwd_cnt ::= λ x, wrapping_add 32 x k |> ∧
            sent_prefix (hw s) w (c_fd c) (to_host c) k) (λ c' _, length (to_host c')));
    [|lia|].
  { exists (hw s), 0. split_and!; [by destruct s| |apply sent_prefix_0].
    destruct c; unfold set_field; cbn in *. f_equal. unfold wrapping_add.
    by rewrite Z.add_0_r, Z.mod_small. }
  intros c' s' (w & k & -> & -> & Hk). unfold flush_to_host_step. mstep.
  - mstep. apply bool_decide_eq_true in Hif. cbn in Hif.
    apply HQ; [done|]. intros _. destruct Hk as [Hk _].
    apply (f_equal zlen) in Hif. rewrite zlen_drop, zlen_nil in Hif by done. lia.
  - apply bool_decide_eq_false in Hif. mstep. apply send_nosig_wp. intros r w' Hr. cbn in Hr.
    destruct r as [n|e]; cbn beta iota.
    + destruct Hr as [Hn Hlog].
      assert (sent_prefix (hw s) w' (c_fd c) (to_host c) (k + n)) as Hkn
        by (eapply sent_prefix_trans; [done|by split]).
      mstep; [apply Z.eqb_eq in Hif0; subst n|apply Z.eqb_neq in Hif0].
      * mstep. apply (HQ (Err _)); [|done]. by rewrite Z.add_0_r in Hkn.
      * mstep. apply wp_assert; [apply Z.leb_le, Hn|]. mstep. split.
        -- exists w', (k + n). split_and!; [done| |done]. unfold set_field. cbn.
           destruct Hk, Hkn. rewrite drop_drop, Z2Nat.inj_add, cast_small by (unfold uint; lia).
           unfold wrapping_add. by rewrite Zplus_mod_idemp_l, Z.add_assoc.
        -- cbn. rewrite !length_drop. cbn in Hif. rewrite <-length_zero_iff_nil, length_drop in Hif.
           unfold zlen in Hn. rewrite length_drop in Hn. lia.
    + mstep. apply (HQ (Err e)); [|done]. destruct Hk as [Hk Hlog]. split; [done|].
      intros fd'. by rewrite Hr, Hlog.
Qed.

Lemma flush_both_wp c Q s :
  conn_ok c →
  (∀ r w c',
     conn_ok c' → c_fd c' = c_fd c → phase c' = phase c → received c' = received c →
     sent_on w (c_fd c) ++ ok_pending c' ++ to_host c' =
       sent_on (hw s) (c_fd c) ++ ok_pending c ++ to_host c →
     (∀ fd, fd ≠ c_fd c → sent_on w fd = sent_on (hw s) fd) →
     (r = Ok tt → ok_pending c' = [] ∧ to_host c' = []) →
     Q (r, c') (s <| hw := w |>)) →
  wp t (flush_both fuel c) Q s.
Proof.
  intros Hc HQ. unfold flush_both. mstep. apply flush_ok_wp. intros r1 w1 k1 [Hk1 Hs1] Hr1.
  assert (conn_ok (c <| ok_pending ::= drop (Z.to_nat k1) |>)) as Hc1
    by (eapply conn_ok_ext; [exact Hc|done..]).
  pose proof (Hs1 (c_fd c)) as Hfd1. rewrite decide_True in Hfd1 by done.
  assert (∀ fd, fd ≠ c_fd c → sent_on w1 fd = sent_on (hw s) fd) as Ho1
    by (intros fd Hfd; rewrite Hs1; by rewrite decide_False).
  destruct r1 as [[]|e]; cbn beta iota zeta.
  - specialize (Hr1 eq_refl). apply flush_to_host_wp; [|apply Hc1|].
    2:{ pose proof (co_to_host _ Hc1). unfold BUF_ALLOC in *. lia. }
    intros r w k [Hk Hs] Hr. cbn in *.
    assert (ok_pending c = take (Z.to_nat k1) (ok_pending c)) as Hall.
    { rewrite take_ge; [done|]. unfold zlen in Hr1. lia. }
    assert (drop (Z.to_nat k1) (ok_pending c) = []) as Hnil.
    { apply drop_ge. unfold zlen in Hr1. lia. }
    apply HQ; cbn.
    + pose proof (conn_ok_forward _ k Hc1 Hk) as H. rewrite cast_small in H; [done|].
      pose proof (co_to_host _ Hc1). unfold BUF_ALLOC, uint in *. cbn in *. lia.
    + done.
    + done.
    + done.
    + rewrite Hs, decide_True, Hfd1, Hnil, <-Hall, <-!app_assoc by done. do 2 f_equal.
      by rewrite app_nil_l, take_drop.
    + intros fd Hfd. rewrite Hs, decide_False by done. by apply Ho1.
    + intros Hr'. split; [done|]. specialize (Hr Hr'). apply drop_ge. unfold zlen in Hr. lia.
  - mstep. apply HQ; cbn; try done.
    rewrite Hfd1, <-app_assoc, (app_assoc (take _ _)), take_drop. done.
Qed.

Lemma flush_conn_ok flow s : inv s → wp t (flush_conn fuel flow) (λ _, inv) s.
Proof.
  intros Hs. unfold flush_conn. mstep. mstep. mstep; [|by mstep].
  assert (conn_ok c) as Hc by (by apply (mo_conns _ Hs flow)).
  mstep. apply flush_both_wp; [done|]. intros r w c' Hc' _ _ _ _ _ _. cbn beta iota zeta.
  assert (mux_ok ((mx s) <| conns ::= alter (λ _, c') flow |>)) as Hs' by (by apply mux_ok_alter).
  do 2 mstep. mstep; [|by apply mark_local_shut_ok].
  apply wp_bind. apply (wp_mono _ _ (λ _, inv)).
  { msteps; [|done]. by apply mux_ok_alter; [|intros ? _ ?; eapply conn_ok_ext]. }
  intros _ s1 Hs1. mstep; [by mstep|]. do 3 mstep.
  apply (wp_mono _ _ (λ _, inv)); [|intros _ ??; by apply maybe_credit_ok].
  assert (inv (s1 <| mx ::= λ m, m <| conns ::= alter (λ c, c <| prefetched := [] |>) flow |> |>)) as Hs2.
  { apply mux_ok_alter; [done|]. intros c0 _ ?. by apply conn_ok_prefetch. }
  mstep; [by apply ingest_ok|by mstep].
Qed.

(** Updates of the table that leave what the invariant mentions alone. *)
Lemma inv_alter flow f s :
  inv s → (∀ c, conn_ok c → conn_ok (f c)) →
  inv (s <| mx ::= λ m, m <| conns ::= alter f flow |> |>).
Proof. intros Hs Hf. unfold inv. cbn. apply mux_ok_alter; [done|]. intros c _. apply Hf. Qed.

Lemma inv_insert flow c s :
  inv s → conn_ok c → inv (s <| mx ::= λ m, m <| conns ::= <[flow := c]> |> |>).
Proof. intros. by apply mux_ok_insert. Qed.

Lemma inv_host w s : inv s → inv (s <| hw := w |>).
Proof. done. Qed.

Lemma inv_host_upd f s : inv s → inv (s <| hw ::= f |>).
Proof. done. Qed.

Ltac conn_ext := let H := fresh in intros ? H; eapply conn_ok_ext; [exact H|done..].
Ltac inv_solve :=
  repeat first [ assumption | apply inv_host | apply inv_host_upd
               | apply inv_alter; [|conn_ext] ].

Lemma on_response_ok flow s : inv s → wp t (on_response fuel flow) (λ _, inv) s.
Proof. intros Hs. unfold on_response. msteps; try done. apply flush_conn_ok. inv_solve. Qed.

Lemma on_shutdown_ok flow flags s : inv s → wp t (on_shutdown fuel flow flags) (λ _, inv) s.
Proof.
  intros Hs. unfold on_shutdown. do 3 mstep.
  apply (wp_mono _ _ (λ _, inv)); [|intros _ ??; by apply flush_conn_ok].
  msteps; inv_solve.
Qed.

Lemma on_rw_ok flow data s :
  inv s → zlen data ≤ MAX_PAYLOAD → wp t (on_rw fuel flow data) (λ _, inv) s.
Proof.
  intros Hs Hd. unfold on_rw. pose proof (zlen_nonneg data). mstep; [by mstep|]. mstep. mstep. mstep; [by mstep|].
  destruct (conns (mx s) !! flow) as [c|] eqn:Ec; [|done]. mstep; [by apply drop_conn_ok|].
  do 2 mstep. apply flush_conn_ok. unfold inv. cbn. apply mux_ok_alter; [done|].
  intros c' E Hc'. rewrite Ec in E. injection E as <-. apply conn_ok_receive; [done|].
  apply Z.ltb_ge in Hif1. rewrite cast_small in Hif1; [done|]. unfold uint, MAX_PAYLOAD in *. lia.
Qed.

Lemma enqueue_live_ok flow op flags s :
  inv s → op ≠ OP_RW → is_Some (conns (mx s) !! flow) →
  wp t (enqueue (pkt_ctrl flow op flags)) (λ _, inv) s.
Proof. intros. by apply enqueue_ok. Qed.

Lemma on_guest_request_ok flow hdr s : inv s → wp t (on_guest_request flow hdr) (λ _, inv) s.
Proof.
  intros Hs. unfold on_guest_request. mstep. mstep. mstep; [by apply drop_conn_ok|].
  mstep; [by apply enqueue_rst_ok|]. do 2 mstep. mstep; [|by apply enqueue_rst_ok].
  do 2 mstep. mstep; [|by apply enqueue_rst_ok]. mstep. unfold connect_unix.
  assert (∀ ph, conn_ok (conn_new a0 ph)) as Hn by (intros; apply conn_ok_new).
  assert (∀ s', inv s' → wp t (enqueue_rst flow;; host_ (sys_close a0)) (λ _, inv) s') as Hfail.
  { intros s' Hs'. mstep. wp_apply enqueue_rst_ok; [done|]. intros [] ? ?. by mstep. }
  mstep; [mstep; by apply Hfail|]. do 2 mstep. mstep.
  - do 3 mstep. apply enqueue_live_ok; [|done|cbn; rewrite lookup_insert_eq; by eexists].
    apply inv_insert; [done|]. by apply (conn_ok_ext _ _ (Hn Established)).
  - mstep. destruct (raw_is EINPROGRESS e); cbn beta iota.
    + do 3 mstep. apply inv_insert; [done|]. by apply (conn_ok_ext _ _ (Hn Established)).
    + by apply Hfail.
Qed.

Lemma handle_guest_pkt_ok hdr data s : inv s → wp t (handle_guest_pkt fuel hdr data) (λ _, inv) s.
Proof.
  intros Hs. unfold handle_guest_pkt. mstep. mstep. mstep; [by mstep|].
  mstep; [mstep; [by apply enqueue_rst_ok|by mstep]|].
  mstep; [by apply on_guest_request_ok|]. do 2 mstep.
  mstep; [|mstep; [by apply enqueue_rst_ok|by mstep]]. do 2 mstep.
  match goal with |- wp _ _ _ ?x => assert (inv x) as Hs' by inv_solve end.
  repeat (mstep; [|]); try done.
  - by apply on_response_ok.
  - by apply drop_conn_ok.
  - by apply on_shutdown_ok.
  - by apply drop_conn_ok.
  - apply on_rw_ok; [done|]. by apply Z.ltb_ge.
  - apply enqueue_credit_ok; [done|]. cbn. rewrite lookup_alter_eq, Hif2. by eexists.
Qed.

(** *** Host connections being set up *)

Lemma list_delete_alter {A} (f : A → A) (i : nat) (l : list A) : delete i (alter f i l) = delete i l.
Proof. revert i. induction l as [|x l IH]; intros [|i]; cbn; [done..|]. f_equal. apply IH. Qed.

(** The invariant holds once the entry [idx], which is [i], has been removed. *)
Definition inv_but (idx : nat) (i : Incoming) (s : St W) : Prop :=
  incoming (mx s) !! idx = Some i ∧ mux_ok ((mx s) <| incoming ::= delete idx |>).

Lemma remove_incoming_wp idx i Q s :
  inv_but idx i s →
  (∀ s', inv s' → Q i s') → wp t (remove_incoming idx) Q s.
Proof.
  intros [Hl Hm] HQ. unfold remove_incoming. do 2 mstep. mstep. apply (wp_expect _ _ _ _ i); [done|].
  do 3 mstep. by apply HQ.
Qed.

Lemma close_incoming_ok idx i s : inv_but idx i s → wp t (close_incoming idx) (λ _, inv) s.
Proof. intros H. unfold close_incoming. mstep. eapply remove_incoming_wp; [done|]. intros s' Hs'. by mstep. Qed.

Lemma alloc_host_port_wp Q s :
  inv s →
  (∀ r s', inv s' → (∀ p, r = Some p → ∀ g, conns (mx s') !! mkFlow g p = None) → Q r s') →
  wp t alloc_host_port Q s.
Proof.
  intros Hs HQ. unfold alloc_host_port. apply wp_act. intros r s'.
  destruct (alloc_loop _ _ _) as [r' next] eqn:E.
  apply alloc_loop_spec in E as [Hok Hr]; [|apply (mo_port _ Hs)].
  intros [= <- <-]. apply HQ; [by destruct Hs; split|].
  intros p -> g. destruct Hr as [_ Hu]. cbn.
  destruct (conns (mx s) !! mkFlow g p) as [c|] eqn:Ec; [|done].
  exfalso. by eapply (port_in_use_false _ p (mkFlow g p)); [done|by eexists|].
Qed.

Lemma finish_incoming_ok idx i s :
  inv_but idx i s → zlen (inc_buf i) ≤ 128 → wp t (finish_incoming idx) (λ _, inv) s.
Proof.
  intros Hi Hlen. unfold finish_incoming. mstep. eapply remove_incoming_wp; [done|]. intros s1 Hs1.
  mstep; [|by mstep]. mstep; [|by mstep].
  mstep. apply alloc_host_port_wp; [done|]. intros hp s2 Hs2 Hfree. mstep; [|by mstep].
  do 2 mstep. rewrite (Hfree _ eq_refl). do 4 mstep.
  apply enqueue_live_ok; [|done|cbn; rewrite lookup_insert_eq; by eexists].
  apply inv_insert; [done|]. destruct (conn_ok_new (inc_fd i) WaitGuest). split; try done. cbn.
  unfold zlen in *. rewrite length_drop. unfold MAX_PREFETCH. lia.
Qed.

Lemma read_incoming_ok idx s :
  inv s → (idx < length (incoming (mx s)))%nat → wp t (read_incoming fuel idx) (λ _, inv) s.
Proof.
  intros Hs Hidx. apply lookup_lt_is_Some_2 in Hidx as [i Hi].
  assert (incoming_ok i) as [Hb Hnl] by (by eapply Forall_lookup_1; [apply (mo_incoming _ Hs)|]).
  unfold read_incoming. do 3 mstep. apply (wp_expect _ _ _ _ i); [done|].
  mstep. apply read_fd_wp; [lia|]. intros r w Hr.
  assert (∀ f, inv_but idx (f i) (s <| hw := w |> <| mx ::= λ m, m <| incoming ::= alter f idx |> |>)) as Hbut.
  { intros f. split; cbn; [by rewrite list_lookup_alter_eq, Hi|].
    apply (mux_ok_incoming (mx s) (delete idx (alter f idx (incoming (mx s))))); [done|].
    rewrite list_delete_alter. by apply Forall_delete, (mo_incoming _ Hs). }
  assert (inv_but idx i (s <| hw := w |>)) as Hbut0.
  { split; [done|]. cbn. apply mux_ok_incoming; [done|]. by apply Forall_delete, (mo_incoming _ Hs). }
  destruct r as [bs|e]; cbn beta iota.
  2:{ mstep; [by mstep|]. by eapply close_incoming_ok. }
  specialize (Hr bs eq_refl). destruct bs as [|b bs']; [by eapply close_incoming_ok|].
  set (buf := inc_buf i ++ b :: bs'). do 2 mstep.
  assert (zlen buf ≤ 128) by (unfold buf; rewrite zlen_app; lia).
  mstep; [by eapply close_incoming_ok|]. mstep.
  - eapply finish_incoming_ok; [apply Hbut|done].
  - mstep. apply bool_decide_eq_false in Hif0. destruct (Z.ltb_spec 64 (zlen buf)).
    { done. }
    unfold inv. cbn. apply mux_ok_incoming; [done|]. apply Forall_alter; [apply (mo_incoming _ Hs)|].
    intros i' Hi' _. by split.
Qed.

Lemma accept_loop_ok s : inv s → wp t (accept_loop fuel) (λ _, inv) s.
Proof.
  intros Hs. unfold accept_loop.
  eapply (wp_iter_mode t (λ _ s', inv s') (λ F _ s', patience (hw s')) _ _ _ _ _ fair);
    [intros; apply patience_bound|done|].
  intros [] s1 Hs1. do 2 mstep. do 2 mstep. mstep.
  - do 2 mstep. mstep; msteps; (split; [|intros F; cbn]).
    + done.
    + eapply Nat.le_lt_trans; [apply close_patience|]. by eapply accept_patience.
    + apply mux_ok_incoming; [done|]. apply Forall_app. split; [apply (mo_incoming _ Hs1)|].
      apply Forall_singleton. by split; [|apply not_elem_of_nil].
    + by eapply accept_patience.
  - mstep; mstep; [|done]. split; [done|]. intros F. by eapply accept_patience.
Qed.

(** *** Established connections *)

Lemma finish_connect_ok flow s : inv s → wp t (finish_connect flow) (λ _, inv) s.
Proof.
  intros Hs. unfold finish_connect. do 2 mstep. mstep; [|by mstep].
  do 2 mstep. destruct a as [[|p|p]|e]; cbn beta iota; try by apply drop_conn_ok.
  do 2 mstep. apply enqueue_live_ok; [inv_solve|done|]. cbn. rewrite lookup_alter_eq, Hm. by eexists.
Qed.

Lemma on_host_eof_ok flow s : inv s → wp t (on_host_eof flow) (λ _, inv) s.
Proof.
  intros Hs. unfold on_host_eof. do 2 mstep. mstep; [by apply drop_conn_ok|by apply mark_local_shut_ok].
Qed.

Lemma read_conn_ok flow s : inv s → wp t (read_conn fuel flow) (λ _, inv) s.
Proof.
  intros Hs. unfold read_conn. do 2 mstep. mstep; [|by mstep].
  mstep. apply read_fd_wp; [done|]. intros r w _. destruct r as [[|b bs]|e]; cbn beta iota.
  - by apply on_host_eof_ok.
  - by apply ingest_ok.
  - mstep; [by mstep|by apply mark_local_shut_ok].
Qed.

Lemma find_index_lt {A} (p : A → bool) l i : find_index p l = Some i → (i < length l)%nat.
Proof.
  revert i. induction l as [|x l IH]; intros i; cbn; [done|]. destruct (p x); [intros [= <-]; lia|].
  destruct (find_index p l); [|done]. intros [= <-]. apply le_n_S, IH. done.
Qed.

Lemma on_fd_ok fd revents s : inv s → wp t (on_fd fuel hash_order fd revents) (λ _, inv) s.
Proof.
  intros Hs. unfold on_fd. do 2 mstep. mstep; [by apply accept_loop_ok|].
  mstep; [apply read_incoming_ok; [done|by eapply find_index_lt]|].
  mstep; [|by mstep]. destruct p as [flow c]. mstep.
  apply (wp_mono _ _ (λ _, inv)); [mstep; [by apply read_conn_ok|by mstep]|].
  intros _ s1 Hs1. do 2 mstep. mstep; [|by mstep]. mstep; [|by mstep].
  mstep; [by apply finish_connect_ok|by apply flush_conn_ok].
Qed.

Lemma drop_all_ok flows s : inv s → wp t (drop_all flows) (λ _, inv) s.
Proof.
  revert s. induction flows as [|f fs IH]; intros s Hs; cbn [drop_all]; mstep; [done|].
  wp_apply drop_conn_ok; [done|]. intros [] s1 Hs1. by apply IH.
Qed.

Lemma check_timeouts_ok now s : inv s → wp t (check_timeouts hash_order now) (λ _, inv) s.
Proof. intros Hs. unfold check_timeouts. do 2 mstep. by apply drop_all_ok. Qed.

Lemma kill_connections_ok s : inv s → wp t (kill_connections hash_order) (λ _, inv) s.
Proof. intros []. unfold kill_connections. msteps. by split. Qed.

Lemma pop_out_wp Q s :
  inv s →
  (∀ r s', inv s' →
     (∀ p, r = Some p → data_pkt_ok (conns (mx s')) p ∨ ctrl_pkt_ok (conns (mx s')) p) →
     Q r s') →
  wp t pop_out Q s.
Proof.
  intros Hs HQ. unfold pop_out. apply wp_act. intros r s' E.
  destruct s as [[gc pa li inc cs np oc od] w]. destruct Hs as [H1 H2 H3 H4 H5]. cbn in *.
  destruct oc as [|p ps]; [destruct od as [|p ps]|]; injection E as <- <-.
  - by apply HQ.
  - apply Forall_cons in H2 as [Hp H2]. apply HQ; [by split|]. intros ? [= <-]. by left.
  - apply Forall_cons in H3 as [Hp H3]. apply HQ; [by split|]. intros ? [= <-]. by right.
Qed.

Lemma push_front_out_ok p s :
  inv s → data_pkt_ok (conns (mx s)) p ∨ ctrl_pkt_ok (conns (mx s)) p →
  wp t (push_front_out p) (λ _, inv) s.
Proof.
  intros Hs Hp. unfold push_front_out. msteps. unfold inv. cbn. destruct Hs.
  destruct Hp as [Hp|Hp]; [rewrite (proj2 (Z.eqb_eq _ _) (proj1 Hp))|rewrite (proj2 (Z.eqb_neq _ _) (proj1 Hp))];
    split; cbn; try done; by apply Forall_cons.
Qed.

End ops.

(** ** Events

    What the device does to the multiplexer, in any order: a packet from the
    guest, a ready descriptor, the timer, taking a packet for the guest
    (and putting it back when the guest has no room), the reset of a flow
    whose packet was malformed, the end of all connections on a device reset. *)

Inductive mux_event :=
| EvGuest (hdr : Header) (data : list Z)
| EvFd (fd revents : Z)
| EvTimer (now : Z)
| EvPop
| EvRequeue
| EvResetFlow (guest_port host_port : Z)
| EvKill.

Section events.
Context {W : Type} `{VH : !VsockHost W}.
Variable fuel : nat.
Variable hash_order : gmap Flow Conn → list (Flow * Conn).

Definition run_event (e : mux_event) : prog (St W) unit :=
  match e with
  | EvGuest hdr data => handle_guest_pkt fuel hdr data
  | EvFd fd revents => on_fd fuel hash_order fd revents
  | EvTimer now => check_timeouts hash_order now
  | EvPop => _ ← pop_out; mret tt
  | EvRequeue => p ← pop_out; match p with Some p => push_front_out p | None => mret tt end
  | EvResetFlow g h => reset_flow g h
  | EvKill => kill_connections hash_order
  end.

Fixpoint run_events (es : list mux_event) : prog (St W) unit :=
  match es with
  | [] => mret tt
  | e :: es' => run_event e;; run_events es'
  end.

Context `{VL : !VsockHostLaws W}.
Variable t : mode.
Variable fair : t = Total → VsockHostFair W fuel.

Lemma run_event_ok e s : inv s → wp t (run_event e) (λ _, inv) s.
Proof.
  intros Hs. destruct e; cbn.
  - by apply handle_guest_pkt_ok.
  - by apply on_fd_ok.
  - by apply check_timeouts_ok.
  - wp_step. apply pop_out_wp; [done|]. intros r s' Hs' _. by wp_step.
  - wp_step. apply pop_out_wp; [done|]. intros [p|] s' Hs' Hp; cbn beta iota; [|by wp_step].
    apply push_front_out_ok; [done|by apply Hp].
  - by apply drop_conn_ok.
  - by apply kill_connections_ok.
Qed.

Lemma run_events_ok es s : inv s → wp t (run_events es) (λ _, inv) s.
Proof.
  revert s. induction es as [|e es IH]; intros s Hs; cbn [run_events]; wp_step; [done|].
  wp_apply run_event_ok; [done|]. intros [] s' Hs'. by apply IH.
Qed.

End events.

(** A multiplexer that [Mux::bind] returns satisfies the invariant. *)
Lemma mux_bind_wp {W} `{VH : !VsockHost W} t cid p (w : W) :
  wp t (mux_bind cid p) (λ r _, ∀ m, r = Ok m →
    mux_ok m ∧ guest_cid m = cid ∧ path m = p ∧ 3 ≤ cid < 2 ^ 32 - 1 ∧ 0 < zlen p ≤ MAX_UDS_PATH) w.
Proof.
  unfold mux_bind, validate_guest_cid. wp_step.
  destruct (Z.leb_spec 3 cid); [|done]. destruct (Z.ltb_spec cid 0xffffffff); [|done].
  cbn [andb]. wp_step. wp_step; [by wp_step|]. apply orb_false_elim in Hif as [Hp%bool_decide_eq_false Hmax%Z.ltb_ge].
  apply zlen_pos in Hp.
  wp_step; [by wp_step|]. do 3 wp_step.
  apply (wp_mono _ _ (λ _ _, True)).
  { destruct (fs_is_socket p w) as [[]|]; repeat first [wp_step | apply wp_act; intros ?? _]; done. }
  intros [[]|e] w1 _; [|done]. wp_step. apply wp_act. intros [fd|e] w2 _; do 2 wp_step; [|done].
  cbn [map_err]. wp_step. apply wp_act. intros [[]|e] w3 _; cbn beta iota; [|by do 3 wp_step].
  wp_step. apply wp_act. intros [[]|e] w4 _; cbn beta iota; [|by do 3 wp_step].
  wp_step. intros m [= <-]. split_and!; cbn; try lia; done.
Qed.

(** C1: from [Mux::bind] on, whatever packets the guest sends, whatever the host
    sockets do and in whatever order (connections, partial reads and writes,
    errors, hang-ups, timeouts, resets), the multiplexer never panics, every
    event handler returns, and the invariant [mux_ok] holds in between: the
    bytes held for the host are exactly those received and not forwarded and
    fit the advertised buffer, the bytes held for the guest are bounded, queued
    data packets are non-empty chunks of live connections, and every queued
    control packet but a reset belongs to a live connection. *)
Theorem mux_run_safe {W} `{VH : !VsockHost W, !VsockHostLaws W} (fuel : nat)
    `{!VsockHostFair W fuel} hash_order cid p (w w' : W) m es :
  mux_bind cid p w = Ret (Ok m, w') →
  ∃ s', run_events fuel hash_order es (mkSt m w') = Ret (tt, s') ∧ mux_ok (mx s').
Proof.
  intros E. pose proof (wp_partial_inv Total _ _ _ _ _ (mux_bind_wp Total cid p w) E m eq_refl) as [Hm _].
  destruct (wp_total_inv (run_events fuel hash_order es) (λ _, inv) (mkSt m w')) as ([] & s' & Hr & Hs').
  - by apply run_events_ok.
  - by exists s'.
Qed.

(** Two host connections of which one speaks, a response of the guest, data of
    the guest that the host takes in part. *)
Definition demo_events : list mux_event :=
  [EvFd 10 POLLIN; EvFd 20 POLLIN; EvPop;
   EvGuest (mkHeader 3 2 80 1024 0 1 OP_RESPONSE 0 4 0) [];
   EvGuest (mkHeader 3 2 80 1024 5 1 OP_RW 0 4 0) [1; 2; 3; 4; 5];
   EvFd 20 (POLLIN + POLLOUT); EvRequeue; EvTimer 7; EvResetFlow 80 1024; EvKill].

Definition demo_host : SHost :=
  mkSHost [Err (OsError EINTR); Ok 2; Err (OsError EINTR)] [Ok (ascii_bytes "CONNECT 80" ++ [10; 65])]
    [Ok 20; Err (OsError EINTR); Ok 21] [] 10 0 [] 0.

Lemma mux_run_safe_witness :
  ∃ m w' s', mux_bind 3 (ascii_bytes "/tmp/v") demo_host = Ret (Ok m, w') ∧
    run_events 9 map_to_list demo_events (mkSt m w') = Ret (tt, s') ∧ mux_ok (mx s').
Proof.
  destruct (mux_bind 3 (ascii_bytes "/tmp/v") demo_host) as [[[m|e] w']| |] eqn:E; [|exfalso; vm_compute in E; congruence..].
  exists m, w'.
  destruct (mux_run_safe 9 map_to_list 3 (ascii_bytes "/tmp/v") demo_host w' m demo_events E) as (s' & H).
  exists s'. split; [reflexivity|exact H].
Defined.
