(* ===== verification/VsockStream.v ===== *)
(** * Byte streams through the vsock multiplexer

    What [devices/vsock_mux.rs] does to the two byte streams of a connection:
    bytes of the guest reach the host socket in order and exactly once, bytes
    of the host reach the guest's queue in order and within the guest's credit;
    and where a stream is cut. *)

From S2P Require Import Prelude Words Errors VsockMux VsockMuxFacts VsockMuxInv.
Local Open Scope Z_scope.

(** ** Host to guest: [ingest] *)

(** The payload queued for the guest on [flow]. *)
Definition queued_data (flow : Flow) (l : list OutPkt) : list Z :=
  concat (pkt_data <$> filter (λ p, pkt_flow p = flow) l).

(** A connection that may send to the guest. *)
Definition can_send (c : Conn) : bool :=
  bool_decide (phase c = Established) && negb (local_shut_send c) && negb (peer_shut_recv c).

(** The counters the guest reported fit their fields. *)
Definition peer_ok (c : Conn) : Prop := is_u32 (peer_buf_alloc c) ∧ is_u32 (peer_fwd_cnt c).

(** [c'] is [c] after [k] bytes went to the guest. *)
Definition sent_k (c : Conn) (k : Z) : Conn := c <| sent_to_guest ::= λ x, wrapping_add 32 x k |>.

Lemma peer_avail_sent c k :
  is_u32 (sent_to_guest c) → peer_ok c → 0 ≤ k ≤ peer_avail c →
  peer_avail (sent_k c k) = peer_avail c - k.
Proof.
  intros Hs [Hb Hf] Hk. unfold peer_avail, sent_k, saturating_sub in *. cbn.
  set (i := wrapping_sub 32 (sent_to_guest c) (peer_fwd_cnt c)) in *.
  assert (is_u32 i) by (apply uint_wrapping_sub; lia).
  assert (wrapping_sub 32 (wrapping_add 32 (sent_to_guest c) k) (peer_fwd_cnt c) = i + k) as ->.
  { rewrite wrapping_sub_add by lia. fold i. apply wrapping_add_small. unfold uint in *. lia. }
  lia.
Qed.

(** The packets of a run of [ingest]: chunks of [flow] that carry [data]. *)
Definition chunks_of (flow : Flow) (data : list Z) (ps : list OutPkt) : Prop :=
  Forall (λ p, pkt_flow p = flow ∧ pkt_op p = OP_RW ∧ pkt_data p ≠ [] ∧ zlen (pkt_data p) ≤ MAX_CHUNK) ps ∧
  concat (pkt_data <$> ps) = data.

Lemma chunks_of_snoc flow d d' ps :
  chunks_of flow d ps → d' ≠ [] → zlen d' ≤ MAX_CHUNK →
  chunks_of flow (d ++ d') (ps ++ [mkOutPkt flow OP_RW 0 d']).
Proof.
  intros [Hf <-] Hd Hl. split; [by apply Forall_app; split; [|apply Forall_singleton]|].
  rewrite fmap_app, concat_app. cbn. by rewrite app_nil_r.
Qed.

Lemma queued_data_app flow l ps d :
  chunks_of flow d ps → queued_data flow (l ++ ps) = queued_data flow l ++ d.
Proof.
  intros [Hf <-]. unfold queued_data. rewrite filter_app, fmap_app, concat_app. do 3 f_equal.
  induction Hf as [|p ps Hp Hf IH]; [done|]. rewrite filter_cons_True by apply Hp. by f_equal.
Qed.

(** The state after [j] bytes of a run of [ingest] on [flow], whose connection
    was [c], went out as [ps]. *)
Definition ingest_mid {W} (flow : Flow) (c : Conn) (s : St W) (j : Z) (ps : list OutPkt) : St W :=
  s <| mx ::= λ m, m <| conns ::= <[flow := sent_k c j]> |> <| out_data ::= λ l, l ++ ps |> |>.

(** What does not fit the guest's credit is kept, as far as there is room. *)
Definition stash (c : Conn) (rest : list Z) : Conn :=
  c <| prefetched ::= λ l, l ++ take (Z.to_nat (MAX_PREFETCH - zlen l)) rest |>.

(** How many bytes of [data] a run of [ingest] sends. *)
Definition ingest_sent (c : Conn) (data : list Z) : Z := Z.min (zlen data) (peer_avail c).

(** The effect of [ingest flow data] on a connection [c] that can send. *)
Record ingested {W} (flow : Flow) (c : Conn) (data : list Z) (s s' : St W) : Prop := {
  in_host : hw s' = hw s;
  in_conns : conns (mx s') =
    <[flow := stash (sent_k c (ingest_sent c data)) (drop (Z.to_nat (ingest_sent c data)) data)]>
      (conns (mx s));
  in_data : ∃ ps, out_data (mx s') = out_data (mx s) ++ ps ∧
    chunks_of flow (take (Z.to_nat (ingest_sent c data)) data) ps;
  in_ctrl : out_ctrl (mx s') = out_ctrl (mx s) ++
    (if decide (zlen data ≤ peer_avail c) then []
     else if queued flow OP_CREDIT_REQUEST (mx s) then [] else [pkt_ctrl flow OP_CREDIT_REQUEST 0]);
}.

Lemma sent_k_0 c : is_u32 (sent_to_guest c) → sent_k c 0 = c.
Proof.
  intros H. destruct c; unfold sent_k, set_field; cbn in *. f_equal. unfold wrapping_add.
  by rewrite Z.add_0_r, Z.mod_small.
Qed.

Lemma sent_k_add c j n : sent_k (sent_k c j) n = sent_k c (j + n).
Proof.
  unfold sent_k, set_field; cbn. f_equal. unfold wrapping_add.
  by rewrite Zplus_mod_idemp_l, Z.add_assoc.
Qed.

Lemma stash_nil c : stash c [] = c.
Proof. destruct c; unfold stash, set_field; cbn. by rewrite take_nil, app_nil_r. Qed.

Section streams.
Context {W : Type} `{VH : !VsockHost W} `{VL : !VsockHostLaws W}.
Variable t : mode.
Implicit Types s : St W.

(** The credit is used up: the rest is stashed and credit is asked for. *)
Lemma ingest_stash_wp flow c data s j ps (Q : list Z + unit → St W → Prop) :
  zlen (prefetched c) ≤ MAX_PREFETCH → 0 ≤ j < zlen data → peer_avail c = j →
  chunks_of flow (take (Z.to_nat j) data) ps →
  (∀ s', ingested flow c data s s' → Q (inr tt) s') →
  wp t (stash_prefetch flow (drop (Z.to_nat j) data);; request_credit flow;; mret (inr tt)) Q
    (ingest_mid flow c s j ps).
Proof.
  intros Hpre Hj Ha Hps Hdone.
  assert (ingest_sent c data = j) as Hk by (unfold ingest_sent; lia).
  assert (∀ s', hw s' = hw s → conns (mx s') = <[flow := stash (sent_k c j) (drop (Z.to_nat j) data)]> (conns (mx s)) →
      out_data (mx s') = out_data (mx s) ++ ps →
      out_ctrl (mx s') = out_ctrl (mx s) ++
        (if queued flow OP_CREDIT_REQUEST (mx s) then [] else [pkt_ctrl flow OP_CREDIT_REQUEST 0]) →
      Q (inr tt) s') as HQ.
  { intros s' H1 H2 H3 H4. apply Hdone. split; rewrite ?Hk; [done|done|by exists ps|].
    by rewrite decide_False by lia. }
  unfold stash_prefetch, upd_conn, upd_mux, request_credit. do 4 wp_step.
  assert (∀ m : gmap Flow Conn, alter (λ c, c <| prefetched ::= λ l, l ++ take (Z.to_nat (Z.min (zlen (drop (Z.to_nat j) data))
            (saturating_sub MAX_PREFETCH (zlen (prefetched c))))) (drop (Z.to_nat j) data) |>) flow
            (<[flow := sent_k c j]> m) = <[flow := stash (sent_k c j) (drop (Z.to_nat j) data)]> m) as Halter.
  { intros m. rewrite alter_insert_eq. f_equal. unfold stash, set_field. cbn. rewrite take_min_zlen.
    unfold saturating_sub. by rewrite Z.max_r by lia. }
  unfold enqueue, upd_mux. wp_steps; apply HQ; cbn; try done; try apply Halter.
  all: cbn in Hif; unfold queued in *; cbn in *; rewrite Hif; by rewrite ?app_nil_r.
Qed.

Lemma ingest_chunk_wp flow c data s j ps n (Q : list Z + unit → St W → Prop) :
  0 ≤ j → 0 < n → j + n ≤ ingest_sent c data → n ≤ MAX_CHUNK →
  chunks_of flow (take (Z.to_nat j) data) ps →
  (∀ ps', chunks_of flow (take (Z.to_nat (j + n)) data) ps' →
     Q (inl (drop (Z.to_nat (j + n)) data)) (ingest_mid flow c s (j + n) ps')) →
  wp t (upd_conn flow (λ c, c <| sent_to_guest ::= λ x, wrapping_add 32 x (cast 32 n) |>);;
        upd_mux (λ m, m <| out_data ::= λ l,
          l ++ [mkOutPkt flow OP_RW 0 (take (Z.to_nat n) (drop (Z.to_nat j) data))] |>);;
        mret (inl (drop (Z.to_nat n) (drop (Z.to_nat j) data)))) Q
    (ingest_mid flow c s j ps).
Proof.
  intros Hj Hn Hle Hmax Hps HQ. unfold ingest_sent in Hle.
  assert (zlen (take (Z.to_nat n) (drop (Z.to_nat j) data)) = n) as Hlen.
  { apply zlen_take. rewrite zlen_drop; lia. }
  assert (is_u32 n) by (unfold uint, MAX_CHUNK in *; lia).
  unfold upd_conn, upd_mux. wp_steps. rewrite drop_drop, <-Z2Nat.inj_add by lia.
  match goal with |- Q _ ?x => assert (x = ingest_mid flow c s (j + n)
    (ps ++ [mkOutPkt flow OP_RW 0 (take (Z.to_nat n) (drop (Z.to_nat j) data))])) as -> end.
  { unfold ingest_mid, set_field. cbn. f_equal. f_equal; [|by rewrite app_assoc].
    rewrite alter_insert_eq, cast_small by done. f_equal. apply sent_k_add. }
  apply HQ. rewrite Z2Nat.inj_add, <-take_take_drop by lia. apply chunks_of_snoc; [done| |lia].
  intros E%(f_equal zlen). rewrite Hlen, zlen_nil in E. lia.
Qed.

(** One turn of the loop, from a middle state. *)
Lemma ingest_step_wp flow c data s j ps Q :
  can_send c = true → is_u32 (sent_to_guest c) → peer_ok c → zlen (prefetched c) ≤ MAX_PREFETCH →
  0 ≤ j ≤ ingest_sent c data → chunks_of flow (take (Z.to_nat j) data) ps →
  (∀ s', ingested flow c data s s' → Q (inr tt) s') →
  (∀ n ps', 0 < n → j + n ≤ ingest_sent c data → chunks_of flow (take (Z.to_nat (j + n)) data) ps' →
     Q (inl (drop (Z.to_nat (j + n)) data)) (ingest_mid flow c s (j + n) ps')) →
  wp t (ingest_step flow (drop (Z.to_nat j) data)) Q (ingest_mid flow c s j ps).
Proof.
  intros Hcs Hsent Hpeer Hpre Hj Hps Hdone Hnext. unfold ingest_sent in *.
  assert (zlen (drop (Z.to_nat j) data) = zlen data - j) as Hlen by (apply zlen_drop; lia).
  pose proof (peer_avail_sent c j Hsent Hpeer ltac:(lia)) as Havail.
  unfold ingest_step. wp_step.
  - (* nothing left *)
    wp_step. apply bool_decide_eq_true in Hif. rewrite Hif, zlen_nil in Hlen.
    assert (j = zlen data) as -> by lia. apply Hdone. split; unfold ingest_sent; cbn.
    + done.
    + rewrite Z.min_l by lia. by rewrite Hif, stash_nil.
    + exists ps. split; [done|]. rewrite Z.min_l by lia. done.
    + rewrite decide_True by lia. by rewrite app_nil_r.
  - apply bool_decide_eq_false in Hif. apply zlen_pos in Hif.
    wp_step. unfold get_conn. wp_step. cbn [mx ingest_mid]. unfold ingest_mid at 1. cbn. rewrite lookup_insert_eq.
    unfold can_send in Hcs. apply andb_prop in Hcs as [[Hc1 Hc2]%andb_prop Hc3].
    cbn. rewrite Hc1. apply negb_true_iff in Hc2, Hc3. rewrite Hc2, Hc3. cbn [negb orb].
    rewrite Havail. wp_step.
    + apply Z.eqb_eq in Hif0. apply ingest_stash_wp; try done; lia.
    + apply Z.eqb_neq in Hif0. unfold MAX_CHUNK in *.
      apply ingest_chunk_wp; try done; unfold ingest_sent, MAX_CHUNK; try lia.
      intros ps' Hps'. apply Hnext; try done; lia.
Qed.

(** The whole run of [ingest]. *)
Lemma ingest_wp flow c data s Q :
  conns (mx s) !! flow = Some c → can_send c = true → is_u32 (sent_to_guest c) → peer_ok c →
  zlen (prefetched c) ≤ MAX_PREFETCH →
  (∀ s', ingested flow c data s s' → Q tt s') →
  wp t (ingest flow data) Q s.
Proof.
  intros Hl Hcs Hsent Hpeer Hpre HQ. unfold ingest.
  apply (wp_iter t (λ rest s', ∃ j ps, 0 ≤ j ≤ ingest_sent c data ∧ rest = drop (Z.to_nat j) data ∧
            chunks_of flow (take (Z.to_nat j) data) ps ∧ s' = ingest_mid flow c s j ps)
          (λ rest _, length rest)); [|lia|].
  - exists 0, []. split_and!; [done| |done|done|].
    + unfold ingest_sent. pose proof (zlen_nonneg data). pose proof (peer_avail_nonneg c). lia.
    + destruct s as [[] w]. unfold ingest_mid, set_field. cbn in *. f_equal. f_equal; [|by rewrite app_nil_r].
      by rewrite sent_k_0, insert_id.
  - intros rest s' (j & ps & Hj & -> & Hps & ->). apply ingest_step_wp; try done; [].
    intros n ps' Hn Hle Hps'. split; [by exists (j + n), ps'; split_and!; try done; lia|].
    unfold ingest_sent, zlen in Hle. rewrite !length_drop. lia.
Qed.

(** ** Guest to host

    [quiet flow s s']: nothing was sent to the host, and the host side of the
    connection [flow] did not change. *)

Definition host_side (c : Conn) := (c_fd c, phase c, ok_pending c, to_host c, received c, fwd_cnt c).

Definition quiet (flow : Flow) s s' : Prop :=
  (∀ fd, sent_on (hw s') fd = sent_on (hw s) fd) ∧
  ∀ c, conns (mx s) !! flow = Some c →
    ∃ c', conns (mx s') !! flow = Some c' ∧ host_side c' = host_side c.

Lemma quiet_refl flow s : quiet flow s s.
Proof. split; [done|]. by eauto. Qed.

Lemma quiet_alter flow s s0 f :
  quiet flow s s0 → (∀ c, host_side (f c) = host_side c) →
  quiet flow s (s0 <| mx ::= λ m, m <| conns ::= alter f flow |> |>).
Proof.
  intros [H1 H2] Hf. split; [done|]. intros c (c' & Hl & Hc')%H2. cbn.
  rewrite lookup_alter_eq, Hl. eexists. split; [done|]. by rewrite Hf.
Qed.

Lemma quiet_host flow s s0 w :
  quiet flow s s0 → (∀ fd, sent_on w fd = sent_on (hw s0) fd) → quiet flow s (s0 <| hw := w |>).
Proof. intros [H1 H2] Hw. split; [|done]. intros fd. cbn. by rewrite Hw, H1. Qed.

Lemma enqueue_quiet flow p s s0 : quiet flow s s0 → wp t (enqueue p) (λ _, quiet flow s) s0.
Proof.
  intros [H1 H2]. unfold enqueue, upd_mux. wp_step. split; [done|]. intros c Hc.
  destruct (H2 c Hc) as (c' & Hl & He). exists c'. split; [|done]. cbn. by destruct (pkt_op p =? OP_RW).
Qed.

Lemma maybe_credit_quiet flow s s0 : quiet flow s s0 → wp t (maybe_credit flow) (λ _, quiet flow s) s0.
Proof.
  intros Hq. unfold maybe_credit, get_conn, upd_conn, upd_mux. wp_steps; try done.
  apply enqueue_quiet. by apply quiet_alter.
Qed.

Lemma mark_local_shut_quiet flow recv send s s0 c0 :
  quiet flow s s0 → conns (mx s0) !! flow = Some c0 → phase c0 = Established →
  wp t (mark_local_shut flow recv send) (λ _, quiet flow s) s0.
Proof.
  intros Hq Hl Hp. unfold mark_local_shut, get_conn, upd_conn, upd_mux. wp_step. wp_step. rewrite Hl.
  rewrite (bool_decide_eq_false_2 (phase c0 = WaitGuest)) by congruence.
  do 3 wp_step; [|by wp_step; apply quiet_alter]. wp_step. apply wp_host. intros a w E. wp_steps.
  apply enqueue_quiet, quiet_alter; [|done]. apply quiet_host; [by apply quiet_alter|].
  intros fd. by eapply now_log.
Qed.

Lemma ingest_step_quiet flow rest s s0 :
  quiet flow s s0 →
  wp t (ingest_step flow rest) (λ r s', quiet flow s s') s0.
Proof.
  intros Hq. unfold ingest_step, stash_prefetch, request_credit.
  msteps; try done; try by apply quiet_alter.
Qed.

End streams.

Section guest_to_host.
Context {W : Type} `{VH : !VsockHost W} `{VL : !VsockHostLaws W}.
Variable fuel : nat.
Variable t : mode.
Variable fair : t = Total → VsockHostFair W fuel.
Implicit Types s : St W.

Lemma ingest_quiet flow data s s0 :
  quiet flow s s0 → wp Partial (ingest flow data) (λ _ s', quiet flow s s') s0.
Proof.
  intros Hq. unfold ingest. apply (wp_iter_partial (λ _ s', quiet flow s s')); [done|].
  intros rest s1 H1. eapply wp_mono; [by apply ingest_step_quiet|]. by intros [] s2 H2.
Qed.

(** The bytes of the host stream of a connection: sent and still held. *)
Definition host_stream (c : Conn) (s : St W) : list Z :=
  sent_on (hw s) (c_fd c) ++ ok_pending c ++ to_host c.

(** [flush_conn] moves bytes along the host stream and neither adds, drops nor
    reorders any; descriptors of other connections see nothing. *)
Lemma flush_conn_stream flow c s :
  inv s → conns (mx s) !! flow = Some c → phase c = Established →
  wp t (flush_conn fuel flow) (λ _ s', inv s' ∧
    (∀ fd, fd ≠ c_fd c → sent_on (hw s') fd = sent_on (hw s) fd) ∧
    ∃ c', conns (mx s') !! flow = Some c' ∧ c_fd c' = c_fd c ∧ phase c' = Established ∧
      received c' = received c ∧ host_stream c' s' = host_stream c s) s.
Proof.
  intros Hs Hl Hp. apply wp_and_partial; [by apply flush_conn_ok|].
  unfold flush_conn. do 2 mstep. rewrite Hl.
  assert (conn_ok c) as Hc by (by apply (mo_conns _ Hs flow)).
  mstep. apply flush_both_wp; [done|done|]. intros r w c' Hc' Hfd Hph Hrec Hstr Hoth _.
  cbn beta iota zeta. do 2 mstep.
  match goal with |- wp _ _ _ ?x => set (s1 := x) end.
  assert (conns (mx s1) !! flow = Some c') as Hl1 by (cbn; by rewrite lookup_alter_eq, Hl).
  apply (wp_mono _ _ (λ _ s', quiet flow s1 s')).
  - destruct r as [[]|e]; cbn beta iota.
    2:{ eapply mark_local_shut_quiet; [apply quiet_refl|done|congruence]. }
    mstep. apply (wp_mono _ _ (λ _ s', quiet flow s1 s')).
    { msteps; [|apply quiet_refl]. apply quiet_alter; [|done]. apply quiet_host; [apply quiet_refl|].
      intros fd. apply shutdown_log. }
    intros _ s2 H2. mstep; [by mstep|]. do 3 mstep.
    apply (wp_mono _ _ (λ _ s', quiet flow s1 s')); [|intros _ ??; by apply maybe_credit_quiet].
    mstep; [apply ingest_quiet|mstep]; by apply quiet_alter.
  - intros _ s' [Hlog Hq]. destruct (Hq c' Hl1) as (c'' & Hl'' & [= Hfd' Hph' Hok Hth Hre Hfw]). split.
    { intros fd Hne. rewrite Hlog. by apply Hoth. }
    exists c''. split_and!; [done|congruence|congruence|congruence|].
    unfold host_stream. rewrite Hok, Hth, Hlog, <-Hstr, Hfd', Hfd. done.
Qed.

(** Accepted data goes to the end of the host stream. *)
Lemma on_rw_stream flow c data s :
  inv s → conns (mx s) !! flow = Some c → phase c = Established →
  local_shut_recv c = false → peer_shut_send c = false →
  data ≠ [] → zlen data ≤ MAX_PAYLOAD → zlen data ≤ local_free c →
  wp t (on_rw fuel flow data) (λ _ s', inv s' ∧
    (∀ fd, fd ≠ c_fd c → sent_on (hw s') fd = sent_on (hw s) fd) ∧
    ∃ c', conns (mx s') !! flow = Some c' ∧ c_fd c' = c_fd c ∧ phase c' = Established ∧
      received c' = wrapping_add 32 (received c) (zlen data) ∧
      host_stream c' s' = host_stream c s ++ data) s.
Proof.
  intros Hs Hl Hp H1 H2 Hd Hmax Hfree. unfold on_rw.
  assert (is_u32 (zlen data)) as Hu by (pose proof (zlen_nonneg data); unfold uint, MAX_PAYLOAD in *; lia).
  rewrite bool_decide_eq_false_2 by done. do 2 mstep. rewrite Hl, H1, H2.
  rewrite bool_decide_eq_true_2 by done. cbn [andb negb]. rewrite cast_small by done.
  rewrite (proj2 (Z.ltb_ge _ _) Hfree). do 2 mstep.
  set (c1 := c <| received ::= λ x, wrapping_add 32 x (zlen data) |> <| to_host ::= λ l, l ++ data |>).
  assert (conn_ok c) as Hc by (by apply (mo_conns _ Hs flow)).
  pose proof (conn_ok_receive c data Hc Hfree) as Hc1. rewrite cast_small in Hc1 by done.
  eapply wp_mono; [apply (flush_conn_stream flow c1)|].
  - apply mux_ok_alter; [done|]. intros c0 E _. rewrite Hl in E. by injection E as <-.
  - cbn. by rewrite lookup_alter_eq, Hl.
  - done.
  - intros [] s' (Hinv & Hoth & c' & Hl' & Hfd & Hph & Hr & Hst). split_and!; [done|done|].
    exists c'. split_and!; try done. rewrite Hst. unfold host_stream, c1. cbn. by rewrite <-!app_assoc.
Qed.

Lemma drop_conn_effect flow s (Q : unit → St W → Prop) :
  (∀ s', conns (mx s') = delete flow (conns (mx s)) →
     out_data (mx s') = filter (λ p, pkt_flow p ≠ flow) (out_data (mx s)) →
     out_ctrl (mx s') = filter (λ p, pkt_flow p ≠ flow) (out_ctrl (mx s)) ++ [pkt_ctrl flow OP_RST 0] →
     (∀ fd, sent_on (hw s') fd = sent_on (hw s) fd) → Q tt s') →
  wp t (drop_conn flow true) Q s.
Proof.
  intros HQ. unfold drop_conn, enqueue_rst, enqueue. do 3 mstep.
  assert (∀ l : list OutPkt, filter (λ p, ¬ (pkt_flow p = flow ∧ pkt_op p = OP_RST)) (filter (λ p, pkt_flow p ≠ flow) l)
             = filter (λ p, pkt_flow p ≠ flow) l) as Hff.
  { intros l. rewrite list_filter_filter. apply list_filter_iff.
    intros p. split; [by intros [_ ?]|]. intros H. split; [|done]. by intros [? _]. }
  mstep; msteps; apply HQ; cbn; try done; try (f_equal; apply Hff).
  intros fd. apply close_log.
Qed.

End guest_to_host.

(** A data packet for a live connection updates the guest's counters and goes to [on_rw]. *)
Lemma handle_rw_eq {W} `{VH : !VsockHost W} fuel hdr data (s : St W) c :
  let flow := mkFlow (src_port hdr) (dst_port hdr) in
  src_cid hdr = guest_cid (mx s) → dst_cid hdr = HOST_CID → htype hdr = TYPE_STREAM →
  hop hdr = OP_RW → conns (mx s) !! flow = Some c →
  handle_guest_pkt fuel hdr data s =
    (if MAX_PAYLOAD <? zlen data then drop_conn flow true else on_rw fuel flow data)
      (s <| mx ::= λ m, m <| conns ::= alter (λ c, c <| peer_buf_alloc := hbuf_alloc hdr |>
                                          <| peer_fwd_cnt := hfwd_cnt hdr |>) flow |> |>).
Proof.
  intros flow Hsrc Hdst Hty Hop Hl. unfold handle_guest_pkt, mbind, prog_bind.
  cbn beta iota delta [gets]. rewrite Hsrc, Hdst, Hty, Hop, !Z.eqb_refl. cbn [negb orb].
  change (OP_RW =? OP_REQUEST) with false. cbn beta iota.
  unfold get_conn, gets. fold flow. rewrite Hl.
  change (OP_RW =? OP_RESPONSE) with false. change (OP_RW =? OP_RST) with false.
  change (OP_RW =? OP_SHUTDOWN) with false. done.
Qed.

(** Once the packets of [flow] are gone, the reset is its only one. *)
Lemma not_flow_filter flow (l1 l2 l1' l2' : list OutPkt) :
  l1' = filter (λ p, pkt_flow p ≠ flow) l1 →
  l2' = filter (λ p, pkt_flow p ≠ flow) l2 ++ [pkt_ctrl flow OP_RST 0] →
  filter (λ p, pkt_flow p = flow) (l1' ++ l2') = [pkt_ctrl flow OP_RST 0].
Proof.
  assert (∀ l : list OutPkt, filter (λ p, pkt_flow p = flow) (filter (λ p, pkt_flow p ≠ flow) l) = []) as H.
  { intros l. rewrite list_filter_filter. induction l as [|p l IH]; [done|].
    by rewrite filter_cons_False by (intros []; done). }
  intros -> ->. rewrite !filter_app, !H. by rewrite filter_cons_True.
Qed.

(** ** The theorems *)

(** C26: [ingest] of host bytes on a connection that may send: the longest prefix
    the guest's credit allows is queued for the guest, in order, in chunks of at
    most 16 KiB; exactly that many bytes of credit are used up, so the guest is
    never sent more than it advertised; the rest is appended to the prefetch
    buffer as far as it has room (what exceeds the room is discarded); other
    connections see nothing. *)
Theorem ingest_stream_exact {W} `{VH : !VsockHost W} flow c data (s : St W) :
  conns (mx s) !! flow = Some c → can_send c = true → conn_ok c → peer_ok c →
  let k := Z.to_nat (Z.min (zlen data) (peer_avail c)) in
  ∃ s' c' ps, ingest flow data s = Ret (tt, s') ∧
    conns (mx s') = <[flow := c']> (conns (mx s)) ∧
    out_data (mx s') = out_data (mx s) ++ ps ∧
    Forall (λ p, pkt_flow p = flow ∧ zlen (pkt_data p) ≤ MAX_CHUNK) ps ∧
    concat (pkt_data <$> ps) = take k data ∧
    peer_avail c' = peer_avail c - Z.of_nat k ∧
    prefetched c' = prefetched c ++ take (Z.to_nat (MAX_PREFETCH - zlen (prefetched c))) (drop k data).
Proof.
  intros Hl Hcs Hc Hp k.
  destruct (wp_total_inv (ingest flow data) (λ _, ingested flow c data s) s) as ([] & s' & E & Hi).
  { apply (ingest_wp Total flow c); try done; apply Hc. }
  destruct Hi as [Hhw Hconns (ps & Hdata & Hch & Hcat) Hctrl].
  assert (0 ≤ ingest_sent c data) as Hpos
    by (unfold ingest_sent; pose proof (zlen_nonneg data); pose proof (peer_avail_nonneg c); lia).
  exists s'. eexists _, ps. split_and!; [done|exact Hconns|done| |done| |done].
  - eapply Forall_impl; [exact Hch|]. by intros p (? & _ & _ & ?).
  - unfold stash. transitivity (peer_avail (sent_k c (ingest_sent c data))); [done|].
    rewrite peer_avail_sent; [unfold k; fold (ingest_sent c data); lia|apply Hc|done|].
    unfold ingest_sent. unfold ingest_sent in Hpos. lia.
Qed.

Definition demo_flow : Flow := mkFlow 80 1024.
(** An established connection whose guest has room for five bytes; the counters
    are about to wrap. *)
Definition demo_conn : Conn :=
  (conn_new 20 Established) <| peer_buf_alloc := 8 |> <| peer_fwd_cnt := 2 ^ 32 - 2 |>
    <| sent_to_guest := 1 |> <| received := 3 |> <| fwd_cnt := 1 |> <| to_host := [7; 8] |>.
Definition demo_mux : Mux := mkMux 3 [] 5 [] {[demo_flow := demo_conn]} 1025 [] [].

Lemma ingest_stream_exact_witness :
  ∃ s' c' ps, ingest demo_flow [1; 2; 3; 4; 5; 6; 7] (mkSt demo_mux sh_empty) = Ret (tt, s') ∧
    conns (mx s') = <[demo_flow := c']> (conns demo_mux) ∧
    concat (pkt_data <$> ps) = [1; 2; 3; 4; 5] ∧ prefetched c' = [6; 7] ∧ peer_avail c' = 0.
Proof.
  destruct (ingest_stream_exact demo_flow demo_conn [1; 2; 3; 4; 5; 6; 7] (mkSt demo_mux sh_empty))
    as (s' & c' & ps & E & Hc & _ & _ & Hd & Ha & Hp).
  - reflexivity.
  - reflexivity.
  - split; zcompute.
  - split; zcompute.
  - exists s', c', ps. split; [exact E|]. split; [exact Hc|]. split; [exact Hd|].
    split; [exact Hp|exact Ha].
Defined.

(** C3: a data packet of the guest within the advertised window: afterwards the
    bytes sent to the host socket followed by those held for it are the same
    stream as before followed by the packet's payload, whatever the host takes,
    refuses or interrupts; no other socket sees a byte; the handler returns. *)
Theorem guest_data_in_order {W} `{VH : !VsockHost W, VL : !VsockHostLaws W} (fuel : nat)
    `{VF : !VsockHostFair W fuel} hdr data (s : St W) c :
  let flow := mkFlow (src_port hdr) (dst_port hdr) in
  mux_ok (mx s) → src_cid hdr = guest_cid (mx s) → dst_cid hdr = HOST_CID →
  htype hdr = TYPE_STREAM → hop hdr = OP_RW →
  conns (mx s) !! flow = Some c → phase c = Established →
  local_shut_recv c = false → peer_shut_send c = false →
  data ≠ [] → zlen data ≤ MAX_PAYLOAD → zlen data ≤ local_free c →
  ∃ s' c', handle_guest_pkt fuel hdr data s = Ret (tt, s') ∧
    conns (mx s') !! flow = Some c' ∧ c_fd c' = c_fd c ∧
    sent_on (hw s') (c_fd c) ++ ok_pending c' ++ to_host c' =
      sent_on (hw s) (c_fd c) ++ ok_pending c ++ to_host c ++ data ∧
    received c' = wrapping_add 32 (received c) (zlen data) ∧
    (∀ fd, fd ≠ c_fd c → sent_on (hw s') fd = sent_on (hw s) fd).
Proof.
  intros flow Hs Hsrc Hdst Hty Hop Hl Hph H1 H2 Hd Hmax Hfree.
  set (s1 := s <| mx ::= λ m, m <| conns ::= alter (λ c, c <| peer_buf_alloc := hbuf_alloc hdr |>
                                          <| peer_fwd_cnt := hfwd_cnt hdr |>) flow |> |>).
  set (c1 := c <| peer_buf_alloc := hbuf_alloc hdr |> <| peer_fwd_cnt := hfwd_cnt hdr |>).
  destruct (wp_total_inv (on_rw fuel flow data) _ s1
    (on_rw_stream fuel Total (λ _, VF) flow c1 data s1 ltac:(apply inv_alter; [done|apply conn_ok_peer])
       ltac:(by cbn; rewrite lookup_alter_eq, Hl) Hph H1 H2 Hd Hmax Hfree))
    as ([] & s' & E & _ & Hoth & c' & Hl' & Hfd & _ & Hr & Hst).
  exists s', c'. split_and!; [|done|done| |done|done].
  - rewrite (handle_rw_eq fuel hdr data s c) by done.
    by rewrite (proj2 (Z.ltb_ge _ _) Hmax).
  - unfold host_stream in Hst. rewrite Hfd in Hst. cbn in Hst. by rewrite Hst, <-!app_assoc.
Qed.

(** A guest that sends three bytes while the host socket takes two and then fails. *)
Definition rw_hdr (n : Z) : Header := mkHeader 3 2 80 1024 n TYPE_STREAM OP_RW 0 8 (2 ^ 32 - 2).

Lemma demo_mux_ok : mux_ok demo_mux.
Proof.
  split; cbn; [|by constructor..|unfold port_ok; lia].
  intros f c [_ <-]%lookup_singleton_Some. split; zcompute.
Qed.

Lemma guest_data_in_order_witness :
  ∃ s' c', handle_guest_pkt 9 (rw_hdr 3) [1; 2; 3]
      (mkSt demo_mux (sh_empty <| sh_send := [Ok 3; Err (OsError EAGAIN)] |>)) = Ret (tt, s') ∧
    conns (mx s') !! demo_flow = Some c' ∧
    sent_on (hw s') 20 ++ ok_pending c' ++ to_host c' = [7; 8; 1; 2; 3] ∧
    sent_on (hw s') 20 = [7; 8; 1].
Proof.
  destruct (guest_data_in_order 9 (rw_hdr 3) [1; 2; 3]
      (mkSt demo_mux (sh_empty <| sh_send := [Ok 3; Err (OsError EAGAIN)] |>)) demo_conn)
    as (s' & c' & E & Hl & _ & Hst & _).
  all: try reflexivity.
  - exact demo_mux_ok.
  - discriminate.
  - zcompute.
  - zcompute.
  - exists s', c'. split; [exact E|]. split; [exact Hl|]. split; [exact Hst|].
    vm_compute in E. injection E as <-. reflexivity.
Defined.

(** C25: a data packet that exceeds the advertised window, or the largest payload,
    ends the connection: its entry and its queued packets are gone, a single
    reset is queued for it, and nothing reaches any host socket. *)
Theorem guest_overrun_resets {W} `{VH : !VsockHost W, VL : !VsockHostLaws W} (fuel : nat)
    hdr data (s : St W) c :
  let flow := mkFlow (src_port hdr) (dst_port hdr) in
  src_cid hdr = guest_cid (mx s) → dst_cid hdr = HOST_CID →
  htype hdr = TYPE_STREAM → hop hdr = OP_RW → conns (mx s) !! flow = Some c →
  zlen data < 2 ^ 32 →
  MAX_PAYLOAD < zlen data ∨
    (phase c = Established ∧ local_shut_recv c = false ∧ peer_shut_send c = false ∧
     0 ≤ local_free c < zlen data) →
  ∃ s', handle_guest_pkt fuel hdr data s = Ret (tt, s') ∧
    conns (mx s') = delete flow (conns (mx s)) ∧
    filter (λ p, pkt_flow p = flow) (out_data (mx s') ++ out_ctrl (mx s')) = [pkt_ctrl flow OP_RST 0] ∧
    (∀ fd, sent_on (hw s') fd = sent_on (hw s) fd).
Proof.
  intros flow Hsrc Hdst Hty Hop Hl H32 Hover.
  set (s1 := s <| mx ::= λ m, m <| conns ::= alter (λ c, c <| peer_buf_alloc := hbuf_alloc hdr |>
                                          <| peer_fwd_cnt := hfwd_cnt hdr |>) flow |> |>).
  assert (∃ s', drop_conn flow true s1 = Ret (tt, s') ∧
    conns (mx s') = delete flow (conns (mx s)) ∧
    filter (λ p, pkt_flow p = flow) (out_data (mx s') ++ out_ctrl (mx s')) = [pkt_ctrl flow OP_RST 0] ∧
    (∀ fd, sent_on (hw s') fd = sent_on (hw s) fd)) as (s' & E & H).
  { destruct (wp_total_inv (drop_conn flow true) (λ _ s', conns (mx s') = delete flow (conns (mx s)) ∧
      filter (λ p, pkt_flow p = flow) (out_data (mx s') ++ out_ctrl (mx s')) = [pkt_ctrl flow OP_RST 0] ∧
      (∀ fd, sent_on (hw s') fd = sent_on (hw s) fd)) s1) as ([] & s' & ? & ?); [|by exists s'].
    apply drop_conn_effect. intros s' H1 H2 H3 H4. split_and!; [|by eapply not_flow_filter|done].
    rewrite H1. cbn. apply delete_alter_eq. }
  exists s'. split; [|done]. rewrite (handle_rw_eq fuel hdr data s c) by done.
  destruct Hover as [Hbig|(Hp & H1 & H2 & Hfree)]; [by rewrite (proj2 (Z.ltb_lt _ _) Hbig)|].
  destruct (MAX_PAYLOAD <? zlen data); [done|]. fold flow. fold s1.
  assert (conns (mx s1) !! flow = Some (c <| peer_buf_alloc := hbuf_alloc hdr |>
            <| peer_fwd_cnt := hfwd_cnt hdr |>)) as Hl1 by (cbn; by rewrite lookup_alter_eq, Hl).
  unfold on_rw. rewrite bool_decide_eq_false_2 by (intros ->; unfold zlen in Hfree; cbn in Hfree; lia).
  unfold mbind, prog_bind, get_conn, gets. rewrite Hl1.
  change (local_free (c <| peer_buf_alloc := hbuf_alloc hdr |> <| peer_fwd_cnt := hfwd_cnt hdr |>)) with (local_free c).
  cbn [phase local_shut_recv peer_shut_send set_field]. unfold set_field. cbn.
  rewrite Hp, H1, H2. cbn. rewrite cast_small by (unfold uint; lia).
  by rewrite (proj2 (Z.ltb_lt _ _)) by lia.
Qed.

(** A connection with two bytes of window left. *)
Definition full_conn : Conn := (conn_new 20 Established) <| received := BUF_ALLOC - 2 |>.
Definition full_mux : Mux :=
  mkMux 3 [] 5 [] {[demo_flow := full_conn]} 1025 [pkt_ctrl demo_flow OP_CREDIT_UPDATE 0] [].

Lemma guest_overrun_resets_witness :
  ∃ s', handle_guest_pkt 9 (rw_hdr 3) [1; 2; 3] (mkSt full_mux sh_empty) = Ret (tt, s') ∧
    conns (mx s') = delete demo_flow (conns full_mux).
Proof.
  destruct (guest_overrun_resets 9 (rw_hdr 3) [1; 2; 3] (mkSt full_mux sh_empty) full_conn)
    as (s' & E & Hc & _).
  all: try reflexivity.
  - right. split; [reflexivity|]. split; [reflexivity|]. split; [reflexivity|]. zcompute.
  - exists s'. split; [exact E|exact Hc].
Defined.

(** ** Where a stream is cut *)

(** Back-pressure ends a connection. When the non-blocking host socket is
    full ([send] reports [EAGAIN]), [flush_conn] treats it like a dead peer: both
    directions are marked shut and a full shutdown is queued for the guest,
    while the bytes stay in the buffer. *)
Theorem flush_backpressure_shuts {W} `{VH : !VsockHost W} (fuel : nat) flow c (s : St W) w1 :
  conns (mx s) !! flow = Some c → phase c = Established →
  ok_pending c = [] → to_host c ≠ [] → local_shut_send c = false → local_shut_recv c = false →
  sys_send (c_fd c) (to_host c) (hw s) = (Err (OsError EAGAIN), w1) →
  ∃ s' c', flush_conn (S fuel) flow s = Ret (tt, s') ∧
    conns (mx s') !! flow = Some c' ∧ to_host c' = to_host c ∧
    local_shut_send c' = true ∧ local_shut_recv c' = true ∧
    out_ctrl (mx s') = out_ctrl (mx s) ++ [pkt_ctrl flow OP_SHUTDOWN (SHUTDOWN_RCV + SHUTDOWN_SEND)].
Proof.
  intros Hl Hp Hok Hth H1 H2 Hsend.
  assert (flush_both (S fuel) c s = Ret ((Err (OsError EAGAIN), c), s <| hw := w1 |>)) as Hflush.
  { unfold flush_both, flush_ok. cbn [iter_prog]. unfold mbind, prog_bind, flush_ok_step.
    rewrite bool_decide_eq_true_2 by done. cbn beta iota delta [mret prog_ret].
    unfold flush_to_host. cbn [iter_prog]. unfold mbind, prog_bind, flush_to_host_step.
    rewrite bool_decide_eq_false_2 by done. unfold mbind, prog_bind, send_nosig. cbn [iter_prog].
    unfold mbind, prog_bind, host, act. by rewrite Hsend. }
  unfold flush_conn, mbind, prog_bind, get_conn, gets. rewrite Hl, Hflush.
  unfold upd_conn, upd_mux, modify, mark_local_shut, mbind, prog_bind, get_conn, gets, host, act. cbn.
  rewrite lookup_alter_eq, Hl. cbn. rewrite bool_decide_eq_false_2 by congruence. cbn.
  rewrite H1, H2. cbn [negb]. change (Z.lor SHUTDOWN_SEND SHUTDOWN_RCV) with 3. change (3 =? 0) with false.
  cbn. destruct (now w1) as [tm w2] eqn:En.
  do 2 eexists. split; [reflexivity|]. cbn. rewrite !lookup_alter_eq, Hl. cbn. split; [done|].
  unfold set_field. cbn. by rewrite !orb_true_r.
Qed.

Lemma flush_backpressure_shuts_witness :
  ∃ s' c', flush_conn 9 demo_flow (mkSt demo_mux (sh_empty <| sh_send := [Err (OsError EAGAIN)] |>)) = Ret (tt, s') ∧
    conns (mx s') !! demo_flow = Some c' ∧ local_shut_recv c' = true.
Proof.
  destruct (flush_backpressure_shuts 8 demo_flow demo_conn
    (mkSt demo_mux (sh_empty <| sh_send := [Err (OsError EAGAIN)] |>)) sh_empty)
    as (s' & c' & E & Hl & _ & _ & Hr & _).
  all: try reflexivity.
  - discriminate.
  - exists s', c'. split; [exact E|]. split; [exact Hl|exact Hr].
Defined.

(** A host client connects to port 80 and sends [1;2;3;4] while the guest has room
    for two bytes; the guest reads them and reports two more bytes of credit; the
    client sends [5;6]. *)
Definition reorder_events : list mux_event :=
  [EvFd 10 POLLIN; EvFd 20 POLLIN;
   EvGuest (mkHeader 3 2 80 1024 0 TYPE_STREAM OP_RESPONSE 0 2 0) [];
   EvFd 20 POLLIN;
   EvGuest (mkHeader 3 2 80 1024 0 TYPE_STREAM OP_CREDIT_UPDATE 0 2 2) [];
   EvFd 20 POLLIN].

Definition reorder_host : SHost :=
  sh_empty <| sh_accept := [Ok 20] |>
    <| sh_read := [Ok (ascii_bytes "CONNECT 80" ++ [NL]); Ok [1; 2; 3; 4]; Ok [5; 6]] |>.

(** A credit update does not release the bytes that waited for it. From a
    fresh multiplexer, through the handshake: after the run above the guest's
    queue holds [1;2;5;6] while [3;4] still waits, so the guest reads the host's
    bytes out of order. *)
Theorem credit_update_reorders_stream :
  ∃ m w s' c, mux_bind 3 (ascii_bytes "/tmp/v") reorder_host = Ret (Ok m, w) ∧
    run_events 9 map_to_list reorder_events (mkSt m w) = Ret (tt, s') ∧
    conns (mx s') !! demo_flow = Some c ∧ can_send c = true ∧
    queued_data demo_flow (out_data (mx s')) = [1; 2; 5; 6] ∧ prefetched c = [3; 4].
Proof.
  do 4 eexists. split; [vm_compute; reflexivity|]. split; [vm_compute; reflexivity|].
  split; [vm_compute; reflexivity|]. by vm_compute.
Qed.
