(* ===== verification/VirtioBlk.v ===== *)
(** * The virtio block device

    [devices/virtio_blk.rs]: the request handler of the worker, its disk with
    the direct and the buffered descriptor, io_uring with the fall-back to
    [pread]/[pwrite], the scratch buffer, the processing of the queue, and the
    opening of the disk image.

    The host kernel and the allocator are the interface [BlkHost]. A request of
    the ring is one call [uring_exec]: pushing the entry, waiting for one
    completion and taking it; its reply says which of the three failed. Reads
    put bytes into the buffer even when they fail, and a transfer whose completion
    was not taken goes on: a read of the ring that is in flight puts its bytes into
    the scratch block at any later call ([ring_dma]), a write changes the image. *)

From S2P Require Import Prelude Words Errors GuestMem VirtQueue VirtioMmio Memory.
Local Open Scope Z_scope.

(** ** Constants *)

Definition VIRTIO_MMIO_BASE : Z := GUEST_RAM_END.
Definition VIRTIO_BLK_IRQ : Z := 5.
Definition VIRTIO_ID_BLOCK : Z := 2.
Definition VIRTIO_BLK_F_SIZE_MAX : Z := Z.shiftl 1 1.
Definition VIRTIO_BLK_F_SEG_MAX : Z := Z.shiftl 1 2.
Definition VIRTIO_BLK_F_RO : Z := Z.shiftl 1 5.
Definition VIRTIO_BLK_F_BLK_SIZE : Z := Z.shiftl 1 6.
Definition VIRTIO_BLK_F_FLUSH : Z := Z.shiftl 1 9.
Definition CONFIG_SIZE_MAX : Z := 65536.
Definition CONFIG_SEG_MAX : Z := 32.
Definition CONFIG_BLK_SIZE : Z := 512.
Definition VIRTIO_BLK_T_IN : Z := 0.
Definition VIRTIO_BLK_T_OUT : Z := 1.
Definition VIRTIO_BLK_T_FLUSH : Z := 4.
Definition VIRTIO_BLK_T_GET_ID : Z := 8.
Definition VIRTIO_BLK_S_OK : Z := 0.
Definition VIRTIO_BLK_S_IOERR : Z := 1.
Definition VIRTIO_BLK_S_UNSUPP : Z := 2.
Definition SECTOR_SIZE : Z := 512.
Definition QUEUE_MAX_SIZE : Z := 256.
Definition QUEUE_REQUEST : Z := 0.
Definition IO_ALIGN : Z := 4096.
Definition SCRATCH_INITIAL : Z := 64 * 1024.
Definition RING_USER_READ : Z := 1.
Definition RING_USER_WRITE : Z := 2.
Definition RING_USER_FSYNC : Z := 3.
Definition CONFIG_LEN : nat := 24.
Definition O_RDONLY : Z := 0.
Definition O_RDWR : Z := 2.
Definition O_DIRECT : Z := 16384.
Definition O_CLOEXEC : Z := 524288.

(** ** Data *)

Record VirtioBlkReqHdr := mkReqHdr { type_ : Z; ioprio : Z; sector : Z }.

(** [reader.read_obj()] of the 16-byte header. *)
Definition parse_hdr (raw : list Z) : VirtioBlkReqHdr :=
  mkReqHdr (from_le_bytes (take 4 raw)) (from_le_bytes (take 4 (drop 4 raw)))
    (from_le_bytes (take 8 (drop 8 raw))).

(** A heap block of [cap] bytes. *)
Record AlignedBuf := mkAlignedBuf { cap : Z; buf_bytes : list Z }.
#[export] Instance eta_AlignedBuf : Eta AlignedBuf := λ b, mkAlignedBuf (cap b) (buf_bytes b).

Record BlockDisk := mkBlockDisk {
  direct_file : option Z;
  buffered_file : Z;
  use_direct : bool;
  direct_align : Z;
  scratch : AlignedBuf;
  (** whether the ring is still there *)
  ring : bool;
}.
#[export] Instance eta_BlockDisk : Eta BlockDisk := λ d,
  mkBlockDisk (direct_file d) (buffered_file d) (use_direct d) (direct_align d) (scratch d) (ring d).

Inductive BlockReqError := BreIo | BreChain | BreUnsupported.

(** A submission queue entry. *)
Inductive Sqe :=
| SqeRead (fd off len : Z)
| SqeWrite (fd off : Z) (buf : list Z)
| SqeFsync (fd : Z).

(** What became of it: the push, the wait or the completion failed, or a
    completion with its user data and result. *)
Inductive UringReply :=
| PushFailed (msg : string)
| SubmitFailed (e : io_error)
| NoCompletion
| Completion (user_data res : Z).

Class BlkHost (W : Type) := {
  (** the reply, the bytes put into the buffer, the world *)
  uring_exec : Sqe → Z → W → UringReply * list Z * W;
  (** [submitter().submit()], whose result is not used, and taking completions until
      there is none *)
  uring_submit : W → W;
  uring_reap : W → W;
  (** what a read of the ring that is in flight makes of the scratch block by the end of
      the next call *)
  ring_dma : W → list Z → list Z;
  sys_pread : Z → Z → Z → W → result io_error (list Z) * W;
  sys_pwrite : Z → list Z → Z → W → result io_error Z * W;
  sys_fdatasync : Z → W → result io_error unit * W;
  (** [alloc]: the contents of a fresh block of [n] bytes, or null *)
  heap_alloc : Z → W → option (list Z) * W;
  sys_open : list Z → Z → W → result io_error Z * W;
  (** [st_blksize] and the length of the file *)
  sys_fstat_blksize : Z → W → option Z;
  file_len : Z → W → result io_error Z;
  (** accesses of the vCPUs to the device window while the lock is free *)
  vcpu_accesses : W → list (Z * list Z) * W;
}.

(** Transport and static geometry, shared with the vCPUs under a lock. *)
Record BlockTransport (Q Efd : Type) := mkBlockTransport {
  bt_mmio : VirtioMmio Q Efd;
  capacity_sectors : Z;
  readonly : bool;
}.
Arguments mkBlockTransport {Q Efd}.
Arguments bt_mmio {Q Efd}.
Arguments capacity_sectors {Q Efd}.
Arguments readonly {Q Efd}.
#[export] Instance eta_BlockTransport {Q Efd} : Eta (BlockTransport Q Efd) := λ t,
  mkBlockTransport (bt_mmio t) (capacity_sectors t) (readonly t).

(** The worker's view: its disk, the host, guest memory, the locked transport. *)
Record BlkSt (Q Efd Mem W : Type) := mkBlkSt {
  disk : BlockDisk;
  bw : W;
  gm : Mem;
  tr : BlockTransport Q Efd;
}.
Arguments mkBlkSt {Q Efd Mem W}.
Arguments disk {Q Efd Mem W}.
Arguments bw {Q Efd Mem W}.
Arguments gm {Q Efd Mem W}.
Arguments tr {Q Efd Mem W}.
#[export] Instance eta_BlkSt {Q Efd Mem W} : Eta (BlkSt Q Efd Mem W) := λ s,
  mkBlkSt (disk s) (bw s) (gm s) (tr s).

(** [Layout::from_size_align] accepts the size. *)
Definition layout_ok (size : Z) : bool := size <=? 2 ^ 63 - IO_ALIGN.

Definition advertised_features (readonly : bool) : Z :=
  let feats := Z.lor (Z.lor (Z.lor (Z.lor VIRTIO_F_VERSION_1 VIRTIO_BLK_F_SIZE_MAX)
                 VIRTIO_BLK_F_SEG_MAX) VIRTIO_BLK_F_BLK_SIZE) VIRTIO_BLK_F_FLUSH in
  if readonly then Z.lor feats VIRTIO_BLK_F_RO else feats.

Definition config_space (capacity_sectors : Z) : list Z :=
  let cfg := replicate CONFIG_LEN 0 in
  let cfg := copy_at 0 (le_bytes 8 capacity_sectors) cfg in
  let cfg := copy_at 8 (le_bytes 4 CONFIG_SIZE_MAX) cfg in
  let cfg := copy_at 12 (le_bytes 4 CONFIG_SEG_MAX) cfg in
  copy_at 20 (le_bytes 4 CONFIG_BLK_SIZE) cfg.

Definition is_direct_aligned (offset len align : Z) : bool :=
  negb (align =? 0) && is_multiple_of offset align && is_multiple_of len align.

(** [off_t::try_from]. *)
Definition to_off_t (offset : Z) : result io_error Z :=
  if offset <? 2 ^ 63 then Ok offset
  else Err (SimpleError InvalidInput "file offset does not fit in off_t").

Section blk.
Context {Q Mem Chain Rd Wr Efd W : Type}.
Context `{VQ : !VirtQueue Q Mem Chain Rd Wr} `{EF : !EventFd Efd} `{BH : !BlkHost W}.
(** bound on interrupted calls *)
Variable fuel : nat.

Abbreviation M := (prog (BlkSt Q Efd Mem W)).

Definition dma_disk (w : W) (d : BlockDisk) : BlockDisk :=
  d <| scratch ::= λ b, b <| buf_bytes ::= ring_dma w |> |>.
Definition bhost {A} (f : W → A * W) : M A :=
  act (λ s, let '(a, w) := f (bw s) in (a, s <| bw := w |> <| disk ::= dma_disk (bw s) |>)).
Definition bhost_ (f : W → W) : M unit := bhost (λ w, (tt, f w)).
Definition upd_disk (f : BlockDisk → BlockDisk) : M unit := modify (λ s, s <| disk ::= f |>).
Definition upd_scratch (f : list Z → list Z) : M unit :=
  upd_disk (λ d, d <| scratch ::= λ b, b <| buf_bytes ::= f |> |>).

(** *** The scratch buffer *)

Definition aligned_new (n : Z) : prog W (result string AlignedBuf) :=
  let c := next_multiple_of (Z.max n IO_ALIGN) IO_ALIGN in
  assert_that (c <? 2 ^ 64);;
  if negb (layout_ok c) then mret (Err "layout"%string)
  else
    r ← act (heap_alloc c);
    mret (match r with
          | None => Err "aligned buffer allocation failed"%string
          | Some bs => Ok (mkAlignedBuf c bs)
          end).

(** [ensure]; a block grows by [realloc], which keeps its bytes. *)
Definition ensure (need : Z) : M (result string unit) :=
  b ← gets (λ s, scratch (disk s));
  if need <=? cap b then mret (Ok tt)
  else
    let new_cap := next_multiple_of need IO_ALIGN in
    assert_that (new_cap <? 2 ^ 64);;
    if negb (layout_ok (cap b)) || negb (layout_ok new_cap) then mret (Err "layout"%string)
    else
      r ← bhost (heap_alloc new_cap);
      match r with
      | None => mret (Err "aligned buffer reallocation failed"%string)
      | Some bs =>
          upd_disk (λ d, d <| scratch := mkAlignedBuf new_cap (copy_at 0 (buf_bytes b) bs) |>);;
          mret (Ok tt)
      end.

(** [as_mut(len)]; the slice is the first [len] bytes of the block. *)
Definition as_mut (len : Z) : M (result string unit) := ensure len.

Definition as_slice (len : Z) : M (result string (list Z)) :=
  b ← gets (λ s, scratch (disk s));
  if cap b <? len then mret (Err "scratch buffer too small"%string)
  else mret (Ok (take (Z.to_nat len) (buf_bytes b))).

(** Overwrite the front of the scratch buffer. *)
Definition fill (bs : list Z) : M unit := upd_scratch (copy_at 0 bs).

Definition zero_scratch (len : Z) : M (result string unit) :=
  _ ←? as_mut len;
  fill (replicate (Z.to_nat len) 0);;
  mret (Ok tt).

(** *** Positioned reads and writes *)

Definition pread_step (fd len offset done : Z) : M (Z + result io_error unit) :=
  if len <=? done then mret (inr (Ok tt))
  else
    o ← expect (checked_add 64 offset done);
    match to_off_t o with
    | Err e => mret (inr (Err e))
    | Ok off =>
        r ← bhost (sys_pread fd (len - done) off);
        match r with
        | Err e => if raw_is EINTR e then mret (inl done) else mret (inr (Err e))
        | Ok [] => mret (inr (Err (SimpleError UnexpectedEof "pread short read")))
        | Ok bs => upd_scratch (copy_at (Z.to_nat done) bs);; mret (inl (done + zlen bs))
        end
    end.

Definition pread_all (fd len offset : Z) : M (result io_error unit) :=
  iter_prog (fuel * S (Z.to_nat len)) (pread_step fd len offset) 0.

Definition pwrite_step (fd : Z) (buf : list Z) (offset done : Z) : M (Z + result io_error unit) :=
  if zlen buf <=? done then mret (inr (Ok tt))
  else
    o ← expect (checked_add 64 offset done);
    match to_off_t o with
    | Err e => mret (inr (Err e))
    | Ok off =>
        r ← bhost (sys_pwrite fd (drop (Z.to_nat done) buf) off);
        match r with
        | Err e => if raw_is EINTR e then mret (inl done) else mret (inr (Err e))
        | Ok n =>
            if n =? 0 then mret (inr (Err (SimpleError WriteZero "pwrite short write")))
            else mret (inl (done + n))
        end
    end.

Definition pwrite_all (fd : Z) (buf : list Z) (offset : Z) : M (result io_error unit) :=
  iter_prog (fuel * S (length buf)) (pwrite_step fd buf offset) 0.

(** *** io_uring *)

(** The common end of the three ring operations: the result of the completion. *)
Definition ring_result (what : string) (user : Z) (r : UringReply) : result io_error Z :=
  match r with
  | PushFailed msg => Err (SimpleError OtherKind msg)
  | SubmitFailed e => Err e
  | NoCompletion => Err (SimpleError OtherKind (String.append what ": missing completion"))
  | Completion ud res =>
      if negb (ud =? user) then Err (SimpleError OtherKind (String.append what ": unexpected user_data"))
      else if res <? 0 then Err (OsError (- res))
      else Ok res
  end.

Definition ring_read_step (fd len offset done : Z) : M (Z + result io_error unit) :=
  if len <=? done then mret (inr (Ok tt))
  else if 2 ^ 32 <=? len - done then mret (inr (Err (SimpleError InvalidInput "read too large")))
  else
    o ← expect (checked_add 64 offset done);
    '(r, bs) ← bhost (uring_exec (SqeRead fd o (len - done)) RING_USER_READ);
    upd_scratch (copy_at (Z.to_nat done) bs);;
    match ring_result "io_uring read" RING_USER_READ r with
    | Err e => mret (inr (Err e))
    | Ok n =>
        if n =? 0 then mret (inr (Err (SimpleError UnexpectedEof "io_uring read: EOF")))
        else mret (inl (done + n))
    end.

Definition ring_read (fd len offset : Z) : M (result io_error unit) :=
  iter_prog (S (Z.to_nat len)) (ring_read_step fd len offset) 0.

Definition ring_write_step (fd : Z) (buf : list Z) (offset done : Z) : M (Z + result io_error unit) :=
  if zlen buf <=? done then mret (inr (Ok tt))
  else if 2 ^ 32 <=? zlen buf - done then mret (inr (Err (SimpleError InvalidInput "write too large")))
  else
    o ← expect (checked_add 64 offset done);
    '(r, _) ← bhost (uring_exec (SqeWrite fd o (drop (Z.to_nat done) buf)) RING_USER_WRITE);
    match ring_result "io_uring write" RING_USER_WRITE r with
    | Err e => mret (inr (Err e))
    | Ok n =>
        if n =? 0 then mret (inr (Err (SimpleError WriteZero "io_uring write: zero")))
        else mret (inl (done + n))
    end.

Definition ring_write (fd : Z) (buf : list Z) (offset : Z) : M (result io_error unit) :=
  iter_prog (S (length buf)) (ring_write_step fd buf offset) 0.

Definition ring_fsync (fd : Z) : M (result io_error unit) :=
  '(r, _) ← bhost (uring_exec (SqeFsync fd) RING_USER_FSYNC);
  mret (match ring_result "io_uring fsync" RING_USER_FSYNC r with Ok _ => Ok tt | Err e => Err e end).

(** *** The disk *)

Definition prefer_direct (d : BlockDisk) (offset len : Z) : bool :=
  use_direct d && bool_decide (is_Some (direct_file d)) && is_direct_aligned offset len (direct_align d).

Definition io_fd (d : BlockDisk) (prefer : bool) : Z :=
  match direct_file d with
  | Some f => if prefer then f else buffered_file d
  | None => buffered_file d
  end.

Definition disable_direct : M unit := upd_disk (λ d, d <| use_direct := false |>).

(** Submits what is queued and takes the completions that are there; it does not wait. *)
Definition drain_ring : M unit :=
  bhost_ uring_submit;;
  bhost_ uring_reap.

Definition disable_ring : M unit :=
  r ← gets (λ s, ring (disk s));
  if r : bool then drain_ring;; upd_disk (λ d, d <| ring := false |>) else mret tt.

(** Run the ring operation, if there is a ring; when it fails, drop the ring and
    run the other one. *)
Definition ring_or (via_ring other : M (result io_error unit)) : M (result io_error unit) :=
  r ← gets (λ s, ring (disk s));
  if r : bool then
    x ← via_ring;
    match x with
    | Ok _ => mret (Ok tt)
    | Err _ => disable_ring;; other
    end
  else other.

Definition read_at_fd (fd len offset : Z) : M (result io_error unit) :=
  ring_or (ring_read fd len offset) (pread_all fd len offset).

Definition write_at_fd (fd : Z) (buf : list Z) (offset : Z) : M (result io_error unit) :=
  ring_or (ring_write fd buf offset) (pwrite_all fd buf offset).

(** The loop of [read_at] and [write_at]: an [EINVAL] of the direct descriptor
    turns direct I/O off and starts over on the buffered one. *)
Definition direct_step (io : Z → M (result io_error unit)) (prefer : bool)
    : M (bool + result io_error unit) :=
  fd ← gets (λ s, io_fd (disk s) prefer);
  r ← io fd;
  match r with
  | Ok _ => mret (inr (Ok tt))
  | Err e =>
      ud ← gets (λ s, use_direct (disk s));
      if prefer && raw_is EINVAL e && ud then disable_direct;; mret (inl false)
      else mret (inr (Err e))
  end.

Definition direct_loop (io : Z → M (result io_error unit)) (prefer : bool) : M (result io_error unit) :=
  iter_prog 3 (direct_step io) prefer.

Definition read_at (offset len : Z) : M (result io_error unit) :=
  if len =? 0 then mret (Ok tt)
  else
    r ← ensure len;
    match r with
    | Err e => mret (Err (SimpleError OtherKind e))
    | Ok _ =>
        prefer ← gets (λ s, prefer_direct (disk s) offset len);
        direct_loop (λ fd, read_at_fd fd len offset) prefer
    end.

Definition write_at (offset len : Z) : M (result io_error unit) :=
  if len =? 0 then mret (Ok tt)
  else
    b ← gets (λ s, scratch (disk s));
    if cap b <? len then mret (Err (SimpleError OtherKind "scratch buffer too small for write"))
    else
      prefer ← gets (λ s, prefer_direct (disk s) offset len);
      let buf := take (Z.to_nat len) (buf_bytes b) in
      direct_loop (λ fd, write_at_fd fd buf offset) prefer.

Definition fsync_fd (fd : Z) : M (result io_error unit) :=
  ring_or (ring_fsync fd) (bhost (sys_fdatasync fd)).

Definition flush_data : M (result io_error unit) :=
  d ← gets disk;
  _ ←? (match direct_file d with
        | Some f => if use_direct d then fsync_fd f else mret (Ok tt)
        | None => mret (Ok tt)
        end);
  fsync_fd (buffered_file d).

(** *** Requests *)

(** [reader.read_exact(buf)] into the front of the scratch buffer. *)
Definition read_into_scratch (rd : Rd) (len : Z) : M (result string unit) :=
  m ← gets gm;
  let '(bs, r, _) := reader_read m len rd in
  fill bs;;
  mret r.

(** [writer.write_all(bs)]. *)
Definition write_all (wr : Wr) (bs : list Z) : M (result string unit * Wr) :=
  act (λ s, let '(r, wr', m) := writer_write bs wr (gm s) in ((r, wr'), s <| gm := m |>)).

(** [writer.write_all(bs).map_err(|_| BlockReqError::Io)]. *)
Definition write_or_io (wr : Wr) (bs : list Z) : M (result BlockReqError Wr) :=
  '(r, wr') ← write_all wr bs;
  mret (match r with Ok _ => Ok wr' | Err _ => Err BreIo end).

Definition or_io {A} (r : result string A) : result BlockReqError A := map_err (λ _, BreIo) r.

(** Fill the scratch buffer for a read that ends at [end_]: the status byte. *)
Definition fill_for_read (limit offset data_len end_ : Z) : M (result BlockReqError Z) :=
  if limit <? end_ then
    z ← zero_scratch data_len;
    _ ←? mret (or_io z);
    mret (Ok VIRTIO_BLK_S_IOERR)
  else
    r ← read_at offset data_len;
    match r with
    | Ok _ => mret (Ok VIRTIO_BLK_S_OK)
    | Err _ => _ ← zero_scratch data_len; mret (Ok VIRTIO_BLK_S_IOERR)
    end.

Definition handle_in (capacity_sectors sec : Z) (wr : Wr) : M (result BlockReqError Z) :=
  let total := writer_avail wr in
  if total =? 0 then mret (Err BreChain)
  else
    let data_len := total - 1 in
    offset ←? mret (ok_or BreIo (checked_mul 64 sec SECTOR_SIZE));
    end_ ←? mret (ok_or BreIo (checked_add 64 offset data_len));
    limit ← expect (checked_mul 64 capacity_sectors SECTOR_SIZE);
    status ←? fill_for_read limit offset data_len end_;
    sl ← as_slice data_len;
    data ←? mret (or_io sl);
    wr1 ←? write_or_io wr data;
    _ ←? write_or_io wr1 [status];
    mret (Ok (cast 32 (data_len + 1))).

Definition handle_out (capacity_sectors : Z) (ro : bool) (driver_features sec : Z) (rd : Rd) (wr : Wr)
    : M (result BlockReqError Z) :=
  let data_len := reader_avail rd in
  r ← as_mut data_len;
  _ ←? mret (or_io r);
  r ← read_into_scratch rd data_len;
  _ ←? mret (or_io r);
  offset ←? mret (ok_or BreIo (checked_mul 64 sec SECTOR_SIZE));
  end_ ←? mret (ok_or BreIo (checked_add 64 offset data_len));
  limit ← expect (checked_mul 64 capacity_sectors SECTOR_SIZE);
  let ro := ro || negb (Z.land driver_features VIRTIO_BLK_F_RO =? 0) in
  let out_of_range := limit <? end_ in
  io_err ← (if negb ro && negb out_of_range then
              r ← write_at offset data_len; mret (is_err r)
            else mret false);
  let status := if ro || out_of_range || io_err then VIRTIO_BLK_S_IOERR else VIRTIO_BLK_S_OK in
  _ ←? write_or_io wr [status];
  mret (Ok 1).

Definition handle_flush (ro : bool) (driver_features : Z) (wr : Wr) : M (result BlockReqError Z) :=
  status ← (if Z.land driver_features VIRTIO_BLK_F_FLUSH =? 0 then mret VIRTIO_BLK_S_UNSUPP
            else if ro then mret VIRTIO_BLK_S_OK
            else
              r ← flush_data;
              mret (if is_err r then VIRTIO_BLK_S_IOERR else VIRTIO_BLK_S_OK));
  _ ←? write_or_io wr [status];
  mret (Ok 1).

(** [kitsune-blk] in a field of 20 bytes. *)
Definition device_id_bytes : list Z :=
  copy_at 0 ((λ b, Z.of_N (Byte.to_N b)) <$> String.list_byte_of_string "kitsune-blk") (replicate 20 0).

Definition handle_get_id (wr : Wr) : M (result BlockReqError Z) :=
  if writer_avail wr <? 21 then mret (Err BreChain)
  else
    wr1 ←? write_or_io wr device_id_bytes;
    _ ←? write_or_io wr1 [VIRTIO_BLK_S_OK];
    mret (Ok 21).

Definition handle_unknown (wr : Wr) : M (result BlockReqError Z) :=
  let total := writer_avail wr in
  if total =? 0 then mret (Err BreUnsupported)
  else
    wr1 ←? (if 1 <? total then
              z ← zero_scratch (total - 1);
              _ ←? mret (or_io z);
              sl ← as_slice (total - 1);
              pad ←? mret (or_io sl);
              '(_, wr1) ← write_all wr pad;
              mret (Ok wr1)
            else mret (Ok wr));
    _ ← write_all wr1 [VIRTIO_BLK_S_UNSUPP];
    mret (Ok (cast 32 total)).

Definition handle_request (capacity_sectors : Z) (ro : bool) (driver_features : Z) (chain : Chain)
    : M (result BlockReqError Z) :=
  m ← gets gm;
  rd ←? mret (map_err (λ _, BreChain) (reader_new m chain));
  wr ←? mret (map_err (λ _, BreChain) (writer_new m chain));
  let '(raw, r, rd) := reader_read m 16 rd in
  _ ←? mret (or_io r);
  let hdr := parse_hdr raw in
  if type_ hdr =? VIRTIO_BLK_T_IN then handle_in capacity_sectors (sector hdr) wr
  else if type_ hdr =? VIRTIO_BLK_T_OUT then
    handle_out capacity_sectors ro driver_features (sector hdr) rd wr
  else if type_ hdr =? VIRTIO_BLK_T_FLUSH then handle_flush ro driver_features wr
  else if type_ hdr =? VIRTIO_BLK_T_GET_ID then handle_get_id wr
  else handle_unknown wr.

(** *** The queue *)

Definition upd_mmio (f : VirtioMmio Q Efd → VirtioMmio Q Efd) : M unit :=
  modify (λ s, s <| tr ::= λ t, t <| bt_mmio ::= f |> |>).

(** Accesses of the vCPUs while the transport lock is free. *)
Definition unlocked : M unit :=
  l ← bhost vcpu_accesses;
  m ← gets gm;
  upd_mmio (λ t, foldl (vcpu_access m) t l).

(** The first critical section of [process_queue]. *)
Definition pop_request : M (option Chain) :=
  act (λ s,
    match queue (bt_mmio (tr s)) QUEUE_REQUEST with
    | None => (None, s)
    | Some q =>
        if negb (q_ready q) then (None, s)
        else
          let '(c, q') := q_pop (gm s) q in
          (c, s <| tr ::= λ t, t <| bt_mmio ::= λ m, m <| queues ::= <[Z.to_nat QUEUE_REQUEST := q']> |> |> |>)
    end).

(** The second one. *)
Definition put_used (head written : Z) : M (result Error unit) :=
  act (λ s,
    match queue (bt_mmio (tr s)) QUEUE_REQUEST with
    | None => (Err (BlockErr (Msg "missing request queue")), s)
    | Some q =>
        let '(r, q', m') := q_add_used head written q (gm s) in
        (map_err (λ e, BlockErr (MsgExt "" e)) r,
         s <| gm := m' |>
           <| tr ::= λ t, t <| bt_mmio ::= λ m, m <| queues ::= <[Z.to_nat QUEUE_REQUEST := q']> |> |> |>)
    end).

(** One turn of the loop; the loop carries [used_any]. *)
Definition process_step (used_any : bool) : M (bool + result Error bool) :=
  t ← gets tr;
  popped ← pop_request;
  match popped with
  | None => mret (inr (Ok used_any))
  | Some chain =>
      unlocked;;
      r ← handle_request (capacity_sectors t) (readonly t) (driver_features (bt_mmio t)) chain;
      let written := match r with Ok n => n | Err _ => 1 end in
      unlocked;;
      u ← put_used (chain_head chain) written;
      match u with
      | Err e => mret (inr (Err e))
      | Ok _ => unlocked;; mret (inl true)
      end
  end.

Definition signal_used : M (result Error unit) :=
  act (λ s, let '(r, m) := signal_used_queue (bt_mmio (tr s)) in
            (r, s <| tr ::= λ t, t <| bt_mmio := m |> |>)).

Definition process_queue : M (result Error unit) :=
  used_any ←? iter_prog fuel process_step false;
  if used_any : bool then signal_used else mret (Ok tt).

(** One turn of the worker: an error of [process_queue] is logged. *)
Definition worker_turn (t : poll_turn) : M (unit + result Error unit) :=
  match t with
  | PollErr e =>
      if raw_is EINTR e then mret (inl tt) else mret (inr (Err (BlockErr (MsgIo "poll" e))))
  | Polled revents =>
      if default 0 (head revents) =? 0 then mret (inl tt)
      else
        upd_mmio (λ m, m <| notify_fd ::= efd_read |>);;
        _ ← process_queue;
        mret (inl tt)
  end.

(** The turns until the stop flag is seen. The vCPUs may access the device between
    two turns. The disk of the outcome is the one in the state. *)
Fixpoint worker_loop (ts : list poll_turn) : M (result Error unit) :=
  match ts with
  | [] => mret (Ok tt)
  | t :: ts =>
      unlocked;;
      r ← worker_turn t;
      match r with inl _ => worker_loop ts | inr r => mret r end
  end.

End blk.

(** ** The disk image *)

Section image.
Context {W : Type} `{BH : !BlkHost W}.

Definition open_buffered (path : list Z) : prog W (result Error (Z * bool)) :=
  r ← act (sys_open path (Z.lor O_RDWR O_CLOEXEC));
  match r with
  | Ok fd => mret (Ok (fd, false))
  | Err err =>
      let access_denied := raw_is EACCES err || raw_is EPERM err || kind_is PermissionDenied err in
      if negb access_denied then mret (Err (ImageIo err))
      else
        r ← act (sys_open path (Z.lor O_RDONLY O_CLOEXEC));
        mret (match r with Ok fd => Ok (fd, true) | Err e => Err (ImageIo e) end)
  end.

Definition open_direct (path : list Z) (ro : bool) : prog W (option Z) :=
  let flags := if ro then Z.lor (Z.lor O_RDONLY O_DIRECT) O_CLOEXEC
               else Z.lor (Z.lor O_RDWR O_DIRECT) O_CLOEXEC in
  r ← act (sys_open path flags);
  mret (match r with Ok fd => Some fd | Err _ => None end).

Definition logical_block_size (fd : Z) : prog W Z :=
  st ← gets (sys_fstat_blksize fd);
  mret (match st with
        | None => Z.max SECTOR_SIZE IO_ALIGN
        | Some bs => if bs =? 0 then Z.max SECTOR_SIZE IO_ALIGN else Z.max bs SECTOR_SIZE
        end).

Record OpenedDisk := mkOpenedDisk {
  od_buffered : Z; od_direct : option Z; od_readonly : bool; od_align : Z;
}.

Definition open_disk_image (path : list Z) : prog W (result Error OpenedDisk) :=
  if bool_decide (0 ∈ path) then mret (Err (BlockErr (Msg "disk path contains interior NUL")))
  else
    '(fd, ro) ←? open_buffered path;
    align ← logical_block_size fd;
    direct ← open_direct path ro;
    mret (Ok (mkOpenedDisk fd direct ro align)).

(** The start of [VirtioBlock::new]: the image and its capacity in sectors. *)
Definition check_image (path : list Z) : prog W (result Error (OpenedDisk * Z)) :=
  o ←? open_disk_image path;
  r ← gets (file_len (od_buffered o));
  len ←? mret (map_err ImageIo r);
  if (len <? SECTOR_SIZE) || negb (is_multiple_of len SECTOR_SIZE) then
    mret (Err (BlockErr (Msg "disk image size must be a non-zero multiple of 512 bytes")))
  else mret (Ok (o, len / SECTOR_SIZE)).

(** The disk at its end. *)
Definition disk_of (o : OpenedDisk) (sc : AlignedBuf) (have_ring : bool) : BlockDisk :=
  mkBlockDisk (od_direct o) (od_buffered o) (bool_decide (is_Some (od_direct o))) (od_align o) sc have_ring.

End image.

(** ** What the host promises *)

(** The bytes [off .. off + n) of the image. *)
Definition contents_at (f : Z → Z) (off : Z) (n : nat) : list Z :=
  (λ i, f (off + Z.of_nat i)) <$> seq 0 n.

(** [g] is [f] with some bytes of a write of [buf] at [off] applied. *)
Definition torn (off : Z) (buf : list Z) (f g : Z → Z) : Prop :=
  ∀ x, g x = f x ∨ (off ≤ x < off + zlen buf ∧ g x = nth (Z.to_nat (x - off)) buf 0).

(** A reply that reports [n] bytes transferred for the entry with [user]. *)
Definition transferred (user n : Z) (r : UringReply) : Prop := r = Completion user n ∧ 0 ≤ n.

(** What a transfer in flight may have done to the image. *)
Definition landed (op : option Sqe) (f g : Z → Z) : Prop :=
  match op with Some (SqeWrite _ off buf) => torn off buf f g | _ => g = f end.

(** Nothing is promised of the image while a transfer of the ring is in flight that the
    program has let go of. A transfer is in flight from its submission until its
    completion is taken; only the operations on the ring take completions. *)
Class BlkHostLaws (W : Type) `{BlkHost W} := {
  (** observations: the bytes of the image, through either descriptor; those that
      would survive a crash of the host; the read or write of the ring in flight *)
  image : W → Z → Z;
  durable : W → Z → Z;
  in_flight : W → option Sqe;
  ring_dma_len : ∀ w bs, length (ring_dma w bs) = length bs;
  ring_dma_calm : ∀ w bs, in_flight w = None → ring_dma w bs = bs;
  pread_ok : ∀ fd len off w bs w', 0 ≤ len → sys_pread fd len off w = (Ok bs, w') →
    zlen bs ≤ len ∧ in_flight w' = in_flight w ∧
    (in_flight w = None → image w' = image w ∧ bs = contents_at (image w) off (length bs));
  pread_err : ∀ fd len off w e w', sys_pread fd len off w = (Err e, w') →
    in_flight w' = in_flight w ∧ (in_flight w = None → image w' = image w);
  pwrite_ok : ∀ fd buf off w n w', sys_pwrite fd buf off w = (Ok n, w') →
    0 ≤ n ≤ zlen buf ∧ in_flight w' = in_flight w ∧
    (in_flight w = None → ∀ x, image w' x = overlay off (take (Z.to_nat n) buf) (image w) x);
  pwrite_err : ∀ fd buf off w e w', sys_pwrite fd buf off w = (Err e, w') →
    in_flight w' = in_flight w ∧ (in_flight w = None → image w' = image w);
  fdatasync_image : ∀ fd w r w', sys_fdatasync fd w = (r, w') →
    in_flight w' = in_flight w ∧
    (in_flight w = None → image w' = image w ∧ (is_ok r = true → durable w' = image w));
  (** a read of the ring fills the front of the buffer, a completed one with the bytes of
      the image; one that did not complete may be in flight *)
  uring_read : ∀ fd off len u w r bs w', in_flight w = None → 0 ≤ len →
    uring_exec (SqeRead fd off len) u w = (r, bs, w') →
    image w' = image w ∧ zlen bs ≤ len ∧
    (in_flight w' = None ∨ in_flight w' = Some (SqeRead fd off len)) ∧
    (∀ n, transferred u n r → in_flight w' = None ∧ zlen bs = n ∧ bs = contents_at (image w) off (length bs));
  (** a write may be cut short, and one that did not complete may be in flight *)
  uring_write : ∀ fd off buf u w r bs w', in_flight w = None →
    uring_exec (SqeWrite fd off buf) u w = (r, bs, w') →
    torn off buf (image w) (image w') ∧
    (in_flight w' = None ∨ in_flight w' = Some (SqeWrite fd off buf)) ∧
    (∀ n, transferred u n r → n ≤ zlen buf ∧ in_flight w' = None ∧
       ∀ x, image w' x = overlay off (take (Z.to_nat n) buf) (image w) x);
  (** a sync touches neither the image nor the buffer, and is not counted as in flight *)
  uring_fsync : ∀ fd u w r bs w', in_flight w = None → uring_exec (SqeFsync fd) u w = (r, bs, w') →
    image w' = image w ∧ in_flight w' = None ∧ (∀ n, transferred u n r → durable w' = image w);
  (** what is in flight may land, and its completion may be taken or not *)
  uring_submit_progress : ∀ w, landed (in_flight w) (image w) (image (uring_submit w)) ∧
    (in_flight (uring_submit w) = None ∨ in_flight (uring_submit w) = in_flight w);
  uring_reap_progress : ∀ w, landed (in_flight w) (image w) (image (uring_reap w)) ∧
    (in_flight (uring_reap w) = None ∨ in_flight (uring_reap w) = in_flight w);
  heap_alloc_len : ∀ n w bs w', 0 ≤ n → heap_alloc n w = (Some bs, w') → zlen bs = n;
  heap_alloc_image : ∀ n w r w', heap_alloc n w = (r, w') →
    in_flight w' = in_flight w ∧ (in_flight w = None → image w' = image w);
  vcpu_accesses_image : ∀ w l w', vcpu_accesses w = (l, w') →
    in_flight w' = in_flight w ∧ (in_flight w = None → image w' = image w);
}.

(** The allocator can refuse a block. *)
Definition heap_exhausted (W : Type) `{BlkHost W} : Prop := ∃ n (w w' : W), heap_alloc n w = (None, w').

(** Calls are interrupted only so often in a row. *)
Class BlkHostFair (W : Type) `{BlkHost W} (fuel : nat) := {
  blk_patience : W → nat;
  blk_patience_bound : ∀ w, (blk_patience w < fuel)%nat;
  pread_patience : ∀ fd len off w e w', sys_pread fd len off w = (Err e, w') → raw_is EINTR e = true →
    (blk_patience w' < blk_patience w)%nat;
  pwrite_patience : ∀ fd buf off w e w', sys_pwrite fd buf off w = (Err e, w') → raw_is EINTR e = true →
    (blk_patience w' < blk_patience w)%nat;
}.

(** ** A scripted host

    The replies of the data transfers are given in advance: a number of bytes at
    most, or an error; when they are used up every transfer is complete. A transfer
    of the ring whose submission fails is in flight. A prompt host completes it when
    completions are next taken; a late one with the next sync, when nobody takes its
    completion any more. *)

Record SBlk := mkSBlk {
  sb_image : gmap Z Z;
  (** what the last sync wrote back *)
  sb_durable : gmap Z Z;
  sb_io : list (result io_error Z);
  sb_flight : option Sqe;
  sb_late : bool;
  sb_accesses : list (list (Z * list Z));
  sb_burst : nat;
}.
#[export] Instance eta_SBlk : Eta SBlk := λ w,
  mkSBlk (sb_image w) (sb_durable w) (sb_io w) (sb_flight w) (sb_late w) (sb_accesses w) (sb_burst w).

Definition SB_BURST : nat := 4.
Definition sb_read_image (w : SBlk) (x : Z) : Z := default 0 (sb_image w !! x).
Definition sb_store (off : Z) (buf : list Z) (w : SBlk) : SBlk := w <| sb_image ::= bm_store off buf |>.

(** What is in flight takes effect on the image. *)
Definition sb_land (w : SBlk) : SBlk :=
  match sb_flight w with Some (SqeWrite _ off buf) => sb_store off buf w | _ => w end.

Definition sb_sync (w : SBlk) : SBlk :=
  let w := if sb_late w then (sb_land w) <| sb_late := false |> else w in
  w <| sb_durable := sb_image w |>.

(** The next reply to a transfer of [len] bytes; bursts of [EINTR] end. *)
Definition sb_next (len : Z) (w : SBlk) : result io_error Z * SBlk :=
  match sb_io w with
  | [] => (Ok len, w)
  | Ok n :: l => (Ok (Z.max 0 (Z.min n len)), w <| sb_io := l |> <| sb_burst := O |>)
  | Err e :: l =>
      let w' := w <| sb_io := l |> in
      if raw_is EINTR e then
        if bool_decide (sb_burst w < SB_BURST)%nat then (Err e, w' <| sb_burst ::= S |>)
        else (Err (OsError EINVAL), w' <| sb_burst := O |>)
      else (Err e, w' <| sb_burst := O |>)
  end.

(** The completion of the ring for a reply. *)
Definition sb_reply (user : Z) (r : result io_error Z) : UringReply :=
  match r with
  | Ok n => Completion user n
  | Err (OsError c) => if 0 <? c then Completion user (- c) else NoCompletion
  | Err e => SubmitFailed e
  end.

Definition sb_uring (e : Sqe) (user : Z) (w : SBlk) : UringReply * list Z * SBlk :=
  match e with
  | SqeRead _ off len =>
      let '(r, w') := sb_next len w in
      (sb_reply user r,
       match r with Ok n => contents_at (sb_read_image w) off (Z.to_nat n) | Err _ => [] end,
       if is_ok r then w' else w' <| sb_flight := Some e |>)
  | SqeWrite _ off buf =>
      let '(r, w') := sb_next (zlen buf) w in
      (sb_reply user r, [],
       match r with
       | Ok n => sb_store off (take (Z.to_nat n) buf) w'
       | Err _ => w' <| sb_flight := Some e |>
       end)
  | SqeFsync _ => (Completion user 0, [], sb_sync w)
  end.

#[export] Instance Scripted_blk : BlkHost SBlk := {
  uring_exec := sb_uring;
  uring_submit w := w;
  uring_reap w := if sb_late w then w else (sb_land w) <| sb_flight := None |>;
  ring_dma w bs :=
    match sb_flight w with
    | Some (SqeRead _ off len) => copy_at 0 (take (length bs) (contents_at (sb_read_image w) off (Z.to_nat len))) bs
    | _ => bs
    end;
  sys_pread _ len off w :=
    let '(r, w') := sb_next len w in
    (match r with Ok n => Ok (contents_at (sb_read_image w) off (Z.to_nat n)) | Err e => Err e end, w');
  sys_pwrite _ buf off w :=
    let '(r, w') := sb_next (zlen buf) w in
    match r with
    | Ok n => (Ok n, sb_store off (take (Z.to_nat n) buf) w')
    | Err e => (Err e, w')
    end;
  sys_fdatasync _ w := (Ok tt, sb_sync w);
  heap_alloc n w := (Some (replicate (Z.to_nat n) 0), w);
  sys_open _ flags w := if Z.testbit flags 1 then (Err (OsError EACCES), w) else (Ok 7, w);
  sys_fstat_blksize _ _ := Some 4096;
  file_len _ w := Ok 4096;
  vcpu_accesses w :=
    match sb_accesses w with
    | [] => ([], w)
    | l :: ls => (l, w <| sb_accesses := ls |>)
    end;
}.
