(* ===== verification/VirtioBlkFacts.v ===== *)
(** * Correctness of the block device

    Whatever the host does on the way (short transfers, interruptions, a ring
    that fails, a direct descriptor that refuses), a completed read delivers the
    bytes of the image, a completed write is exactly that write, a failed one
    leaves everything outside its range alone, and the guest is never given
    bytes that are neither the image's nor zero; until a transfer of the ring that
    did not complete is let go of, after which nothing is said of the image. *)

From S2P Require Import Prelude Words Errors GuestMem VirtQueue VirtioMmio VirtioBlk.
Local Open Scope Z_scope.

(** ** Images *)

Lemma length_contents_at f off n : length (contents_at f off n) = n.
Proof. unfold contents_at. by rewrite length_fmap, length_seq. Qed.

Lemma contents_at_app f off a b :
  contents_at f off (a + b) = contents_at f off a ++ contents_at f (off + Z.of_nat a) b.
Proof.
  unfold contents_at. rewrite seq_app, fmap_app. f_equal. cbn.
  rewrite <-(Nat.add_0_r a) at 1. rewrite <-fmap_add_seq, <-list_fmap_compose. apply list_fmap_ext.
  intros i x _. cbn. f_equal. lia.
Qed.

Lemma torn_refl off buf f g : (∀ x, g x = f x) → torn off buf f g.
Proof. intros H x. by left. Qed.

Lemma torn_trans off buf f g h : torn off buf f g → torn off buf g h → torn off buf f h.
Proof. intros H1 H2 x. destruct (H2 x) as [->|?]; [apply H1|by right]. Qed.

Lemma torn_drop off buf k f g :
  0 ≤ k ≤ zlen buf → torn (off + k) (drop (Z.to_nat k) buf) f g → torn off buf f g.
Proof.
  intros Hk H x. destruct (H x) as [?|[Hx ->]]; [by left|right].
  rewrite zlen_drop in Hx by done. split; [lia|].
  rewrite nth_skipn. f_equal. lia.
Qed.

Lemma overlay_torn off buf k f g :
  (∀ x, g x = overlay off (take k buf) f x) → torn off buf f g.
Proof.
  intros H x. rewrite H. unfold overlay. rewrite length_take.
  destruct (Z.leb_spec off x), (Z.ltb_spec x (off + Z.of_nat (k `min` length buf))); cbn; try by left.
  right. unfold zlen. split; [lia|]. rewrite nth_firstn, (proj2 (Nat.ltb_lt _ _)) by lia. done.
Qed.

(** Writing the whole buffer over a torn write of it leaves the whole write. *)
Lemma overlay_over_torn off buf f g h :
  torn off buf f g → (∀ x, h x = overlay off buf g x) → ∀ x, h x = overlay off buf f x.
Proof.
  intros Ht H x. rewrite H. unfold overlay.
  destruct (Z.leb_spec off x), (Z.ltb_spec x (off + Z.of_nat (length buf))); cbn; try done;
    destruct (Ht x) as [->|[? _]]; try done; unfold zlen in *; lia.
Qed.

Lemma overlay_app off a b f x :
  overlay off (a ++ b) f x = overlay (off + zlen a) b (overlay off a f) x.
Proof.
  unfold overlay, zlen. rewrite length_app.
  destruct (Z.leb_spec off x); cbn.
  - destruct (Z.leb_spec (off + Z.of_nat (length a)) x); cbn.
    + replace (x <? off + Z.of_nat (length a + length b))
        with (x <? off + Z.of_nat (length a) + Z.of_nat (length b)) by (f_equal; lia).
      destruct (Z.ltb_spec x (off + Z.of_nat (length a) + Z.of_nat (length b))).
      * rewrite app_nth2 by lia. f_equal. lia.
      * by destruct (Z.ltb_spec x (off + Z.of_nat (length a))); [lia|].
    + destruct (Z.ltb_spec x (off + Z.of_nat (length a + length b))); [|lia].
      destruct (Z.ltb_spec x (off + Z.of_nat (length a))); [|lia]. rewrite app_nth1 by lia. done.
  - by destruct (Z.leb_spec (off + Z.of_nat (length a)) x); [lia|].
Qed.

(** Bytes [a] copied behind [k] bytes. *)
Lemma take_copy_at (k : nat) (src dst : list Z) :
  (k + length src ≤ length dst)%nat →
  take (k + length src) (copy_at k src dst) = take k dst ++ src.
Proof.
  intros H. unfold copy_at. rewrite app_assoc, take_app_length'; [done|].
  rewrite length_app, length_take. lia.
Qed.

Lemma take_copy_at_0 src dst :
  (length src ≤ length dst)%nat → take (length src) (copy_at 0 src dst) = src.
Proof. intros H. exact (take_copy_at 0 src dst H). Qed.

(** ** Transfers *)

(** No transfer of the ring is in flight. *)
Definition calm {Q Efd Mem W} `{BlkHostLaws W} (s : BlkSt Q Efd Mem W) : Prop := in_flight (bw s) = None.

(** The scratch block has its capacity, and while there is a ring nothing is in flight
    on it. *)
Record blk_ok {Q Efd Mem W} `{BlkHostLaws W} (s : BlkSt Q Efd Mem W) : Prop := {
  bo_len : zlen (buf_bytes (scratch (disk s))) = cap (scratch (disk s));
  bo_calm : ring (disk s) = true → calm s;
}.

(** How a state of the worker goes on: a transfer that was let go of stays in flight, a
    ring that was dropped does not come back, and without a ring nothing is let go of. *)
Record steady {Q Efd Mem W} `{BlkHostLaws W} (s s' : BlkSt Q Efd Mem W) : Prop := {
  sd_ok : blk_ok s';
  sd_tr : tr s' = tr s;
  sd_calm : calm s' → calm s;
  sd_ring : ring (disk s) = false → ring (disk s') = false ∧ (calm s → calm s');
}.

(** What a transfer leaves alone: guest memory, the transport, the size of the
    scratch block. *)
Record io_frame {Q Efd Mem W} `{BlkHostLaws W} (s s' : BlkSt Q Efd Mem W) : Prop := {
  if_steady : steady s s';
  if_gm : gm s' = gm s;
  if_cap : cap (scratch (disk s')) = cap (scratch (disk s));
}.

(** The disk after a call of the host: a transfer in flight may have changed the bytes of
    the scratch block. *)
Record dma_after {Q Efd Mem W} `{BlkHostLaws W} (s : BlkSt Q Efd Mem W) (d : BlockDisk) : Prop := {
  da_ring : ring d = ring (disk s);
  da_cap : cap (scratch d) = cap (scratch (disk s));
  da_len : zlen (buf_bytes (scratch d)) = zlen (buf_bytes (scratch (disk s)));
  da_calm : calm s → d = disk s;
}.

Section transfers.
Context {Q Mem Chain Rd Wr Efd W : Type}.
Context `{VQ : !VirtQueue Q Mem Chain Rd Wr} `{EF : !EventFd Efd} `{BH : !BlkHost W} `{BL : !BlkHostLaws W}.
Variable fuel : nat.
Variable t : mode.
Variable fair : t = Total → BlkHostFair W fuel.
Abbreviation St := (BlkSt Q Efd Mem W).
Implicit Types s : St.

Lemma steady_refl s : blk_ok s → steady s s.
Proof. by split. Qed.

Lemma steady_trans s1 s2 s3 : steady s1 s2 → steady s2 s3 → steady s1 s3.
Proof.
  intros [H1 H2 H3 H4] [K1 K2 K3 K4]. split; [done|congruence|by auto|].
  intros Hr. destruct (H4 Hr) as [H5 H6]. destruct (K4 H5) as [K5 K6]. auto.
Qed.

Lemma io_frame_refl s : blk_ok s → io_frame s s.
Proof. split; [by apply steady_refl|done|done]. Qed.

Lemma io_frame_trans s1 s2 s3 : io_frame s1 s2 → io_frame s2 s3 → io_frame s1 s3.
Proof. intros [] []. split; [by eapply steady_trans|congruence|congruence]. Qed.

Lemma if_ok s s' : io_frame s s' → blk_ok s'.
Proof. intros H. apply H. Qed.

Lemma dma_after_host s : dma_after s (dma_disk (bw s) (disk s)).
Proof.
  split; try done; cbn.
  - unfold zlen. by rewrite ring_dma_len.
  - intros Hc. unfold dma_disk. destruct (disk s) as [? ? ? ? [? ?] ?]. unfold set_field. cbn. by rewrite ring_dma_calm.
Qed.

Lemma wp_bhost {A} (f : W → A * W) (R : A → St → Prop) s :
  (∀ a w d, f (bw s) = (a, w) → dma_after s d → R a (s <| bw := w |> <| disk := d |>)) → wp t (bhost f) R s.
Proof.
  intros H. unfold bhost. apply wp_act. intros a s'. destruct (f (bw s)) as [a' w] eqn:E.
  intros [= <- <-]. exact (H _ _ _ eq_refl (dma_after_host s)).
Qed.

Lemma wp_bhost_ (f : W → W) (R : unit → St → Prop) s :
  (∀ d, dma_after s d → R tt (s <| bw := f (bw s) |> <| disk := d |>)) → wp t (bhost_ f) R s.
Proof. intros H. apply wp_bhost. intros a w d [= <- <-]. apply H. Qed.

(** A call that neither starts nor ends a transfer of the ring. *)
Lemma steady_host s w d :
  blk_ok s → dma_after s d → in_flight w = in_flight (bw s) → steady s (s <| bw := w |> <| disk := d |>).
Proof.
  intros [Hl Hc] [H1 H2 H3 H4] Hw. unfold calm in *. split; [split|..]; unfold calm; cbn; try done; try congruence.
  - rewrite H1, Hw. done.
  - rewrite H1, Hw. done.
Qed.

Lemma io_frame_host s s' w d :
  io_frame s s' → dma_after s' d → in_flight w = in_flight (bw s') → io_frame s (s' <| bw := w |> <| disk := d |>).
Proof.
  intros Hf Hd Hw. eapply io_frame_trans; [exact Hf|]. split; [apply steady_host; [by eapply if_ok|done|done]|done|apply Hd].
Qed.

Lemma io_frame_scratch s s' k bs :
  io_frame s s' → Z.of_nat k + zlen bs ≤ cap (scratch (disk s')) →
  io_frame s (s' <| disk ::= λ d, d <| scratch ::= λ b, b <| buf_bytes ::= copy_at k bs |> |> |>).
Proof.
  intros Hf Hk. eapply io_frame_trans; [exact Hf|]. destruct (if_ok _ _ Hf) as [Hlen Hc].
  split; [split; [split|..]|..]; try done. cbn. unfold zlen in *. rewrite length_copy_at by lia. done.
Qed.

Lemma io_frame_disk s s' (f : BlockDisk → BlockDisk) :
  io_frame s s' → (∀ d, scratch (f d) = scratch d ∧ ring (f d) = ring d) → io_frame s (s' <| disk ::= f |>).
Proof.
  intros Hf Hd. eapply io_frame_trans; [exact Hf|]. destruct (if_ok _ _ Hf) as [Hlen Hc]. destruct (Hd (disk s')) as [H1 H2].
  split; [split; [split|..]|..]; unfold calm in *; cbn; rewrite ?H1, ?H2; done.
Qed.

(** A part of a read: unless something is in flight, the first [done] bytes of the buffer
    are the image's. *)
Definition read_part (off : Z) s (done : Z) s' : Prop :=
  io_frame s s' ∧ (calm s' → image (bw s') = image (bw s) ∧
  take (Z.to_nat done) (buf_bytes (scratch (disk s'))) = contents_at (image (bw s)) off (Z.to_nat done)).

Lemma read_part_0 off s : blk_ok s → read_part off s 0 s.
Proof. intros H. split; [by apply io_frame_refl|done]. Qed.

(** A call that puts [bs] behind the first [done] bytes. *)
Lemma read_part_more off s done bs w d s' :
  read_part off s done s' → dma_after s' d → 0 ≤ done → done + zlen bs ≤ cap (scratch (disk s)) →
  in_flight w = in_flight (bw s') →
  (calm s' → image w = image (bw s') ∧ bs = contents_at (image (bw s')) (off + done) (length bs)) →
  read_part off s (done + zlen bs)
    (s' <| bw := w |> <| disk := d |>
        <| disk ::= λ d, d <| scratch ::= λ b, b <| buf_bytes ::= copy_at (Z.to_nat done) bs |> |> |>).
Proof.
  intros [Hf Hp] Hd Hd0 Hcap Hw Hbs. pose proof (io_frame_host _ _ _ _ Hf Hd Hw) as Hf'. split.
  - apply (io_frame_scratch s _ _ _ Hf'). rewrite (if_cap _ _ Hf'). lia.
  - unfold calm at 1. cbn. rewrite Hw. intros Hc. destruct (Hp Hc) as [Hi Ht]. destruct (Hbs Hc) as [Hi' Hbs'].
    rewrite (da_calm _ _ Hd Hc). split; [congruence|].
    pose proof (bo_len _ (if_ok _ _ Hf)). pose proof (if_cap _ _ Hf). unfold zlen in *.
    rewrite Z2Nat.inj_add, Nat2Z.id, take_copy_at, contents_at_app by lia.
    rewrite Ht. f_equal. rewrite Z2Nat.id by lia. by rewrite Hbs' at 1; rewrite Hi.
Qed.

Lemma read_part_skip off s done w d s' :
  read_part off s done s' → dma_after s' d → in_flight w = in_flight (bw s') →
  (calm s' → image w = image (bw s')) → read_part off s done (s' <| bw := w |> <| disk := d |>).
Proof.
  intros [Hf Hp] Hd Hw Hi. split; [by apply io_frame_host|]. unfold calm at 1. cbn. rewrite Hw. intros Hc.
  rewrite (da_calm _ _ Hd Hc), Hi by done. by apply Hp.
Qed.

(** What a read ends with. *)
Definition read_done (off len : Z) s (r : result io_error unit) s' : Prop :=
  io_frame s s' ∧ (calm s' → image (bw s') = image (bw s) ∧
    (r = Ok tt → take (Z.to_nat len) (buf_bytes (scratch (disk s'))) = contents_at (image (bw s)) off (Z.to_nat len))).

Lemma read_part_err off len s done e s' : read_part off s done s' → read_done off len s (Err e) s'.
Proof. intros [Hf Hp]. split; [done|]. intros Hc. by destruct (Hp Hc). Qed.

Lemma read_part_ok off len s done s' : read_part off s done s' → done = len → read_done off len s (Ok tt) s'.
Proof. intros [Hf Hp] <-. split; [done|]. intros Hc. by destruct (Hp Hc). Qed.

Lemma pread_all_wp fd len off (R : result io_error unit → St → Prop) s :
  blk_ok s → 0 ≤ off → 0 ≤ len ≤ cap (scratch (disk s)) → off + len < 2 ^ 64 →
  (∀ r s', read_done off len s r s' → R r s') →
  wp t (pread_all fuel fd len off) R s.
Proof.
  intros Hs Hoff Hlen H64 HR. unfold pread_all.
  eapply (wp_iter_mode t (λ done s', 0 ≤ done ≤ len ∧ read_part off s done s')
    (λ F done s', (Z.to_nat (len - done) * fuel + blk_patience (bw s'))%nat) _ _ _ _ _ fair).
  { intros F. pose proof (blk_patience_bound (bw s)). rewrite Z.sub_0_r. nia. }
  { split; [lia|by apply read_part_0]. }
  intros done s1 [Hd Hp]. unfold pread_step.
  destruct (Z.leb_spec len done); [wp_step; apply HR; eapply read_part_ok; [done|lia]|].
  wp_step. eapply wp_expect; [apply checked_add_Some; split; [reflexivity|lia]|].
  unfold to_off_t. destruct (Z.ltb_spec (off + done) (2 ^ 63)); [|wp_step; apply HR; by eapply read_part_err].
  wp_step. apply wp_bhost. intros r w d E Hda. destruct r as [bs|e].
  - destruct (pread_ok fd (len - done) _ _ _ _ ltac:(lia) E) as (Hle & Hw & Hbs).
    pose proof (zlen_nonneg bs). destruct bs as [|b bs'].
    { wp_step. apply HR. eapply read_part_err, read_part_skip; [done..|]. intros Hc. by apply Hbs. }
    set (bs := b :: bs') in *. unfold upd_scratch, upd_disk. do 3 wp_step. split.
    + split; [lia|]. apply read_part_more; try done; lia.
    + intros F. pose proof (blk_patience_bound w). cbn. unfold zlen, bs in *. cbn [length] in *. nia.
  - destruct (pread_err _ _ _ _ _ _ E) as (Hw & Hi).
    pose proof (read_part_skip _ _ _ _ _ _ Hp Hda Hw Hi) as Hp'.
    destruct (raw_is EINTR e) eqn:Ee; wp_step.
    + split; [by split|]. intros F. cbn. pose proof (pread_patience _ _ _ _ _ _ E Ee). lia.
    + apply HR. by eapply read_part_err.
Qed.

Lemma ring_result_Ok what u r n : ring_result what u r = Ok n → transferred u n r.
Proof.
  destruct r as [| | |ud res]; cbn; try done.
  destruct (Z.eqb_spec ud u) as [->|]; [|done]. cbn. destruct (Z.ltb_spec res 0); [done|].
  by intros [= ->].
Qed.

(** A transfer of the ring failed: the ring is still there, and the transfer may be in
    flight. *)
Record ring_failed s s' : Prop := {
  rf_len : zlen (buf_bytes (scratch (disk s'))) = cap (scratch (disk s'));
  rf_cap : cap (scratch (disk s')) = cap (scratch (disk s));
  rf_gm : gm s' = gm s;
  rf_tr : tr s' = tr s;
  rf_ring : ring (disk s) = true → ring (disk s') = true;
}.

Lemma io_frame_failed s s' : io_frame s s' → (ring (disk s) = true → ring (disk s') = true) → ring_failed s s'.
Proof. intros [[[] ? ? ?] ? ?]. by split. Qed.

Lemma ring_failed_host s s' w d : io_frame s s' → (ring (disk s) = true → ring (disk s') = true) → dma_after s' d → ring_failed s (s' <| bw := w |> <| disk := d |>).
Proof.
  intros [[[Hl _] Ht _ _] Hg Hc] Hr []. split; cbn; try congruence. by intros ?%Hr; congruence.
Qed.

Lemma ring_failed_scratch s s' k bs :
  ring_failed s s' → Z.of_nat k + zlen bs ≤ cap (scratch (disk s')) →
  ring_failed s (s' <| disk ::= λ d, d <| scratch ::= λ b, b <| buf_bytes ::= copy_at k bs |> |> |>).
Proof. intros [Hl ? ? ? ?] Hk. split; try done. cbn. unfold zlen in *. rewrite length_copy_at by lia. done. Qed.

Lemma ring_read_wp fd len off (R : result io_error unit → St → Prop) s :
  blk_ok s → ring (disk s) = true → 0 ≤ off → 0 ≤ len ≤ cap (scratch (disk s)) → off + len < 2 ^ 64 →
  (∀ s', read_done off len s (Ok tt) s' → R (Ok tt) s') →
  (∀ e s', ring_failed s s' → (∀ w, landed (in_flight (bw s')) (image (bw s')) w → w = image (bw s)) → R (Err e) s') →
  wp t (ring_read fd len off) R s.
Proof.
  intros Hs Hring Hoff Hlen H64 Hok Herr. unfold ring_read.
  apply (wp_iter t (λ done s', 0 ≤ done ≤ len ∧ calm s' ∧ ring (disk s') = true ∧ read_part off s done s')
    (λ done s', Z.to_nat (len - done))); [split_and!; [lia|lia|by apply Hs|done|by apply read_part_0]|lia|].
  intros done s1 (Hd & Hc & Hr1 & Hp). pose proof (Hc : in_flight (bw s1) = None) as Hc'. pose proof Hp as [Hf Hi]. destruct (Hi Hc) as [Him _]. unfold ring_read_step.
  destruct (Z.leb_spec len done); [wp_step; apply Hok; eapply read_part_ok; [done|lia]|].
  wp_step; [wp_step; apply Herr; [by apply io_frame_failed; [apply Hp|]|]; intros w Hw; rewrite Hc' in Hw; cbn in Hw; congruence|].
  wp_step. eapply wp_expect; [apply checked_add_Some; split; [reflexivity|lia]|].
  wp_step. apply wp_bhost. intros [r bs] w d E Hda. cbn beta iota.
  destruct (uring_read fd _ (len - done) _ _ _ _ _ Hc ltac:(lia) E) as (Hw & Hle & Hfl & Hbs).
  pose proof (zlen_nonneg bs). unfold upd_scratch, upd_disk. do 2 wp_step.
  pose proof (if_cap _ _ Hf) as Hcap.
  destruct (ring_result _ _ r) as [n|e] eqn:Er.
  - apply ring_result_Ok in Er. destruct (Hbs n Er) as (Hn & Hzl & Hbs').
    assert (read_part off s (done + zlen bs) (s1 <| bw := w |> <| disk := d |>
        <| disk ::= λ d, d <| scratch ::= λ b, b <| buf_bytes ::= copy_at (Z.to_nat done) bs |> |> |>)) as Hp'.
    { apply read_part_more; try done; first [lia|by rewrite Hn|by intros _; split]. }
    wp_step; wp_step.
    + apply Herr; [apply io_frame_failed; [apply Hp'|intros _; cbn; by rewrite (da_ring _ _ Hda)]|]. intros w' Hw'. cbn in Hw'. rewrite Hn in Hw'. cbn in Hw'. congruence.
    + apply Z.eqb_neq in Hif0. subst n. split; [|lia]. split_and!; [lia|lia|done|cbn; by rewrite (da_ring _ _ Hda)|done].
  - wp_step. apply Herr.
    + apply ring_failed_scratch; [by apply ring_failed_host|]. cbn. rewrite (da_cap _ _ Hda). lia.
    + intros w' Hw'. cbn in Hw'. destruct Hfl as [Hx|Hx]; rewrite Hx in Hw'; cbn in Hw'; congruence.
Qed.

(** Dropping the ring; a transfer in flight has landed in part or whole, or is let go of. *)
Lemma disable_ring_wp (R : unit → St → Prop) s0 s :
  blk_ok s0 → ring_failed s0 s → ring (disk s0) = true →
  (∀ s', io_frame s0 s' → landed (in_flight (bw s)) (image (bw s)) (image (bw s')) →
     (in_flight (bw s) = None → calm s') → R tt s') →
  wp t disable_ring R s.
Proof.
  intros Hs0 [Hl Hc Hg Ht Hrr] Hr0 HR. specialize (Hrr Hr0). pose proof (bo_calm _ Hs0 Hr0) as Hcalm. unfold disable_ring, drain_ring, upd_disk. do 2 wp_step. rewrite Hrr.
  wp_step. wp_step. apply wp_bhost_. intros d1 [D1 D2 D3 D4]. apply wp_bhost_. intros d2 [E1 E2 E3 E4]. wp_step. cbn in *.
  apply HR.
  - split; [split; [split|..]|..]; cbn; try done; congruence.
  - cbn. destruct (uring_submit_progress (bw s)) as [H1 H2]. destruct (uring_reap_progress (uring_submit (bw s))) as [H3 _].
    destruct H2 as [H2|H2]; rewrite H2 in H3; cbn in H3; [by rewrite H3|].
    destruct (in_flight (bw s)) as [[| |]|]; cbn in *; [congruence| |congruence|congruence]. by eapply torn_trans.
  - intros Hn. unfold calm. cbn. destruct (uring_submit_progress (bw s)) as [_ H2]. destruct (uring_reap_progress (uring_submit (bw s))) as [_ H3].
    destruct H2, H3; congruence.
Qed.

Lemma read_done_trans off len s s1 s2 r :
  io_frame s s1 → (calm s1 → image (bw s1) = image (bw s)) → read_done off len s1 r s2 → read_done off len s r s2.
Proof.
  intros Hf Hi [Hf2 H2]. split; [by eapply io_frame_trans|]. intros Hc.
  specialize (Hi (sd_calm _ _ (if_steady _ _ Hf2) Hc)). destruct (H2 Hc) as [H3 H4]. rewrite <-Hi. auto.
Qed.

Lemma read_at_fd_wp fd len off (R : result io_error unit → St → Prop) s :
  blk_ok s → 0 ≤ off → 0 ≤ len ≤ cap (scratch (disk s)) → off + len < 2 ^ 64 →
  (∀ r s', read_done off len s r s' → R r s') →
  wp t (read_at_fd fuel fd len off) R s.
Proof.
  intros Hs Hoff Hlen H64 HR. unfold read_at_fd, ring_or. do 2 wp_step.
  wp_step; [|by apply pread_all_wp].
  wp_step. apply ring_read_wp; try done; [intros s1 Hr; wp_step; by apply HR|].
  intros e s1 Hf Hland. wp_step. eapply (disable_ring_wp _ s); try done.
  intros s2 Hf2 Hl2 _. apply pread_all_wp; [by eapply if_ok|done|by rewrite (if_cap _ _ Hf2)|done|].
  intros r s3 Hr3. apply HR. eapply read_done_trans; [exact Hf2| |exact Hr3]. intros _. by apply Hland.
Qed.
(** The direct descriptor is given up at most once. *)
Lemma direct_loop_wp (P : St → Prop) io prefer (R : result io_error unit → St → Prop) s :
  P s → (∀ s1, P s1 → P (s1 <| disk ::= λ d, d <| use_direct := false |> |>)) →
  (∀ fd s1, P s1 → wp t (io fd) (λ r s2,
     match r with Ok _ => R (Ok tt) s2 | Err e => P s2 ∧ R (Err e) s2 end) s1) →
  wp t (direct_loop io prefer) R s.
Proof.
  intros HP Hdis Hio. unfold direct_loop.
  apply (wp_iter t (λ _ s1, P s1) (λ p _, if p : bool then 1%nat else 0%nat)); [done|by destruct prefer; lia|].
  intros p s1 Hs1. unfold direct_step. do 2 wp_step. wp_step.
  eapply wp_mono; [by apply Hio|]. intros [[]|e] s2; [intros H; by wp_step|].
  intros [Hs2 HR]. do 2 wp_step. wp_step; [|by wp_step].
  unfold disable_direct, upd_disk. do 3 wp_step. split; [by apply Hdis|]. destruct p; [cbn; lia|done].
Qed.

(** What an operation on the scratch block leaves alone. *)
Definition same_rest s s' : Prop :=
  steady s s' ∧ gm s' = gm s ∧ (calm s' → image (bw s') = image (bw s)).

Lemma same_rest_refl s : blk_ok s → same_rest s s.
Proof. intros H. split_and!; [by apply steady_refl|done|done]. Qed.

Lemma same_rest_trans s1 s2 s3 : same_rest s1 s2 → same_rest s2 s3 → same_rest s1 s3.
Proof.
  intros (H1 & H2 & H3) (K1 & K2 & K3). split_and!; [by eapply steady_trans|congruence|].
  intros Hc. rewrite K3, H3; [done|by apply (sd_calm _ _ K1)|done].
Qed.

Lemma same_rest_ok s s' : same_rest s s' → blk_ok s'.
Proof. intros H. apply H. Qed.

(** [ensure] leaves a block of at least [need] bytes, or fails. *)
Lemma ensure_wp need (R : result string unit → St → Prop) s :
  blk_ok s → need < 2 ^ 56 →
  (∀ r s', same_rest s s' →
     (r = Ok tt → need ≤ cap (scratch (disk s'))) →
     (is_err r = true → cap (scratch (disk s')) < need ∧ heap_exhausted W) → R r s') →
  wp t (ensure need) R s.
Proof.
  intros Hs Hneed HR. pose proof Hs as [Hlen Hc]. unfold ensure. do 2 wp_step.
  destruct (Z.leb_spec need (cap (scratch (disk s)))).
  { wp_step. apply HR; [by apply same_rest_refl|done|done]. }
  assert (need ≤ next_multiple_of need IO_ALIGN < 2 ^ 57) as [Hge Hlt].
  { unfold next_multiple_of, IO_ALIGN. pose proof (Z.mod_pos_bound need 4096 ltac:(lia)).
    destruct (Z.eqb_spec (need mod 4096) 0); lia. }
  wp_step. apply wp_assert; [apply Z.ltb_lt; lia|].
  pose proof (zlen_nonneg (buf_bytes (scratch (disk s)))).
  wp_step.
  { exfalso. unfold layout_ok, IO_ALIGN in *. apply orb_true_iff in Hif as [E|E]; apply negb_true_iff, Z.leb_gt in E; lia. }
  wp_step. apply wp_bhost. intros r w d E Hd. destruct (heap_alloc_image _ _ _ _ E) as [Hw Hi].
  assert (same_rest s (s <| bw := w |> <| disk := d |>)) as Hsame.
  { split_and!; [by apply steady_host|done|]. unfold calm. cbn. by rewrite Hw. }
  destruct r as [bs|]; [|wp_step; apply HR; [done|done|intros _; cbn; rewrite (da_cap _ _ Hd); split; [done|by eexists _, _, _]]].
  pose proof (heap_alloc_len (next_multiple_of need IO_ALIGN) _ _ _ ltac:(lia) E) as Hl. unfold upd_disk. do 3 wp_step.
  destruct Hsame as ([[_ H2] H3 H4 H5] & H6 & H7).
  apply HR; cbn; try done. split_and!; [split; [split|..]; try done|done|done].
  cbn. unfold zlen in *. rewrite length_copy_at; lia.
Qed.

Lemma same_rest_read off len s s1 r s2 :
  same_rest s s1 → read_done off len s1 r s2 →
  same_rest s s2 ∧ cap (scratch (disk s2)) = cap (scratch (disk s1)) ∧
  (calm s2 → r = Ok tt → take (Z.to_nat len) (buf_bytes (scratch (disk s2))) = contents_at (image (bw s)) off (Z.to_nat len)).
Proof.
  intros Hs [Hf Hr]. assert (same_rest s1 s2) as H12 by (split_and!; [apply Hf|apply Hf|by intros [? _]%Hr]).
  split_and!; [by eapply same_rest_trans|apply Hf|]. intros Hc E. destruct (Hr Hc) as [_ Ht].
  rewrite (Ht E). destruct Hs as (_ & _ & Hi). by rewrite Hi by apply (sd_calm _ _ (if_steady _ _ Hf) Hc).
Qed.

Lemma read_at_wp off len (R : result io_error unit → St → Prop) s :
  blk_ok s → 0 ≤ off → 0 ≤ len < 2 ^ 56 → off + len < 2 ^ 64 →
  (∀ r s', same_rest s s' →
     (r = Ok tt → len ≤ cap (scratch (disk s')) ∧
        (calm s' → take (Z.to_nat len) (buf_bytes (scratch (disk s'))) = contents_at (image (bw s)) off (Z.to_nat len))) →
     R r s') →
  wp t (read_at fuel off len) R s.
Proof.
  intros Hs Hoff Hlen H64 HR. unfold read_at. destruct (Z.eqb_spec len 0) as [->|Hne].
  { wp_step. apply HR; [by apply same_rest_refl|]. intros _. split; [|done]. rewrite <-(bo_len _ Hs). apply zlen_nonneg. }
  wp_step. apply ensure_wp; [done|lia|]. intros r s1 Hs1 Hok Herr.
  destruct r as [[]|e]; cbn beta iota; [|by wp_step; apply HR]. specialize (Hok eq_refl).
  do 2 wp_step. apply (direct_loop_wp (λ s2, io_frame s1 s2 ∧ (calm s2 → image (bw s2) = image (bw s1)))).
  - split; [by apply io_frame_refl, (same_rest_ok s)|done].
  - intros s2 [H1 H2]. split; [by apply io_frame_disk|done].
  - intros fd s2 [H1 H2]. apply read_at_fd_wp; [by eapply if_ok|done|rewrite (if_cap _ _ H1); lia|done|].
    intros r s3 Hr. pose proof (read_done_trans _ _ _ _ _ _ H1 H2 Hr) as Hr'.
    destruct (same_rest_read _ _ _ _ _ _ Hs1 Hr') as (H3 & H4 & H5). destruct Hr' as [Hf' Hi'].
    assert (R r s3). { apply HR; [done|]. intros E. split; [lia|]. intros Hc. by apply H5. }
    destruct r as [[]|e]; [done|]. split; [|done]. split; [done|by intros [? _]%Hi'].
Qed.

(** *** Writes *)

Lemma overlay_ext off b f g x : (∀ y, f y = g y) → overlay off b f x = overlay off b g x.
Proof. intros H. unfold overlay. by rewrite H. Qed.

(** Unless something is in flight, the first [done] bytes of [buf] are on the image. *)
Definition write_part (off : Z) (buf : list Z) s (done : Z) s' : Prop :=
  io_frame s s' ∧
  (calm s' → ∀ x, image (bw s') x = overlay off (take (Z.to_nat done) buf) (image (bw s)) x).

Lemma write_part_0 off buf s : blk_ok s → write_part off buf s 0 s.
Proof. intros H. split; [by apply io_frame_refl|]. intros _ x. by rewrite overlay_nil. Qed.

Lemma write_part_more off buf s done n w d s' :
  write_part off buf s done s' → dma_after s' d → 0 ≤ done → 0 ≤ n → done + n ≤ zlen buf →
  in_flight w = in_flight (bw s') →
  (calm s' → ∀ x, image w x = overlay (off + done) (take (Z.to_nat n) (drop (Z.to_nat done) buf)) (image (bw s')) x) →
  write_part off buf s (done + n) (s' <| bw := w |> <| disk := d |>).
Proof.
  intros [Hf Hi] Hd H0 Hn Hle Hc Hw. split; [by apply io_frame_host|]. unfold calm at 1. cbn. rewrite Hc. intros Hcalm x.
  rewrite Hw, Z2Nat.inj_add, <-take_take_drop by (done || lia). rewrite overlay_app, zlen_take by lia.
  by apply overlay_ext, Hi.
Qed.

(** What a write ends with. *)
Definition write_done (off : Z) (buf : list Z) s (r : result io_error unit) s' : Prop :=
  io_frame s s' ∧ (calm s' → torn off buf (image (bw s)) (image (bw s')) ∧
    (r = Ok tt → ∀ x, image (bw s') x = overlay off buf (image (bw s)) x)).

Lemma write_part_err off buf s done e s' : write_part off buf s done s' → write_done off buf s (Err e) s'.
Proof. intros [Hf Hi]. split; [done|]. intros Hc. split; [|done]. by eapply overlay_torn, Hi. Qed.

Lemma write_part_ok off buf s done s' : write_part off buf s done s' → zlen buf ≤ done → write_done off buf s (Ok tt) s'.
Proof.
  intros [Hf Hi] Hd. split; [done|]. intros Hc. split; [by eapply overlay_torn, Hi|]. intros _ x.
  rewrite Hi by done. rewrite take_ge; [done|]. unfold zlen in *. lia.
Qed.

Lemma pwrite_all_wp fd buf off (R : result io_error unit → St → Prop) s :
  blk_ok s → 0 ≤ off → off + zlen buf < 2 ^ 64 →
  (∀ r s', write_done off buf s r s' → R r s') →
  wp t (pwrite_all fuel fd buf off) R s.
Proof.
  intros Hs Hoff H64 HR. unfold pwrite_all. pose proof (zlen_nonneg buf).
  eapply (wp_iter_mode t (λ done s', 0 ≤ done ≤ zlen buf ∧ write_part off buf s done s')
    (λ F done s', (Z.to_nat (zlen buf - done) * fuel + blk_patience (bw s'))%nat) _ _ _ _ _ fair).
  { intros F. pose proof (blk_patience_bound (bw s)). unfold zlen. rewrite Z.sub_0_r, Nat2Z.id. nia. }
  { split; [lia|by apply write_part_0]. }
  intros done s1 [Hd Hp]. unfold pwrite_step. destruct (Z.leb_spec (zlen buf) done).
  { wp_step. apply HR. by eapply write_part_ok. }
  wp_step. eapply wp_expect; [apply checked_add_Some; split; [reflexivity|lia]|].
  unfold to_off_t. destruct (Z.ltb_spec (off + done) (2 ^ 63)); [|wp_step; apply HR; by eapply write_part_err].
  wp_step. apply wp_bhost. intros r w d E Hda. destruct r as [n|e].
  - destruct (pwrite_ok _ _ _ _ _ _ E) as (Hn & Hc & Hw). rewrite zlen_drop in Hn by done.
    assert (write_part off buf s (done + n) (s1 <| bw := w |> <| disk := d |>)) as Hp'
      by (apply write_part_more; try done; lia).
    wp_step; [apply Z.eqb_eq in Hif|apply Z.eqb_neq in Hif]; wp_step.
    + apply HR. by eapply write_part_err.
    + split; [split; [lia|done]|]. intros F. pose proof (blk_patience_bound w). cbn.
      assert (Z.to_nat (zlen buf - (done + n)) < Z.to_nat (zlen buf - done))%nat by lia. nia.
  - destruct (pwrite_err _ _ _ _ _ _ E) as (Hc & Hw).
    assert (write_part off buf s done (s1 <| bw := w |> <| disk := d |>)) as Hp'.
    { destruct Hp as [Hf Hi]. split; [by apply io_frame_host|]. unfold calm at 1. cbn. rewrite Hc. intros Hcalm.
      rewrite Hw by done. by apply Hi. }
    destruct (raw_is EINTR e) eqn:Ee; wp_step.
    + split; [by split|]. intros F. cbn. pose proof (pwrite_patience _ _ _ _ _ _ E Ee). lia.
    + apply HR. by eapply write_part_err.
Qed.

Lemma ring_write_wp fd buf off (R : result io_error unit → St → Prop) s :
  blk_ok s → ring (disk s) = true → 0 ≤ off → off + zlen buf < 2 ^ 64 →
  (∀ s', write_done off buf s (Ok tt) s' → R (Ok tt) s') →
  (∀ e s', ring_failed s s' → (∀ g, landed (in_flight (bw s')) (image (bw s')) g → torn off buf (image (bw s)) g) → R (Err e) s') →
  wp t (ring_write fd buf off) R s.
Proof.
  intros Hs Hring Hoff H64 Hok Herr. unfold ring_write. pose proof (zlen_nonneg buf).
  apply (wp_iter t (λ done s', 0 ≤ done ≤ zlen buf ∧ calm s' ∧ ring (disk s') = true ∧ write_part off buf s done s')
    (λ done s', Z.to_nat (zlen buf - done))).
  { split_and!; [lia|lia|by apply Hs|done|by apply write_part_0]. }
  { unfold zlen. lia. }
  intros done s1 (Hd & Hc & Hr1 & Hp). pose proof (Hc : in_flight (bw s1) = None) as Hc'. pose proof Hp as [Hf Hi].
  pose proof (overlay_torn _ _ _ _ _ (Hi Hc)) as Ht.
  unfold ring_write_step. destruct (Z.leb_spec (zlen buf) done).
  { wp_step. apply Hok. by eapply write_part_ok. }
  wp_step.
  { wp_step. apply Herr; [by apply io_frame_failed|]. intros g Hg. rewrite Hc' in Hg. cbn in Hg. by subst g. }
  wp_step. eapply wp_expect; [apply checked_add_Some; split; [reflexivity|lia]|].
  wp_step. apply wp_bhost. intros [r bs] w d E Hda. cbn beta iota.
  destruct (uring_write _ _ _ _ _ _ _ _ Hc E) as (Htw & Hfl & Hdone).
  destruct (ring_result _ _ r) as [n|e] eqn:Er.
  - apply ring_result_Ok in Er. pose proof Er as [_ Hn]. destruct (Hdone n Er) as (Hle & Hcw & Hw).
    rewrite zlen_drop in Hle by done.
    assert (write_part off buf s (done + n) (s1 <| bw := w |> <| disk := d |>)) as Hp'
      by (apply write_part_more; try done; (lia || congruence)).
    assert (ring d = true) as Hrd by (by rewrite (da_ring _ _ Hda)).
    wp_step; [apply Z.eqb_eq in Hif0|apply Z.eqb_neq in Hif0]; wp_step.
    + apply Herr; [by apply io_frame_failed; [apply Hp'|]|]. intros g Hg. cbn in Hg. rewrite Hcw in Hg. cbn in Hg. subst g.
      destruct Hp' as [_ Hi']. by eapply overlay_torn, (Hi' Hcw).
    + split; [|lia]. by split_and!; [lia|lia|..].
  - wp_step. apply Herr; [by apply ring_failed_host|]. intros g Hg. cbn in Hg.
    apply torn_drop in Htw; [|done].
    assert (torn off buf (image w) g) as Hg'.
    { destruct Hfl as [Hx|Hx]; rewrite Hx in Hg; cbn in Hg; [subst g; by apply torn_refl|]. by eapply torn_drop. }
    eapply torn_trans; [exact Ht|]. by eapply torn_trans.
Qed.

(** A write over what an earlier attempt left. *)
Lemma write_done_trans off buf s s1 s2 r :
  io_frame s s1 → (calm s1 → torn off buf (image (bw s)) (image (bw s1))) → write_done off buf s1 r s2 → write_done off buf s r s2.
Proof.
  intros Hf Ht [Hf2 H2]. split; [by eapply io_frame_trans|]. intros Hc.
  specialize (Ht (sd_calm _ _ (if_steady _ _ Hf2) Hc)). destruct (H2 Hc) as [H3 H4].
  split; [by eapply torn_trans|]. intros E. eapply overlay_over_torn; [exact Ht|by apply H4].
Qed.

Lemma write_at_fd_wp fd buf off (R : result io_error unit → St → Prop) s :
  blk_ok s → 0 ≤ off → off + zlen buf < 2 ^ 64 →
  (∀ r s', write_done off buf s r s' → R r s') →
  wp t (write_at_fd fuel fd buf off) R s.
Proof.
  intros Hs Hoff H64 HR. unfold write_at_fd, ring_or. do 2 wp_step.
  wp_step; [|by apply pwrite_all_wp].
  wp_step. apply ring_write_wp; try done; [intros s1 Hr; wp_step; by apply HR|].
  intros e s1 Hf Hland. wp_step. eapply (disable_ring_wp _ s); try done.
  intros s2 Hf2 Hl2 _. apply pwrite_all_wp; [by eapply if_ok|done|done|].
  intros r s3 Hr3. apply HR. eapply write_done_trans; [exact Hf2| |exact Hr3]. intros _. by apply Hland.
Qed.

Lemma write_at_wp off len (R : result io_error unit → St → Prop) s :
  blk_ok s → 0 ≤ off → 0 ≤ len ≤ cap (scratch (disk s)) → off + len < 2 ^ 64 →
  let buf := take (Z.to_nat len) (buf_bytes (scratch (disk s))) in
  (∀ r s', write_done off buf s r s' → R r s') →
  wp t (write_at fuel off len) R s.
Proof.
  intros Hs Hoff Hlen H64 buf HR. unfold write_at.
  assert (zlen buf = len) as Hbuf by (apply zlen_take; rewrite (bo_len _ Hs); lia).
  destruct (Z.eqb_spec len 0) as [->|Hne].
  { wp_step. apply HR. eapply write_part_ok; [by apply write_part_0|lia]. }
  do 2 wp_step. destruct (Z.ltb_spec (cap (scratch (disk s))) len); [lia|]. do 2 wp_step.
  fold buf.
  apply (direct_loop_wp (λ s1, io_frame s s1 ∧ (calm s1 → torn off buf (image (bw s)) (image (bw s1))))).
  - split; [by apply io_frame_refl|]. intros _. by apply torn_refl.
  - intros s1 [H1 H2]. split; [by apply io_frame_disk|done].
  - intros fd s1 [H1 H2]. apply write_at_fd_wp; [by eapply if_ok|done|lia|].
    intros r s2 Hr. pose proof (write_done_trans _ _ _ _ _ _ H1 H2 Hr) as Hr'. pose proof (HR r s2 Hr') as HR'.
    destruct r as [[]|e]; [done|]. split; [|done]. destruct Hr' as [Hf Hi]. split; [done|by intros [? _]%Hi].
Qed.

End transfers.

(** ** Requests *)

Section requests.
Context {Q Mem Chain Rd Wr Efd W : Type}.
Context `{VQ : !VirtQueue Q Mem Chain Rd Wr} `{VL : !VirtQueueLaws Q Mem Chain Rd Wr}.
Context `{EF : !EventFd Efd} `{BH : !BlkHost W} `{BL : !BlkHostLaws W}.
Variable fuel : nat.
Variable t : mode.
Variable fair : t = Total → BlkHostFair W fuel.
Abbreviation St := (BlkSt Q Efd Mem W).
Implicit Types s : St.

Lemma fill_wp bs (R : unit → St → Prop) s :
  blk_ok s → zlen bs ≤ cap (scratch (disk s)) →
  (∀ s', same_rest s s' → cap (scratch (disk s')) = cap (scratch (disk s)) →
     take (length bs) (buf_bytes (scratch (disk s'))) = bs → R tt s') →
  wp t (fill bs) R s.
Proof.
  intros Hs Hb HR. unfold fill, upd_scratch, upd_disk. wp_step.
  pose proof (io_frame_scratch _ _ 0 bs (io_frame_refl _ Hs) Hb) as Hf.
  apply HR; [split_and!; [apply Hf|done|done]|apply Hf|]. cbn. apply take_copy_at_0. destruct Hs as [Hlen _]. unfold zlen in *. lia.
Qed.

Lemma zero_scratch_wp len (R : result string unit → St → Prop) s :
  blk_ok s → 0 ≤ len < 2 ^ 56 →
  (∀ r s', same_rest s s' →
     match r with
     | Ok _ => len ≤ cap (scratch (disk s')) ∧
               take (Z.to_nat len) (buf_bytes (scratch (disk s'))) = replicate (Z.to_nat len) 0
     | Err _ => cap (scratch (disk s')) < len ∧ heap_exhausted W
     end → R r s') →
  wp t (zero_scratch len) R s.
Proof.
  intros Hs Hlen HR. unfold zero_scratch, as_mut. wp_step. apply ensure_wp; [done|lia|].
  intros r s1 Hsame Hok Herr.
  destruct r as [[]|e]; [|by apply HR; [|apply Herr]]. specialize (Hok eq_refl). wp_step.
  apply fill_wp; [by eapply same_rest_ok|unfold zlen; rewrite length_replicate; lia|].
  intros s2 Hsame2 Hcap Htake. wp_step. rewrite length_replicate in Htake.
  apply HR; [by eapply same_rest_trans|]. split; [lia|done].
Qed.

Lemma as_slice_wp len (R : result string (list Z) → St → Prop) s :
  (cap (scratch (disk s)) < len → ∀ e, R (Err e) s) →
  (len ≤ cap (scratch (disk s)) → R (Ok (take (Z.to_nat len) (buf_bytes (scratch (disk s))))) s) →
  wp t (as_slice len) R s.
Proof.
  intros H1 H2. unfold as_slice. do 2 wp_step.
  destruct (Z.ltb_spec (cap (scratch (disk s))) len); wp_step; auto.
Qed.

Lemma write_or_io_wp wr bs (R : result BlockReqError Wr → St → Prop) s :
  zlen bs ≤ writer_avail wr →
  (∀ wr' m', writer_avail wr' = writer_avail wr - zlen bs → writer_head wr' = writer_head wr →
     mem_log m' = mem_log (gm s) ++ [(writer_head wr, bs)] → R (Ok wr') (s <| gm := m' |>)) →
  wp t (write_or_io wr bs) R s.
Proof.
  intros Hle HR. unfold write_or_io, write_all. wp_step. apply wp_act. intros [r wr'] s'.
  destruct (writer_write_ok (gm s) bs wr Hle) as (w1 & m1 & -> & H1 & H2 & H3).
  intros [= <- <- <-]. cbn beta iota. wp_step. by apply HR.
Qed.

(** A status byte, for which there may be no room. *)
Lemma write_byte_wp wr b (R : result BlockReqError Wr → St → Prop) s :
  (1 ≤ writer_avail wr → ∀ wr' m', mem_log m' = mem_log (gm s) ++ [(writer_head wr, [b])] →
     R (Ok wr') (s <| gm := m' |>)) →
  (writer_avail wr = 0 → ∀ m', mem_log m' = mem_log (gm s) → R (Err BreIo) (s <| gm := m' |>)) →
  wp t (write_or_io wr [b]) R s.
Proof.
  intros H1 H0. pose proof (writer_avail_nonneg wr).
  destruct (decide (writer_avail wr = 0)) as [E|Hne]; [|apply write_or_io_wp; [unfold zlen; cbn; lia|]; intros wr' m' _ _; apply H1; lia].
  unfold write_or_io, write_all. wp_step. apply wp_act. intros [r wr'] s'.
  destruct (writer_write_short (gm s) [b] wr) as (e & w1 & m1 & -> & Hl); [cbn; lia|].
  intros [= <- <- <-]. cbn beta iota. wp_step. by apply H0; auto.
Qed.

(** The effect of a read request of [n] bytes at [off] on an image that ends at
    [limit]: the guest gets the bytes of the image, or zeros and an error; when
    the chain has no room for the status, the position overflows or the host has no
    memory for the scratch block, nothing. What the bytes are is said only when no
    transfer was let go of. *)
Definition read_reply (head off n limit : Z) s (r : result BlockReqError Z) s' : Prop :=
  steady s s' ∧ (calm s' → image (bw s') = image (bw s)) ∧
  ((is_err r = true ∧ mem_log (gm s') = mem_log (gm s) ∧ (n < 0 ∨ 2 ^ 64 ≤ off + n ∨ heap_exhausted W)) ∨
   ∃ data status, 0 ≤ n ∧ r = Ok (cast 32 (n + 1)) ∧
     mem_log (gm s') = mem_log (gm s) ++ [(head, data); (head, [status])] ∧
     (calm s' → (status = VIRTIO_BLK_S_OK ∧ off + n ≤ limit ∧
       data = contents_at (image (bw s)) off (Z.to_nat n)) ∨
      (status = VIRTIO_BLK_S_IOERR ∧ data = replicate (Z.to_nat n) 0))).

Lemma fill_for_read_wp limit off n (R : result BlockReqError Z → St → Prop) s :
  blk_ok s → 0 ≤ off → 0 ≤ n < 2 ^ 56 → off + n < 2 ^ 64 →
  (∀ r s', same_rest s s' →
     match r with
     | Err e => e = BreIo ∧ heap_exhausted W
     | Ok status => (cap (scratch (disk s')) < n → heap_exhausted W) ∧ (calm s' → n ≤ cap (scratch (disk s')) →
         let data := take (Z.to_nat n) (buf_bytes (scratch (disk s'))) in
         (status = VIRTIO_BLK_S_OK ∧ off + n ≤ limit ∧ data = contents_at (image (bw s)) off (Z.to_nat n)) ∨
         (status = VIRTIO_BLK_S_IOERR ∧ data = replicate (Z.to_nat n) 0))
     end → R r s') →
  wp t (fill_for_read fuel limit off n (off + n)) R s.
Proof.
  intros Hs Hoff Hn H64 HR. unfold fill_for_read. destruct (Z.ltb_spec limit (off + n)).
  - wp_step. apply zero_scratch_wp; [done|done|]. intros r s1 Hsame Hr.
    do 2 wp_step. destruct r as [[]|e]; cbn [or_io map_err]; [wp_step; apply HR; [done|]|by apply HR; [|split; [|apply Hr]]].
    destruct Hr. split; [lia|]. intros _ _. by right.
  - wp_step. apply read_at_wp; try done. intros r s1 Hs1 Hr.
    destruct r as [[]|e]; cbn beta iota.
    + wp_step. destruct (Hr eq_refl). apply HR; [done|]. split; [lia|]. intros Hc _. left. auto.
    + wp_step. apply zero_scratch_wp; [by eapply same_rest_ok|done|]. intros r s2 Hsame Hz. wp_step.
      apply HR; [by eapply same_rest_trans; [|done]|]. destruct r; destruct Hz; split; try done; [lia|by right|lia].
Qed.

Lemma handle_in_wp capacity sec wr (R : result BlockReqError Z → St → Prop) s :
  blk_ok s → 0 ≤ sec → writer_avail wr < 2 ^ 48 → 0 ≤ capacity * SECTOR_SIZE < 2 ^ 64 →
  (∀ r s', read_reply (writer_head wr) (sec * SECTOR_SIZE) (writer_avail wr - 1) (capacity * SECTOR_SIZE) s r s' →
     R r s') →
  wp t (handle_in fuel capacity sec wr) R s.
Proof.
  intros Hs Hsec Hav Hcap HR. unfold handle_in. pose proof (writer_avail_nonneg wr).
  set (n := writer_avail wr - 1) in *.
  assert (∀ r s1, same_rest s s1 → is_err r = true → n < 0 ∨ 2 ^ 64 ≤ sec * SECTOR_SIZE + n ∨ heap_exhausted W → R r s1) as Hgive.
  { intros r s1 (H1 & H2 & H3) He Hwhy. apply HR. split_and!; try done. left. by rewrite H2. }
  destruct (Z.eqb_spec (writer_avail wr) 0) as [|Hne].
  { wp_step. apply Hgive; [by apply same_rest_refl|done|unfold n; lia]. }
  assert (0 ≤ sec * SECTOR_SIZE) as Hoff by (unfold SECTOR_SIZE; lia).
  do 2 wp_step. destruct (checked_mul 64 sec SECTOR_SIZE) as [o|] eqn:Eo; cbn [ok_or].
  2:{ apply checked_mul_None in Eo. apply Hgive; [by apply same_rest_refl|done|unfold n; lia]. }
  apply checked_mul_Some in Eo as [-> _]. set (off := sec * SECTOR_SIZE) in *.
  do 2 wp_step. destruct (checked_add 64 off n) as [o|] eqn:Eo; cbn [ok_or].
  2:{ apply checked_add_None in Eo. apply Hgive; [by apply same_rest_refl|done|lia]. }
  apply checked_add_Some in Eo as [-> H64]. wp_step.
  eapply wp_expect; [apply checked_mul_Some; split; [reflexivity|lia]|].
  wp_step. apply fill_for_read_wp; [done|done|unfold n; lia|done|].
  intros [status|e] s1 Hsame Hst; cbn in Hst; [|destruct Hst; by apply Hgive; auto].
  destruct Hst as [Hheap Hst]. wp_step. apply as_slice_wp.
  { intros Hc e. do 2 wp_step. cbn. apply Hgive; auto. }
  intros Hle. set (data := take (Z.to_nat n) _) in *. do 2 wp_step. cbn [or_io map_err].
  assert (zlen data = n) as Hlen by (apply zlen_take; rewrite (bo_len _ (same_rest_ok _ _ Hsame)); unfold n in *; lia).
  destruct Hsame as (H1 & Hg & Hi).
  wp_step. apply write_or_io_wp; [unfold n in *; lia|]. intros wr1 m1 Hw1 Hh1 Hl1.
  wp_step. apply write_or_io_wp; [unfold zlen, n in *; cbn; lia|]. intros wr2 m2 Hw2 Hh2 Hl2.
  wp_step. apply HR. split_and!; [by destruct H1 as [[]]|done|]. right. exists data, status.
  split_and!; [unfold n; lia|done| |intros Hc; by apply Hst].
  cbn. rewrite Hl2. cbn. by rewrite Hl1, Hh1, Hg, <-app_assoc.
Qed.

(** The effect of a write request of [data] at [off]: done in full and
    acknowledged, or reported as an error; refused without touching the image
    when it is read-only or out of range. Without room for the status nothing is
    reported. *)
Definition write_reply (head room off : Z) (data : list Z) (limit : Z) (ro : bool) s
    (r : result BlockReqError Z) s' : Prop :=
  steady s s' ∧
  (calm s' → torn off data (image (bw s)) (image (bw s')) ∧
     (ro = true ∨ limit < off + zlen data → image (bw s') = image (bw s))) ∧
  ((r = Err BreIo ∧ mem_log (gm s') = mem_log (gm s) ∧
    (room = 0 ∨ (calm s' → image (bw s') = image (bw s)) ∧ (2 ^ 64 ≤ off + zlen data ∨ heap_exhausted W))) ∨
   ∃ status, 1 ≤ room ∧ r = Ok 1 ∧ mem_log (gm s') = mem_log (gm s) ++ [(head, [status])] ∧
     (calm s' → (status = VIRTIO_BLK_S_OK ∧ ro = false ∧ off + zlen data ≤ limit ∧
       ∀ x, image (bw s') x = overlay off data (image (bw s)) x) ∨
      status = VIRTIO_BLK_S_IOERR)).

(** It gave up before it touched the image. *)
Lemma write_reply_gave_up head room off data limit ro s s' :
  same_rest s s' → 2 ^ 64 ≤ off + zlen data ∨ heap_exhausted W →
  write_reply head room off data limit ro s (Err BreIo) s'.
Proof.
  intros (H1 & H2 & H3) Hwhy. split_and!; try done; [|left; rewrite H2; auto].
  intros Hc. rewrite (H3 Hc). split; [by apply torn_refl|done].
Qed.

(** The data of the chain goes into the scratch buffer. *)
Lemma read_into_scratch_wp rd (R : result string unit → St → Prop) s :
  blk_ok s → reader_avail rd ≤ cap (scratch (disk s)) →
  (∀ data rd' s', reader_read (gm s) (reader_avail rd) rd = (data, Ok tt, rd') → zlen data = reader_avail rd →
     same_rest s s' → cap (scratch (disk s')) = cap (scratch (disk s)) →
     take (Z.to_nat (reader_avail rd)) (buf_bytes (scratch (disk s'))) = data → R (Ok tt) s') →
  wp t (read_into_scratch rd (reader_avail rd)) R s.
Proof.
  intros Hs Hcap HR. unfold read_into_scratch. do 2 wp_step.
  pose proof (reader_avail_nonneg rd).
  destruct (reader_read_ok (gm s) (reader_avail rd) rd) as (bs & rd' & E & Hlen & _ & _); [lia|].
  rewrite E. wp_step. apply fill_wp; [done|unfold zlen; lia|]. intros s' Hsame Hc Ht. wp_step.
  apply (HR bs rd'); try done. by replace (Z.to_nat (reader_avail rd)) with (length bs) by lia.
Qed.

Lemma handle_out_wp capacity ro df sec rd wr (R : result BlockReqError Z → St → Prop) s :
  blk_ok s → 0 ≤ sec → reader_avail rd < 2 ^ 48 → 0 ≤ capacity * SECTOR_SIZE < 2 ^ 64 →
  (∀ data rd' r s', reader_read (gm s) (reader_avail rd) rd = (data, Ok tt, rd') →
     write_reply (writer_head wr) (writer_avail wr) (sec * SECTOR_SIZE) data (capacity * SECTOR_SIZE)
       (ro || negb (Z.land df VIRTIO_BLK_F_RO =? 0)) s r s' → R r s') →
  wp t (handle_out fuel capacity ro df sec rd wr) R s.
Proof.
  intros Hs Hsec Hrd Hcap HR. unfold handle_out, as_mut. pose proof (reader_avail_nonneg rd) as Hn.
  destruct (reader_read_ok (gm s) (reader_avail rd) rd) as (data & rd' & Er & Hlen & _ & _); [lia|].
  fold (zlen data) in Hlen. wp_step. apply ensure_wp; [done|lia|].
  intros r s1 Hs1 Hok1 Hno1. destruct r as [[]|e]; do 2 wp_step; cbn [or_io map_err].
  2:{ eapply HR; [exact Er|]. apply write_reply_gave_up; [done|]. right. by apply Hno1. }
  specialize (Hok1 eq_refl). wp_step. apply read_into_scratch_wp; [by eapply same_rest_ok|done|].
  rewrite (proj1 (proj2 Hs1)). intros data' rd'' s2 Er' Hlen' Hs2 Hc2 Htake.
  rewrite Er in Er'. injection Er' as <- <-. do 2 wp_step. cbn [or_io map_err].
  pose proof (same_rest_trans _ _ _ Hs1 Hs2) as Hsame2.
  assert (0 ≤ sec * SECTOR_SIZE) as Hoff by (unfold SECTOR_SIZE; lia).
  do 2 wp_step. destruct (checked_mul 64 sec SECTOR_SIZE) as [o|] eqn:Eo; cbn [ok_or].
  2:{ apply checked_mul_None in Eo. eapply HR; [exact Er|]. apply write_reply_gave_up; [done|left; lia]. }
  apply checked_mul_Some in Eo as [-> _]. set (off := sec * SECTOR_SIZE) in *.
  do 2 wp_step. destruct (checked_add 64 off (reader_avail rd)) as [o|] eqn:Eo; cbn [ok_or].
  2:{ apply checked_add_None in Eo. eapply HR; [exact Er|]. apply write_reply_gave_up; [done|left; lia]. }
  apply checked_add_Some in Eo as [-> H64]. wp_step.
  eapply wp_expect; [apply checked_mul_Some; split; [reflexivity|lia]|].
  set (ro' := ro || negb (Z.land df VIRTIO_BLK_F_RO =? 0)) in *. set (limit := capacity * SECTOR_SIZE) in *.
  destruct Hsame2 as (Hst2 & Hg2 & Hi2).
  wp_step. apply (wp_mono _ _ (λ io_err s3, steady s s3 ∧ gm s3 = gm s ∧
     (calm s3 → let failed := ro' || (limit <? off + reader_avail rd) || io_err in
     (failed = false → ∀ x, image (bw s3) x = overlay off data (image (bw s)) x) ∧
     torn off data (image (bw s)) (image (bw s3)) ∧
     (ro' = true ∨ limit < off + zlen data → image (bw s3) = image (bw s))))).
  - wp_step.
    + apply andb_prop in Hif as [Hro%negb_true_iff Hrange%negb_true_iff]. rewrite Hro, Hrange. apply Z.ltb_ge in Hrange.
      wp_step. apply write_at_wp; try done; [apply Hst2|lia|].
      intros r s3 [Hf3 Hw3]. wp_step. rewrite Htake in Hw3.
      split_and!; [by eapply steady_trans; [|apply Hf3]|rewrite (if_gm _ _ Hf3); done|]. intros Hc. destruct (Hw3 Hc) as [Ht3 Hr3].
      rewrite (Hi2 (sd_calm _ _ (if_steady _ _ Hf3) Hc)) in Ht3, Hr3.
      split_and!; [|done|intros [?|?]; [done|lia]].
      cbn [orb]. intros Hr. apply Hr3. by destruct r as [[]|].
    + wp_step. split_and!; [done|done|]. intros Hc. rewrite (Hi2 Hc). split_and!; [|by apply torn_refl|done].
      rewrite orb_false_r. intros [-> E]%orb_false_elim. by rewrite E in Hif.
  - intros io_err s3 (Hs3 & Hg3 & Hdone).
    assert (∀ m1, steady s (s3 <| gm := m1 |>)) as Hs4 by (intros m1; by destruct Hs3 as [[]]).
    wp_step. apply write_byte_wp; intros Hroom; [intros wr1|]; intros m1 Hl1; [wp_step|];
      (eapply HR; [exact Er|]; split_and!; [done|by intros [_ ?]%Hdone|]).
    2:{ left. split_and!; [done|cbn; by rewrite Hl1, Hg3|by left]. }
    right. eexists. split_and!; [done|done|cbn; by rewrite Hl1, Hg3|]. intros Hc. destruct (Hdone Hc) as [Hd _].
    cbn in *. destruct (ro' || (limit <? off + reader_avail rd) || io_err) eqn:Ef; [by right|left].
    apply orb_false_elim in Ef as [[Hro Hrange%Z.ltb_ge]%orb_false_elim _]. split_and!; try done; [lia|by apply Hd].
Qed.

(** *** Every request is handled *)

(** A sync that reports success left nothing volatile. *)
Definition synced s (r : result io_error unit) s' : Prop :=
  same_rest s s' ∧ (calm s → calm s' ∧ (is_ok r = true → durable (bw s') = image (bw s))).

Lemma synced_trans s s1 r s2 : same_rest s s1 → (calm s → calm s1) → synced s1 r s2 → synced s r s2.
Proof.
  intros H1 Hc1 [H2 Hc2]. split; [by eapply same_rest_trans|]. intros Hc. destruct (Hc2 (Hc1 Hc)) as [H3 H4].
  split; [done|]. intros Hr. rewrite H4 by done. apply H1. auto.
Qed.

Lemma fdatasync_wp fd (R : result io_error unit → St → Prop) s :
  blk_ok s → (∀ r s', synced s r s' → R r s') → wp t (bhost (sys_fdatasync fd)) R s.
Proof.
  intros Hs HR. apply wp_bhost. intros r w d E Hd. destruct (fdatasync_image _ _ _ _ E) as (Hw & Hi).
  apply HR. split; [split_and!; [by apply steady_host|done|]|]; unfold calm; cbn; rewrite Hw; intros Hc; destruct (Hi Hc); auto.
Qed.

Lemma fsync_fd_wp fd (R : result io_error unit → St → Prop) s :
  blk_ok s → (∀ r s', synced s r s' → R r s') → wp t (fsync_fd fd) R s.
Proof.
  intros Hs HR. unfold fsync_fd, ring_or. do 2 wp_step. wp_step; [|by apply fdatasync_wp].
  pose proof (bo_calm _ Hs Hif) as Hcalm.
  unfold ring_fsync. wp_step. wp_step. apply wp_bhost. intros [r bs] w d E Hd. cbn beta iota. wp_step.
  destruct (uring_fsync _ _ _ _ _ _ Hcalm E) as (Hi & Hc & Hdur).
  assert (same_rest s (s <| bw := w |> <| disk := d |>)) as Hsame.
  { split_and!; [apply steady_host; try done; unfold calm in *; congruence|done|done]. }
  destruct (ring_result _ _ r) as [n|e] eqn:Er.
  { wp_step. apply HR. split; [done|]. intros _. split; [done|]. intros _. cbn. eapply Hdur. by eapply ring_result_Ok. }
  wp_step. eapply (disable_ring_wp _ _ s); [done|apply ring_failed_host; [by apply io_frame_refl|done|done]|done|].
  intros s2 Hf2 Hl2 Hc2. cbn in Hl2, Hc2. specialize (Hc2 Hc). rewrite Hc in Hl2. cbn in Hl2.
  apply fdatasync_wp; [by eapply if_ok|]. intros r2 s3 H3. apply HR. apply (synced_trans s s2); [|done|exact H3].
  split_and!; [apply Hf2|apply Hf2|]. intros _. congruence.
Qed.

Lemma flush_data_wp (R : result io_error unit → St → Prop) s :
  blk_ok s → (∀ r s', synced s r s' → R r s') → wp t flush_data R s.
Proof.
  intros Hs HR. unfold flush_data. do 2 wp_step.
  assert (∀ s1, same_rest s s1 → (calm s → calm s1) → wp t (fsync_fd (buffered_file (disk s))) R s1) as Hlast.
  { intros s1 Hs1 Hc1. apply fsync_fd_wp; [by eapply same_rest_ok|]. intros r s2 H2. apply HR. by eapply synced_trans. }
  pose proof (same_rest_refl _ Hs) as Hrefl.
  wp_step. destruct (direct_file (disk s)) as [f|]; [|by wp_step; apply Hlast].
  wp_step; [|by wp_step; apply Hlast]. apply fsync_fd_wp; [done|]. intros [[]|e] s1 H1; [|by apply HR].
  apply Hlast; [apply H1|]. intros Hc. by apply H1.
Qed.

(** What a flush reports; success on a writable disk means durable. *)
Definition flush_status (ro : bool) (df status : Z) s s' : Prop :=
  if Z.land df VIRTIO_BLK_F_FLUSH =? 0 then status = VIRTIO_BLK_S_UNSUPP
  else if ro then status = VIRTIO_BLK_S_OK
  else status = VIRTIO_BLK_S_IOERR ∨ status = VIRTIO_BLK_S_OK ∧ (calm s → durable (bw s') = image (bw s)).

(** A request that leaves the image alone and puts [answer] into the chain. *)
Definition replied (head : Z) (answer : list (list Z)) s s' : Prop :=
  steady s s' ∧ (calm s' → image (bw s') = image (bw s)) ∧
  mem_log (gm s') = mem_log (gm s) ++ (pair head <$> answer).

Lemma replied_nil head s s' : same_rest s s' → replied head [] s s'.
Proof. intros (H1 & H2 & H3). split_and!; try done. by rewrite H2, app_nil_r. Qed.

Lemma replied_more head ans bs s s' m :
  replied head ans s s' → mem_log m = mem_log (gm s') ++ [(head, bs)] →
  replied head (ans ++ [bs]) s (s' <| gm := m |>).
Proof. intros ([[] ? ? ?] & H2 & H3) Hm. split_and!; [by split|done|]. cbn. by rewrite Hm, H3, fmap_app, app_assoc. Qed.

Lemma replied_same head ans s s' m :
  replied head ans s s' → mem_log m = mem_log (gm s') → replied head ans s (s' <| gm := m |>).
Proof. intros ([[] ? ? ?] & H2 & H3) Hm. split_and!; [by split|done|]. cbn. by rewrite Hm. Qed.

Lemma handle_flush_wp ro df wr (R : result BlockReqError Z → St → Prop) s :
  blk_ok s →
  (∀ status r s', flush_status ro df status s s' → (calm s → calm s') →
     replied (writer_head wr) (if writer_avail wr =? 0 then [] else [[status]]) s s' → R r s') →
  wp t (handle_flush ro df wr) R s.
Proof.
  intros Hs HR. unfold handle_flush.
  wp_step. apply (wp_mono _ _ (λ status s1, same_rest s s1 ∧ flush_status ro df status s s1 ∧ (calm s → calm s1))).
  - pose proof (same_rest_refl _ Hs) as Hrefl. unfold flush_status. wp_step; [by wp_step|]. wp_step; [by wp_step|]. wp_step.
    apply flush_data_wp; [done|]. intros r s1 [H1 Hd]. wp_step. split_and!; [done| |by intros [? _]%Hd].
    destruct r; [right; split; [done|]; intros Hc; by apply Hd|by left].
  - intros status s1 (Hsame & Hst & Hc). wp_step.
    apply write_byte_wp; intros Hroom; [intros wr1|]; intros m1 Hl1; [wp_step|]; (eapply (HR status); [done|done|]).
    + rewrite (proj2 (Z.eqb_neq _ _)) by lia. apply (replied_more _ []); [by apply replied_nil|done].
    + rewrite Hroom. apply replied_same; [by apply replied_nil|done].
Qed.

Lemma handle_get_id_wp wr (R : result BlockReqError Z → St → Prop) s :
  blk_ok s →
  (∀ r s', replied (writer_head wr)
     (if writer_avail wr <? 21 then [] else [device_id_bytes; [VIRTIO_BLK_S_OK]]) s s' → R r s') →
  wp t (handle_get_id wr) R s.
Proof.
  intros Hs HR. unfold handle_get_id. destruct (Z.ltb_spec (writer_avail wr) 21).
  { wp_step. apply HR. by apply replied_nil, same_rest_refl. }
  wp_step. apply write_or_io_wp; [unfold zlen; cbn; lia|]. intros wr1 m1 Hw1 Hh1 Hl1.
  wp_step. apply write_or_io_wp; [rewrite Hw1; unfold zlen; cbn; lia|]. intros wr2 m2 Hw2 Hh2 Hl2.
  wp_step. apply HR. rewrite Hh1 in Hl2.
  apply (replied_more _ [device_id_bytes] _ _ (s <| gm := m1 |>)); [|done].
  apply (replied_more _ [] _ _ s); [by apply replied_nil, same_rest_refl|done].
Qed.

(** The answer to an unknown request: zeros and the status. *)
Definition unknown_answer (room : Z) : list (list Z) :=
  if room =? 0 then []
  else (if room =? 1 then [] else [replicate (Z.to_nat (room - 1)) 0]) ++ [[VIRTIO_BLK_S_UNSUPP]].

Lemma write_all_wp wr bs (R : result string unit * Wr → St → Prop) s :
  zlen bs ≤ writer_avail wr →
  (∀ wr' m', writer_avail wr' = writer_avail wr - zlen bs → writer_head wr' = writer_head wr →
     mem_log m' = mem_log (gm s) ++ [(writer_head wr, bs)] → R (Ok tt, wr') (s <| gm := m' |>)) →
  wp t (write_all wr bs) R s.
Proof.
  intros Hle HR. unfold write_all. apply wp_act. intros [r wr'] s'.
  destruct (writer_write_ok (gm s) bs wr Hle) as (w1 & m1 & -> & H1 & H2 & H3).
  intros [= <- <- <-]. by apply HR.
Qed.

Lemma handle_unknown_wp wr (R : result BlockReqError Z → St → Prop) s :
  blk_ok s → writer_avail wr < 2 ^ 48 →
  (∀ r s' ans, ans = unknown_answer (writer_avail wr) ∨ ans = [] ∧ heap_exhausted W →
     replied (writer_head wr) ans s s' → R r s') →
  wp t (handle_unknown wr) R s.
Proof.
  intros Hs Hav HR. unfold handle_unknown. unfold unknown_answer in HR. pose proof (writer_avail_nonneg wr).
  destruct (Z.eqb_spec (writer_avail wr) 0).
  { wp_step. eapply HR; [by left|by apply replied_nil, same_rest_refl]. }
  assert (∀ wr1 s1 ans, 1 ≤ writer_avail wr1 → writer_head wr1 = writer_head wr →
    ans = (if writer_avail wr =? 1 then [] else [replicate (Z.to_nat (writer_avail wr - 1)) 0]) →
    replied (writer_head wr) ans s s1 →
    wp t (_ ← write_all wr1 [VIRTIO_BLK_S_UNSUPP]; mret (Ok (cast 32 (writer_avail wr)))) R s1) as Htail.
  { intros wr1 s1 ans Hr Hh -> Hrep. wp_step. apply write_all_wp; [unfold zlen; cbn; lia|].
    intros wr2 m2 _ _ Hl. wp_step. eapply HR; [by left|]. apply replied_more; [done|by rewrite Hl, Hh]. }
  wp_step. destruct (Z.ltb_spec 1 (writer_avail wr)) as [H1|H1].
  2:{ wp_step. eapply Htail; [lia|done|rewrite (proj2 (Z.eqb_eq _ _)) by lia; reflexivity|by apply replied_nil, same_rest_refl]. }
  wp_step. apply zero_scratch_wp; [done|lia|]. intros z s1 Hsame Hz. do 2 wp_step.
  destruct z as [[]|e]; cbn [or_io map_err].
  2:{ eapply HR; [right; split; [done|apply Hz]|by apply replied_nil]. }
  destruct Hz as [Hcap Hz]. wp_step. apply as_slice_wp; intros Hc; [lia|]. do 2 wp_step. cbn [or_io map_err].
  rewrite Hz. wp_step. apply write_all_wp; [unfold zlen; rewrite length_replicate; lia|].
  intros wr1 m1 Hw1 Hh1 Hl1. cbn beta iota. wp_step. unfold zlen in Hw1. rewrite length_replicate in Hw1.
  eapply Htail; [lia|done|rewrite (proj2 (Z.eqb_neq _ _)) by lia; reflexivity|].
  apply (replied_more _ []); [by apply replied_nil|]. rewrite Hl1. by rewrite (proj1 (proj2 Hsame)).
Qed.

Lemma replied_safe head ans s s' : replied head ans s s' → steady s s'.
Proof. by intros (? & _). Qed.

Lemma handle_in_safe capacity sec wr s :
  blk_ok s → 0 ≤ sec → writer_avail wr < 2 ^ 48 → 0 ≤ capacity * SECTOR_SIZE < 2 ^ 64 →
  wp t (handle_in fuel capacity sec wr) (λ _, steady s) s.
Proof. intros. apply handle_in_wp; try done. by intros r s' (? & _). Qed.

Lemma handle_out_safe capacity ro df sec rd wr s :
  blk_ok s → 0 ≤ sec → reader_avail rd < 2 ^ 48 → 0 ≤ capacity * SECTOR_SIZE < 2 ^ 64 →
  wp t (handle_out fuel capacity ro df sec rd wr) (λ _, steady s) s.
Proof. intros. apply handle_out_wp; try done. by intros data rd' r s' _ (? & _). Qed.

Lemma parse_hdr_sector raw : bytes_ok raw → 0 ≤ sector (parse_hdr raw).
Proof. intros H. apply from_le_bytes_range. apply bytes_ok_take. by apply Forall_drop. Qed.

Lemma handle_request_safe capacity ro df chain s :
  blk_ok s → 0 ≤ capacity * SECTOR_SIZE < 2 ^ 64 →
  wp t (handle_request fuel capacity ro df chain) (λ _, steady s) s.
Proof.
  intros Hs Hcap. unfold handle_request. do 2 wp_step. do 2 wp_step.
  destruct (reader_new (gm s) chain) as [rd|] eqn:Erd; cbn [map_err]; [|done]. do 2 wp_step.
  destruct (writer_new (gm s) chain) as [wr|] eqn:Ewr; cbn [map_err]; [|done].
  pose proof (reader_new_bound _ _ _ Erd). pose proof (writer_new_bound _ _ _ Ewr).
  pose proof (writer_avail_nonneg wr).
  destruct (Z.le_gt_cases 16 (reader_avail rd)) as [H16|H16].
  2:{ destruct (reader_read_short (gm s) 16 rd) as (bs & e & rd' & -> & _); [lia|]. by do 2 wp_step. }
  destruct (reader_read_ok (gm s) 16 rd) as (raw & rd' & -> & _ & Hraw & Hav); [lia|].
  do 2 wp_step. cbn [or_io map_err]. pose proof (parse_hdr_sector raw Hraw).
  repeat (wp_step; [|]).
  - by apply handle_in_safe.
  - apply handle_out_safe; try done; lia.
  - apply handle_flush_wp; [done|]. intros ? ? ? _ _. apply replied_safe.
  - apply handle_get_id_wp; [done|]. intros ? ?. apply replied_safe.
  - apply handle_unknown_wp; [done|done|]. intros ? ? ? _. apply replied_safe.
Qed.

End requests.
