(* ===== verification/VirtioBlkQueue.v ===== *)
(** * The block worker and its queue

    The theorems about [process_queue] and the requests it handles: every chain
    the driver makes available is returned once, with an interrupt, while vCPUs
    access the device in between; what a read and a write request do; how the
    disk image is opened. *)

From S2P Require Import Prelude Words Errors GuestMem VirtQueue VirtioMmio VirtioBlk VirtioBlkFacts.
Local Open Scope Z_scope.

Section queue_proofs.
Context {Q Mem Chain Rd Wr Efd W : Type}.
Context `{VQ : !VirtQueue Q Mem Chain Rd Wr} `{VL : !VirtQueueLaws Q Mem Chain Rd Wr}.
Context `{QF : !QueueFair Q Mem Chain Rd Wr}.
Context `{EF : !EventFd Efd} `{EL : !EventFdLaws Efd} `{BH : !BlkHost W} `{BL : !BlkHostLaws W}.
Variable fuel : nat.
Context `{BF : !BlkHostFair W fuel}.
Abbreviation St := (BlkSt Q Efd Mem W).
Implicit Types s : St.

(** What the queue, the interrupt line and the geometry look like in [s]. *)
Record view s (q : Q) (irq : Z) (caps : Z) (ro : bool) : Prop := {
  vw_ok : blk_ok s;
  vw_queue : queue (bt_mmio (tr s)) QUEUE_REQUEST = Some q;
  vw_irq : efd_count (irq_fd (bt_mmio (tr s))) = irq;
  vw_caps : capacity_sectors (tr s) = caps;
  vw_ro : readonly (tr s) = ro;
}.

(** Neither the chains nor the image change, nor what is in flight. *)
Definition idle s s' : Prop :=
  mem_log (gm s') = mem_log (gm s) ∧ ring (disk s') = ring (disk s) ∧
  in_flight (bw s') = in_flight (bw s) ∧ (calm s → image (bw s') = image (bw s)).

Lemma idle_refl s : idle s s.
Proof. done. Qed.

Lemma idle_trans s1 s2 s3 : idle s1 s2 → idle s2 s3 → idle s1 s3.
Proof.
  intros (H1 & H2 & H3 & H4) (K1 & K2 & K3 & K4). unfold calm in *. split_and!; [congruence..|].
  intros Hc. rewrite K4, H4; [done|done|congruence].
Qed.

(** Accesses of the vCPUs keep the logs. *)
Lemma unlocked_wp t s q irq caps ro (R : unit → St → Prop) :
  view s q irq caps ro →
  (∀ q' s', view s' q' irq caps ro → settings q q' → idle s s' → R tt s') →
  wp t unlocked R s.
Proof.
  intros [Hok Hq Hirq Hc Hr] HR. unfold unlocked. wp_step. apply wp_bhost. intros l w d E Hd.
  destruct (vcpu_accesses_image _ _ _ E) as [Hf Hi]. pose proof (steady_host _ _ _ Hok Hd Hf) as [[] _ _ _]. do 2 wp_step. unfold upd_mmio. wp_step.
  destruct (vcpu_accesses_settings (gm s) l (bt_mmio (tr s)) _ q Hq) as (Hirq' & q' & Hq' & Hs').
  apply (HR q'); [|done|]; [split; try done; cbn; by rewrite Hirq'|]. split_and!; [done|apply Hd|done|done].
Qed.

Lemma queue_insert (m : VirtioMmio Q Efd) q q' :
  queue m QUEUE_REQUEST = Some q →
  queue (m <| queues ::= <[Z.to_nat QUEUE_REQUEST := q']> |>) QUEUE_REQUEST = Some q'.
Proof.
  intros H. unfold queue in *. cbn. rewrite list_lookup_insert_eq; [done|]. by eapply lookup_lt_Some.
Qed.

Lemma pop_request_wp t s q irq caps ro (R : option Chain → St → Prop) :
  view s q irq caps ro →
  (∀ c q' s', view s' q' irq caps ro → idle s s' →
     q_used_log q' = q_used_log q →
     q_popped q' = q_popped q ++ match c with Some c => [c] | None => [] end →
     (q_backlog q' ≤ q_backlog q)%nat → (is_Some c → (q_backlog q' < q_backlog q)%nat) → R c s') →
  wp t pop_request R s.
Proof.
  intros [Hok Hq Hirq Hc Hr] HR. unfold pop_request. apply wp_act. intros c s'. rewrite Hq.
  destruct (q_ready q); cbn [negb].
  - destruct (q_pop (gm s) q) as [c' q'] eqn:Ep. destruct (q_pop_logs _ _ _ _ Ep) as [H1 H2].
    intros [= <- <-]. apply (HR _ q'); try done.
    + split; try done; [by destruct Hok|by eapply queue_insert].
    + pose proof (q_pop_backlog_le (gm s) q) as Hle. by rewrite Ep in Hle.
    + intros [x ->]. by eapply q_pop_backlog.
  - intros [= <- <-]. apply (HR _ q); try done. by rewrite app_nil_r.
Qed.

Lemma put_used_wp t s q irq caps ro head n (R : result Error unit → St → Prop) :
  view s q irq caps ro →
  (∀ r q' s', view s' q' irq caps ro → idle s s' → q_popped q' = q_popped q →
     q_used_log q' = q_used_log q ++ match r with Ok _ => [(head, n)] | Err _ => [] end →
     (q_backlog q' ≤ q_backlog q)%nat → R r s') →
  wp t (put_used head n) R s.
Proof.
  intros [Hok Hq Hirq Hc Hr] HR. unfold put_used. apply wp_act. intros r s'. rewrite Hq.
  pose proof (q_add_used_backlog head n q (gm s)) as Hb.
  destruct (q_add_used head n q (gm s)) as [[u q'] m'] eqn:E. cbn in Hb. intros [= <- <-].
  assert (q_popped q' = q_popped q ∧ mem_log m' = mem_log (gm s) ∧
    q_used_log q' = q_used_log q ++ match u with Ok _ => [(head, n)] | Err _ => [] end) as (H1 & H2 & H3).
  { destruct u as [[]|e]; [by destruct (q_add_used_ok _ _ _ _ _ _ E) as (? & ? & ?)|].
    destruct (q_add_used_err _ _ _ _ _ _ _ E) as (? & ? & ?). by rewrite app_nil_r. }
  apply (HR _ q'); try done; [|by rewrite H3; destruct u].
  split; try done; [by destruct Hok|by eapply queue_insert].
Qed.

(** [T df chain s s']: what handling [chain] with the negotiated features [df] may do.
    A run serves chains one after the other, idle in between. *)
Section served.
Variable T : Z → Chain → St → St → Prop.

Inductive served s : list Chain → St → Prop :=
| served_idle s' : idle s s' → served s [] s'
| served_more cs s1 s2 df chain s3 s' :
    served s cs s1 → idle s1 s2 → steady s2 s3 → T df chain s2 s3 → idle s3 s' → served s (cs ++ [chain]) s'.

Lemma served_idle_r s cs s1 s2 : served s cs s1 → idle s1 s2 → served s cs s2.
Proof.
  destruct 1 as [s1 H1|cs s0 s3 df chain s4 s1 H1 H2 Hst H3 H4]; intros H5.
  - apply served_idle. by eapply idle_trans.
  - eapply served_more; [done..|]. by eapply idle_trans.
Qed.

Lemma served_app s cs1 s1 cs2 s2 : served s cs1 s1 → served s1 cs2 s2 → served s (cs1 ++ cs2) s2.
Proof.
  intros H1. induction 1 as [s' H2|cs s0 s3 df chain s4 s' H2 IH H3 Hst H4 H5].
  - rewrite app_nil_r. by eapply served_idle_r.
  - rewrite app_assoc. by eapply served_more.
Qed.

(** A transfer that was let go of stays in flight; without a ring none is. *)
Lemma served_calm s cs s' : served s cs s' → calm s' → calm s.
Proof.
  unfold calm. induction 1 as [s' (_ & _ & H & _)|cs s1 s2 df chain s3 s' _ IH (_ & _ & H2 & _) Hst _ (_ & _ & H4 & _)]; [congruence|].
  intros Hc. apply IH. rewrite <-H2. apply (sd_calm _ _ Hst). unfold calm. congruence.
Qed.

Lemma served_no_ring s cs s' : served s cs s' → ring (disk s) = false → ring (disk s') = false ∧ (calm s → calm s').
Proof.
  unfold calm. induction 1 as [s' (_ & H1 & H & _)|cs s1 s2 df chain s3 s' _ IH (_ & H1 & H2 & _) Hst _ (_ & H3 & H4 & _)]; intros Hr.
  - split; congruence.
  - destruct (IH Hr) as [Hr1 Hc1]. destruct (sd_ring _ _ Hst) as [Hr3 Hc3]; [congruence|]. unfold calm in Hc3.
    split; [congruence|]. intros Hc. rewrite H4. apply Hc3. rewrite H2. by apply Hc1.
Qed.
End served.

(** The handler of a disk with this geometry does what [T] says. *)
Definition request_does (T : Z → Chain → St → St → Prop) (caps : Z) (ro : bool) : Prop :=
  ∀ df chain s, blk_ok s →
    wp Total (handle_request fuel caps ro df chain) (λ _ s', steady s s' ∧ T df chain s s') s.

(** One turn: nothing was there, or one chain was handled and returned, or the
    used ring refused it. *)
Lemma process_step_wp T s q irq caps ro used_any (R : bool + result Error bool → St → Prop) :
  request_does T caps ro → view s q irq caps ro →
  (∀ q' s', view s' q' irq caps ro → q_used_log q' = q_used_log q → q_popped q' = q_popped q →
     (q_backlog q' ≤ q_backlog q)%nat → served T s [] s' → R (inr (Ok used_any)) s') →
  (∀ q' s' c n, view s' q' irq caps ro → q_used_log q' = q_used_log q ++ [(chain_head c, n)] →
     q_popped q' = q_popped q ++ [c] → served T s [c] s' → (q_backlog q' < q_backlog q)%nat → R (inl true) s') →
  (∀ q' s' c e, view s' q' irq caps ro → q_used_log q' = q_used_log q → q_popped q' = q_popped q ++ [c] →
     served T s [c] s' → (q_backlog q' ≤ q_backlog q)%nat → R (inr (Err e)) s') →
  wp Total (process_step fuel used_any) R s.
Proof.
  intros HT Hv Hnone Hone Herr. unfold process_step. do 2 wp_step.
  wp_step. eapply pop_request_wp; [exact Hv|]. intros c q1 s1 Hv1 Hi1 Hu1 Hp1 Hb1 Hback.
  destruct c as [chain|]; cbn beta iota.
  2:{ wp_step. rewrite app_nil_r in Hp1. apply (Hnone q1); try done. by apply served_idle. }
  specialize (Hback ltac:(by eexists)).
  wp_step. eapply unlocked_wp; [exact Hv1|]. intros q2 s2 Hv2 (Hu2 & Hp2 & Hb2)%settings_logs Hi2.
  wp_step. rewrite (vw_caps _ _ _ _ _ Hv), (vw_ro _ _ _ _ _ Hv).
  eapply wp_mono; [apply HT, Hv2|].
  intros r s3 [Hst3 HT3]. pose proof Hst3 as [Hok3 Ht3 _ _]. cbn beta zeta.
  assert (view s3 q2 irq caps ro) as Hv3 by (destruct Hv2; split; rewrite ?Ht3; done).
  assert (∀ s', idle s3 s' → served T s [chain] s') as Hserved.
  { intros s' Hi. apply (served_more _ _ [] s s2 (driver_features (bt_mmio (tr s))) chain s3); try done.
    - by apply served_idle.
    - by eapply idle_trans. }
  wp_step. eapply unlocked_wp; [exact Hv3|]. intros q4 s4 Hv4 (Hu4 & Hp4 & Hb4)%settings_logs Hi4.
  wp_step. eapply put_used_wp; [exact Hv4|]. intros u q5 s5 Hv5 Hi5 Hp5 Hu5 Hb5.
  assert (idle s3 s5) as Hi35 by (by eapply idle_trans).
  destruct u as [[]|e]; cbn beta iota.
  - wp_step. eapply unlocked_wp; [exact Hv5|]. intros q6 s6 Hv6 (Hu6 & Hp6 & Hb6)%settings_logs Hi6.
    wp_step. eapply (Hone q6 s6 chain); [exact Hv6|by rewrite Hu6, Hu5, Hu4, Hu2, Hu1|congruence| |lia].
    apply Hserved. by eapply idle_trans.
  - wp_step. apply (Herr q5 s5 chain); [done|by rewrite Hu5, app_nil_r, Hu4, Hu2|congruence|by apply Hserved|lia].
Qed.

Lemma signal_used_wp s q irq caps ro (R : result Error unit → St → Prop) :
  view s q irq caps ro →
  (∀ r s', view s' q (irq + (if is_ok r then 1 else 0)) caps ro → idle s s' →
     Z.testbit (interrupt_status (bt_mmio (tr s'))) 0 = true → R r s') →
  wp Total signal_used R s.
Proof.
  intros [Hok Hq Hirq Hc Hr] HR. unfold signal_used. apply wp_act. intros r s'.
  unfold signal_used_queue. cbn. destruct (efd_write (irq_fd (bt_mmio (tr s)))) as [x e] eqn:E.
  intros [= <- <-]. apply HR.
  - split; try done; [by destruct Hok|]. cbn. destruct x as [[]|]; cbn.
    + by rewrite (efd_write_ok _ _ E), Hirq.
    + by rewrite (efd_write_err _ _ _ E), Hirq, Z.add_0_r.
  - done.
  - cbn. rewrite Z.lor_spec. apply orb_true_r.
Qed.

Lemma request_does_safe caps ro : 0 ≤ caps * SECTOR_SIZE < 2 ^ 64 → request_does (λ _ _ _ _, True) caps ro.
Proof.
  intros Hcaps df chain s Hs. eapply wp_mono; [by apply (handle_request_safe fuel Total (λ _, BF))|done].
Qed.

(** The result of a run of [process_queue] from [s] with queue [q]: the chains [cs]
    were served, those of [l] returned. *)
Definition processed T s (q : Q) (irq caps : Z) (ro : bool) (r : result Error unit) s' : Prop :=
  ∃ q' l cs irq', view s' q' irq' caps ro ∧ served T s cs s' ∧ (q_backlog q' ≤ q_backlog q)%nat ∧
    q_used_log q' = q_used_log q ++ l ∧ q_popped q' = q_popped q ++ cs ∧
    (r = Ok tt → l.*1 = chain_head <$> cs ∧
       if decide (l = []) then irq' = irq
       else irq' = irq + 1 ∧ Z.testbit (interrupt_status (bt_mmio (tr s'))) 0 = true).

Lemma process_queue_wp T s q irq caps ro :
  request_does T caps ro → view s q irq caps ro → (q_backlog q < fuel)%nat →
  wp Total (process_queue fuel) (processed T s q irq caps ro) s.
Proof.
  intros HT Hv Hfuel. unfold process_queue. wp_step.
  apply (wp_iter Total (λ used_any s1, ∃ q1 l cs, view s1 q1 irq caps ro ∧ served T s cs s1 ∧
            (q_backlog q1 ≤ q_backlog q)%nat ∧ q_used_log q1 = q_used_log q ++ l ∧
            q_popped q1 = q_popped q ++ cs ∧ l.*1 = chain_head <$> cs ∧ (used_any = true ↔ l ≠ []))
          (λ _ s1, match queue (bt_mmio (tr s1)) QUEUE_REQUEST with Some q1 => q_backlog q1 | None => O end)).
  - exists q, [], []. split_and!; try done; [by apply served_idle|by rewrite app_nil_r..].
  - by rewrite (vw_queue _ _ _ _ _ Hv).
  - intros used_any s1 (q1 & l & cs & Hv1 & Hs1 & Hb1 & Hu1 & Hp1 & Hlc & Hl).
    eapply process_step_wp; [done|exact Hv1|..].
    + intros q2 s2 Hv2 Hu2 Hp2 Hb2 Hs2. pose proof (served_app _ _ _ _ _ _ Hs1 Hs2) as Hs. rewrite app_nil_r in Hs.
      destruct used_any.
      * eapply signal_used_wp; [exact Hv2|]. intros r s3 Hv3 Hi3 Hbit.
        exists q2, l, cs. eexists. split_and!; [exact Hv3|by eapply served_idle_r|lia|congruence|congruence|].
        intros ->. split; [done|]. rewrite decide_False by (by apply Hl). by split.
      * wp_step. exists q2, l, cs, irq. split_and!; [done|done|lia|congruence|congruence|]. intros _. split; [done|].
        rewrite decide_True; [done|]. destruct l; [done|]. exfalso. assert (false = true) by (by apply Hl). done.
    + intros q2 s2 c n Hv2 Hu2 Hp2 Hs2 Hlt.
      rewrite (vw_queue _ _ _ _ _ Hv1), (vw_queue _ _ _ _ _ Hv2). split; [|done].
      exists q2, (l ++ [(chain_head c, n)]), (cs ++ [c]).
      split_and!; [done|by eapply served_app|lia|by rewrite Hu2, Hu1, app_assoc|by rewrite Hp2, Hp1, app_assoc| |].
      * by rewrite !fmap_app, Hlc.
      * split; [|done]. intros _. by destruct l.
    + intros q2 s2 c e Hv2 Hu2 Hp2 Hs2 Hb2. exists q2, l, (cs ++ [c]), irq.
      split_and!; [done|by eapply served_app|lia|congruence|by rewrite Hp2, Hp1, app_assoc|done].
Qed.

(** The life of the worker: it returns, with an error only when polling failed, and
    served the chains it popped. *)
Lemma worker_loop_wp T ts s q irq caps ro :
  request_does T caps ro → view s q irq caps ro → (q_backlog q < fuel)%nat →
  wp Total (worker_loop fuel ts) (λ r s', ∃ q' cs irq', view s' q' irq' caps ro ∧ served T s cs s' ∧
     q_popped q' = q_popped q ++ cs ∧
     (is_err r = true → ∃ e, PollErr e ∈ ts ∧ raw_is EINTR e = false)) s.
Proof.
  intros HT. revert s q irq. induction ts as [|t ts IH]; intros s q irq Hv Hb; cbn [worker_loop].
  { wp_step. exists q, [], irq. split_and!; try done; [by apply served_idle|by rewrite app_nil_r]. }
  wp_step. eapply unlocked_wp; [exact Hv|]. intros q1 s1 Hv1 (Hu1 & Hp1 & Hb1)%settings_logs Hi1.
  assert (∀ s2 q2 irq2 cs, view s2 q2 irq2 caps ro → served T s1 cs s2 → (q_backlog q2 ≤ q_backlog q1)%nat →
    q_popped q2 = q_popped q1 ++ cs →
    wp Total (worker_loop fuel ts) (λ r s', ∃ q' cs irq', view s' q' irq' caps ro ∧ served T s cs s' ∧
     q_popped q' = q_popped q ++ cs ∧
     (is_err r = true → ∃ e, PollErr e ∈ t :: ts ∧ raw_is EINTR e = false)) s2) as Hrest.
  { intros s2 q2 irq2 cs Hv2 Hs2 Hb2 Hp2. eapply wp_mono; [apply (IH s2 q2 irq2 Hv2); lia|].
    intros r s3 (q3 & cs3 & irq3 & Hv3 & Hs3 & Hp3 & Hr). exists q3, (cs ++ cs3), irq3. split_and!; [done| |..].
    - apply (served_app T s [] s1); [by apply served_idle|]. by eapply served_app.
    - by rewrite Hp3, Hp2, Hp1, app_assoc.
    - intros He. destruct (Hr He) as (e & H1 & H2). exists e. split; [by apply list_elem_of_further|done]. }
  assert (served T s1 [] s1) as Hs0 by (by apply served_idle).
  wp_step. destruct t as [rev|e]; cbn [worker_turn].
  - wp_step; [wp_step; eapply (Hrest s1 q1 irq []); [done|done|lia|by rewrite app_nil_r]|].
    unfold upd_mmio. do 2 wp_step. wp_step.
    eapply wp_mono; [apply (process_queue_wp T _ q1 irq caps ro HT); [|lia]|].
    { destruct Hv1 as [[] H1 H2 H3 H4]. by split. }
    intros r s2 (q2 & l & cs & irq2 & Hv2 & Hs2 & Hb2 & _ & Hp2 & _). wp_step.
    eapply Hrest; [exact Hv2| |done|done]. eapply (served_app T s1 []); [|exact Hs2]. by apply served_idle.
  - wp_step; (wp_step; cbn beta iota); [eapply (Hrest s1 q1 irq []); [done|done|lia|by rewrite app_nil_r]|].
    wp_step. exists q1, [], irq. split_and!; [done|by apply served_idle|by rewrite Hp1, app_nil_r|].
    intros _. exists e. split; [by apply list_elem_of_here|done].
Qed.

End queue_proofs.

(** ** The scripted host keeps its promises *)

Lemma sb_next_spec len w r w' :
  0 ≤ len → sb_next len w = (r, w') →
  sb_image w' = sb_image w ∧ sb_flight w' = sb_flight w ∧
  match r with
  | Ok n => 0 ≤ n ≤ len
  | Err e => raw_is EINTR e = true → (SB_BURST - sb_burst w' < SB_BURST - sb_burst w)%nat
  end.
Proof.
  intros Hlen. unfold sb_next. destruct (sb_io w) as [|[n|e] l]; [intros [= <- <-]; split_and!; done|..].
  - intros [= <- <-]. split_and!; cbn; try done; lia.
  - destruct (raw_is EINTR e) eqn:Ee; [case_bool_decide|]; intros [= <- <-]; split_and!; cbn; try done.
    + unfold SB_BURST, set_field in *. cbn. lia.
    + by rewrite Ee.
Qed.

Lemma sb_read_image_ext w w' : sb_image w' = sb_image w → sb_read_image w' = sb_read_image w.
Proof. unfold sb_read_image. by intros ->. Qed.

Lemma sb_store_image off buf w x :
  sb_read_image (sb_store off buf w) x = overlay off buf (sb_read_image w) x.
Proof. unfold sb_read_image. cbn. apply bm_store_lookup. Qed.

Lemma sb_reply_transferred u r n : transferred u n (sb_reply u r) → r = Ok n.
Proof.
  intros [E Hn]. destruct r as [m|[c|k msg]]; cbn in E; [by injection E as ->| |done].
  destruct (Z.ltb_spec 0 c); [|done]. injection E as <-. lia.
Qed.

Lemma sb_land_torn w :
  landed (sb_flight w) (sb_read_image w) (sb_read_image (sb_land w)) ∧ sb_flight (sb_land w) = sb_flight w.
Proof.
  unfold sb_land. destruct (sb_flight w) as [[| |]|] eqn:E; cbn; try done. split; [|done].
  eapply (overlay_torn off buf (length buf)). intros x. by rewrite firstn_all, sb_store_image.
Qed.

Lemma sb_sync_calm w :
  sb_flight (sb_sync w) = sb_flight w ∧
  (sb_flight w = None → sb_image (sb_sync w) = sb_image w ∧ sb_durable (sb_sync w) = sb_image w).
Proof.
  unfold sb_sync. destruct (sb_late w); [|by cbn]. unfold sb_land.
  destruct (sb_flight w) as [[| |]|] eqn:E; cbn; rewrite ?E; done.
Qed.

#[export] Program Instance Scripted_blk_laws : BlkHostLaws SBlk := {
  image := sb_read_image;
  durable w x := default 0 (sb_durable w !! x);
  in_flight := sb_flight;
}.
Next Obligation.
  intros w bs. cbn. destruct (sb_flight w) as [[fd off len| |]|]; try done. rewrite length_copy_at; [done|].
  rewrite length_take. cbn. lia.
Qed.
Next Obligation. intros w bs. cbn. by intros ->. Qed.
Next Obligation.
  intros fd len off w bs w' Hlen. cbn. destruct (sb_next len w) as [[n|e] w1] eqn:E; [|done].
  destruct (sb_next_spec _ _ _ _ Hlen E) as (H1 & H2 & H3). intros [= <- <-].
  split_and!; [unfold zlen; rewrite length_contents_at; lia|done|]. intros _.
  split; [by apply sb_read_image_ext|by rewrite length_contents_at].
Qed.
Next Obligation.
  intros fd len off w e w'. cbn. unfold sb_next.
  destruct (sb_io w) as [|[n|e'] l]; [done|done|].
  destruct (raw_is EINTR e'); [case_bool_decide|]; by intros [= <- <-].
Qed.
Next Obligation.
  intros fd buf off w n w'. cbn. destruct (sb_next (zlen buf) w) as [[k|e] w1] eqn:E; [|done].
  destruct (sb_next_spec _ _ _ _ (zlen_nonneg buf) E) as (H1 & H2 & H3). intros [= <- <-].
  split_and!; [lia|lia|done|]. intros _ x. rewrite sb_store_image. apply overlay_ext.
  intros y. by rewrite (sb_read_image_ext w w1).
Qed.
Next Obligation.
  intros fd buf off w e w'. cbn. destruct (sb_next (zlen buf) w) as [[k|e'] w1] eqn:E; [done|].
  destruct (sb_next_spec _ _ _ _ (zlen_nonneg buf) E) as (H1 & H2 & H3). intros [= <- <-].
  split; [done|]. intros _. by apply sb_read_image_ext.
Qed.
Next Obligation.
  intros fd w r w' [= <- <-]. destruct (sb_sync_calm w) as [H1 H2]. split; [done|]. intros Hc. destruct (H2 Hc) as [H3 H4].
  split; [by apply sb_read_image_ext|]. intros _. by rewrite H4.
Qed.
Next Obligation.
  intros fd off len u w r bs w' Hc Hlen. cbn. destruct (sb_next len w) as [r1 w1] eqn:E.
  destruct (sb_next_spec _ _ _ _ Hlen E) as (H1 & H2 & H3). intros [= <- <- <-].
  split_and!.
  - destruct r1; by apply sb_read_image_ext.
  - destruct r1 as [n|e]; unfold zlen; cbn; [rewrite length_contents_at; lia|lia].
  - destruct r1 as [n|e]; [left; cbn; congruence|by right].
  - intros n ->%sb_reply_transferred. unfold zlen. rewrite length_contents_at. split_and!; [cbn; congruence|lia|done].
Qed.
Next Obligation.
  intros fd off buf u w r bs w' Hc. cbn. destruct (sb_next (zlen buf) w) as [r1 w1] eqn:E.
  destruct (sb_next_spec _ _ _ _ (zlen_nonneg buf) E) as (H1 & H2 & H3). intros [= <- <- <-].
  pose proof (sb_read_image_ext w w1 H1) as Hi. split_and!.
  - destruct r1 as [n|e]; [|by apply torn_refl; intros x; rewrite <-Hi].
    eapply overlay_torn. intros x. rewrite sb_store_image, Hi. done.
  - destruct r1 as [n|e]; [left; cbn; congruence|by right].
  - intros n ->%sb_reply_transferred. split_and!; [lia|cbn; congruence|].
    intros x. by rewrite sb_store_image, Hi.
Qed.
Next Obligation.
  intros fd u w r bs w' Hc [= <- <- <-]. destruct (sb_sync_calm w) as [H1 H2]. destruct (H2 Hc) as [H3 H4].
  split_and!; [by apply sb_read_image_ext|congruence|]. intros n _. by rewrite H4.
Qed.
Next Obligation.
  intros w. cbn. split; [|by right]. unfold landed. destruct (sb_flight w) as [[| |]|]; try done. by apply torn_refl.
Qed.
Next Obligation.
  intros w. cbn. destruct (sb_late w); [|by destruct (sb_land_torn w); split; [|left]].
  split; [|by right]. unfold landed. destruct (sb_flight w) as [[| |]|]; try done. by apply torn_refl.
Qed.
Next Obligation. intros n w bs w' Hn [= <- <-]. unfold zlen. rewrite length_replicate. lia. Qed.
Next Obligation. by intros n w r w' [= <- <-]. Qed.
Next Obligation. intros w l w'. cbn. destruct (sb_accesses w); by intros [= <- <-]. Qed.

#[export] Program Instance Scripted_blk_fair n : BlkHostFair SBlk (S SB_BURST + n) := {
  blk_patience w := (SB_BURST - sb_burst w)%nat;
}.
Next Obligation. intros. unfold SB_BURST. lia. Qed.
Next Obligation.
  intros n fd len off w e w'. cbn. unfold sb_next.
  destruct (sb_io w) as [|[k|e'] l]; [done|done|].
  destruct (raw_is EINTR e') eqn:Ee; [case_bool_decide|]; intros [= <- <-] He; try done.
  - unfold SB_BURST in *. cbn. unfold set_field. cbn. lia.
  - by rewrite Ee in He.
Qed.
Next Obligation.
  intros n fd buf off w e w'. cbn. destruct (sb_next (zlen buf) w) as [[k|e'] w1] eqn:E; [done|].
  destruct (sb_next_spec _ _ _ _ (zlen_nonneg buf) E) as (H1 & H2 & H3). intros [= <- <-]. done.
Qed.

(** ** The theorems *)

(** A disk of eight sectors that holds [65 + x mod 26] at [x < 520], with a direct
    descriptor, a ring, and a scratch block of 4 KiB full of [99]. *)
Definition demo_disk : BlockDisk :=
  mkBlockDisk (Some 8) 7 true 512 (mkAlignedBuf 4096 (replicate (Z.to_nat 4096) 99)) true.
Definition demo_image : gmap Z Z := bm_store 0 ((λ i, 65 + Z.of_nat i mod 26) <$> seq 0 520) ∅.
Definition demo_req (ty sec : Z) (data : list Z) (room : nat) : SChain :=
  mkSChain 3 (le_bytes 4 ty ++ le_bytes 4 0 ++ le_bytes 8 sec ++ data) room false false.
Definition demo_blk (io : list (result io_error Z)) (q : SQueue) : BlkSt SQueue Z SMem SBlk :=
  mkBlkSt demo_disk (mkSBlk demo_image ∅ io None false [] 0) []
    (mkBlockTransport (mkVirtioMmio 0 2 0 0 0 0 512 0 0 0 0 [q]) 8 false).
Definition demo_q (cs : list SChain) : SQueue := mkSQueue 256 256 true true cs [] false [].

Lemma demo_blk_ok io q : blk_ok (demo_blk io q).
Proof. by split. Qed.

(** C2: one run of [process_queue]: it returns; with [Ok] the chains it popped are the
    chains it put on the used ring, each exactly once and in order, and the interrupt was
    raised exactly when there was one; all that while vCPUs write to the device registers
    between its critical sections, whatever the chains contain, and whatever becomes of
    the transfers of the ring, those that are still in flight when it is dropped
    included. *)
Theorem blk_queue_exactly_once {Q Mem Chain Rd Wr Efd W : Type}
    `{VQ : !VirtQueue Q Mem Chain Rd Wr} `{VL : !VirtQueueLaws Q Mem Chain Rd Wr}
    `{QF : !QueueFair Q Mem Chain Rd Wr} `{EF : !EventFd Efd} `{EL : !EventFdLaws Efd}
    `{BH : !BlkHost W} `{BL : !BlkHostLaws W} (fuel : nat) `{BF : !BlkHostFair W fuel}
    (s : BlkSt Q Efd Mem W) q :
  blk_ok s → queue (bt_mmio (tr s)) QUEUE_REQUEST = Some q →
  0 ≤ capacity_sectors (tr s) * SECTOR_SIZE < 2 ^ 64 → (q_backlog q < fuel)%nat →
  ∃ r s' q' l cs, process_queue fuel s = Ret (r, s') ∧
    queue (bt_mmio (tr s')) QUEUE_REQUEST = Some q' ∧
    q_used_log q' = q_used_log q ++ l ∧ q_popped q' = q_popped q ++ cs ∧
    (r = Ok tt → l.*1 = chain_head <$> cs ∧
       let irq s := efd_count (irq_fd (bt_mmio (tr s))) in
       if decide (l = []) then irq s' = irq s
       else irq s' = irq s + 1 ∧ Z.testbit (interrupt_status (bt_mmio (tr s'))) 0 = true).
Proof.
  intros Hs Hq Hcaps Hback.
  destruct (wp_total_inv (process_queue fuel)
    (processed (λ _ _ _ _, True) s q (efd_count (irq_fd (bt_mmio (tr s)))) (capacity_sectors (tr s)) (readonly (tr s))) s)
    as (r & s' & E & q' & l & cs & irq' & [_ Hq' Hirq' _ _] & _ & _ & Hu & Hp & Hr).
  - apply process_queue_wp; [by apply request_does_safe|by split|done].
  - exists r, s', q', l, cs. split_and!; try done. intros Hok. destruct (Hr Hok) as [Hb' Hi]. split; [done|].
    cbv beta zeta. by rewrite Hirq'.
Qed.

(** Three chains, one of them broken; the guest changes the queue size and
    acknowledges an interrupt in between. *)
Definition demo_queue_run : BlkSt SQueue Z SMem SBlk :=
  let s := demo_blk [] (demo_q [demo_req 0 0 [] 5; mkSChain 9 [1; 2] 1 false false; demo_req 8 0 [] 21]) in
  s <| bw ::= λ w, w <| sb_accesses := [[(REG_QUEUE_NUM, le_bytes 4 128)]; []; [(REG_INTERRUPT_ACK, [1; 0; 0; 0])]] |> |>.

Lemma blk_queue_exactly_once_witness :
  ∃ s' q', process_queue 9 demo_queue_run = Ret (Ok tt, s') ∧
    queue (bt_mmio (tr s')) QUEUE_REQUEST = Some q' ∧
    q_used_log q' = [(3, 5); (9, 1); (3, 21)] ∧ chain_head <$> q_popped q' = [3; 9; 3] ∧
    efd_count (irq_fd (bt_mmio (tr s'))) = 1.
Proof.
  destruct (blk_queue_exactly_once 9 demo_queue_run
    (demo_q [demo_req 0 0 [] 5; mkSChain 9 [1; 2] 1 false false; demo_req 8 0 [] 21]))
    as (r & s' & q' & l & cs & E & Hq & Hu & Hp & Hr).
  - by split.
  - reflexivity.
  - zcompute.
  - cbn. lia.
  - assert (r = Ok tt) as -> by (vm_compute in E; by injection E).
    exists s', q'. split; [exact E|]. split; [exact Hq|]. destruct (Hr eq_refl) as [Hb Hi].
    assert (q_used_log q' = [(3, 5); (9, 1); (3, 21)]) as Hlog.
    { vm_compute in E. injection E as <-. vm_compute in Hq. injection Hq as <-. reflexivity. }
    split; [exact Hlog|]. rewrite Hlog in Hu. cbn in Hu. subst l.
    rewrite Hp. split; [change (chain_head <$> cs = [3; 9; 3]); by rewrite <-Hb|]. cbn in Hi. by destruct Hi as [-> _].
Defined.

(** *** Opening the image *)

Section image_proofs.
Context {W : Type} `{BH : !BlkHost W} `{BL : !BlkHostLaws W}.

Lemma open_buffered_wp path (w : W) :
  wp Total (open_buffered path) (λ r _, ∀ fd ro, r = Ok (fd, ro) →
    ro = true → ∃ err w1, sys_open path (Z.lor O_RDWR O_CLOEXEC) w = (Err err, w1) ∧
      (raw_is EACCES err || raw_is EPERM err || kind_is PermissionDenied err) = true) w.
Proof.
  unfold open_buffered. wp_step. apply wp_act. intros r w1 E. destruct r as [fd|err]; cbn beta iota.
  { wp_step. by intros ? ? [= <- <-]. }
  wp_step; [by wp_step|]. apply negb_false_iff in Hif. wp_step. apply wp_act. intros r2 w2 _. wp_step.
  intros fd ro _ _. by exists err, w1.
Qed.

Lemma logical_block_size_wp fd (w : W) : wp Total (logical_block_size fd) (λ n w', w' = w ∧ SECTOR_SIZE ≤ n) w.
Proof.
  unfold logical_block_size. do 3 wp_step. split; [done|].
  destruct (sys_fstat_blksize fd w) as [bs|]; [destruct (bs =? 0)|]; unfold SECTOR_SIZE, IO_ALIGN; lia.
Qed.

Lemma aligned_new_wp n (w : W) :
  0 ≤ n < 2 ^ 56 →
  wp Total (aligned_new n) (λ r _, ∀ b, r = Ok b → zlen (buf_bytes b) = cap b ∧ n ≤ cap b) w.
Proof.
  intros Hn. unfold aligned_new. set (c := next_multiple_of (Z.max n IO_ALIGN) IO_ALIGN).
  assert (n ≤ c < 2 ^ 57) as Hc.
  { unfold c, next_multiple_of, IO_ALIGN. pose proof (Z.mod_pos_bound (Z.max n 4096) 4096 ltac:(lia)).
    destruct (Z.eqb_spec (Z.max n 4096 mod 4096) 0); lia. }
  wp_step. apply wp_assert; [apply Z.ltb_lt; lia|]. wp_step; [by wp_step|].
  wp_step. apply wp_act. intros [bs|] w1 E; wp_step; [|done]. intros b [= <-].
  split; [apply (heap_alloc_len c _ _ _ ltac:(lia) E)|cbn; lia].
Qed.

(** An image that is accepted: its capacity is its length in whole sectors, at least one;
    it is read-only only if the kernel denied write permission; the alignment for direct
    I/O is at least a sector. *)
Lemma check_image_wp path (w : W) :
  wp Total (check_image path) (λ r _, ∀ o caps, r = Ok (o, caps) →
    (∃ w1 len, file_len (od_buffered o) w1 = Ok len ∧ len = caps * SECTOR_SIZE) ∧ 1 ≤ caps ∧
    (od_readonly o = true → ∃ err w1, sys_open path (Z.lor O_RDWR O_CLOEXEC) w = (Err err, w1) ∧
       (raw_is EACCES err || raw_is EPERM err || kind_is PermissionDenied err) = true) ∧
    SECTOR_SIZE ≤ od_align o) w.
Proof.
  unfold check_image, open_disk_image. wp_step. wp_step; [by wp_step|].
  wp_step. eapply wp_mono; [apply open_buffered_wp|]. intros [[fd ro]|e] w1 Hro; [|done].
  cbn beta iota. wp_step. eapply wp_mono; [apply logical_block_size_wp|]. intros align w2 [-> Halign].
  unfold open_direct. do 2 wp_step. apply wp_act. intros dr w3 _. do 4 wp_step. cbn [od_buffered].
  destruct (file_len fd w3) as [len|e] eqn:Elen; cbn [map_err]; do 2 wp_step; cbn [map_err]; [|done].
  destruct (Z.ltb_spec len SECTOR_SIZE); [by wp_step|]. cbn [orb].
  destruct (is_multiple_of len SECTOR_SIZE) eqn:Em; cbn [negb]; [|by wp_step].
  wp_step. intros o caps [= <- <-]. apply Z.eqb_eq in Em. unfold SECTOR_SIZE in *. cbn.
  split_and!; try done.
  - exists w3, len. split; [done|]. pose proof (Z.div_mod len 512). lia.
  - apply Z.div_le_lower_bound; lia.
  - by apply (Hro fd ro).
Qed.

End image_proofs.
