(* ===== verification/VirtioBlkSpec.v ===== *)
(** * The block device as a disk

    An abstract disk: a function from positions to bytes with one transition per
    request, labelled with what the guest put into the chain and what it finds in
    it afterwards. The worker refines it, as long as it has not let go of a transfer of
    the ring; on it, a read returns what the last acknowledged write left. Also here: an
    acknowledged flush is durable, and the run in which dropping the ring without waiting
    for its transfer loses a write. *)

From S2P Require Import Prelude Words Errors GuestMem VirtQueue VirtioMmio VirtioBlk VirtioBlkFacts VirtioBlkQueue.
Local Open Scope Z_scope.

(** ** The abstract disk *)

Inductive BlkReq :=
| RqRead (off : Z)
| RqWrite (off : Z) (data : list Z)
| RqFlush
| RqGetId
| RqUnknown
| RqBroken.

(** What the disk may answer to a request in a chain with [room] writable bytes, and
    its contents then. [limit] is the size of the disk, [oom] whether the host may be
    out of memory, [df] the negotiated features. *)
Section disk.
Variables (limit : Z) (ro : bool) (oom : Prop).

Definition refused (df : Z) : bool := ro || negb (Z.land df VIRTIO_BLK_F_RO =? 0).

Inductive disk_step (df room : Z) (f : Z → Z) : BlkReq → list (list Z) → (Z → Z) → Prop :=
| ds_read off :
    0 < room → off + (room - 1) ≤ limit →
    disk_step df room f (RqRead off) [contents_at f off (Z.to_nat (room - 1)); [VIRTIO_BLK_S_OK]] f
| ds_read_error off :
    0 < room →
    disk_step df room f (RqRead off) [replicate (Z.to_nat (room - 1)) 0; [VIRTIO_BLK_S_IOERR]] f
| ds_read_dropped off :
    room ≤ 0 ∨ 2 ^ 64 ≤ off + (room - 1) ∨ oom →
    disk_step df room f (RqRead off) [] f
| ds_write off data g :
    0 < room → refused df = false → off + zlen data ≤ limit →
    (∀ x, g x = overlay off data f x) →
    disk_step df room f (RqWrite off data) [[VIRTIO_BLK_S_OK]] g
| ds_write_error off data g ans :
    ans = (if room =? 0 then [] else [[VIRTIO_BLK_S_IOERR]]) →
    torn off data f g → (refused df = true ∨ limit < off + zlen data → g = f) →
    disk_step df room f (RqWrite off data) ans g
| ds_write_dropped off data :
    2 ^ 64 ≤ off + zlen data ∨ oom →
    disk_step df room f (RqWrite off data) [] f
| ds_flush status :
    status = (if Z.land df VIRTIO_BLK_F_FLUSH =? 0 then VIRTIO_BLK_S_UNSUPP else VIRTIO_BLK_S_OK) ∨
    Z.land df VIRTIO_BLK_F_FLUSH ≠ 0 ∧ ro = false ∧ status = VIRTIO_BLK_S_IOERR →
    disk_step df room f RqFlush (if room =? 0 then [] else [[status]]) f
| ds_get_id :
    disk_step df room f RqGetId (if room <? 21 then [] else [device_id_bytes; [VIRTIO_BLK_S_OK]]) f
| ds_unknown ans :
    ans = unknown_answer room ∨ ans = [] ∧ oom →
    disk_step df room f RqUnknown ans f
| ds_broken : disk_step df room f RqBroken [] f.

End disk.

(** ** Requests and runs *)

Section events.
Context {Q Mem Chain Rd Wr : Type} `{VQ : !VirtQueue Q Mem Chain Rd Wr}.

(** The request in a chain and the writable bytes it leaves for the answer. *)
Definition request_of (m : Mem) (chain : Chain) : BlkReq * Z :=
  match reader_new m chain, writer_new m chain with
  | Ok rd, Ok wr =>
      let '(raw, r, rd) := reader_read m 16 rd in
      let hdr := parse_hdr raw in
      let off := sector hdr * SECTOR_SIZE in
      (if is_err r then RqBroken
       else if type_ hdr =? VIRTIO_BLK_T_IN then RqRead off
       else if type_ hdr =? VIRTIO_BLK_T_OUT then RqWrite off (reader_read m (reader_avail rd) rd).1.1
       else if type_ hdr =? VIRTIO_BLK_T_FLUSH then RqFlush
       else if type_ hdr =? VIRTIO_BLK_T_GET_ID then RqGetId
       else RqUnknown, writer_avail wr)
  | _, _ => (RqBroken, 0)
  end.

(** A chain, the guest memory and the features it was handled with, and what was put
    into it. *)
Record Event := mkEvent { ev_mem : Mem; ev_chain : Chain; ev_df : Z; ev_ans : list (list Z) }.

Definition ev_req (e : Event) : BlkReq := (request_of (ev_mem e) (ev_chain e)).1.
Definition ev_room (e : Event) : Z := (request_of (ev_mem e) (ev_chain e)).2.
Definition ev_log (e : Event) : list (Z * list Z) := pair (chain_head (ev_chain e)) <$> ev_ans e.

Section run.
Variables (limit : Z) (ro : bool) (oom : Prop).

Inductive disk_run (f : Z → Z) : list Event → (Z → Z) → Prop :=
| dr_nil : disk_run f [] f
| dr_snoc evs g e h :
    disk_run f evs g → disk_step limit ro oom (ev_df e) (ev_room e) g (ev_req e) (ev_ans e) h →
    disk_run f (evs ++ [e]) h.

(** What a reader can rely on: the byte at [x] once the writes so far have been
    answered; unknown after a write to it that was not acknowledged. *)
Definition settle (x : Z) (o : option Z) (e : Event) : option Z :=
  match ev_req e with
  | RqWrite off data =>
      if (off <=? x) && (x <? off + zlen data) then
        if bool_decide (ev_ans e = [[VIRTIO_BLK_S_OK]]) then Some (nth (Z.to_nat (x - off)) data 0) else None
      else o
  | _ => o
  end.
Definition settled (f : Z → Z) (x : Z) (evs : list Event) : option Z := foldl (settle x) (Some (f x)) evs.

Lemma disk_step_settle df room g req ans h e x v o :
  disk_step limit ro oom df room g req ans h → ev_req e = req → ev_ans e = ans →
  (∀ w, o = Some w → g x = w) → settle x o e = Some v → h x = v.
Proof.
  intros Hs <- <- Ho. unfold settle.
  assert (∀ off data, torn off data g h → (off <=? x) && (x <? off + zlen data) = false → h x = g x) as Htorn.
  { intros off data Ht E. destruct (Ht x) as [->|[Hx _]]; [done|].
    apply andb_false_iff in E as [E%Z.leb_gt|E%Z.ltb_ge]; lia. }
  inversion Hs as [| | |off data h' H1 H2 H3 H4|off data h' ans H1 H2 H3| | | | |]; subst; auto; try congruence.
  - destruct (_ && _) eqn:E.
    + case_bool_decide; [|done]. intros [= <-]. rewrite H4. unfold overlay. fold (zlen data). by rewrite E.
    + intros Hv. rewrite (Htorn off data); [by apply Ho| |done].
      apply (overlay_torn off data (length data)). intros y. by rewrite firstn_all.
  - destruct (_ && _) eqn:E; [|intros Hv; rewrite (Htorn off data) by done; by apply Ho].
    rewrite bool_decide_eq_false_2; [done|]. rewrite H1. by destruct (room =? 0).
  - destruct (_ && _) eqn:E; [|by apply Ho]. rewrite bool_decide_eq_false_2; [done|congruence].
Qed.

Lemma disk_run_settled f evs g x v : disk_run f evs g → settled f x evs = Some v → g x = v.
Proof.
  intros H. revert v. induction H as [|evs g e h H IH Hs]; intros v; [by intros [= <-]|].
  unfold settled. rewrite foldl_app. by eapply disk_step_settle.
Qed.

Lemma disk_run_lookup f evs g i e :
  disk_run f evs g → evs !! i = Some e →
  ∃ g1 g2, disk_run f (take i evs) g1 ∧ disk_step limit ro oom (ev_df e) (ev_room e) g1 (ev_req e) (ev_ans e) g2.
Proof.
  induction 1 as [|evs g e' h H IH Hs]; [done|].
  intros [Hi|[Hi E]]%lookup_app_Some.
  - destruct (IH Hi) as (g1 & g2 & H1 & H2). exists g1, g2. split; [|done].
    rewrite take_app_le; [done|]. apply lookup_lt_Some in Hi. lia.
  - destruct (i - length evs)%nat eqn:Ei; [|done]. injection E as ->. exists g, h. split; [|done].
    by rewrite take_app_length' by lia.
Qed.

(** A read that succeeded returned settled bytes. *)
Lemma disk_run_read f evs g i e off data x v :
  disk_run f evs g → evs !! i = Some e → ev_req e = RqRead off → ev_ans e = [data; [VIRTIO_BLK_S_OK]] →
  off ≤ x < off + zlen data → settled f x (take i evs) = Some v → nth (Z.to_nat (x - off)) data 0 = v.
Proof.
  intros Hr Hi Hreq Hans Hx Hv. destruct (disk_run_lookup _ _ _ _ _ Hr Hi) as (g1 & g2 & H1 & H2).
  rewrite Hreq, Hans in H2. inversion H2; subst. rewrite <-(disk_run_settled _ _ _ _ _ H1 Hv).
  unfold contents_at, zlen in *. rewrite length_fmap, length_seq in Hx.
  erewrite nth_lookup_Some; [reflexivity|]. rewrite list_lookup_fmap, lookup_seq_lt by lia. cbn. do 2 f_equal. lia.
Qed.
End run.
End events.
Arguments Event : clear implicits.

(** ** The worker refines the disk *)

Section refines.
Context {Q Mem Chain Rd Wr Efd W : Type}.
Context `{VQ : !VirtQueue Q Mem Chain Rd Wr} `{VL : !VirtQueueLaws Q Mem Chain Rd Wr}.
Context `{QF : !QueueFair Q Mem Chain Rd Wr}.
Context `{EF : !EventFd Efd} `{EL : !EventFdLaws Efd} `{BH : !BlkHost W} `{BL : !BlkHostLaws W}.
Variable fuel : nat.
Context `{BF : !BlkHostFair W fuel}.
Abbreviation St := (BlkSt Q Efd Mem W).
Implicit Types s : St.

(** Handling [e] takes [s] to [s'] as the disk does, unless a transfer was let go of. *)
Definition disk_event (caps : Z) (ro : bool) (e : Event Mem Chain) s s' : Prop :=
  mem_log (gm s') = mem_log (gm s) ++ ev_log e ∧
  (calm s' → disk_step (caps * SECTOR_SIZE) ro (heap_exhausted W) (ev_df e) (ev_room e) (image (bw s)) (ev_req e) (ev_ans e)
    (image (bw s'))).

Definition disk_request (caps : Z) (ro : bool) (df : Z) (chain : Chain) s s' : Prop :=
  ∃ e, ev_chain e = chain ∧ ev_df e = df ∧ ev_mem e = gm s ∧ disk_event caps ro e s s'.

(** The event of a request that left the answer [ans]. *)
Lemma disk_request_intro caps ro df chain s s' req room ans :
  request_of (gm s) chain = (req, room) →
  mem_log (gm s') = mem_log (gm s) ++ (pair (chain_head chain) <$> ans) →
  (calm s' → disk_step (caps * SECTOR_SIZE) ro (heap_exhausted W) df room (image (bw s)) req ans (image (bw s'))) →
  disk_request caps ro df chain s s'.
Proof.
  intros E Hl Hs. exists (mkEvent (gm s) chain df ans). split_and!; try done. split; [done|].
  unfold ev_req, ev_room. cbn. by rewrite E.
Qed.

Lemma disk_request_read caps ro df chain s s' off room r :
  request_of (gm s) chain = (RqRead off, room) →
  read_reply (chain_head chain) off (room - 1) (caps * SECTOR_SIZE) s r s' →
  steady s s' ∧ disk_request caps ro df chain s s'.
Proof.
  intros E (Hst & Hi & Hr). split; [done|].
  destruct Hr as [(_ & Hl & Hwhy)|(data & status & Hn & _ & Hl & Hd)];
    [apply (disk_request_intro _ _ _ _ _ _ _ _ [] E); [by rewrite app_nil_r|]
    |apply (disk_request_intro _ _ _ _ _ _ _ _ [data; [status]] E Hl)]; intros Hc; rewrite (Hi Hc).
  - apply ds_read_dropped. destruct Hwhy as [?|?]; [left; lia|by right].
  - destruct (Hd Hc) as [(-> & Hlim & ->)|(-> & ->)]; constructor; lia.
Qed.

Lemma disk_request_write caps ro df chain s s' off data room r :
  request_of (gm s) chain = (RqWrite off data, room) → 0 ≤ room →
  write_reply (chain_head chain) room off data (caps * SECTOR_SIZE) (refused ro df) s r s' →
  steady s s' ∧ disk_request caps ro df chain s s'.
Proof.
  intros E Hroom (Hst & Htorn & Hr). split; [done|].
  destruct Hr as [(_ & Hl & [H0|[Hi Hwhy]])|(status & Hr & _ & Hl & Hs)];
    [apply (disk_request_intro _ _ _ _ _ _ _ _ [] E); [by rewrite app_nil_r|]..
    |apply (disk_request_intro _ _ _ _ _ _ _ _ [[status]] E Hl)]; intros Hc; destruct (Htorn Hc) as [Ht Hkeep].
  - apply ds_write_error; [by rewrite H0|done|done].
  - rewrite (Hi Hc). by apply ds_write_dropped.
  - destruct (Hs Hc) as [(-> & H1 & H2 & H3)| ->]; [by apply ds_write; try done; lia|].
    apply ds_write_error; [by rewrite (proj2 (Z.eqb_neq _ _)) by lia|done|done].
Qed.

Lemma disk_request_replied caps ro df chain s s' req room ans :
  request_of (gm s) chain = (req, room) → replied (chain_head chain) ans s s' →
  disk_step (caps * SECTOR_SIZE) ro (heap_exhausted W) df room (image (bw s)) req ans (image (bw s)) →
  steady s s' ∧ disk_request caps ro df chain s s'.
Proof.
  intros E (Hst & Hi & Hl) Hs. split; [done|]. eapply disk_request_intro; [exact E|done|]. intros Hc. by rewrite (Hi Hc).
Qed.

Lemma flush_status_allowed ro df status s s' :
  flush_status ro df status s s' →
  status = (if Z.land df VIRTIO_BLK_F_FLUSH =? 0 then VIRTIO_BLK_S_UNSUPP else VIRTIO_BLK_S_OK) ∨
  Z.land df VIRTIO_BLK_F_FLUSH ≠ 0 ∧ ro = false ∧ status = VIRTIO_BLK_S_IOERR.
Proof.
  unfold flush_status. destruct (Z.eqb_spec (Z.land df VIRTIO_BLK_F_FLUSH) 0); [by left|].
  destruct ro; [by left|]. intros [->|[-> _]]; auto.
Qed.

Lemma handle_request_refines caps ro :
  0 ≤ caps * SECTOR_SIZE < 2 ^ 64 → request_does fuel (disk_request caps ro) caps ro.
Proof.
  intros Hcap df chain s Hs. unfold handle_request. do 2 wp_step.
  assert (∀ room, request_of (gm s) chain = (RqBroken, room) → steady s s ∧ disk_request caps ro df chain s s) as Hbroken.
  { intros room E. eapply disk_request_replied; [exact E|by apply replied_nil, same_rest_refl|constructor]. }
  do 2 wp_step. unfold request_of in Hbroken. destruct (reader_new (gm s) chain) as [rd|] eqn:Erd; cbn [map_err]; [|by eapply Hbroken].
  do 2 wp_step. destruct (writer_new (gm s) chain) as [wr|] eqn:Ewr; cbn [map_err]; [|by eapply Hbroken].
  pose proof (reader_new_bound _ _ _ Erd). pose proof (writer_new_bound _ _ _ Ewr).
  pose proof (writer_avail_nonneg wr). pose proof (writer_new_head _ _ _ Ewr) as Hh.
  destruct (Z.le_gt_cases 16 (reader_avail rd)) as [H16|H16].
  2:{ destruct (reader_read_short (gm s) 16 rd) as (bs & e & rd' & Er & _); [lia|]. rewrite Er in *.
      do 2 wp_step. by eapply Hbroken. }
  destruct (reader_read_ok (gm s) 16 rd) as (raw & rd' & Er & _ & Hraw & Hav); [lia|].
  rewrite Er. do 2 wp_step. cbn [or_io map_err]. pose proof (parse_hdr_sector raw Hraw). clear Hbroken.
  assert (request_of (gm s) chain =
    (if type_ (parse_hdr raw) =? VIRTIO_BLK_T_IN then RqRead (sector (parse_hdr raw) * SECTOR_SIZE)
     else if type_ (parse_hdr raw) =? VIRTIO_BLK_T_OUT
     then RqWrite (sector (parse_hdr raw) * SECTOR_SIZE) (reader_read (gm s) (reader_avail rd') rd').1.1
     else if type_ (parse_hdr raw) =? VIRTIO_BLK_T_FLUSH then RqFlush
     else if type_ (parse_hdr raw) =? VIRTIO_BLK_T_GET_ID then RqGetId else RqUnknown, writer_avail wr)) as Hreq.
  { unfold request_of. by rewrite Erd, Ewr, Er. }
  repeat lazymatch type of Hreq with context [if ?b then _ else _] => destruct b end.
  - apply (handle_in_wp fuel Total (λ _, BF)); try done. rewrite Hh. intros r s'. by eapply disk_request_read.
  - apply (handle_out_wp fuel Total (λ _, BF)); try done; [lia|]. intros data rd2 r s' Ed. rewrite Hh. rewrite Ed in Hreq.
    by eapply disk_request_write.
  - apply handle_flush_wp; [done|]. intros status r s' Hst _ Hrep. rewrite Hh in Hrep.
    eapply disk_request_replied; [done|exact Hrep|]. apply ds_flush. by eapply flush_status_allowed.
  - apply handle_get_id_wp; [done|]. intros r s' Hrep. rewrite Hh in Hrep.
    eapply disk_request_replied; [done|exact Hrep|constructor].
  - apply handle_unknown_wp; [done|done|]. intros r s' ans Hans Hrep. rewrite Hh in Hrep.
    eapply disk_request_replied; [done|exact Hrep|by constructor].
Qed.

(** The chains served are the events of a run of the disk, if nothing is in flight at the
    end. *)
Lemma served_disk_run caps ro s cs s' :
  served (disk_request caps ro) s cs s' →
  ∃ evs, ev_chain <$> evs = cs ∧ mem_log (gm s') = mem_log (gm s) ++ (evs ≫= ev_log) ∧
    (calm s' → disk_run (caps * SECTOR_SIZE) ro (heap_exhausted W) (image (bw s)) evs (image (bw s'))).
Proof.
  induction 1 as [s' (H1 & _ & H2 & H3)|cs s1 s2 df chain s3 s' _ IH (H1 & _ & H2 & H3) Hst (e & <- & <- & _ & Hl & He) (H4 & _ & H5 & H6)].
  - exists []. split_and!; [done|by rewrite app_nil_r|]. intros Hc. rewrite H3; [constructor|]. unfold calm in *. congruence.
  - destruct IH as (evs & <- & Hlog & Hrun). exists (evs ++ [e]). split_and!.
    + by rewrite fmap_app.
    + rewrite H4, Hl, H1, Hlog, bind_app. cbn. by rewrite app_nil_r, app_assoc.
    + intros Hc. assert (calm s3) as Hc3 by (unfold calm in *; congruence). pose proof (sd_calm _ _ Hst Hc3) as Hc2.
      assert (calm s1) as Hc1 by (unfold calm in *; congruence).
      rewrite (H6 Hc3). eapply dr_snoc; [by apply Hrun|]. rewrite <-(H3 Hc1). by apply He.
Qed.

(** The events of a run of the worker: one per chain popped, and their answers are all
    that was put into chains. *)
Definition worker_events s q s' (evs : list (Event Mem Chain)) : Prop :=
  ∃ q', queue (bt_mmio (tr s')) QUEUE_REQUEST = Some q' ∧
    q_popped q' = q_popped q ++ (ev_chain <$> evs) ∧
    mem_log (gm s') = mem_log (gm s) ++ (evs ≫= ev_log).

Lemma worker_disk_run s q ts :
  blk_ok s → queue (bt_mmio (tr s)) QUEUE_REQUEST = Some q →
  0 ≤ capacity_sectors (tr s) * SECTOR_SIZE < 2 ^ 64 → (q_backlog q < fuel)%nat →
  ∃ r s' evs, worker_loop fuel ts s = Ret (r, s') ∧
    (is_err r = true → ∃ e, PollErr e ∈ ts ∧ raw_is EINTR e = false) ∧
    worker_events s q s' evs ∧
    (ring (disk s) = false → calm s → calm s') ∧
    (calm s' → disk_run (capacity_sectors (tr s) * SECTOR_SIZE) (readonly (tr s)) (heap_exhausted W)
      (image (bw s)) evs (image (bw s'))).
Proof.
  intros Hs Hq Hcaps Hb.
  pose proof (worker_loop_wp fuel _ ts s q _ _ _ (handle_request_refines _ (readonly (tr s)) Hcaps)
    (Build_view _ _ _ _ _ Hs Hq eq_refl eq_refl eq_refl) Hb) as Hwp.
  apply wp_total_inv in Hwp as (r & s' & E & q' & cs & irq' & Hv & Hserved & Hp & Hr).
  destruct (served_disk_run _ _ _ _ _ Hserved) as (evs & Hcs & Hl & Hrun).
  exists r, s', evs. split_and!; try done; [|by intros [_ ?]%(served_no_ring _ _ _ _ Hserved)].
  exists q'. split_and!; [apply Hv|by rewrite Hcs|done].
Qed.

Lemma handle_request_flush_wp caps ro df chain s room (R : result BlockReqError Z → St → Prop) :
  blk_ok s → request_of (gm s) chain = (RqFlush, room) →
  (∀ status r s', flush_status ro df status s s' → (calm s → calm s') →
     replied (chain_head chain) (if room =? 0 then [] else [[status]]) s s' → R r s') →
  wp Total (handle_request fuel caps ro df chain) R s.
Proof.
  intros Hs E HR. unfold handle_request. unfold request_of in E. do 4 wp_step.
  destruct (reader_new (gm s) chain) as [rd|]; [|done]. cbn [map_err]. do 2 wp_step.
  destruct (writer_new (gm s) chain) as [wr|] eqn:Ewr; [|done]. cbn [map_err].
  destruct (reader_read (gm s) 16 rd) as [[raw [[]|e]] rd']; cbn [is_err is_ok negb] in E; [|done].
  do 2 wp_step. cbn [or_io map_err]. rewrite <-(writer_new_head _ _ _ Ewr) in HR.
  repeat lazymatch type of E with context [if ?b then _ else _] => destruct b; try discriminate E end.
  injection E as <-. by apply handle_flush_wp.
Qed.

End refines.

(** ** The theorems *)

(** C10: the worker of the block device refines the abstract disk. For any polls, any
    chains and any failures of the host it returns, with an error only when polling
    failed, and it answers the chains it popped, in order. If at the end no transfer of
    the ring is in flight, that is, if [disable_ring] did not drop the ring while a
    transfer that had failed was not yet complete, then those chains and answers are a
    run of the disk from the image it started with to the image it leaves. A worker
    without a ring never lets go of a transfer. *)
Theorem blk_refines_disk {Q Mem Chain Rd Wr Efd W : Type}
    `{VQ : !VirtQueue Q Mem Chain Rd Wr} `{VL : !VirtQueueLaws Q Mem Chain Rd Wr}
    `{QF : !QueueFair Q Mem Chain Rd Wr} `{EF : !EventFd Efd} `{EL : !EventFdLaws Efd}
    `{BH : !BlkHost W} `{BL : !BlkHostLaws W} (fuel : nat) `{BF : !BlkHostFair W fuel}
    (s : BlkSt Q Efd Mem W) q ts :
  blk_ok s → queue (bt_mmio (tr s)) QUEUE_REQUEST = Some q →
  0 ≤ capacity_sectors (tr s) * SECTOR_SIZE < 2 ^ 64 → (q_backlog q < fuel)%nat →
  ∃ r s' q' evs, worker_loop fuel ts s = Ret (r, s') ∧
    (is_err r = true → ∃ e, PollErr e ∈ ts ∧ raw_is EINTR e = false) ∧
    queue (bt_mmio (tr s')) QUEUE_REQUEST = Some q' ∧
    q_popped q' = q_popped q ++ (ev_chain <$> evs) ∧
    mem_log (gm s') = mem_log (gm s) ++ (evs ≫= ev_log) ∧
    (ring (disk s) = false → in_flight (bw s) = None → in_flight (bw s') = None) ∧
    (in_flight (bw s') = None →
     disk_run (capacity_sectors (tr s) * SECTOR_SIZE) (readonly (tr s)) (heap_exhausted W)
       (image (bw s)) evs (image (bw s'))).
Proof.
  intros Hs Hq Hcaps Hb.
  destruct (worker_disk_run fuel s q ts Hs Hq Hcaps Hb) as (r & s' & evs & E & Hr & (q' & Hq' & Hp & Hl) & Hnr & Hrun).
  by exists r, s', q', evs.
Qed.

(** A disk of eight sectors with [65; 66; 67; 68] in sector 1, a ring and a small scratch
    block, on a prompt or a late host. *)
Definition small_blk (late : bool) (io : list (result io_error Z)) (q : SQueue) : BlkSt SQueue Z SMem SBlk :=
  mkBlkSt (mkBlockDisk (Some 8) 7 true 512 (mkAlignedBuf 16 (replicate 16 99)) true)
    (mkSBlk (bm_store 512 [65; 66; 67; 68] ∅) ∅ io None late [] 0) []
    (mkBlockTransport (mkVirtioMmio 0 2 0 0 0 0 512 0 0 0 0 [q]) 8 false).

Lemma small_blk_ok late io q : blk_ok (small_blk late io q).
Proof. by split. Qed.

(** Write [1; 2; 3] to sector 1 through a ring that fails, read it back in pieces with an
    interrupted call, ask for the identity. *)
Definition demo_rw_q : SQueue := demo_q [demo_req 1 1 [1; 2; 3] 1; demo_req 0 1 [] 4; demo_req 8 0 [] 21].
Definition demo_rw : BlkSt SQueue Z SMem SBlk :=
  small_blk false [Err (SimpleError OtherKind "busy"); Ok 2; Ok 9; Err (OsError EINTR); Ok 1] demo_rw_q.

Lemma blk_refines_disk_witness :
  ∃ s' evs, worker_loop 9 [Polled [1]] demo_rw = Ret (Ok tt, s') ∧
    ev_chain <$> evs = [demo_req 1 1 [1; 2; 3] 1; demo_req 0 1 [] 4; demo_req 8 0 [] 21] ∧
    evs ≫= ev_log = [(3, [0]); (3, [1; 2; 3]); (3, [0]); (3, device_id_bytes); (3, [0])] ∧
    disk_run 4096 false (heap_exhausted SBlk) (image (bw demo_rw)) evs (image (bw s')).
Proof.
  destruct (blk_refines_disk 9 demo_rw demo_rw_q [Polled [1]]) as (r & s' & q' & evs & E & _ & Hq & Hp & Hl & _ & Hrun).
  - by split.
  - reflexivity.
  - zcompute.
  - cbn. lia.
  - exists s', evs. assert (r = Ok tt) as -> by (vm_compute in E; by injection E).
    split; [exact E|]. split_and!.
    + vm_compute in E. injection E as <-. vm_compute in Hq. injection Hq as <-. symmetry. exact Hp.
    + vm_compute in E. injection E as <-. change (evs ≫= ev_log) with (mem_log (gm demo_rw) ++ (evs ≫= ev_log)). by rewrite <-Hl.
    + apply Hrun. vm_compute in E. injection E as <-. reflexivity.
Defined.

(** C11: reads see the last acknowledged writes. In any life of the worker at the end of
    which no transfer of the ring is in flight ([disable_ring] did not let go of one):
    when a read request is answered with success, each byte it got is the one the last
    write to that position put there, if that write was acknowledged, or the one of the
    image at the start, if there was no write to it. *)
Theorem blk_read_your_writes {Q Mem Chain Rd Wr Efd W : Type}
    `{VQ : !VirtQueue Q Mem Chain Rd Wr} `{VL : !VirtQueueLaws Q Mem Chain Rd Wr}
    `{QF : !QueueFair Q Mem Chain Rd Wr} `{EF : !EventFd Efd} `{EL : !EventFdLaws Efd}
    `{BH : !BlkHost W} `{BL : !BlkHostLaws W} (fuel : nat) `{BF : !BlkHostFair W fuel}
    (s : BlkSt Q Efd Mem W) q ts :
  blk_ok s → queue (bt_mmio (tr s)) QUEUE_REQUEST = Some q →
  0 ≤ capacity_sectors (tr s) * SECTOR_SIZE < 2 ^ 64 → (q_backlog q < fuel)%nat →
  ∃ r s' evs, worker_loop fuel ts s = Ret (r, s') ∧ worker_events s q s' evs ∧
    (in_flight (bw s') = None → ∀ i e off data x v,
      evs !! i = Some e → ev_req e = RqRead off → ev_ans e = [data; [VIRTIO_BLK_S_OK]] →
      off ≤ x < off + zlen data → settled (image (bw s)) x (take i evs) = Some v →
      nth (Z.to_nat (x - off)) data 0 = v).
Proof.
  intros Hs Hq Hcaps Hb. destruct (worker_disk_run fuel s q ts Hs Hq Hcaps Hb) as (r & s' & evs & E & Hr & Hev & _ & Hrun).
  exists r, s', evs. split_and!; try done. intros Hc i e off data x v. eapply disk_run_read. by apply Hrun.
Qed.

Lemma blk_read_your_writes_witness :
  ∃ s' evs, worker_loop 9 [Polled [1]] demo_rw = Ret (Ok tt, s') ∧ worker_events demo_rw demo_rw_q s' evs ∧
    ∀ e data, evs !! 1%nat = Some e → ev_req e = RqRead 512 → ev_ans e = [data; [VIRTIO_BLK_S_OK]] → zlen data = 3 →
      settled (image (bw demo_rw)) 513 (take 1 evs) = Some 2 → nth 1 data 0 = 2.
Proof.
  destruct (blk_read_your_writes 9 demo_rw demo_rw_q [Polled [1]]) as (r & s' & evs & E & Hev & H).
  - by split.
  - reflexivity.
  - zcompute.
  - cbn. lia.
  - assert (in_flight (bw s') = None) as Hc by (vm_compute in E; by injection E as _ <-).
    exists s', evs. split; [vm_compute in E; vm_compute; by injection E as <- <-|]. split; [exact Hev|].
    intros e data He Hreq Hans Hlen Hv. apply (H Hc 1%nat e 512 data 513 2 He Hreq Hans); [lia|exact Hv].
Defined.

(** C12: a flush that is acknowledged on a writable disk has made the whole image durable,
    with the ring or without it, if no transfer of the ring was let go of before;
    otherwise the guest is told that it failed. A flush itself leaves nothing in flight. *)
Theorem blk_flush_durable {Q Mem Chain Rd Wr Efd W : Type}
    `{VQ : !VirtQueue Q Mem Chain Rd Wr} `{VL : !VirtQueueLaws Q Mem Chain Rd Wr} `{EF : !EventFd Efd}
    `{BH : !BlkHost W} `{BL : !BlkHostLaws W} (fuel : nat)
    caps df chain room (s : BlkSt Q Efd Mem W) :
  blk_ok s → in_flight (bw s) = None →
  request_of (gm s) chain = (RqFlush, room) → room ≠ 0 → Z.land df VIRTIO_BLK_F_FLUSH ≠ 0 →
  ∃ r s' status, handle_request fuel caps false df chain s = Ret (r, s') ∧
    image (bw s') = image (bw s) ∧ in_flight (bw s') = None ∧
    mem_log (gm s') = mem_log (gm s) ++ [(chain_head chain, [status])] ∧
    (status = VIRTIO_BLK_S_IOERR ∨ status = VIRTIO_BLK_S_OK ∧ durable (bw s') = image (bw s')).
Proof.
  intros Hs Hcalm Hreq Hroom Hdf.
  destruct (wp_total_inv (handle_request fuel caps false df chain)
    (λ _ s', ∃ status, flush_status false df status s s' ∧ calm s' ∧ replied (chain_head chain) [[status]] s s') s)
    as (r & s' & E & status & Hst & Hc & _ & Hi & Hl).
  - eapply handle_request_flush_wp; [done|exact Hreq|]. intros status r s' Hst Hc Hrep.
    rewrite (proj2 (Z.eqb_neq _ _) Hroom) in Hrep. exists status. split_and!; [done|by apply Hc|done].
  - exists r, s', status. rewrite (Hi Hc). split_and!; try done. unfold flush_status in Hst.
    rewrite (proj2 (Z.eqb_neq _ _) Hdf) in Hst. destruct Hst as [?|[? Hd]]; [by left|right]. split; [done|by apply Hd].
Qed.

Lemma blk_flush_durable_witness :
  ∃ s', handle_request 9 8 false VIRTIO_BLK_F_FLUSH (demo_req 4 0 [] 1) (small_blk true [] (demo_q [])) = Ret (Ok 1, s') ∧
    durable (bw s') = image (bw s') ∧ durable (bw s') 513 = 66 ∧ durable (bw (small_blk true [] (demo_q []))) 513 = 0.
Proof.
  destruct (blk_flush_durable 9 8 VIRTIO_BLK_F_FLUSH (demo_req 4 0 [] 1) 1 (small_blk true [] (demo_q [])))
    as (r & s' & status & E & _ & _ & Hl & H).
  - apply small_blk_ok.
  - reflexivity.
  - reflexivity.
  - discriminate.
  - discriminate.
  - exists s'. split; [vm_compute in E; vm_compute; by injection E as <- <-|].
    destruct H as [->|[_ H]].
    + exfalso. vm_compute in E. injection E as <- <-. vm_compute in Hl. discriminate Hl.
    + split; [exact H|]. split; [|reflexivity]. vm_compute in E. injection E as <- <-. reflexivity.
Defined.

(** ** A write that lands late

    On a late host the write of the ring whose wait failed is still in flight when
    [drain_ring] has taken the completions that are there. Two writes to sector 1 and a
    flush are all acknowledged; after the second write the sector holds its data, after
    the flush that of the first, and a transfer is in flight. *)
Definition late_run : prog (BlkSt SQueue Z SMem SBlk) (list Z * list Z) :=
  let request ty data := handle_request 9 8 false VIRTIO_BLK_F_FLUSH (demo_req ty 1 data 1) in
  let sector1 := gets (λ s : BlkSt SQueue Z SMem SBlk, contents_at (image (bw s)) 512 3) in
  _ ← request VIRTIO_BLK_T_OUT [1; 1; 1];
  _ ← request VIRTIO_BLK_T_OUT [2; 2; 2];
  written ← sector1;
  _ ← request VIRTIO_BLK_T_FLUSH [];
  flushed ← sector1;
  mret (written, flushed).

Lemma late_ring_write_lost :
  match late_run (small_blk true [Err (SimpleError OtherKind "interrupted")] (demo_q [])) with
  | Ret ((written, flushed), s) =>
      written = [2; 2; 2] ∧ flushed = [1; 1; 1] ∧ is_Some (in_flight (bw s)) ∧
      mem_log (gm s) = [(3, [VIRTIO_BLK_S_OK]); (3, [VIRTIO_BLK_S_OK]); (3, [VIRTIO_BLK_S_OK])]
  | _ => False
  end.
Proof. vm_compute. split_and!; try done. by eexists. Qed.

(** A read that is let go of keeps landing in the scratch block: here in the place of the
    data of a later write request. *)
Definition late_read_run : prog (BlkSt SQueue Z SMem SBlk) (list Z) :=
  let request ty sec data room := handle_request 9 8 false VIRTIO_BLK_F_FLUSH (demo_req ty sec data room) in
  _ ← request VIRTIO_BLK_T_IN 0 [] 4%nat;
  _ ← request VIRTIO_BLK_T_OUT 1 [2; 2; 2] 1%nat;
  unlocked;;
  gets (λ s, take 3 (buf_bytes (scratch (disk s)))).

Lemma late_ring_read_lands :
  match late_read_run (small_blk true [Err (SimpleError OtherKind "interrupted")] (demo_q [])) with
  | Ret (bytes, s) => bytes = [0; 0; 0] ∧ is_Some (in_flight (bw s))
  | _ => False
  end.
Proof. vm_compute. split_and!; try done. by eexists. Qed.
