(* ===== verification/VirtioNet.v ===== *)
(** * The virtio network device

    [devices/virtio_net.rs]: transmission from the guest's queue to the host TAP
    with one frame held back under back-pressure, reception from the TAP into the
    guest's buffers with one frame held back while there is none, the combined
    step of the worker with its interrupt, and the device's identity.

    The TAP is the interface [TapHost]. *)

From S2P Require Import Prelude Words Errors VirtQueue VirtioMmio Memory.
Local Open Scope Z_scope.

(** ** Constants *)

Definition VIRTIO_NET_MMIO_BASE : Z := GUEST_RAM_END + 0x1000.
Definition VIRTIO_NET_IRQ : Z := 6.
Definition VIRTIO_ID_NET : Z := 1.
Definition VIRTIO_NET_F_CSUM : Z := Z.shiftl 1 0.
Definition VIRTIO_NET_F_GUEST_CSUM : Z := Z.shiftl 1 1.
Definition VIRTIO_NET_F_MAC : Z := Z.shiftl 1 5.
Definition VIRTIO_NET_F_GUEST_TSO4 : Z := Z.shiftl 1 7.
Definition VIRTIO_NET_F_GUEST_TSO6 : Z := Z.shiftl 1 8.
Definition VIRTIO_NET_F_GUEST_ECN : Z := Z.shiftl 1 9.
Definition VIRTIO_NET_F_HOST_TSO4 : Z := Z.shiftl 1 11.
Definition VIRTIO_NET_F_HOST_TSO6 : Z := Z.shiftl 1 12.
Definition VIRTIO_NET_F_HOST_ECN : Z := Z.shiftl 1 13.
Definition VIRTIO_NET_F_STATUS : Z := Z.shiftl 1 16.
Definition BASE_FEATURES : Z := Z.lor (Z.lor VIRTIO_F_VERSION_1 VIRTIO_NET_F_MAC) VIRTIO_NET_F_STATUS.
Definition OFFLOAD_FEATURES : Z :=
  Z.lor (Z.lor (Z.lor (Z.lor (Z.lor (Z.lor (Z.lor VIRTIO_NET_F_CSUM VIRTIO_NET_F_GUEST_CSUM)
    VIRTIO_NET_F_HOST_TSO4) VIRTIO_NET_F_HOST_TSO6) VIRTIO_NET_F_HOST_ECN)
    VIRTIO_NET_F_GUEST_TSO4) VIRTIO_NET_F_GUEST_TSO6) VIRTIO_NET_F_GUEST_ECN.
Definition VIRTIO_NET_S_LINK_UP : Z := 1.
Definition QUEUE_RX : Z := 0.
Definition QUEUE_TX : Z := 1.
Definition NET_HDR_LEN : Z := 12.
Definition MAX_FRAME : Z := 65536 + 18 + NET_HDR_LEN.
Definition IFF_TAP : Z := 0x0002.
Definition IFF_NO_PI : Z := 0x1000.
Definition IFF_VNET_HDR : Z := 0x4000.
Definition TUN_F_CSUM : Z := 0x01.
Definition TUN_F_TSO4 : Z := 0x02.
Definition TUN_F_TSO6 : Z := 0x04.
Definition TUN_F_TSO_ECN : Z := 0x08.
Definition TUN_OFFLOADS : Z := Z.lor (Z.lor (Z.lor TUN_F_CSUM TUN_F_TSO4) TUN_F_TSO6) TUN_F_TSO_ECN.
Definition CONFIG_SIZE : nat := 8.

(** ** Identity *)

Definition net_advertised_features (offloads : bool) : Z :=
  if offloads then Z.lor BASE_FEATURES OFFLOAD_FEATURES else BASE_FEATURES.

Definition net_config_space (mac : list Z) : list Z :=
  let cfg := replicate CONFIG_SIZE 0 in
  let cfg := copy_at 0 mac cfg in
  copy_at 6 (le_bytes 2 VIRTIO_NET_S_LINK_UP) cfg.

(** The hash of the interface name. *)
Definition mac_hash (ifname : list Z) : Z :=
  foldl (λ h b, wrapping_mul 32 (Z.lxor h b) 0x01000193) 0x811c9dc5 ifname.

Definition mac_from_name (ifname : list Z) : list Z :=
  let h := mac_hash ifname in
  [0x52; 0x54; 0; cast 8 (Z.land (Z.shiftr h 16) 0xff); cast 8 (Z.land (Z.shiftr h 8) 0xff);
   cast 8 (Z.land h 0xff)].

(** ** State *)

Record PendingTx := mkPendingTx { ptx_head : Z; ptx_len : Z }.

Record NetState (Q Efd : Type) := mkNetState {
  net_mmio : VirtioMmio Q Efd;
  mac : list Z;
  rx_scratch : list Z;
  tx_scratch : list Z;
  pending_tx : option PendingTx;
  pending_rx_len : option Z;
}.
Arguments mkNetState {Q Efd}.
Arguments net_mmio {Q Efd}.
Arguments mac {Q Efd}.
Arguments rx_scratch {Q Efd}.
Arguments tx_scratch {Q Efd}.
Arguments pending_tx {Q Efd}.
Arguments pending_rx_len {Q Efd}.
#[export] Instance eta_NetState {Q Efd} : Eta (NetState Q Efd) := λ n,
  mkNetState (net_mmio n) (mac n) (rx_scratch n) (tx_scratch n) (pending_tx n) (pending_rx_len n).

(** The state [VirtioNet::new] starts with. *)
Definition net_state_new {Q Efd} (mmio : VirtioMmio Q Efd) (ifname : list Z) : NetState Q Efd :=
  mkNetState mmio (mac_from_name ifname) (replicate (Z.to_nat MAX_FRAME) 0) [] None None.

Class TapHost (W : Type) := {
  (** one frame per call *)
  tap_write : list Z → W → result io_error Z * W;
  tap_read : Z → W → result io_error (list Z) * W;
  (** [open], [TUNSETIFF], [TUNSETVNETHDRSZ], [TUNSETOFFLOAD] *)
  tun_open : W → result io_error Z * W;
  tun_setiff : Z → list Z → Z → W → result io_error unit * W;
  tun_setvnethdrsz : Z → Z → W → result io_error unit * W;
  tun_setoffload : Z → Z → W → result io_error unit * W;
  tun_close : Z → W → W;
}.

Record NetSt (Q Efd Mem W : Type) := mkNetSt {
  ns : NetState Q Efd;
  nw : W;
  ngm : Mem;
}.
Arguments mkNetSt {Q Efd Mem W}.
Arguments ns {Q Efd Mem W}.
Arguments nw {Q Efd Mem W}.
Arguments ngm {Q Efd Mem W}.
#[export] Instance eta_NetSt {Q Efd Mem W} : Eta (NetSt Q Efd Mem W) := λ s,
  mkNetSt (ns s) (nw s) (ngm s).

Inductive TapSend := Sent | TapWouldBlock.

(** [Result<bool, (bool, Error)>]: whether the used ring grew, on failure too. *)
Abbreviation StepResult := (result (bool * Error) bool).

Section net.
Context {Q Mem Chain Rd Wr Efd W : Type}.
Context `{VQ : !VirtQueue Q Mem Chain Rd Wr} `{EF : !EventFd Efd} `{TH : !TapHost W}.
(** bound on loops the TAP and the queues drive *)
Variable fuel : nat.

Abbreviation M := (prog (NetSt Q Efd Mem W)).

Definition nhost {A} (f : W → A * W) : M A :=
  act (λ s, let '(a, w) := f (nw s) in (a, s <| nw := w |>)).
Definition upd_ns (f : NetState Q Efd → NetState Q Efd) : M unit := modify (λ s, s <| ns ::= f |>).

Definition set_queue (index : Z) (q : Q) (n : NetState Q Efd) : NetState Q Efd :=
  n <| net_mmio ::= λ m, m <| queues ::= <[Z.to_nat index := q]> |> |>.

Definition queue_ready (index : Z) : M bool :=
  gets (λ s, match queue (net_mmio (ns s)) index with Some q => q_ready q | None => false end).

(** [queue_mut(index)] and [pop_descriptor_chain]. *)
Definition pop_chain (index : Z) : M (option Chain) :=
  act (λ s,
    match queue (net_mmio (ns s)) index with
    | None => (None, s)
    | Some q => let '(c, q') := q_pop (ngm s) q in (c, s <| ns ::= set_queue index q' |>)
    end).

(** [queue_mut(index).ok_or(..)?.add_used(mem, head, len)]. *)
Definition add_used (index head len : Z) : M (result Error unit) :=
  act (λ s,
    match queue (net_mmio (ns s)) index with
    | None => (Err (NetErr (Msg "missing queue")), s)
    | Some q =>
        let '(r, q', m') := q_add_used head len q (ngm s) in
        (map_err (λ e, NetErr (MsgExt "" e)) r, s <| ns ::= set_queue index q' |> <| ngm := m' |>)
    end).

(** *** Transmission *)

Definition tap_try_send (packet : list Z) : M (result Error TapSend) :=
  iter_prog fuel (λ _ : unit,
    r ← nhost (tap_write packet);
    match r with
    | Ok n =>
        if n =? zlen packet then mret (inr (Ok Sent))
        else mret (inr (Err (NetErr (MsgNum "tap short write" n))))
    | Err e =>
        if kind_is WouldBlock e then mret (inr (Ok TapWouldBlock))
        else if raw_is EINTR e then mret (inl tt)
        else mret (inr (Err (NetErr (MsgIo "tap write" e))))
    end) tt.

Definition complete_tx (head : Z) : M (result Error unit) := add_used QUEUE_TX head 0.

(** [complete_tx(..).map_err(|e| (used_any, e))?; used_any = true]. *)
Definition complete_or (head : Z) (used_any : bool) : M StepResult :=
  r ← complete_tx head;
  mret (match r with Ok _ => Ok true | Err e => Err (used_any, e) end).

(** [let _ = complete_tx(..); return Err((true, e))]. *)
Definition complete_and_fail (head : Z) (e : Error) : M StepResult :=
  _ ← complete_tx head;
  mret (Err (true, e)).

(** [&scratch[..n]]. *)
Definition slice_to (n : Z) (l : list Z) : M (list Z) :=
  assert_that (n <=? zlen l);;
  mret (take (Z.to_nat n) l).

(** Continue with the new [used_any], or leave with the error. *)
Definition go_on (r : StepResult) : bool + StepResult :=
  match r with Ok used => inl used | Err e => inr (Err e) end.

(** One turn of the loop of [process_tx]. *)
Definition tx_step (used_any : bool) : M (bool + StepResult) :=
  c ← pop_chain QUEUE_TX;
  match c with
  | None => mret (inr (Ok used_any))
  | Some chain =>
      let head := chain_head chain in
      m ← gets ngm;
      match reader_new m chain with
      | Err e => r ← complete_and_fail head (NetErr (MsgExt "" e)); mret (inr r)
      | Ok rd =>
          let total := reader_avail rd in
          if total <? NET_HDR_LEN then
            r ← complete_or head used_any; mret (go_on r)
          else
            upd_ns (λ n, if zlen (tx_scratch n) <? total
                         then n <| tx_scratch ::= λ l, l ++ replicate (Z.to_nat (total - zlen l)) 0 |>
                         else n);;
            let '(bs, rr, _) := reader_read m total rd in
            upd_ns (λ n, n <| tx_scratch ::= copy_at 0 bs |>);;
            match rr with
            | Err e => r ← complete_and_fail head (NetErr (MsgExt "" e)); mret (inr r)
            | Ok _ =>
                l ← gets (λ s, tx_scratch (ns s));
                packet ← slice_to total l;
                t ← tap_try_send packet;
                match t with
                | Ok Sent => r ← complete_or head used_any; mret (go_on r)
                | Ok TapWouldBlock =>
                    upd_ns (λ n, n <| pending_tx := Some (mkPendingTx head total) |>);;
                    mret (inr (Ok used_any))
                | Err e => r ← complete_and_fail head e; mret (inr r)
                end
            end
      end
  end.

(** The held frame first: [inl used_any] goes on with the loop. *)
Definition flush_pending_tx : M (bool + StepResult) :=
  p ← gets (λ s, pending_tx (ns s));
  upd_ns (λ n, n <| pending_tx := None |>);;
  match p with
  | None => mret (inl false)
  | Some pending =>
      l ← gets (λ s, tx_scratch (ns s));
      packet ← slice_to (ptx_len pending) l;
      t ← tap_try_send packet;
      match t with
      | Ok Sent => r ← complete_or (ptx_head pending) false; mret (go_on r)
      | Ok TapWouldBlock =>
          upd_ns (λ n, n <| pending_tx := Some pending |>);;
          mret (inr (Ok false))
      | Err e => r ← complete_and_fail (ptx_head pending) e; mret (inr r)
      end
  end.

Definition process_tx : M StepResult :=
  ready ← queue_ready QUEUE_TX;
  if negb ready then upd_ns (λ n, n <| pending_tx := None |>);; mret (Ok false)
  else
    p ← flush_pending_tx;
    match p with
    | inr r => mret r
    | inl used_any => iter_prog fuel tx_step used_any
    end.

(** *** Reception *)

(** One turn of the loop of [flush_pending_rx], with [used_any] and [saw_chain];
    it leaves with these and [saw_fit]. *)
Definition rx_place_step (frame_len : Z) (st : bool * bool) : M (bool * bool + result Error (bool * bool * bool)) :=
  let '(used_any, saw_chain) := st in
  c ← pop_chain QUEUE_RX;
  match c with
  | None => mret (inr (Ok (used_any, saw_chain, false)))
  | Some chain =>
      let head := chain_head chain in
      m ← gets ngm;
      match writer_new m chain with
      | Err e => mret (inr (Err (NetErr (MsgExt "" e))))
      | Ok wr =>
          if writer_avail wr <? frame_len then
            r ← add_used QUEUE_RX head 0;
            match r with
            | Ok _ => mret (inl (true, true))
            | Err e => mret (inr (Err e))
            end
          else
            l ← gets (λ s, rx_scratch (ns s));
            frame ← slice_to frame_len l;
            r ← act (λ s, let '(r, _, m') := writer_write frame wr (ngm s) in (r, s <| ngm := m' |>));
            match r with
            | Err e => mret (inr (Err (NetErr (MsgExt "" e))))
            | Ok _ =>
                r ← add_used QUEUE_RX head (cast 32 frame_len);
                match r with
                | Err e => mret (inr (Err e))
                | Ok _ =>
                    upd_ns (λ n, n <| pending_rx_len := None |>);;
                    mret (inr (Ok (true, true, true)))
                end
            end
      end
  end.

Definition flush_pending_rx : M (result Error bool) :=
  p ← gets (λ s, pending_rx_len (ns s));
  match p with
  | None => mret (Ok false)
  | Some frame_len =>
      '(used_any, saw_chain, saw_fit) ←? iter_prog fuel (rx_place_step frame_len) (false, false);
      held ← gets (λ s, pending_rx_len (ns s));
      (if bool_decide (is_Some held) && saw_chain && negb saw_fit then
         upd_ns (λ n, n <| pending_rx_len := None |>)
       else mret tt);;
      mret (Ok used_any)
  end.

(** [used_any |= flush_pending_rx(..).map_err(|e| (used_any, e))?]. *)
Definition flush_or (used_any : bool) : M StepResult :=
  r ← flush_pending_rx;
  mret (match r with Ok u => Ok (used_any || u) | Err e => Err (used_any, e) end).

Definition rx_step (used_any : bool) : M (bool + StepResult) :=
  len ← gets (λ s, zlen (rx_scratch (ns s)));
  r ← nhost (tap_read len);
  match r with
  | Ok [] => mret (inr (Ok used_any))
  | Ok bs =>
      upd_ns (λ n, n <| rx_scratch ::= copy_at 0 bs |>);;
      if zlen bs <? NET_HDR_LEN then mret (inl used_any)
      else
        upd_ns (λ n, n <| pending_rx_len := Some (zlen bs) |>);;
        f ← flush_or used_any;
        match f with
        | Err e => mret (inr (Err e))
        | Ok used =>
            held ← gets (λ s, pending_rx_len (ns s));
            if bool_decide (is_Some held) then mret (inr (Ok used)) else mret (inl used)
        end
  | Err e =>
      if kind_is WouldBlock e then mret (inr (Ok used_any))
      else if raw_is EINTR e then mret (inl used_any)
      else mret (inr (Err (used_any, NetErr (MsgIo "tap read" e))))
  end.

Definition process_rx : M StepResult :=
  ready ← queue_ready QUEUE_RX;
  if negb ready then upd_ns (λ n, n <| pending_rx_len := None |>);; mret (Ok false)
  else
    held ← gets (λ s, pending_rx_len (ns s));
    if bool_decide (is_Some held) then
      used_any ←? flush_or false;
      held ← gets (λ s, pending_rx_len (ns s));
      if bool_decide (is_Some held) then mret (Ok used_any)
      else iter_prog fuel rx_step used_any
    else iter_prog fuel rx_step false.

(** *** The worker's step *)

Definition net_signal : M (result Error unit) :=
  act (λ s, let '(r, m) := signal_used_queue (net_mmio (ns s)) in
            (r, s <| ns ::= λ n, n <| net_mmio := m |> |>)).

Definition used_of (r : StepResult) : bool := match r with Ok u => u | Err (u, _) => u end.
Definition err_of (r : StepResult) : option Error := match r with Ok _ => None | Err (_, e) => Some e end.

Definition process_net_once : M (result Error unit) :=
  t ← process_tx;
  r ← process_rx;
  let need_irq := used_of t || used_of r in
  let first_err := match err_of t with Some e => Some e | None => err_of r end in
  _ ←? (if need_irq then net_signal else mret (Ok tt));
  mret (match first_err with Some e => Err e | None => Ok tt end).

(** The poll events of the TAP: read while no frame is held, write while one is
    held and the queue is ready. *)
Definition tap_interest (n : NetState Q Efd) : bool * bool :=
  let tx_ready := match queue (net_mmio n) QUEUE_TX with Some q => q_ready q | None => false end in
  (bool_decide (pending_rx_len n = None), bool_decide (is_Some (pending_tx n)) && tx_ready).

(** Register writes of the vCPUs while the lock is free. *)
Definition unlocked (l : list (Z * list Z)) : M unit :=
  modify (λ s, s <| ns ::= λ n, n <| net_mmio ::= λ t, foldl (vcpu_access (ngm s)) t l |> |>).

(** One turn of the worker: [Polled] brings the events of the TAP and of the
    notification descriptor; the TAP counts only while it was asked for. An error of
    [process_net_once] is logged. *)
Definition worker_turn (t : Turn) : M (unit + result Error unit) :=
  unlocked (wt_before t);;
  want ← gets (λ s, tap_interest (ns s));
  unlocked (wt_during t);;
  match wt_poll t with
  | PollErr e =>
      if raw_is EINTR e then mret (inl tt) else mret (inr (Err (NetErr (MsgIo "poll" e))))
  | Polled revents =>
      let kick_ready := negb (default 0 (revents !! 1%nat) =? 0) in
      (if kick_ready then upd_ns (λ n, n <| net_mmio ::= λ m, m <| notify_fd ::= efd_read |> |>) else mret tt);;
      let tap_ready := (want.1 || want.2) && negb (default 0 (revents !! 0%nat) =? 0) in
      if negb kick_ready && negb tap_ready then mret (inl tt)
      else
        _ ← process_net_once;
        mret (inl tt)
  end.

(** The turns until the stop flag is seen. *)
Fixpoint worker_loop (ts : list Turn) : M (result Error unit) :=
  match ts with
  | [] => mret (Ok tt)
  | t :: ts =>
      r ← worker_turn t;
      match r with inl _ => worker_loop ts | inr r => mret r end
  end.

End net.

(** ** Opening the TAP *)

Section tap.
Context {W : Type} `{TH : !TapHost W}.

(** The descriptor and whether offloads are on; it is closed on failure. *)
Definition open_tap (ifname : list Z) : prog W (result Error (Z * bool)) :=
  if bool_decide (ifname = []) || (16 <=? zlen ifname) then
    mret (Err (NetErr (Msg "TAP interface name must be 1..15 bytes")))
  else
    r ← act tun_open;
    fd ←? mret (map_err (λ e, NetErr (MsgIo "open /dev/net/tun: " e)) r);
    let name := copy_at 0 ifname (replicate 16 0) in
    r ← act (tun_setiff fd name (Z.lor (Z.lor IFF_TAP IFF_NO_PI) IFF_VNET_HDR));
    match r with
    | Err e => modify (tun_close fd);; mret (Err (NetErr (MsgIo "TUNSETIFF" e)))
    | Ok _ =>
        r ← act (tun_setvnethdrsz fd NET_HDR_LEN);
        match r with
        | Err e => modify (tun_close fd);; mret (Err (NetErr (MsgIo "TUNSETVNETHDRSZ: " e)))
        | Ok _ =>
            r ← act (tun_setoffload fd TUN_OFFLOADS);
            mret (Ok (fd, is_ok r))
        end
    end.

End tap.

(** ** What the host promises *)

Class TapHostLaws (W : Type) `{TapHost W} := {
  (** observation: the frames the TAP took *)
  tap_sent : W → list (list Z);
  tap_write_all : ∀ p w w', tap_write p w = (Ok (zlen p), w') → tap_sent w' = tap_sent w ++ [p];
  tap_write_err : ∀ p w e w', tap_write p w = (Err e, w') → tap_sent w' = tap_sent w;
  tap_read_bound : ∀ len w bs w', 0 ≤ len → tap_read len w = (Ok bs, w') → zlen bs ≤ len;
  tap_read_sent : ∀ len w r w', tap_read len w = (r, w') → tap_sent w' = tap_sent w;
}.

(** The TAP has finitely many frames to read, and calls are interrupted only so
    often in a row. *)
Class TapFair (W : Type) `{TapHost W} (fuel : nat) := {
  tap_patience : W → nat;
  tap_patience_bound : ∀ w, (tap_patience w < fuel)%nat;
  tap_write_patience : ∀ p w e w', tap_write p w = (Err e, w') → raw_is EINTR e = true →
    (tap_patience w' < tap_patience w)%nat;
  tap_backlog : W → nat;
  tap_backlog_bound : ∀ w, (tap_backlog w < fuel)%nat;
  tap_read_backlog : ∀ len w r w', tap_read len w = (r, w') →
    match r with Ok bs => bs ≠ [] | Err e => raw_is EINTR e = true end → (tap_backlog w' < tap_backlog w)%nat;
}.

(** ** A scripted TAP

    Replies to writes and frames to read are given in advance; then writes are
    complete and reads would block. At most [ST_BURST] writes or reads in a row
    continue a burst. *)

Record STap := mkSTap {
  st_writes : list (result io_error Z);
  st_reads : list (result io_error (list Z));
  st_sent : list (list Z);
  st_wburst : nat;
  st_rburst : nat;
}.
#[export] Instance eta_STap : Eta STap := λ w,
  mkSTap (st_writes w) (st_reads w) (st_sent w) (st_wburst w) (st_rburst w).

Definition ST_BURST : nat := 8.

#[export] Instance Scripted_tap : TapHost STap := {
  tap_write p w :=
    match st_writes w with
    | [] => (Ok (zlen p), w <| st_sent ::= λ l, l ++ [p] |> <| st_wburst := O |>)
    | Ok n :: l =>
        let w' := w <| st_writes := l |> <| st_wburst := O |> in
        (Ok n, if n =? zlen p then w' <| st_sent ::= λ l, l ++ [p] |> else w')
    | Err e :: l =>
        let w' := w <| st_writes := l |> in
        if raw_is EINTR e && bool_decide (st_wburst w < ST_BURST)%nat
        then (Err e, w' <| st_wburst ::= S |>)
        else (Err (if raw_is EINTR e then OsError EAGAIN else e), w' <| st_wburst := O |>)
    end;
  tap_read len w :=
    match st_reads w with
    | [] => (Err (OsError EAGAIN), w <| st_rburst := O |>)
    | r :: l =>
        let r := match r with Ok bs => Ok (take (Z.to_nat len) bs) | Err e => Err e end in
        if bool_decide (st_rburst w < ST_BURST)%nat
        then (r, w <| st_reads := l |> <| st_rburst ::= S |>)
        else (Err (OsError EAGAIN), w <| st_rburst := O |>)
    end;
  tun_open w := (Ok 5, w);
  tun_setiff _ _ _ w := (Ok tt, w);
  tun_setvnethdrsz _ _ w := (Ok tt, w);
  tun_setoffload _ _ w := (Err (OsError EINVAL), w);
  tun_close _ w := w;
}.

#[export] Program Instance Scripted_tap_laws : TapHostLaws STap := { tap_sent := st_sent }.
Next Obligation.
  intros p w w'. cbn. destruct (st_writes w) as [|[n|e] l]; [by intros [= <-]|..].
  - intros [= -> <-]. by rewrite Z.eqb_refl.
  - by case_match.
Qed.
Next Obligation.
  intros p w e w'. cbn. destruct (st_writes w) as [|[n|e'] l]; [done|done|].
  case_match; by intros [= <- <-].
Qed.
Next Obligation.
  intros len w bs w' Hlen. cbn. destruct (st_reads w) as [|r l]; [done|].
  case_bool_decide; [|done]. destruct r as [bs'|e]; [|done]. intros [= <- <-].
  unfold zlen. rewrite length_take. lia.
Qed.
Next Obligation.
  intros len w r w'. cbn. destruct (st_reads w) as [|r' l]; [by intros [= <- <-]|].
  case_bool_decide; by intros [= <- <-].
Qed.

#[export] Program Instance Scripted_tap_fair n : TapFair STap (S ST_BURST + n) := {
  tap_patience w := (ST_BURST - st_wburst w)%nat;
  tap_backlog w := (ST_BURST - st_rburst w)%nat;
}.
Next Obligation. intros. unfold ST_BURST. lia. Qed.
Next Obligation.
  intros n p w e w'. cbn. destruct (st_writes w) as [|[k|e'] l]; [done|done|].
  destruct (raw_is EINTR e') eqn:Ee; cbn; [case_bool_decide|]; intros [= <- <-] He; try done.
  - unfold ST_BURST in *. cbn. unfold set_field. cbn. lia.
  - by rewrite Ee in He.
Qed.
Next Obligation. intros. unfold ST_BURST. lia. Qed.
Next Obligation.
  intros n len w r w'. cbn. destruct (st_reads w) as [|r' l]; [by intros [= <- <-]|].
  case_bool_decide; intros [= <- <-]; [|done]. intros _. unfold ST_BURST in *. cbn. unfold set_field. cbn. lia.
Qed.
