(* ===== verification/VirtioNetFacts.v ===== *)
(** * Correctness of the network device

    The worker's step returns, never slices out of range, returns every
    transmit chain exactly once or holds it, gives the TAP the frames the driver
    wrote, puts a received frame whole into the first buffer that takes it, and
    signals the driver whenever a step succeeded with a chain returned. And the
    cases where a chain or an interrupt is lost. *)

From S2P Require Import Prelude Words Errors VirtQueue VirtioMmio VirtioNet.
Local Open Scope Z_scope.

(** ** The invariant *)

(** The held frames lie inside their scratch buffers. *)
Record net_ok {Q Efd} (n : NetState Q Efd) : Prop := {
  no_rx : zlen (rx_scratch n) = MAX_FRAME;
  no_prx : ∀ k, pending_rx_len n = Some k → NET_HDR_LEN ≤ k ≤ MAX_FRAME;
  no_ptx : ∀ p, pending_tx n = Some p → NET_HDR_LEN ≤ ptx_len p ≤ zlen (tx_scratch n);
}.

Lemma net_state_new_ok {Q Efd} (m : VirtioMmio Q Efd) ifname : net_ok (net_state_new m ifname).
Proof. split; [by unfold net_state_new; cbn -[MAX_FRAME]; unfold zlen; rewrite length_replicate|done|done]. Qed.

Section net_proofs.
Context {Q Mem Chain Rd Wr Efd W : Type}.
Context `{VQ : !VirtQueue Q Mem Chain Rd Wr} `{VL : !VirtQueueLaws Q Mem Chain Rd Wr}.
Context `{QF : !QueueFair Q Mem Chain Rd Wr}.
Context `{EF : !EventFd Efd} `{EL : !EventFdLaws Efd} `{TH : !TapHost W} `{TL : !TapHostLaws W}.
Variable fuel : nat.
Context `{TF : !TapFair W fuel}.
Abbreviation St := (NetSt Q Efd Mem W).
Implicit Types (s : St) (q : Q).

(** The two queues. *)
Definition rxq s : option Q := queue (net_mmio (ns s)) QUEUE_RX.
Definition txq s : option Q := queue (net_mmio (ns s)) QUEUE_TX.

(** A transmit queue: every chain popped was returned, but for the held one. *)
Definition tx_balanced s : Prop :=
  ∃ q, txq s = Some q ∧
    chain_head <$> q_popped q = (q_used_log q).*1 ++ match pending_tx (ns s) with Some p => [ptx_head p] | None => [] end.

Lemma wp_nhost {A} t (f : W → A * W) (R : A → St → Prop) s :
  (∀ a w, f (nw s) = (a, w) → R a (s <| nw := w |>)) → wp t (nhost f) R s.
Proof.
  intros H. unfold nhost. apply wp_act. intros a s'. destruct (f (nw s)) as [a' w] eqn:E.
  intros [= <- <-]. by apply H.
Qed.

Lemma queue_set_eq i q q' (n : NetState Q Efd) :
  queue (net_mmio n) i = Some q → queue (net_mmio (set_queue i q' n)) i = Some q'.
Proof.
  intros H. unfold queue in *. cbn. rewrite list_lookup_insert_eq; [done|]. by eapply lookup_lt_Some.
Qed.

Lemma queue_set_ne i j q' (n : NetState Q Efd) :
  0 ≤ i → 0 ≤ j → i ≠ j → queue (net_mmio (set_queue i q' n)) j = queue (net_mmio n) j.
Proof. intros Hi Hj Hne. unfold queue. cbn. rewrite list_lookup_insert_ne; [done|lia]. Qed.

Lemma pop_chain_wp t i q s (R : option Chain → St → Prop) :
  queue (net_mmio (ns s)) i = Some q →
  (∀ c q', q_pop (ngm s) q = (c, q') → q_used_log q' = q_used_log q →
     q_popped q' = q_popped q ++ match c with Some c => [c] | None => [] end →
     (is_Some c → (q_backlog q' < q_backlog q)%nat) → (q_backlog q' ≤ q_backlog q)%nat →
     R c (s <| ns ::= set_queue i q' |>)) →
  wp t (pop_chain i) R s.
Proof.
  intros Hq HR. unfold pop_chain. apply wp_act. intros c s'. rewrite Hq.
  pose proof (q_pop_backlog_le (ngm s) q) as Hle.
  destruct (q_pop (ngm s) q) as [c' q'] eqn:Ep. destruct (q_pop_logs _ _ _ _ Ep) as [H1 H2].
  intros [= <- <-]. apply HR; try done. intros [x ->]. by eapply q_pop_backlog.
Qed.

Lemma add_used_wp t i q head len s (R : result Error unit → St → Prop) :
  queue (net_mmio (ns s)) i = Some q →
  (∀ r q' m', q_popped q' = q_popped q →
     q_used_log q' = q_used_log q ++ match r with Ok _ => [(head, len)] | Err _ => [] end →
     (q_backlog q' ≤ q_backlog q)%nat → (r = Ok tt → mem_log m' = mem_log (ngm s)) →
     R r (s <| ns ::= set_queue i q' |> <| ngm := m' |>)) →
  wp t (add_used i head len) R s.
Proof.
  intros Hq HR. unfold add_used. apply wp_act. intros r s'. rewrite Hq.
  pose proof (q_add_used_backlog head len q (ngm s)) as Hb.
  destruct (q_add_used head len q (ngm s)) as [[u q'] m'] eqn:E. cbn in Hb. intros [= <- <-].
  destruct u as [[]|e].
  - destruct (q_add_used_ok _ _ _ _ _ _ E) as (H1 & H2 & H3). by apply HR.
  - destruct (q_add_used_err _ _ _ _ _ _ _ E) as (H1 & H2 & _). apply HR; try done. by rewrite H1, app_nil_r.
Qed.

Lemma tap_try_send_wp packet s (R : result Error TapSend → St → Prop) :
  (∀ r w, (match r with
           | Ok Sent => tap_sent w = tap_sent (nw s) ++ [packet]
           | Ok TapWouldBlock => tap_sent w = tap_sent (nw s)
           | Err _ => True
           end) → R r (s <| nw := w |>)) →
  wp Total (tap_try_send fuel packet) R s.
Proof.
  intros HR. unfold tap_try_send.
  apply (wp_iter Total (λ _ s', ∃ w, s' = s <| nw := w |> ∧ tap_sent w = tap_sent (nw s)) (λ _ s', tap_patience (nw s'))).
  - exists (nw s). by destruct s.
  - apply tap_patience_bound.
  - intros _ s1 (w1 & -> & Hw1). wp_step. apply wp_nhost. intros r w E. cbn in E.
    destruct r as [n|e]; cbn beta iota.
    + destruct (Z.eqb_spec n (zlen packet)) as [->|]; wp_step; [|by apply (HR (Err _))].
      apply (HR (Ok Sent)). by rewrite (tap_write_all _ _ _ E), Hw1.
    + pose proof (tap_write_err _ _ _ _ E) as Hs.
      wp_step; [wp_step; apply (HR (Ok TapWouldBlock)); congruence|].
      destruct (raw_is EINTR e) eqn:Ee; wp_step; [|by apply (HR (Err _))].
      split; [exists w; split; [done|congruence]|]. cbn. by eapply tap_write_patience.
Qed.

Lemma slice_to_wp t n l s (R : list Z → St → Prop) :
  n ≤ zlen l → R (take (Z.to_nat n) l) s → wp t (slice_to n l) R s.
Proof. intros Hn HR. unfold slice_to. wp_step. apply wp_assert; [by apply Z.leb_le|]. by wp_step. Qed.

(** *** Transmission *)

(** Whether the balance of the transmit chains is followed. *)
Variable bal : Prop.

(** What transmission leaves alone. *)
Definition tx_frame s s' : Prop :=
  rxq s' = rxq s ∧ irq_fd (net_mmio (ns s')) = irq_fd (net_mmio (ns s)) ∧
  pending_rx_len (ns s') = pending_rx_len (ns s) ∧ rx_scratch (ns s') = rx_scratch (ns s).

(** The transmit queue, which was [q0]: [used] is set if a chain was returned; the
    popped chains are those returned followed by [held]. *)
Definition tx_state q0 (used : bool) (held : list Z) s : Prop :=
  ∃ q l, txq s = Some q ∧ q_used_log q = q_used_log q0 ++ l ∧ (l ≠ [] → used = true) ∧
    (q_backlog q ≤ q_backlog q0)%nat ∧ (bal → chain_head <$> q_popped q = (q_used_log q).*1 ++ held).

(** Between two turns. *)
Definition tx_inv s0 q0 (used : bool) s : Prop :=
  net_ok (ns s) ∧ tx_frame s0 s ∧ pending_tx (ns s) = None ∧ tx_state q0 used [] s.

(** At the end. *)
Definition tx_post s0 q0 (r : StepResult) s : Prop :=
  net_ok (ns s) ∧ tx_frame s0 s ∧
  match r with
  | Ok used => tx_state q0 used (match pending_tx (ns s) with Some p => [ptx_head p] | None => [] end) s
  | Err (used, _) => ∃ held, tx_state q0 used held s
  end.

Lemma txq_set q q' s : txq s = Some q → txq (s <| ns ::= set_queue QUEUE_TX q' |>) = Some q'.
Proof. apply queue_set_eq. Qed.

Lemma rxq_set_tx q' s : rxq (s <| ns ::= set_queue QUEUE_TX q' |>) = rxq s.
Proof. by apply queue_set_ne. Qed.

Lemma tx_frame_set q' s0 s m : tx_frame s0 s → tx_frame s0 (s <| ns ::= set_queue QUEUE_TX q' |> <| ngm := m |>).
Proof. intros (H1 & H2 & H3 & H4). split_and!; try done. etrans; [apply (rxq_set_tx q' s)|done]. Qed.

Lemma complete_or_wp s0 q0 used head s (R : StepResult → St → Prop) :
  net_ok (ns s) → tx_frame s0 s → tx_state q0 used [head] s → pending_tx (ns s) = None →
  (∀ s', tx_inv s0 q0 true s' → nw s' = nw s →
     (∀ q q', txq s = Some q → txq s' = Some q' → (q_backlog q' ≤ q_backlog q)%nat) → R (Ok true) s') →
  (∀ e s', tx_post s0 q0 (Err (used, e)) s' → R (Err (used, e)) s') →
  wp Total (complete_or head used) R s.
Proof.
  intros Hok Hf (q & l & Hq & Hu & Hl & Hle & Hb) Hp Hyes Hno. unfold complete_or, complete_tx. wp_step.
  eapply add_used_wp; [exact Hq|]. intros r q' m' Hp' Hu' Hbk' _. wp_step.
  assert (txq (s <| ns ::= set_queue QUEUE_TX q' |> <| ngm := m' |>) = Some q') as Hq' by (by apply (txq_set q q' s)).
  destruct r as [[]|e].
  - apply Hyes; [|done|intros ? ? [= <-]%(eq_trans (eq_sym Hq)) [= <-]%(eq_trans (eq_sym Hq')); done].
    split_and!; [by destruct Hok|by apply (tx_frame_set q')|done|].
    exists q', (l ++ [(head, 0)]). split_and!; [done|by rewrite Hu', Hu, app_assoc|done|lia|].
    intros HB. by rewrite Hp', Hb, Hu', fmap_app, app_nil_r.
  - apply Hno. split_and!; [by destruct Hok|by apply (tx_frame_set q')|].
    rewrite app_nil_r in Hu'. exists [head], q', l. split_and!; try congruence; [done|lia|].
    intros HB. rewrite Hp', Hu'. auto.
Qed.

Lemma complete_and_fail_wp s0 q0 used head e s (R : StepResult → St → Prop) :
  net_ok (ns s) → tx_frame s0 s → tx_state q0 used [head] s →
  (∀ s', tx_post s0 q0 (Err (true, e)) s' → R (Err (true, e)) s') →
  wp Total (complete_and_fail head e) R s.
Proof.
  intros Hok Hf (q & l & Hq & Hu & Hl & Hle & Hb) HR. unfold complete_and_fail, complete_tx. wp_step.
  eapply add_used_wp; [exact Hq|]. intros r q' m' Hp' Hu' Hbk' _. wp_step.
  apply HR. split_and!; [by destruct Hok|by apply (tx_frame_set q')|].
  destruct r as [[]|e'].
  - exists [], q', (l ++ [(head, 0)]). split_and!; [by apply (txq_set q q' s)|by rewrite Hu', Hu, app_assoc|done|lia|].
    intros HB. by rewrite Hp', Hb, Hu', fmap_app, app_nil_r.
  - rewrite app_nil_r in Hu'. exists [head], q', l. split_and!; [by apply (txq_set q q' s)|congruence|done|lia|].
    intros HB. rewrite Hp', Hu'. auto.
Qed.

(** The scratch buffer holds the frame after the read. *)
Lemma tx_fill_len (l bs : list Z) total :
  zlen bs = total →
  let l' := if zlen l <? total then l ++ replicate (Z.to_nat (total - zlen l)) 0 else l in
  take (Z.to_nat total) (copy_at 0 bs l') = bs ∧ zlen l ≤ zlen (copy_at 0 bs l') ∧ total ≤ zlen (copy_at 0 bs l').
Proof.
  intros Hbs l'. assert (total ≤ zlen l' ∧ zlen l ≤ zlen l') as [Hl' Hge].
  { unfold l', zlen in *. destruct (Z.ltb_spec (Z.of_nat (length l)) total); [|lia].
    rewrite length_app, length_replicate. lia. }
  unfold zlen in *. rewrite length_copy_at by lia.
  split_and!; [|lia|lia]. unfold copy_at. rewrite take_0, app_nil_l, take_app_length'; [done|lia].
Qed.

(** Room for the frame and the frame itself. *)
Definition tx_stage (total : Z) (bs : list Z) (n : NetState Q Efd) : NetState Q Efd :=
  (if zlen (tx_scratch n) <? total
   then n <| tx_scratch ::= λ l, l ++ replicate (Z.to_nat (total - zlen l)) 0 |> else n)
  <| tx_scratch ::= copy_at 0 bs |>.

Lemma tx_stage_spec total bs n :
  zlen bs = total → net_ok n → pending_tx n = None →
  let n' := tx_stage total bs n in
  take (Z.to_nat total) (tx_scratch n') = bs ∧ total ≤ zlen (tx_scratch n') ∧ net_ok n' ∧
  n' = n <| tx_scratch := tx_scratch n' |>.
Proof.
  intros Hbs [H1 H2 H3] Hp n'. destruct (tx_fill_len (tx_scratch n) bs total Hbs) as (T1 & T2 & T3).
  assert (tx_scratch n' = copy_at 0 bs (if zlen (tx_scratch n) <? total
    then tx_scratch n ++ replicate (Z.to_nat (total - zlen (tx_scratch n))) 0 else tx_scratch n)) as Hsc.
  { unfold n', tx_stage. by destruct (zlen (tx_scratch n) <? total). }
  assert (n' = n <| tx_scratch := tx_scratch n' |>) as Hn'.
  { unfold n', tx_stage. by destruct (zlen (tx_scratch n) <? total). }
  rewrite Hsc. split_and!; [done|done| |by rewrite <-Hsc].
  rewrite Hn'. split; cbn; try done. intros p E. congruence.
Qed.

Lemma tx_step_wp s0 q0 used s (R : bool + StepResult → St → Prop) :
  tx_inv s0 q0 used s →
  (∀ s', tx_post s0 q0 (Ok used) s' → R (inr (Ok used)) s') →
  (∀ b e s', tx_post s0 q0 (Err (b, e)) s' → R (inr (Err (b, e))) s') →
  (∀ s' q q', tx_inv s0 q0 true s' → txq s = Some q → txq s' = Some q' → (q_backlog q' < q_backlog q)%nat →
     R (inl true) s') →
  wp Total (tx_step fuel used) R s.
Proof.
  intros (Hok & Hf & Hp & q & l & Hq & Hu & Hl & Hle0 & Hb) Hdone Hfail Hmore.
  unfold tx_step. wp_step. eapply pop_chain_wp; [exact Hq|]. intros c q1 _ Hu1 Hp1 Hlt Hle1.
  set (s1 := s <| ns ::= set_queue QUEUE_TX q1 |>).
  assert (txq s1 = Some q1) as Hq1 by (by apply (txq_set q)).
  assert (tx_frame s0 s1) as Hf1 by (by apply (tx_frame_set q1 s0 s (ngm s))).
  assert (net_ok (ns s1)) as Hok1 by (by destruct Hok).
  destruct c as [chain|]; cbn beta iota.
  2:{ wp_step. apply Hdone. split_and!; try done. cbn. rewrite Hp. exists q1, l.
      rewrite app_nil_r in Hp1. split_and!; try congruence; [done|lia|]. intros HB. rewrite Hp1, Hu1. auto. }
  specialize (Hlt ltac:(by eexists)).
  assert (∀ s2, txq s2 = Some q1 → tx_state q0 used [chain_head chain] s2) as Hst.
  { intros s2 H2. exists q1, l. split_and!; try congruence; [done|lia|]. intros HB. by rewrite Hp1, Hu1, fmap_app, Hb, app_nil_r. }
  do 2 wp_step. destruct (reader_new (ngm s1) chain) as [rd|e] eqn:Erd.
  2:{ wp_step. eapply complete_and_fail_wp; [done|done|by apply Hst|]. intros s2 H2. wp_step. by apply Hfail. }
  wp_step.
  { wp_step. eapply complete_or_wp; [done|done|by apply Hst|done|..].
    - intros s2 Hi _ Hbk. wp_step. destruct Hi as (? & ? & ? & q2 & l2 & Hq2 & ?).
      eapply (Hmore s2 q q2); [by split_and!; try done; exists q2, l2|done|done|].
      specialize (Hbk q1 q2 Hq1 Hq2). lia.
    - intros e s2 H2. wp_step. by apply Hfail. }
  apply Z.ltb_ge in Hif. pose proof (reader_avail_nonneg rd).
  unfold upd_ns. do 2 wp_step.
  destruct (reader_read_ok (ngm s1) (reader_avail rd) rd) as (bs & rd' & Er & Hlen & _); [lia|]. fold (zlen bs) in Hlen.
  rewrite Er. do 3 wp_step.
  match goal with |- wp _ _ _ ?x => change x with (s1 <| ns ::= tx_stage (reader_avail rd) bs |>) end.
  destruct (tx_stage_spec (reader_avail rd) bs (ns s1) Hlen Hok1 Hp) as (Ht1 & Ht2 & Ht3 & Ht4).
  set (s2 := s1 <| ns ::= tx_stage (reader_avail rd) bs |>).
  assert (ns s2 = (ns s1) <| tx_scratch := tx_scratch (tx_stage (reader_avail rd) bs (ns s1)) |>) as Hns2 by exact Ht4.
  assert (txq s2 = Some q1) as Hq2 by (unfold txq; by rewrite Hns2).
  assert (tx_frame s0 s2) as Hf2.
  { destruct Hf1 as (? & ? & ? & ?). unfold tx_frame, rxq. rewrite Hns2. done. }
  wp_steps. apply slice_to_wp; [done|]. wp_step. apply tap_try_send_wp. intros t w Hw.
  destruct t as [[]|e]; cbn beta iota.
  - wp_step. eapply complete_or_wp; [done|done|by apply Hst|change (pending_tx (ns s2) = None); by rewrite Hns2|..].
    + intros s3 Hi _ Hbk. wp_step. destruct Hi as (? & ? & ? & q3 & l3 & Hq3 & ?).
      eapply (Hmore s3 q q3); [by split_and!; try done; exists q3, l3|done|done|].
      specialize (Hbk q1 q3 Hq2 Hq3). lia.
    + intros e s3 H3. wp_step. by apply Hfail.
  - unfold upd_ns. do 3 wp_step. apply Hdone. split_and!; [|done|by apply Hst].
    destruct Ht3 as [N1 N2 N3]. split; try done. cbn. intros p [= <-]. done.
  - wp_step. eapply complete_and_fail_wp; [done|done|by apply Hst|]. intros s3 H3. wp_step. by apply Hfail.
Qed.

Lemma flush_pending_tx_wp s q (R : bool + StepResult → St → Prop) :
  net_ok (ns s) → txq s = Some q →
  (bal → chain_head <$> q_popped q = (q_used_log q).*1 ++ match pending_tx (ns s) with Some p => [ptx_head p] | None => [] end) →
  (∀ r s', tx_post s q r s' → R (inr r) s') →
  (∀ used s', tx_inv s q used s' → (∀ q', txq s' = Some q' → (q_backlog q' ≤ q_backlog q)%nat) → R (inl used) s') →
  wp Total (flush_pending_tx fuel) R s.
Proof.
  intros Hok Hq Hb Hend Hgo. unfold flush_pending_tx, upd_ns. do 4 wp_step.
  set (s1 := s <| ns ::= λ n, n <| pending_tx := None |> |>).
  assert (net_ok (ns s1)) as Hok1 by (by destruct Hok).
  assert (∀ used, tx_state q used match pending_tx (ns s) with Some p => [ptx_head p] | None => [] end s1) as Hst.
  { intros used. exists q, []. split_and!; try done; by rewrite app_nil_r. }
  destruct (pending_tx (ns s)) as [p|] eqn:Ep; cbn beta iota.
  2:{ wp_step. apply Hgo; [|intros q' [= <-]%(eq_trans (eq_sym Hq)); done]. split_and!; done. }
  do 2 wp_step. wp_step. apply slice_to_wp; [by apply (no_ptx _ Hok)|].
  wp_step. apply tap_try_send_wp. intros t w Hw. destruct t as [[]|e]; cbn beta iota.
  - wp_step. eapply complete_or_wp; [done|done|by apply Hst|done|..].
    + intros s3 Hi _ Hbk. wp_step. apply Hgo; [done|]. intros q' Hq'. by apply Hbk.
    + intros e s3 H3. wp_step. by apply Hend.
  - do 3 wp_step. apply Hend. split_and!; [|done|apply Hst]. destruct Hok. split; cbn; try done.
    intros p' [= <-]. auto.
  - wp_step. eapply complete_and_fail_wp; [done|done|by apply (Hst true)|]. intros s3 H3. wp_step. by apply Hend.
Qed.

Lemma process_tx_wp s q :
  net_ok (ns s) → txq s = Some q →
  (bal → chain_head <$> q_popped q = (q_used_log q).*1 ++ match pending_tx (ns s) with Some p => [ptx_head p] | None => [] end) →
  (q_backlog q < fuel)%nat → q_ready q = true →
  wp Total (process_tx fuel) (tx_post s q) s.
Proof.
  intros Hok Hq Hb Hfuel Hr. unfold process_tx, queue_ready. do 2 wp_step. fold (txq s). rewrite Hq, Hr. cbn [negb].
  wp_step. eapply flush_pending_tx_wp; [done|done|done|intros r s' H; by wp_step|].
  intros used s1 Hi Hbk.
  apply (wp_iter Total (λ used s1, tx_inv s q used s1)
          (λ _ s1, match txq s1 with Some q1 => q_backlog q1 | None => O end)); [done| |].
  - destruct Hi as (_ & _ & _ & q1 & l & Hq1 & _). rewrite Hq1. specialize (Hbk q1 Hq1). lia.
  - intros used' s2 Hi2. eapply tx_step_wp; [exact Hi2|done|done|].
    intros s3 q2 q3 Hi3 -> -> Hlt. done.
Qed.

(** *** Reception *)

(** What reception leaves alone. *)
Definition rx_frame s s' : Prop :=
  txq s' = txq s ∧ irq_fd (net_mmio (ns s')) = irq_fd (net_mmio (ns s)) ∧
  pending_tx (ns s') = pending_tx (ns s) ∧ tx_scratch (ns s') = tx_scratch (ns s).

(** The receive queue, which was [q0]: the chains of [l] were popped and returned. *)
Definition rx_returned q0 (l : list (Z * Z)) s : Prop :=
  ∃ q, rxq s = Some q ∧ q_used_log q = q_used_log q0 ++ l ∧
    chain_head <$> q_popped q = (chain_head <$> q_popped q0) ++ l.*1 ∧ (q_backlog q ≤ q_backlog q0)%nat.

Lemma rxq_set q q' s : rxq s = Some q → rxq (s <| ns ::= set_queue QUEUE_RX q' |>) = Some q'.
Proof. apply queue_set_eq. Qed.

Lemma rx_frame_set q' s0 s m : rx_frame s0 s → rx_frame s0 (s <| ns ::= set_queue QUEUE_RX q' |> <| ngm := m |>).
Proof. intros (H1 & H2 & H3 & H4). split_and!; try done. etrans; [by apply (queue_set_ne QUEUE_RX QUEUE_TX q' (ns s))|done]. Qed.

(** The buffer of a chain takes fewer than [k] bytes, or at least [k]. *)
Definition too_small (k : Z) (c : Chain) : Prop := ∃ m wr, writer_new m c = Ok wr ∧ writer_avail wr < k.
Definition has_room (k : Z) (c : Chain) : Prop := ∃ m wr, writer_new m c = Ok wr ∧ k ≤ writer_avail wr.

(** The entries of the used ring for chains that are given back empty. *)
Definition given_empty (cs : list Chain) : list (Z * Z) := (λ c, (chain_head c, 0)) <$> cs.

(** The chains [cs] were popped since [q0]. *)
Definition rx_popped q0 (cs : list Chain) s : Prop := ∃ q, rxq s = Some q ∧ q_popped q = q_popped q0 ++ cs.

(** The frame was put whole into one buffer with room, after buffers that were too small. *)
Definition rx_delivered (k : Z) (frame : list Z) q0 s s' (l : list (Z * Z)) : Prop :=
  ∃ small c, l = given_empty small ++ [(chain_head c, cast 32 k)] ∧ rx_popped q0 (small ++ [c]) s' ∧
    Forall (too_small k) small ∧ has_room k c ∧
    mem_log (ngm s') = mem_log (ngm s) ++ [(chain_head c, frame)] ∧ pending_rx_len (ns s') = None.

(** It was not: only buffers that were too small, if any. *)
Definition rx_undelivered (k : Z) q0 s s' (l : list (Z * Z)) : Prop :=
  ∃ small, l = given_empty small ∧ rx_popped q0 small s' ∧ Forall (too_small k) small ∧
    mem_log (ngm s') = mem_log (ngm s).

(** The receive queue is there, with no more chains than [q0]. *)
Definition rx_kept q0 s : Prop := ∃ q, rxq s = Some q ∧ (q_backlog q ≤ q_backlog q0)%nat.

(** The driver offers no further buffer. *)
Definition rx_exhausted s : Prop := ∃ q q' m, rxq s = Some q' ∧ q_pop m q = (None, q').

(** Between two turns of [flush_pending_rx]. *)
Definition rx_inv s0 q0 k (st : bool * bool) s : Prop :=
  net_ok (ns s) ∧ rx_frame s0 s ∧ rx_scratch (ns s) = rx_scratch (ns s0) ∧ pending_rx_len (ns s) = Some k ∧
  nw s = nw s0 ∧
  ∃ l, rx_returned q0 l s ∧ rx_undelivered k q0 s0 s l ∧ st = (bool_decide (l ≠ []), bool_decide (l ≠ [])).

Lemma rx_place_step_wp s0 q0 k st s (R : bool * bool + result Error (bool * bool * bool) → St → Prop) :
  rx_inv s0 q0 k st s →
  (∀ s' l, rx_inv s0 q0 k (bool_decide (l ≠ []), bool_decide (l ≠ [])) s' →
     rx_returned q0 l s' → rx_undelivered k q0 s0 s' l → rx_exhausted s' →
     R (inr (Ok (bool_decide (l ≠ []), bool_decide (l ≠ []), false))) s') →
  (∀ s' l, net_ok (ns s') → rx_frame s0 s' → nw s' = nw s0 → rx_returned q0 l s' →
     rx_delivered k (take (Z.to_nat k) (rx_scratch (ns s0))) q0 s0 s' l →
     R (inr (Ok (true, true, true))) s') →
  (∀ e s', net_ok (ns s') → rx_frame s0 s' → nw s' = nw s0 → rx_kept q0 s' → R (inr (Err e)) s') →
  (∀ s' q q', rx_inv s0 q0 k (true, true) s' → rxq s = Some q → rxq s' = Some q' →
     (q_backlog q' < q_backlog q)%nat → R (inl (true, true)) s') →
  wp Total (rx_place_step k st) R s.
Proof.
  intros (Hok & Hf & Hsc & Hpd & Hnw & l & (q & Hq & Hu & Hp & Hbk) & (small & -> & (qx & Hqx & Hcs) & Hz & Hm) & ->) Hnone Hfit Herr Hmore.
  rewrite Hq in Hqx. injection Hqx as <-. set (l := given_empty small) in *.
  unfold rx_place_step. wp_step. eapply pop_chain_wp; [exact Hq|]. intros c q1 Epop Hu1 Hp1 Hlt Hle1.
  set (s1 := s <| ns ::= set_queue QUEUE_RX q1 |>).
  assert (rxq s1 = Some q1) as Hq1 by (by apply (rxq_set q)).
  assert (rx_frame s0 s1) as Hf1 by (by apply (rx_frame_set q1 s0 s (ngm s))).
  assert (net_ok (ns s1)) as Hok1 by (by destruct Hok).
  destruct c as [chain|]; cbn beta iota.
  2:{ wp_step. rewrite app_nil_r in Hp1.
      assert (rx_returned q0 l s1) by (exists q1; split_and!; try congruence; lia).
      assert (rx_undelivered k q0 s0 s1 l) by (exists small; split_and!; try done; exists q1; by rewrite Hp1).
      apply (Hnone s1 l); [|done|done|by exists q, q1, (ngm s)]. split_and!; try done. by exists l. }
  specialize (Hlt ltac:(by eexists)).
  do 2 wp_step. destruct (writer_new (ngm s1) chain) as [wr|e] eqn:Ew.
  2:{ wp_step. apply Herr; try done. exists q1. split; [done|lia]. }
  wp_step.
  - (* too small *)
    apply Z.ltb_lt in Hif. wp_step. eapply add_used_wp; [exact Hq1|]. intros r q2 m2 Hp2 Hu2 Hbk2 Hm2.
    assert (rxq (s1 <| ns ::= set_queue QUEUE_RX q2 |> <| ngm := m2 |>) = Some q2) as Hq2 by (by apply (rxq_set q1 q2 s1)).
    destruct r as [[]|e]; cbn beta iota; wp_step.
    2:{ apply Herr; [by destruct Hok1|by apply (rx_frame_set q2 s0 s1)|done|]. exists q2. split; [done|lia]. }
    eapply (Hmore _ q q2); [|done|done|lia].
    split_and!; [by destruct Hok1|by apply (rx_frame_set q2 s0 s1)|done|done|done|].
    exists (l ++ [(chain_head chain, 0)]). split_and!.
    + exists q2. split_and!; [done|by rewrite Hu2, Hu1, Hu, app_assoc| |lia].
      by rewrite Hp2, Hp1, !fmap_app, Hp, app_assoc.
    + exists (small ++ [chain]). split_and!; [by unfold l, given_empty; rewrite fmap_app| | |cbn; by rewrite Hm2].
      * exists q2. split; [done|]. by rewrite Hp2, Hp1, Hcs, app_assoc.
      * apply Forall_app. split; [done|]. apply Forall_singleton. exists (ngm s1), wr. split; [done|lia].
    + by rewrite bool_decide_eq_true_2 by (by destruct l).
  - (* it fits *)
    apply Z.ltb_ge in Hif. pose proof (no_prx _ Hok k Hpd) as Hk.
    do 3 wp_step. apply slice_to_wp; [cbn; rewrite (no_rx _ Hok); lia|].
    assert (rx_scratch (ns s1) = rx_scratch (ns s0)) as -> by done.
    set (frame := take (Z.to_nat k) (rx_scratch (ns s0))).
    assert (zlen frame = k) as Hlen.
    { apply zlen_take. rewrite <-Hsc, (no_rx _ Hok). unfold NET_HDR_LEN in Hk. lia. }
    wp_step. apply wp_act. intros r s2.
    destruct (writer_write_ok (ngm s1) frame wr) as (wr' & m2 & -> & _ & _ & Hlog); [unfold zlen in Hlen; lia|].
    intros [= <- <-]. cbn beta iota. wp_step.
    eapply add_used_wp; [exact Hq1|]. intros r q2 m3 Hp2 Hu2 Hbk2 Hm3.
    assert (rx_frame s0 (s1 <| ns ::= set_queue QUEUE_RX q2 |> <| ngm := m3 |>)) by (by apply (rx_frame_set q2 s0 s1)).
    destruct r as [[]|e]; cbn beta iota; [|wp_step].
    2:{ apply Herr; [by destruct Hok1|done|done|]. exists q2. split; [by apply (rxq_set q1 q2 s1)|lia]. }
    unfold upd_ns. do 3 wp_step. apply (Hfit _ (l ++ [(chain_head chain, cast 32 k)])); [|done|done| |].
    + destruct Hok1. by split.
    + exists q2. split_and!; [by apply (rxq_set q1 q2 s1)|by rewrite Hu2, Hu1, Hu, app_assoc| |lia].
      by rewrite Hp2, Hp1, !fmap_app, Hp, app_assoc.
    + exists small, chain. split_and!; try done; [|by exists (ngm s1), wr|].
      { exists q2. split; [by apply (rxq_set q1 q2 s1)|]. by rewrite Hp2, Hp1, Hcs, app_assoc. }
      cbn. rewrite (Hm3 eq_refl). cbn. rewrite Hlog, (writer_new_head _ _ _ Ew). by rewrite <-Hm.
Qed.

(** The result of [flush_pending_rx] on a held frame of [k] bytes. *)
Definition rx_flushed (k : Z) s q0 (r : result Error bool) s' : Prop :=
  net_ok (ns s') ∧ rx_frame s s' ∧ nw s' = nw s ∧
  match r with
  | Ok used => ∃ l, rx_returned q0 l s' ∧ used = bool_decide (l ≠ []) ∧
      (rx_delivered k (take (Z.to_nat k) (rx_scratch (ns s))) q0 s s' l ∨
       (rx_undelivered k q0 s s' l ∧ rx_exhausted s' ∧ pending_rx_len (ns s') = if decide (l = []) then Some k else None))
  | Err _ => rx_kept q0 s'
  end.

Lemma flush_pending_rx_wp s q k :
  net_ok (ns s) → rxq s = Some q → pending_rx_len (ns s) = Some k → (q_backlog q < fuel)%nat →
  wp Total (flush_pending_rx fuel) (rx_flushed k s q) s.
Proof.
  intros Hok Hq Hk Hfuel. unfold flush_pending_rx. do 2 wp_step. rewrite Hk. wp_step.
  apply (wp_iter Total (rx_inv s q k) (λ _ s1, match rxq s1 with Some q1 => q_backlog q1 | None => O end)).
  - split_and!; try done. exists []. split_and!; try done; [exists q; split_and!; try done; by rewrite app_nil_r|].
    exists []. split_and!; try done. exists q. by rewrite app_nil_r.
  - by rewrite Hq.
  - intros st s1 Hi. eapply rx_place_step_wp; [exact Hi|..].
    + intros s2 l (Hok2 & Hf2 & Hsc2 & Hpd2 & Hnw2 & _) Hr Hun Hex. cbn beta iota. do 3 wp_step.
      rewrite Hpd2, (bool_decide_eq_true_2 (is_Some _)) by (by eexists). cbn [andb]. rewrite andb_true_r.
      destruct (decide (l = [])) as [->|Hne].
      * rewrite bool_decide_eq_false_2 by (by intros []). cbn beta iota. do 2 wp_step.
        split_and!; try done. exists []. split_and!; try done. by right.
      * rewrite bool_decide_eq_true_2 by done. cbn beta iota. unfold upd_ns. do 2 wp_step.
        split_and!; try done; [by destruct Hok2; split|]. exists l.
        split_and!; try done; [by rewrite bool_decide_eq_true_2|]. right. split_and!; [done|done|by rewrite decide_False].
    + intros s2 l Hok2 Hf2 Hnw2 Hr Hd. cbn beta iota. do 3 wp_step.
      assert (pending_rx_len (ns s2) = None) as -> by (by destruct Hd as (? & ? & ? & ? & ? & ? & ? & ?)).
      rewrite (bool_decide_eq_false_2 (is_Some None)) by (by intros []). cbn [andb]. cbn beta iota. do 2 wp_step.
      split_and!; try done. exists l. split_and!; [done| |by left].
      destruct Hd as (sm & h & -> & _). by rewrite bool_decide_eq_true_2 by (by unfold given_empty; destruct sm).
    + intros e s2 Hok2 Hf2 Hnw2 Hs. by split_and!.
    + intros s2 q1 q2 Hi2 -> -> Hlt. done.
Qed.

(** At the end of reception. *)
Definition rx_post s0 q0 (r : StepResult) s : Prop :=
  net_ok (ns s) ∧ rx_frame s0 s ∧
  match r with
  | Ok used => ∃ l, rx_returned q0 l s ∧ (l ≠ [] → used = true)
  | Err _ => rx_kept q0 s
  end.

(** Between two reads of the TAP. *)
Definition rx_loop s0 q0 (used : bool) s : Prop := rx_post s0 q0 (Ok used) s ∧ pending_rx_len (ns s) = None.

Lemma rx_frame_trans s1 s2 s3 : rx_frame s1 s2 → rx_frame s2 s3 → rx_frame s1 s3.
Proof. intros (? & ? & ? & ?) (? & ? & ? & ?). split_and!; congruence. Qed.

Lemma rx_returned_trans q0 l1 l2 s q1 :
  rxq s = Some q1 → rx_returned q0 l1 s → ∀ s', rx_returned q1 l2 s' → rx_returned q0 (l1 ++ l2) s'.
Proof.
  intros Hq (q & Hq' & Hu & Hp & Hb) s' (q2 & Hq2 & Hu2 & Hp2 & Hb2). rewrite Hq in Hq'. injection Hq' as <-.
  exists q2. split_and!; [done|by rewrite Hu2, Hu, app_assoc|by rewrite Hp2, Hp, fmap_app, app_assoc|lia].
Qed.

Lemma flush_or_wp s0 q0 used s k :
  rx_post s0 q0 (Ok used) s → pending_rx_len (ns s) = Some k → (q_backlog q0 < fuel)%nat →
  wp Total (flush_or fuel used) (λ r s', rx_post s0 q0 r s' ∧ nw s' = nw s) s.
Proof.
  intros (Hok & Hf & l & Hr & Hl) Hk Hfuel. pose proof Hr as (q & Hq & _ & _ & Hb). unfold flush_or. wp_step.
  eapply wp_mono; [eapply (flush_pending_rx_wp s q k); [done|done|done|lia]|].
  intros r s' (Hok' & Hf' & Hnw & Hr'). wp_step.
  split; [|done]. split_and!; [done|by eapply rx_frame_trans|]. destruct r as [u|e]; [|destruct Hr' as (q2 & ? & ?); exists q2; split; [done|lia]].
  destruct Hr' as (l' & Hr' & -> & _). exists (l ++ l'). split; [by eapply rx_returned_trans|].
  intros Hne. destruct (decide (l' = [])) as [->|Hne'].
  - rewrite app_nil_r in Hne. by rewrite Hl.
  - rewrite (bool_decide_eq_true_2 (l' ≠ [])) by done. apply orb_true_r.
Qed.

Lemma rx_step_wp s0 q0 used s (R : bool + StepResult → St → Prop) :
  rx_loop s0 q0 used s → (q_backlog q0 < fuel)%nat →
  (∀ r s', rx_post s0 q0 r s' → R (inr r) s') →
  (∀ u s', rx_loop s0 q0 u s' → (tap_backlog (nw s') < tap_backlog (nw s))%nat → R (inl u) s') →
  wp Total (rx_step fuel used) R s.
Proof.
  intros [Hpost Hnone] Hfuel Hend Hmore. pose proof Hpost as (Hok & Hf & l & Hr & Hl).
  unfold rx_step. do 3 wp_step. apply wp_nhost. intros r w E.
  assert (∀ u : bool, (used = true → u = true) → rx_loop s0 q0 u (s <| nw := w |>)) as Hsame.
  { intros u Hu. split; [|done]. split_and!; [done|done|]. exists l. split; [done|]. auto. }
  destruct r as [bs|e].
  - destruct bs as [|b bs']; [wp_step; by apply Hend, (Hsame used)|].
    set (bs := b :: bs') in *. pose proof (tap_read_backlog _ _ _ _ E ltac:(done)) as Hlt.
    pose proof (tap_read_bound _ _ _ _ (zlen_nonneg (rx_scratch (ns s))) E) as Hle.
    assert (net_ok ((ns s) <| rx_scratch ::= copy_at 0 bs |>)) as Hok1.
    { destruct Hok as [H1 H2 H3]. split; try done. cbn. unfold zlen in *. rewrite length_copy_at by lia. done. }
    unfold upd_ns. do 2 wp_step. wp_step.
    { wp_step. apply Hmore; [|done]. split; [|done]. split_and!; [done|done|]. by exists l. }
    apply Z.ltb_ge in Hif. do 2 wp_step.
    assert (rx_post s0 q0 (Ok used) (s <| nw := w |> <| ns ::= λ n, n <| rx_scratch ::= copy_at 0 bs |> |>
              <| ns ::= λ n, n <| pending_rx_len := Some (zlen bs) |> |>)) as Hp2.
    { split_and!; [|done|by exists l]. destruct Hok1 as [H1 H2 H3]. split; try done. cbn.
      intros k [= <-]. rewrite (no_rx _ Hok) in Hle. done. }
    wp_step. eapply wp_mono; [eapply flush_or_wp; [exact Hp2|done|done]|].
    intros [u|e] s3 [Hp3 Hnw]; cbn beta iota; [|wp_step; by apply Hend].
    do 2 wp_step. case_bool_decide as Hh; wp_step; [by apply Hend|].
    apply Hmore; [split; [done|by apply eq_None_not_Some]|]. by rewrite Hnw.
  - wp_step; [wp_step; by apply Hend, (Hsame used)|].
    destruct (raw_is EINTR e) eqn:Ee; wp_step.
    + apply Hmore; [by apply Hsame|]. cbn. by eapply (tap_read_backlog _ _ _ _ E).
    + apply Hend. split_and!; try done. destruct Hr as (q & ? & _ & _ & ?). by exists q.
Qed.

Lemma process_rx_wp s q :
  net_ok (ns s) → rxq s = Some q → (q_backlog q < fuel)%nat → q_ready q = true →
  wp Total (process_rx fuel) (rx_post s q) s.
Proof.
  intros Hok Hq Hfuel Hr. unfold process_rx, queue_ready. do 2 wp_step. fold (rxq s). rewrite Hq, Hr. cbn [negb].
  assert (∀ u s1, rx_loop s q u s1 → wp Total (iter_prog fuel (rx_step fuel) u) (rx_post s q) s1) as Hloop.
  { intros u s1 Hi. apply (wp_iter Total (rx_loop s q) (λ _ s1, tap_backlog (nw s1))); [done|apply tap_backlog_bound|].
    intros u' s2 Hi2. by apply (rx_step_wp s q). }
  assert (∀ u, rx_post s q (Ok u) s) as Hstart.
  { intros u. split_and!; try done. exists []. split; [|done]. exists q. split_and!; try done; by rewrite app_nil_r. }
  do 2 wp_step. case_bool_decide as Hh.
  - destruct Hh as [k Hk]. wp_step. eapply wp_mono; [by apply (flush_or_wp s q false s k)|].
    intros [u|e] s1 [H1 _]; [|done]. do 2 wp_step. case_bool_decide as Hh1; [by wp_step|].
    apply Hloop. split; [done|by apply eq_None_not_Some].
  - apply Hloop. split; [done|by apply eq_None_not_Some].
Qed.

End net_proofs.

(** ** The theorems *)

Section net_theorems.
Context {Q Mem Chain Rd Wr Efd W : Type}.
Context `{VQ : !VirtQueue Q Mem Chain Rd Wr} `{VL : !VirtQueueLaws Q Mem Chain Rd Wr}.
Context `{QF : !QueueFair Q Mem Chain Rd Wr}.
Context `{EF : !EventFd Efd} `{EL : !EventFdLaws Efd} `{TH : !TapHost W} `{TL : !TapHostLaws W}.
Variable fuel : nat.
Context `{TF : !TapFair W fuel}.

(** The interrupt counter. *)
Definition net_irq (s : NetSt Q Efd Mem W) : Z := efd_count (irq_fd (net_mmio (ns s))).

Lemma net_signal_wp (s : NetSt Q Efd Mem W) (R : result Error unit → NetSt Q Efd Mem W → Prop) :
  (∀ r s', (∀ i, queue (net_mmio (ns s')) i = queue (net_mmio (ns s)) i) →
     rx_scratch (ns s') = rx_scratch (ns s) → tx_scratch (ns s') = tx_scratch (ns s) →
     pending_tx (ns s') = pending_tx (ns s) → pending_rx_len (ns s') = pending_rx_len (ns s) →
     (r = Ok tt → net_irq s' = net_irq s + 1 ∧ Z.testbit (interrupt_status (net_mmio (ns s'))) 0 = true) →
     R r s') →
  wp Total net_signal R s.
Proof.
  intros HR. unfold net_signal. apply wp_act. intros r s'. unfold signal_used_queue. cbn.
  destruct (efd_write (irq_fd (net_mmio (ns s)))) as [x e] eqn:E. intros [= <- <-]. apply HR; try done.
  intros Hx. destruct x as [[]|]; [|done]. split; [by apply efd_write_ok|]. cbn. rewrite Z.lor_spec. apply orb_true_r.
Qed.

(** C14: one step of the worker on ready queues. It returns, whatever the TAP and
    the chains are; the held frames stay inside their buffers; if it succeeds,
    every transmit chain popped so far is on the used ring exactly once or is the
    held one, every receive chain popped was returned in order, and the driver was
    interrupted if any chain was returned. *)
Theorem net_step_correct (s : NetSt Q Efd Mem W) qr qt :
  net_ok (ns s) → rxq s = Some qr → txq s = Some qt → q_ready qr = true → q_ready qt = true →
  (q_backlog qr < fuel)%nat → (q_backlog qt < fuel)%nat → tx_balanced s →
  ∃ r s' qr' qt', process_net_once fuel s = Ret (r, s') ∧ net_ok (ns s') ∧
    rxq s' = Some qr' ∧ txq s' = Some qt' ∧
    (r = Ok tt → ∃ lr lt,
       q_used_log qr' = q_used_log qr ++ lr ∧ q_used_log qt' = q_used_log qt ++ lt ∧
       chain_head <$> q_popped qr' = (chain_head <$> q_popped qr) ++ lr.*1 ∧ tx_balanced s' ∧
       (lr ≠ [] ∨ lt ≠ [] → net_irq s' = net_irq s + 1 ∧
          Z.testbit (interrupt_status (net_mmio (ns s'))) 0 = true)).
Proof.
  intros Hok Hqr Hqt Hrr Hrt Hbr Hbt (q & Hq & Hbal). rewrite Hqt in Hq. injection Hq as <-.
  assert (wp Total (process_net_once fuel) (λ r s', net_ok (ns s') ∧ ∃ qr' qt',
    rxq s' = Some qr' ∧ txq s' = Some qt' ∧
    (r = Ok tt → ∃ lr lt,
       q_used_log qr' = q_used_log qr ++ lr ∧ q_used_log qt' = q_used_log qt ++ lt ∧
       chain_head <$> q_popped qr' = (chain_head <$> q_popped qr) ++ lr.*1 ∧ tx_balanced s' ∧
       (lr ≠ [] ∨ lt ≠ [] → net_irq s' = net_irq s + 1 ∧
          Z.testbit (interrupt_status (net_mmio (ns s'))) 0 = true))) s) as Hwp.
  2:{ apply wp_total_inv in Hwp as (r & s' & E & H1 & qr' & qt' & H2 & H3 & H4). by exists r, s', qr', qt'. }
  unfold process_net_once. wp_step. eapply wp_mono; [by apply (process_tx_wp fuel True s qt)|].
  intros rt s1 (Hok1 & Hf1 & Ht1). pose proof Hf1 as (Hrx1 & Hirq1 & _).
  wp_step. eapply wp_mono; [apply (process_rx_wp fuel s1 qr); [done|by rewrite Hrx1|done|done]|].
  intros rr s2 (Hok2 & Hf2 & Hr2). pose proof Hf2 as (Htx2 & Hirq2 & Hpt2 & _).
  assert (∃ qt1, txq s2 = Some qt1) as [qt1 Hqt1].
  { rewrite Htx2. destruct rt as [u|[u e]]; [destruct Ht1 as (x & _ & ? & _)|destruct Ht1 as (_ & x & _ & ? & _)]; by exists x. }
  assert (∃ qr1, rxq s2 = Some qr1) as [qr1 Hqr1].
  { destruct rr as [u|[u e]]; [destruct Hr2 as (l & (x & ? & _) & _)|destruct Hr2 as (x & ? & _)]; by exists x. }
  cbv zeta. wp_step.
  apply (wp_mono _ _ (λ r s3, net_ok (ns s3) ∧ rxq s3 = Some qr1 ∧ txq s3 = Some qt1 ∧
     pending_tx (ns s3) = pending_tx (ns s2) ∧
     (r = Ok tt → used_of rt || used_of rr = true → net_irq s3 = net_irq s2 + 1 ∧
          Z.testbit (interrupt_status (net_mmio (ns s3))) 0 = true))).
  { wp_step; [|by wp_step]. apply net_signal_wp. intros r s3 Hqs H1 H2 H3 H4 Hirq.
    split_and!; try done; [|by unfold rxq; rewrite Hqs|by unfold txq; rewrite Hqs|by intros Hr _; apply Hirq].
    destruct Hok2. split; by rewrite ?H1, ?H2, ?H3, ?H4. }
  intros [[]|e] s3 (Hok3 & Hqr3 & Hqt3 & Hpt3 & Hirq3); [|by split; [|exists qr1, qt1]].
  wp_step. split; [done|]. exists qr1, qt1. split_and!; [done|done|].
  destruct rt as [ut|[ut et]]; [|done]. destruct rr as [ur|[ur er]]; [|done]. intros _.
  destruct Ht1 as (qt0 & lt & Hqt0 & Hut & Hlt & _ & Hbt1). specialize (Hbt1 I). rewrite <-Htx2, Hqt1 in Hqt0. injection Hqt0 as <-.
  destruct Hr2 as (lr & (qr0 & Hqr0 & Hur & Hpr & _) & Hlr). rewrite Hqr1 in Hqr0. injection Hqr0 as <-.
  exists lr, lt. split_and!; try done.
  - exists qt1. split; [done|]. by rewrite Hpt3, Hpt2.
  - intros Hne. destruct (Hirq3 eq_refl) as [Hi ?]; [|split; [|done]].
    { cbn. destruct Hne as [Hne|Hne]; [rewrite (Hlr Hne); apply orb_true_r|by rewrite (Hlt Hne)]. }
    rewrite Hi. unfold net_irq. by rewrite Hirq2, Hirq1.
Qed.

(** *** The worker *)

(** What every turn relies on. *)
Definition worker_ok (s : NetSt Q Efd Mem W) : Prop :=
  net_ok (ns s) ∧ (∃ q, rxq s = Some q ∧ (q_backlog q < fuel)%nat) ∧ (∃ q, txq s = Some q ∧ (q_backlog q < fuel)%nat).

Lemma process_tx_ok s : worker_ok s → wp Total (process_tx fuel) (λ _, worker_ok) s.
Proof.
  intros (Hok & Hr & q & Hq & Hb). destruct (q_ready q) eqn:E.
  - eapply wp_mono; [by apply (process_tx_wp fuel False s q)|]. intros r s1 (Hok1 & (Hrx & _) & Ht).
    split_and!; [done|by rewrite Hrx|].
    destruct r as [u|[u e]]; [destruct Ht as (q1 & l & ? & _ & _ & ? & _)|destruct Ht as (h & q1 & l & ? & _ & _ & ? & _)];
      exists q1; (split; [done|lia]).
  - unfold process_tx, queue_ready. do 2 wp_step. unfold txq in Hq. rewrite Hq, E. cbn [negb]. unfold upd_ns. do 3 wp_step.
    split_and!; [|done|by exists q]. destruct Hok. by split.
Qed.

Lemma process_rx_ok s : worker_ok s → wp Total (process_rx fuel) (λ _, worker_ok) s.
Proof.
  intros (Hok & (q & Hq & Hb) & Ht). destruct (q_ready q) eqn:E.
  - eapply wp_mono; [by apply (process_rx_wp fuel s q)|]. intros r s1 (Hok1 & (Htx & _) & Hr).
    split_and!; [done| |by rewrite Htx].
    destruct r as [u|[u e]]; [destruct Hr as (l & (q1 & ? & _ & _ & ?) & _)|destruct Hr as (q1 & ? & ?)];
      exists q1; (split; [done|lia]).
  - unfold process_rx, queue_ready. do 2 wp_step. unfold rxq in Hq. rewrite Hq, E. cbn [negb]. unfold upd_ns. do 3 wp_step.
    split_and!; [|by exists q|done]. destruct Hok. by split.
Qed.

Lemma process_net_once_ok s : worker_ok s → wp Total (process_net_once fuel) (λ _, worker_ok) s.
Proof.
  intros Hs. unfold process_net_once. wp_step. eapply wp_mono; [by apply process_tx_ok|]. intros t s1 H1.
  wp_step. eapply wp_mono; [by apply process_rx_ok|]. intros r s2 H2. cbv zeta. wp_step.
  apply (wp_mono _ _ (λ _, worker_ok)).
  - wp_step; [|by wp_step]. apply net_signal_wp. intros x s3 Hqs E1 E2 E3 E4 _.
    destruct H2 as ([] & Hr & Ht). unfold worker_ok, rxq, txq in *. rewrite !Hqs. split_and!; try done.
    split; by rewrite ?E1, ?E2, ?E3, ?E4.
  - intros [[]|e] s3 H3; [by wp_step|done].
Qed.

(** The registers may change in any way the driver can make them. *)
Lemma unlocked_ok l s (R : unit → NetSt Q Efd Mem W → Prop) :
  worker_ok s → (∀ s', worker_ok s' → R tt s') → wp Total (unlocked l) R s.
Proof.
  intros (Hok & (qr & Hqr & Hbr) & qt & Hqt & Hbt) HR. unfold unlocked. wp_step. apply HR.
  destruct (vcpu_accesses_settings (ngm s) l _ _ _ Hqr) as (_ & qr' & Hqr' & Hsr).
  destruct (vcpu_accesses_settings (ngm s) l _ _ _ Hqt) as (_ & qt' & Hqt' & Hst).
  destruct (settings_logs _ _ Hsr) as (_ & _ & ?), (settings_logs _ _ Hst) as (_ & _ & ?).
  split_and!; [by destruct Hok|exists qr'|exists qt']; (split; [done|lia]).
Qed.

Lemma net_worker_turn_ok t s :
  worker_ok s →
  wp Total (worker_turn fuel t) (λ r s', worker_ok s' ∧
    ∀ x, r = inr x → ∃ e, wt_poll t = PollErr e ∧ raw_is EINTR e = false ∧ x = Err (NetErr (MsgIo "poll" e))) s.
Proof.
  intros Hs. unfold worker_turn. wp_step. apply unlocked_ok; [done|]. intros s1 H1. do 2 wp_step.
  wp_step. apply unlocked_ok; [done|]. intros s2 H2. destruct (wt_poll t) as [revents|e].
  - wp_step. apply (wp_mono _ _ (λ _, worker_ok)).
    { unfold upd_ns. wp_step; wp_step; [|done]. destruct H2 as ([] & ? & ?). by split_and!. }
    intros [] s3 H3. cbv zeta. wp_step; [by wp_step|]. wp_step. eapply wp_mono; [by apply process_net_once_ok|].
    intros r s4 H4. by wp_step.
  - destruct (raw_is EINTR e) eqn:Ee; wp_step; (split; [done|]); [done|]. intros x [= <-]. by exists e.
Qed.

(** C6: the network worker. Started on the state [VirtioNet::new] makes of a transport with
    its two queues, the loop returns after every sequence of turns, whatever the polls
    bring, whatever the TAP does, however the guest fills the queues, and whatever the
    vCPUs write to the registers while the worker waits, a reset of the device or of a
    queue that holds a frame included: no slice is out of range, the held frames stay
    inside their buffers, and the loop fails only when [poll] itself failed with an error
    other than an interruption. *)
Theorem net_worker_safe (mmio : VirtioMmio Q Efd) ifname (w : W) (m : Mem) qr qt ts :
  queues mmio = [qr; qt] → (q_backlog qr < fuel)%nat → (q_backlog qt < fuel)%nat →
  ∃ r s', worker_loop fuel ts (mkNetSt (net_state_new mmio ifname) w m) = Ret (r, s') ∧ net_ok (ns s') ∧
    (is_err r = true → ∃ t e, t ∈ ts ∧ wt_poll t = PollErr e ∧ raw_is EINTR e = false ∧ r = Err (NetErr (MsgIo "poll" e))).
Proof.
  intros Hqs Hr Ht.
  assert (∀ s, worker_ok s → wp Total (worker_loop fuel ts) (λ r s', worker_ok s' ∧
    (is_err r = true → ∃ t e, t ∈ ts ∧ wt_poll t = PollErr e ∧ raw_is EINTR e = false ∧ r = Err (NetErr (MsgIo "poll" e)))) s) as H.
  { induction ts as [|t ts IH]; intros s Hs; cbn [worker_loop]; wp_step; [done|].
    eapply wp_mono; [by apply net_worker_turn_ok|]. intros [[]|x] s1 [H1 Hx].
    - eapply wp_mono; [by apply IH|]. intros r s2 [H2 Hr2]. split; [done|]. intros He.
      destruct (Hr2 He) as (t' & e & ? & ? & ? & ?). exists t', e. split_and!; try done. by apply list_elem_of_further.
    - wp_step. split; [done|]. intros _. destruct (Hx x eq_refl) as (e & ? & ? & ->). exists t, e.
      split_and!; try done. apply list_elem_of_here. }
  assert (worker_ok (mkNetSt (net_state_new mmio ifname) w m)) as H0.
  { split; [apply net_state_new_ok|]. unfold rxq, txq, queue. simpl. rewrite Hqs. split; [by exists qr|by exists qt]. }
  destruct (wp_total_inv _ _ _ (H _ H0)) as (r & s' & E & [Hok _] & He). by exists r, s'.
Qed.

End net_theorems.

(** Two transmit chains of which the TAP takes one and blocks on the other; a
    runt, an interrupted read and a frame of 14 bytes from the TAP, for which the
    first buffer is too small. *)
Definition net_chain (h : Z) (bytes : list Z) (room : nat) : SChain := mkSChain h bytes room false false.
Definition net_q (cs : list SChain) : SQueue := mkSQueue 256 256 true true cs [] false [].
Definition demo_net (rx tx : list SChain) (w : STap) : NetSt SQueue Z SMem STap :=
  mkNetSt (net_state_new (mkVirtioMmio 0 1 0 0 0 0 0 0 0 0 0 [net_q rx; net_q tx]) [116; 97; 112; 48]) w [].
Definition demo_rx : list SChain := [net_chain 1 [] 10; net_chain 2 [] 100].
Definition demo_tx : list SChain := [net_chain 4 (replicate 20 7) 0; net_chain 5 (replicate 30 8) 0].
Definition demo_tap : STap :=
  mkSTap [Ok 20; Err (OsError EAGAIN)] [Ok [1]; Err (OsError EINTR); Ok (replicate 14 9)] [] 0 0.

Lemma net_step_correct_witness :
  ∃ s', process_net_once 9 (demo_net demo_rx demo_tx demo_tap) = Ret (Ok tt, s') ∧
    tx_balanced s' ∧ net_irq s' = 1 ∧ pending_tx (ns s') = Some (mkPendingTx 5 30) ∧
    mem_log (ngm s') = [(2, replicate 14 9)].
Proof.
  destruct (net_step_correct 9 (demo_net demo_rx demo_tx demo_tap) (net_q demo_rx) (net_q demo_tx))
    as (r & s' & qr' & qt' & E & Hok & Hqr & Hqt & H).
  - apply net_state_new_ok.
  - reflexivity.
  - reflexivity.
  - reflexivity.
  - reflexivity.
  - cbn. lia.
  - cbn. lia.
  - exists (net_q demo_tx). split; reflexivity.
  - assert (ret_of (λ p, (p.1, net_irq p.2, pending_tx (ns p.2), mem_log (ngm p.2)))
      (process_net_once 9 (demo_net demo_rx demo_tx demo_tap)) =
      Some (Ok tt, 1, Some (mkPendingTx 5 30), [(2, replicate 14 9)])) as Hrun by (vm_compute; reflexivity).
    rewrite E in Hrun. injection Hrun as -> Hi Hp Hm.
    destruct (H eq_refl) as (lr & lt & Hur & Hut & _ & Hb & Hirq). exists s'.
    split; [exact E|]. split; [exact Hb|]. split; [exact Hi|]. split; [exact Hp|exact Hm].
Defined.

(** The guest makes the device hold a frame, resets the transmit queue while the worker
    waits and makes it ready again; then polling fails. *)
Definition demo_turns : list Turn :=
  [mkWorkerTurn [] [] (Polled [1; 1]);
   mkWorkerTurn [] [(REG_QUEUE_SEL, le_bytes 4 1); (REG_QUEUE_READY, le_bytes 4 0)] (Polled [0; 1]);
   mkWorkerTurn [(REG_QUEUE_READY, le_bytes 4 1)] [] (PollErr (OsError EINTR));
   mkWorkerTurn [] [] (PollErr (OsError EINVAL))].

Lemma net_worker_safe_witness :
  ∃ s', worker_loop 9 demo_turns (demo_net demo_rx demo_tx demo_tap) = Ret (Err (NetErr (MsgIo "poll" (OsError EINVAL))), s') ∧
    net_ok (ns s') ∧ pending_tx (ns s') = None.
Proof.
  destruct (net_worker_safe 9 (mkVirtioMmio 0 1 0 0 0 0 0 0 0 0 0 [net_q demo_rx; net_q demo_tx]) [116; 97; 112; 48] demo_tap []
    (net_q demo_rx) (net_q demo_tx) demo_turns) as (r & s' & E & Hok & _).
  - reflexivity.
  - cbn. lia.
  - cbn. lia.
  - assert (ret_of (λ p, (p.1, pending_tx (ns p.2))) (worker_loop 9 demo_turns (demo_net demo_rx demo_tx demo_tap))
      = Some (Err (NetErr (MsgIo "poll" (OsError EINVAL))), None)) as Hrun by (vm_compute; reflexivity).
    change (worker_loop 9 demo_turns (demo_net demo_rx demo_tx demo_tap) = Ret (r, s')) in E.
    rewrite E in Hrun. injection Hrun as -> Hp. exists s'. split; [exact E|]. split; [exact Hok|exact Hp].
Defined.

(** C29: one transmit chain with a frame of at least a header. The TAP is given the
    bytes of the chain, whole and unchanged, and the chain is returned; or the TAP
    is full, then nothing is sent or returned and the scratch buffer holds the
    frame with its chain for later; or the attempt fails and is reported with the
    used flag set. *)
Theorem tx_frame_sent {Q Mem Chain Rd Wr Efd W : Type}
    `{VQ : !VirtQueue Q Mem Chain Rd Wr} `{VL : !VirtQueueLaws Q Mem Chain Rd Wr}
    `{QF : !QueueFair Q Mem Chain Rd Wr} `{EF : !EventFd Efd} `{TH : !TapHost W} `{TL : !TapHostLaws W}
    (fuel : nat) `{TF : !TapFair W fuel} used (s : NetSt Q Efd Mem W) q chain q1 rd frame rd' :
  net_ok (ns s) → pending_tx (ns s) = None → txq s = Some q → q_pop (ngm s) q = (Some chain, q1) →
  reader_new (ngm s) chain = Ok rd → NET_HDR_LEN ≤ reader_avail rd →
  reader_read (ngm s) (reader_avail rd) rd = (frame, Ok tt, rd') → zlen frame = reader_avail rd →
  ∃ r s', tx_step fuel used s = Ret (r, s') ∧
    ((tap_sent (nw s') = tap_sent (nw s) ++ [frame] ∧ pending_tx (ns s') = None ∧
      (r = inl true → ∃ q', txq s' = Some q' ∧ q_used_log q' = q_used_log q ++ [(chain_head chain, 0)])) ∨
     (r = inr (Ok used) ∧ tap_sent (nw s') = tap_sent (nw s) ∧
      pending_tx (ns s') = Some (mkPendingTx (chain_head chain) (zlen frame)) ∧
      take (length frame) (tx_scratch (ns s')) = frame ∧ txq s' = Some q1) ∨
     (∃ e, r = inr (Err (true, e)))).
Proof.
  intros Hok Hp Hq Epop Erd Hmin Erdr Hlen. apply wp_total_inv. unfold tx_step. wp_step.
  unfold pop_chain. apply wp_act. intros c s1. unfold txq in Hq. rewrite Hq, Epop. intros [= <- <-]. cbn beta iota.
  set (s1 := s <| ns ::= set_queue QUEUE_TX q1 |>). do 2 wp_step.
  change (ngm s1) with (ngm s). rewrite Erd. rewrite (proj2 (Z.ltb_ge _ _) Hmin).
  unfold upd_ns. do 2 wp_step. rewrite Erdr. do 3 wp_step.
  match goal with |- wp _ _ _ ?x => change x with (s1 <| ns ::= tx_stage (reader_avail rd) frame |>) end.
  assert (net_ok (ns s1)) as Hok1 by (by destruct Hok).
  destruct (tx_stage_spec (reader_avail rd) frame (ns s1) Hlen Hok1 Hp) as (Ht1 & Ht2 & Ht3 & Ht4).
  set (s2 := s1 <| ns ::= tx_stage (reader_avail rd) frame |>).
  assert (ns s2 = (ns s1) <| tx_scratch := tx_scratch (tx_stage (reader_avail rd) frame (ns s1)) |>) as Hns2 by exact Ht4.
  assert (txq s2 = Some q1) as Hq2 by (unfold txq; rewrite Hns2; by apply (txq_set q q1 s)).
  assert (pending_tx (ns s2) = None) as Hp2 by (by rewrite Hns2).
  wp_steps. apply slice_to_wp; [done|].
  change (tx_scratch (ns s2)) with (tx_scratch (tx_stage (reader_avail rd) frame (ns s1))). rewrite Ht1.
  wp_step. apply (tap_try_send_wp fuel). intros t w Hw. destruct t as [[]|e]; cbn beta iota.
  - wp_step. unfold complete_or, complete_tx. wp_step. eapply add_used_wp; [exact Hq2|].
    intros r q2 m2 _ Hu2 _ _. do 2 wp_step. left. split_and!; [exact Hw|exact Hp2|].
    destruct r as [[]|e]; [|done]. intros _. exists q2. split; [by apply (txq_set q1 q2 s2)|].
    by rewrite Hu2, (proj1 (q_pop_logs _ _ _ _ Epop)).
  - do 3 wp_step. right. left. split_and!; [done|exact Hw|by rewrite Hlen| |done].
    change (take (length frame) (tx_scratch (tx_stage (reader_avail rd) frame (ns s1))) = frame).
    unfold zlen in Hlen. by replace (length frame) with (Z.to_nat (reader_avail rd)) by lia.
  - wp_step. unfold complete_and_fail, complete_tx. wp_step. eapply add_used_wp; [exact Hq2|].
    intros r q2 m2 _ _ _ _. do 2 wp_step. right. right. by exists e.
Qed.

Lemma tx_frame_sent_witness :
  ∃ r s', tx_step 9 false (demo_net [] demo_tx (mkSTap [] [] [] 0 0)) = Ret (r, s') ∧
    tap_sent (nw s') = [replicate 20 7].
Proof.
  destruct (tx_frame_sent 9 false (demo_net [] demo_tx (mkSTap [] [] [] 0 0)) (net_q demo_tx) (net_chain 4 (replicate 20 7) 0)
    (mkSQueue 256 256 true true [net_chain 5 (replicate 30 8) 0] [] false [net_chain 4 (replicate 20 7) 0])
    (mkSReader (replicate 20 7)) (replicate 20 7) (mkSReader []))
    as (r & s' & E & [(H & _)|[(_ & H & _)|(e & ->)]]).
  - apply net_state_new_ok.
  - reflexivity.
  - reflexivity.
  - reflexivity.
  - reflexivity.
  - zcompute.
  - reflexivity.
  - reflexivity.
  - exists r, s'. split; [exact E|exact H].
  - assert (ret_of (λ p, tap_sent (nw p.2)) (tx_step 9 false (demo_net [] demo_tx (mkSTap [] [] [] 0 0)))
      = Some [replicate 20 7]) as Hrun by (vm_compute; reflexivity).
    rewrite E in Hrun. injection Hrun as Hrun. change (tap_sent (nw s') = []) in H. cbn in Hrun, H. congruence.
  - assert (ret_of (λ p, p.1) (tx_step 9 false (demo_net [] demo_tx (mkSTap [] [] [] 0 0)))
      = Some (inl true)) as Hrun by (vm_compute; reflexivity).
    rewrite E in Hrun. discriminate Hrun.
Defined.

(** C30: a held frame of [k] bytes and the receive queue. [flush_pending_rx] returns, and
    unless it fails: either the frame is written whole into the first buffer popped that
    has room for it, which is returned with its length after the buffers before it, each
    of which was too small, are returned empty; or every buffer the driver offered was too
    small, there is no further one, all are returned empty, and the frame is kept when
    there was none and dropped otherwise. *)
Theorem rx_frame_delivery {Q Mem Chain Rd Wr Efd W : Type}
    `{VQ : !VirtQueue Q Mem Chain Rd Wr} `{VL : !VirtQueueLaws Q Mem Chain Rd Wr}
    `{QF : !QueueFair Q Mem Chain Rd Wr} `{EF : !EventFd Efd} `{TH : !TapHost W} `{TL : !TapHostLaws W}
    (fuel : nat) `{TF : !TapFair W fuel} (s : NetSt Q Efd Mem W) q k :
  net_ok (ns s) → rxq s = Some q → pending_rx_len (ns s) = Some k → (q_backlog q < fuel)%nat →
  ∃ r s', flush_pending_rx fuel s = Ret (r, s') ∧ net_ok (ns s') ∧
    ∀ used, r = Ok used → ∃ small q', rxq s' = Some q' ∧ Forall (too_small k) small ∧
      ((∃ c, has_room k c ∧ used = true ∧ q_popped q' = q_popped q ++ small ++ [c] ∧
          q_used_log q' = q_used_log q ++ given_empty small ++ [(chain_head c, cast 32 k)] ∧
          mem_log (ngm s') = mem_log (ngm s) ++ [(chain_head c, take (Z.to_nat k) (rx_scratch (ns s)))] ∧
          pending_rx_len (ns s') = None) ∨
       (rx_exhausted s' ∧ used = bool_decide (small ≠ []) ∧ q_popped q' = q_popped q ++ small ∧
          q_used_log q' = q_used_log q ++ given_empty small ∧ mem_log (ngm s') = mem_log (ngm s) ∧
          pending_rx_len (ns s') = if decide (small = []) then Some k else None)).
Proof.
  intros Hok Hq Hk Hfuel.
  destruct (wp_total_inv _ _ _ (flush_pending_rx_wp fuel s q k Hok Hq Hk Hfuel)) as (r & s' & E & Hok' & _ & _ & Hr).
  exists r, s'. split_and!; [done|done|]. intros used ->.
  destruct Hr as (l & (q' & Hq' & Hu & _ & _) & -> & Hd).
  destruct Hd as [(small & c & -> & (q'' & Hq'' & Hp) & Hs & Hc & Hm & Hn)|((small & -> & (q'' & Hq'' & Hp) & Hs & Hm) & Hex & Hn)];
    rewrite Hq' in Hq''; injection Hq'' as <-; exists small, q'; (split_and!; [done|done|]).
  - left. exists c. split_and!; try done. apply bool_decide_eq_true_2. by destruct small.
  - right. unfold given_empty in *. split_and!; try done; [|rewrite Hn]; by destruct small.
Qed.

Lemma rx_frame_delivery_witness :
  ∃ s', flush_pending_rx 9 ((demo_net demo_rx [] demo_tap) <| ns ::= λ n, n <| pending_rx_len := Some 60 |> |>) = Ret (Ok true, s') ∧
    mem_log (ngm s') = [(2, replicate 60 0)] ∧ pending_rx_len (ns s') = None.
Proof.
  destruct (rx_frame_delivery 9 ((demo_net demo_rx [] demo_tap) <| ns ::= λ n, n <| pending_rx_len := Some 60 |> |>)
    (net_q demo_rx) 60) as (r & s' & E & _ & H).
  - destruct (net_state_new_ok (Q := SQueue) (Efd := Z) (mkVirtioMmio 0 1 0 0 0 0 0 0 0 0 0 [net_q demo_rx; net_q []]) [116; 97; 112; 48]) as [H1 H2 H3].
    split; [exact H1| |exact H3]. intros k [= <-]. zcompute.
  - reflexivity.
  - reflexivity.
  - cbn. lia.
  - assert (ret_of (λ p, (p.1, mem_log (ngm p.2), pending_rx_len (ns p.2)))
      (flush_pending_rx 9 ((demo_net demo_rx [] demo_tap) <| ns ::= λ n, n <| pending_rx_len := Some 60 |> |>)) =
      Some (Ok true, [(2, replicate 60 0)], None)) as Hrun by (vm_compute; reflexivity).
    rewrite E in Hrun. injection Hrun as -> Hm Hp. exists s'. split; [exact E|].
    destruct (H true eq_refl) as (small & q' & _ & _ & [(c & _ & _ & _ & _ & _ & Hp')|(_ & _ & _ & _ & Hm' & _)]).
    + split; [exact Hm|exact Hp'].
    + exfalso. rewrite Hm in Hm'. discriminate Hm'.
Defined.

(** ** Where a chain or an interrupt is lost *)

(** A held frame, a buffer that is too small and one whose descriptors the
    writer refuses. *)
Definition lost_irq_net : NetSt SQueue Z SMem STap :=
  (demo_net [net_chain 1 [] 10; mkSChain 2 [] 100 false true] [] (mkSTap [] [] [] 0 0))
    <| ns ::= λ n, n <| pending_rx_len := Some 60 |> |>.

(** A receive step that fails after it returned a buffer does not interrupt the
    driver: the flag of [flush_pending_rx] is lost with its error. And the chain
    that made it fail was popped but is never returned. *)
Theorem rx_error_loses_interrupt :
  ret_of (λ p, (is_err p.1, q_used_log <$> rxq p.2, (λ q, chain_head <$> q_popped q) <$> rxq p.2,
                net_irq p.2, interrupt_status (net_mmio (ns p.2))))
    (process_net_once 9 lost_irq_net)
  = Some (true, Some [(1, 0)], Some [1; 2], 0, 0).
Proof. vm_compute. reflexivity. Qed.

(** A register write of the guest. *)
Definition guest_write (addr v : Z) : prog (NetSt SQueue Z SMem STap) unit :=
  modify (λ s, s <| ns ::= λ n, n <| net_mmio ::= λ m,
    match mmio_write (ngm s) m addr (le_bytes 4 v) with Some (_, m') => m' | None => m end |> |>).

(** The guest resets the device and makes the transmit queue ready again before
    the worker's next step. *)
Definition reset_between_steps : prog (NetSt SQueue Z SMem STap) StepResult :=
  _ ← process_net_once 9;
  guest_write REG_STATUS 0;;
  guest_write REG_QUEUE_SEL 1;;
  guest_write REG_QUEUE_READY 1;;
  process_tx 9.

(** A held transmit chain survives a device reset that the worker does not
    observe: its head index, of the ring before the reset, is put on the used ring
    after it. *)
Theorem reset_leaks_tx_head :
  ret_of (λ p, (pending_tx (ns p.2), q_used_log <$> txq p.2)) (process_net_once 9 (demo_net [] demo_tx demo_tap))
    = Some (Some (mkPendingTx 5 30), Some [(4, 0)]) ∧
  ret_of (λ p, q_used_log <$> txq p.2) (reset_between_steps (demo_net [] demo_tx demo_tap))
    = Some (Some [(4, 0); (5, 0)]).
Proof. split; vm_compute; reflexivity. Qed.

(** The MAC address derived from an interface name: six bytes, the fixed prefix of
    a locally administered unicast address, and the low three bytes of the hash. *)
Theorem mac_from_name_unicast ifname :
  let m := mac_from_name ifname in
  bytes_ok m ∧ length m = 6%nat ∧ take 3 m = [0x52; 0x54; 0] ∧
  Z.testbit (nth 0 m 0) 0 = false ∧ Z.testbit (nth 0 m 0) 1 = true ∧
  nth 3 m 0 * 2 ^ 16 + nth 4 m 0 * 2 ^ 8 + nth 5 m 0 = mac_hash ifname mod 2 ^ 24.
Proof.
  intros m. unfold m, mac_from_name. set (h := mac_hash ifname).
  assert (∀ x, Z.land x 0xff = x mod 2 ^ 8) as Hland by (intros x; apply (Z.land_ones x 8); lia).
  assert (∀ x, cast 8 (Z.land x 0xff) = x mod 2 ^ 8) as Hcast.
  { intros x. rewrite Hland. unfold cast. apply Z.mod_mod. lia. }
  rewrite !Hcast, !Z.shiftr_div_pow2 by lia. split_and!; try done.
  - repeat constructor; try done; apply Z.mod_pos_bound; lia.
  - cbn [nth]. rewrite (Z.mod_eq (h / 2 ^ 16)), (Z.mod_eq (h / 2 ^ 8)), (Z.mod_eq h (2 ^ 8)), (Z.mod_eq h (2 ^ 24)) by lia.
    rewrite !Z.div_div by lia. change (2 ^ 16 * 2 ^ 8) with (2 ^ 24). change (2 ^ 8 * 2 ^ 8) with (2 ^ 16). lia.
Qed.
