(* ===== verification/VirtioVsock.v ===== *)
(** * The virtio vsock device

    [devices/virtio_vsock.rs]: the worker that moves packets between the
    guest's queues and the multiplexer of [VsockMux], the transport reset event,
    and the interrupt. The multiplexer's operations run on their part of the
    state. *)

From S2P Require Import Prelude Words Errors VirtQueue VirtioMmio Memory VsockMux.
Local Open Scope Z_scope.

(** ** Constants *)

Definition VIRTIO_VSOCK_MMIO_BASE : Z := GUEST_RAM_END + 0x2000.
Definition VIRTIO_ID_VSOCK : Z := 19.
Definition VIRTIO_VSOCK_F_STREAM : Z := Z.shiftl 1 0.
Definition VIRTIO_VSOCK_IRQ : Z := 7.
Definition QUEUE_RX : Z := 0.
Definition QUEUE_TX : Z := 1.
Definition QUEUE_EVENT : Z := 2.
Definition EVENT_TRANSPORT_RESET : Z := 0.
(** [HDR_LEN] as a length *)
Definition HDR : Z := Z.of_nat HDR_LEN.

(** ** State *)

Record VsockState (Q Efd : Type) := mkVsockState {
  vs_mmio : VirtioMmio Q Efd;
  mux : Mux;
  queues_ready : bool;
  need_reset_event : bool;
}.
Arguments mkVsockState {Q Efd}.
Arguments vs_mmio {Q Efd}.
Arguments mux {Q Efd}.
Arguments queues_ready {Q Efd}.
Arguments need_reset_event {Q Efd}.
#[export] Instance eta_VsockState {Q Efd} : Eta (VsockState Q Efd) := λ v,
  mkVsockState (vs_mmio v) (mux v) (queues_ready v) (need_reset_event v).

(** The state [VirtioVsock::new] starts with. *)
Definition vsock_state_new {Q Efd} (m : VirtioMmio Q Efd) (x : Mux) : VsockState Q Efd :=
  mkVsockState m x false false.

Definition vsock_config {Q Efd} (v : VsockState Q Efd) : list Z := le_bytes 8 (guest_cid (mux v)).

(** With the host and guest memory. *)
Record VsSt (Q Efd Mem W : Type) := mkVsSt {
  vs : VsockState Q Efd;
  vw : W;
  vgm : Mem;
}.
Arguments mkVsSt {Q Efd Mem W}.
Arguments vs {Q Efd Mem W}.
Arguments vw {Q Efd Mem W}.
Arguments vgm {Q Efd Mem W}.
#[export] Instance eta_VsSt {Q Efd Mem W} : Eta (VsSt Q Efd Mem W) := λ s,
  mkVsSt (vs s) (vw s) (vgm s).

Section vsock.
Context {Q Mem Chain Rd Wr Efd W : Type}.
Context `{VQ : !VirtQueue Q Mem Chain Rd Wr} `{EF : !EventFd Efd} `{VH : !VsockHost W}.
(** bound on the loops that the queues and the host drive *)
Variable fuel : nat.
(** the iteration order of the connection table *)
Variable hash_order : gmap Flow Conn → list (Flow * Conn).

Abbreviation M := (prog (VsSt Q Efd Mem W)).

(** Calls of the multiplexer. *)
Definition mux_st (s : VsSt Q Efd Mem W) : St W := mkSt (mux (vs s)) (vw s).
Definition set_mux_st (x : St W) (s : VsSt Q Efd Mem W) : VsSt Q Efd Mem W :=
  s <| vs ::= λ v, v <| mux := mx x |> |> <| vw := hw x |>.
Definition on_mux {A} (m : prog (St W) A) : M A := zoom mux_st set_mux_st m.

Definition set_queue (index : Z) (q : Q) (v : VsockState Q Efd) : VsockState Q Efd :=
  v <| vs_mmio ::= λ m, m <| queues ::= <[Z.to_nat index := q]> |> |>.

Definition queue_is_ready (v : VsockState Q Efd) (index : Z) : bool :=
  match queue (vs_mmio v) index with Some q => q_ready q | None => false end.

Definition transport_up (v : VsockState Q Efd) : bool :=
  queue_is_ready v QUEUE_RX && queue_is_ready v QUEUE_TX.

(** [queue_mut(index)], the test of [ready()] and [pop_descriptor_chain]: [None]
    when any of them has nothing. *)
Definition pop_chain (index : Z) : M (option Chain) :=
  act (λ s,
    match queue (vs_mmio (vs s)) index with
    | None => (None, s)
    | Some q =>
        if q_ready q then let '(c, q') := q_pop (vgm s) q in (c, s <| vs ::= set_queue index q' |>)
        else (None, s)
    end).

Definition add_used (index head len : Z) : M (result Error unit) :=
  act (λ s,
    match queue (vs_mmio (vs s)) index with
    | None => (Err (VsockErr (Msg "missing virtqueue")), s)
    | Some q =>
        let '(r, q', m') := q_add_used head len q (vgm s) in
        (map_err (λ e, VsockErr (MsgExt "" e)) r, s <| vs ::= set_queue index q' |> <| vgm := m' |>)
    end).

(** [add_used(..)?] at the end of a turn: go on with [used] set, or leave. *)
Definition used_go_on (index head len : Z) : M (bool + result Error bool) :=
  r ← add_used index head len;
  mret (match r with Ok _ => inl true | Err e => inr (Err e) end).

(** [add_used(..)?; used = true; break]. *)
Definition used_break (index head len : Z) : M (bool + result Error bool) :=
  r ← add_used index head len;
  mret (match r with Ok _ => inr (Ok true) | Err e => inr (Err e) end).

(** *** From the guest *)

(** One turn of the loop of [pull_tx]. *)
Definition pull_tx_step (used : bool) : M (bool + result Error bool) :=
  c ← pop_chain QUEUE_TX;
  match c with
  | None => mret (inr (Ok used))
  | Some chain =>
      let head := chain_head chain in
      m ← gets vgm;
      match reader_new m chain with
      | Err e => mret (inr (Err (VsockErr (MsgExt "tx chain" e))))
      | Ok rd =>
          let '(raw, r, rd) := reader_read m HDR rd in
          if is_err r then used_go_on QUEUE_TX head 0
          else
            let hdr := header_parse raw in
            let len := hlen hdr in
            if 64 * 1024 <? len then
              on_mux (reset_flow (src_port hdr) (dst_port hdr));;
              used_go_on QUEUE_TX head 0
            else
              let '(bs, r, _) := reader_read m len rd in
              if (0 <? len) && is_err r then
                on_mux (reset_flow (src_port hdr) (dst_port hdr));;
                used_go_on QUEUE_TX head 0
              else
                let data := if 0 <? len then bs else [] in
                on_mux (handle_guest_pkt fuel hdr data);;
                used_go_on QUEUE_TX head (cast 32 (HDR + len))
      end
  end.

Definition pull_tx : M (result Error bool) := iter_prog fuel pull_tx_step false.

(** *** To the guest *)

Definition write_chain (bs : list Z) (wr : Wr) : M (result string unit * Wr) :=
  act (λ s, let '(r, wr', m') := writer_write bs wr (vgm s) in ((r, wr'), s <| vgm := m' |>)).

(** The header, then the data if there is any; whether both were written. *)
Definition write_packet (raw data : list Z) (wr : Wr) : M bool :=
  '(r, wr) ← write_chain raw wr;
  if is_err r then mret false
  else if bool_decide (data = []) then mret true
  else '(r, _) ← write_chain data wr; mret (is_ok r).

(** The part of a packet that did not fit goes back to the front. *)
Definition push_rest (pkt : OutPkt) (rest : option (list Z)) : M unit :=
  match rest with
  | Some rest => on_mux (push_front_out (mkOutPkt (pkt_flow pkt) (pkt_op pkt) (pkt_flags pkt) rest))
  | None => mret tt
  end.

(** A packet taken from the multiplexer goes into the chain of [wr]: a data packet
    in part if the chain is short, any other packet only as a whole. *)
Definition place_pkt (head : Z) (wr : Wr) (pkt : OutPkt) : M (bool + result Error bool) :=
  let avail := writer_avail wr in
  if avail <? HDR then
    on_mux (push_front_out pkt);;
    used_break QUEUE_RX head 0
  else
    let space := avail - HDR in
    if negb (pkt_op pkt =? OP_RW) && (space <? zlen (pkt_data pkt)) then
      on_mux (push_front_out pkt);;
      used_break QUEUE_RX head 0
    else
      let n := Z.min (zlen (pkt_data pkt)) space in
      let rest := if n <? zlen (pkt_data pkt) then Some (drop (Z.to_nat n) (pkt_data pkt)) else None in
      let pkt := mkOutPkt (pkt_flow pkt) (pkt_op pkt) (pkt_flags pkt) (take (Z.to_nat n) (pkt_data pkt)) in
      '(buf_alloc, fwd_cnt) ← on_mux (credit_of (pkt_flow pkt));
      cid ← gets (λ s, guest_cid (mux (vs s)));
      ok ← write_packet (pkt_header pkt cid buf_alloc fwd_cnt) (pkt_data pkt) wr;
      if negb ok then
        on_mux (push_front_out pkt);;
        used_break QUEUE_RX head 0
      else
        push_rest pkt rest;;
        used_go_on QUEUE_RX head (cast 32 (HDR + n)).

(** One turn of the loop of [push_rx]. *)
Definition push_rx_step (used : bool) : M (bool + result Error bool) :=
  more ← on_mux has_out;
  if negb more then mret (inr (Ok used))
  else
    c ← pop_chain QUEUE_RX;
    match c with
    | None => mret (inr (Ok used))
    | Some chain =>
        let head := chain_head chain in
        m ← gets vgm;
        match writer_new m chain with
        | Err e => mret (inr (Err (VsockErr (MsgExt "rx chain" e))))
        | Ok wr =>
            p ← on_mux pop_out;
            match p with
            | None => used_break QUEUE_RX head 0
            | Some pkt => place_pkt head wr pkt
            end
        end
    end.

Definition push_rx : M (result Error bool) := iter_prog fuel push_rx_step false.

Definition push_reset_event : M (result Error bool) :=
  c ← pop_chain QUEUE_EVENT;
  match c with
  | None => mret (Ok false)
  | Some chain =>
      let head := chain_head chain in
      m ← gets vgm;
      match writer_new m chain with
      | Err e => mret (Err (VsockErr (MsgExt "event chain" e)))
      | Ok wr =>
          if writer_avail wr <? 4 then
            _ ←? add_used QUEUE_EVENT head 0;
            mret (Ok true)
          else
            '(r, _) ← write_chain (le_bytes 4 EVENT_TRANSPORT_RESET) wr;
            match r with
            | Err e => mret (Err (VsockErr (MsgExt "event write" e)))
            | Ok _ =>
                _ ←? add_used QUEUE_EVENT head 4;
                mret (Ok true)
            end
      end
  end.

(** *** The worker *)

Definition upd_vs (f : VsockState Q Efd → VsockState Q Efd) : M unit := modify (λ s, s <| vs ::= f |>).

Definition vs_signal : M (result Error unit) :=
  act (λ s, let '(r, m) := signal_used_queue (vs_mmio (vs s)) in
            (r, s <| vs ::= λ v, v <| vs_mmio := m |> |>)).

Definition drive : M (result Error unit) :=
  v ← gets vs;
  let up := transport_up v in
  (if queues_ready v && negb up then
     upd_vs (λ v, v <| queues_ready := false |> <| need_reset_event := true |>);;
     on_mux (kill_connections hash_order)
   else if up && negb (queues_ready v) then upd_vs (λ v, v <| queues_ready := true |>)
   else mret tt);;
  if negb up then mret (Ok tt)
  else
    used ←? pull_tx;
    pushed ←? push_rx;
    v ← gets vs;
    reset ←? (if need_reset_event v then push_reset_event else mret (Ok false));
    (if reset then upd_vs (λ v, v <| need_reset_event := false |>) else mret tt);;
    if used || pushed || reset then vs_signal else mret (Ok tt).

Fixpoint on_fds (fds : list (Z * Z)) : prog (St W) unit :=
  match fds with
  | [] => mret tt
  | (fd, revents) :: l =>
      (if negb (revents =? 0) then on_fd fuel hash_order fd revents else mret tt);;
      on_fds l
  end.

(** The vCPUs write to the registers while the worker does not hold the lock. *)
Definition unlocked (l : list (Z * list Z)) : M unit :=
  modify (λ s, s <| vs ::= λ v, v <| vs_mmio ::= λ t, foldl (vcpu_access (vgm s)) t l |> |>).

(** One turn of the loop. The first of the polled descriptors is the
    notification descriptor; an error of [drive] is logged. *)
Definition worker_turn (t : Turn) : M (unit + result Error unit) :=
  unlocked (wt_before t);;
  fds ← gets (λ s, fst <$> interests hash_order (mux (vs s)));
  unlocked (wt_during t);;
  match wt_poll t with
  | PollErr e =>
      if raw_is EINTR e then mret (inl tt) else mret (inr (Err (VsockErr (MsgIo "poll" e))))
  | Polled revents =>
      (if negb (default 0 (head revents) =? 0)
       then upd_vs (λ v, v <| vs_mmio ::= λ m, m <| notify_fd ::= efd_read |> |>) else mret tt);;
      on_mux (on_fds (zip fds (tail revents)));;
      t ← act (λ s, let '(t, w) := now (vw s) in (t, s <| vw := w |>));
      on_mux (check_timeouts hash_order t);;
      _ ← drive;
      mret (inl tt)
  end.

(** The turns until the stop flag is seen. *)
Fixpoint worker_loop (ts : list Turn) : M (result Error unit) :=
  match ts with
  | [] => mret (Ok tt)
  | t :: ts =>
      r ← worker_turn t;
      match r with inl _ => worker_loop ts | inr r => mret r end
  end.

End vsock.
