(* ===== verification/VirtioVsockFacts.v ===== *)
(** * Correctness of the vsock device

    What the worker does with the queues: every chain it takes is returned
    exactly once, every packet of the guest reaches the multiplexer, the
    packets of the multiplexer reach the guest whole and in order with the
    payload of every connection preserved across splits, a transport that went
    down is reported with one reset event, and the driver is interrupted. *)

From S2P Require Import Prelude Words Errors VirtQueue VirtioMmio VsockMux VsockMuxInv VsockStream VirtioVsock.
Local Open Scope Z_scope.

Section vsock_proofs.
Context {Q Mem Chain Rd Wr Efd W : Type}.
Context `{VQ : !VirtQueue Q Mem Chain Rd Wr} `{VL : !VirtQueueLaws Q Mem Chain Rd Wr}.
Context `{QF : !QueueFair Q Mem Chain Rd Wr}.
Context `{EF : !EventFd Efd} `{EL : !EventFdLaws Efd} `{VH : !VsockHost W} `{HL : !VsockHostLaws W}.
Variable fuel : nat.
Context `{HF : !VsockHostFair W fuel}.
Variable hash_order : gmap Flow Conn → list (Flow * Conn).
Abbreviation St' := (VsSt Q Efd Mem W).
Implicit Types (s : St') (q : Q).

Definition vq (i : Z) s : option Q := queue (vs_mmio (vs s)) i.
Definition vs_irq s : Z := efd_count (irq_fd (vs_mmio (vs s))).

(** [q'] is [q] after the chains of [l] were popped and returned in order. *)
Definition returned q q' (l : list (Z * Z)) : Prop :=
  q_used_log q' = q_used_log q ++ l ∧
  chain_head <$> q_popped q' = (chain_head <$> q_popped q) ++ l.*1.

Lemma returned_refl q : returned q q [].
Proof. split; by rewrite app_nil_r. Qed.

Lemma returned_trans q1 q2 q3 l l' : returned q1 q2 l → returned q2 q3 l' → returned q1 q3 (l ++ l').
Proof. intros [H1 H2] [H3 H4]. split; [by rewrite H3, H1, app_assoc|]. by rewrite H4, H2, fmap_app, app_assoc. Qed.

(** The chains the driver has made available on queue [i]. *)
Definition backlog (i : Z) s : nat := match vq i s with Some q => q_backlog q | None => O end.

(** [s'] differs from [s] in the queue [i], the multiplexer and memory only, and no
    chain was made available. *)
Definition frame (i : Z) s s' : Prop :=
  (∀ j, 0 ≤ j → j ≠ i → vq j s' = vq j s) ∧ vs_irq s' = vs_irq s ∧
  interrupt_status (vs_mmio (vs s')) = interrupt_status (vs_mmio (vs s)) ∧
  queues_ready (vs s') = queues_ready (vs s) ∧ need_reset_event (vs s') = need_reset_event (vs s) ∧
  (backlog i s' ≤ backlog i s)%nat.

Lemma frame_refl i s : frame i s s.
Proof. split_and!; done. Qed.

Lemma vq_set_eq i q q' s : vq i s = Some q → vq i (s <| vs ::= set_queue i q' |>) = Some q'.
Proof.
  intros H. unfold vq, queue in *. cbn. rewrite list_lookup_insert_eq; [done|]. by eapply lookup_lt_Some.
Qed.

Lemma frame_set i q' s0 s :
  0 ≤ i → (backlog i (s <| vs ::= set_queue i q' |>) ≤ backlog i s)%nat →
  frame i s0 s → frame i s0 (s <| vs ::= set_queue i q' |>).
Proof.
  intros Hi Hb (H1 & H2 & H3 & H4 & H5 & H6). split_and!; try done; [|lia]. intros j Hj Hne. rewrite <-H1 by done.
  unfold vq, queue. cbn. rewrite list_lookup_insert_ne; [done|lia].
Qed.

Lemma frame_mem i s0 s m : frame i s0 s → frame i s0 (s <| vgm := m |>).
Proof. done. Qed.

Lemma frame_mux i s0 s x : frame i s0 s → frame i s0 (set_mux_st x s).
Proof. done. Qed.

(** A ready queue and its loop: what was returned since [q0], whether [used] tells
    it, and the chain in hand, if any. *)
Definition at_queue (i : Z) q0 (used : bool) (held : list Chain) (l : list (Z * Z)) s : Prop :=
  ∃ q, vq i s = Some q ∧ q_ready q = true ∧
    q_used_log q = q_used_log q0 ++ l ∧
    chain_head <$> q_popped q = (chain_head <$> q_popped q0) ++ l.*1 ++ (chain_head <$> held) ∧
    (l ≠ [] → used = true).

Lemma at_queue_start i q s : vq i s = Some q → q_ready q = true → at_queue i q false [] [] s.
Proof. intros. exists q. cbn. by rewrite !app_nil_r. Qed.

Lemma vs_pop_chain_wp t i q0 used l s (R : option Chain → St' → Prop) :
  at_queue i q0 used [] l s →
  (∀ c q', let s' := s <| vs ::= set_queue i q' |> in
     at_queue i q0 used (match c with Some c => [c] | None => [] end) l s' →
     (is_Some c → (backlog i s' < backlog i s)%nat) → (backlog i s' ≤ backlog i s)%nat → R c s') →
  wp t (pop_chain i) R s.
Proof.
  intros (q & Hq & Hr & Hu & Hp & Hl) HR. unfold pop_chain. apply wp_act. intros c s'.
  unfold vq in Hq. rewrite Hq, Hr.
  pose proof (q_pop_backlog_le (vgm s) q) as Hle. pose proof (q_ready_pop (vgm s) q) as Hrq.
  destruct (q_pop (vgm s) q) as [c' q'] eqn:Ep. destruct (q_pop_logs _ _ _ _ Ep) as [H1 H2]. cbn in Hrq, Hle.
  intros [= <- <-].
  assert (vq i (s <| vs ::= set_queue i q' |>) = Some q') as Hq' by (by eapply vq_set_eq).
  apply HR.
  - exists q'. split_and!; [done|by rewrite Hrq|by rewrite H1|rewrite H2, fmap_app, Hp; cbn; rewrite app_nil_r, <-!app_assoc|done].
    by destruct c'.
  - intros [x ->]. unfold backlog. rewrite Hq'. unfold vq. rewrite Hq. by eapply q_pop_backlog.
  - unfold backlog. rewrite Hq'. unfold vq. by rewrite Hq.
Qed.

Lemma vs_add_used_wp t i q0 used l c len s (R : result Error unit → St' → Prop) :
  at_queue i q0 used [c] l s →
  (∀ r q' m', let s' := s <| vs ::= set_queue i q' |> <| vgm := m' |> in
     (∃ x, vq i s' = Some x) →
     match r with
     | Ok _ => at_queue i q0 true [] (l ++ [(chain_head c, len)]) s' ∧ mem_log m' = mem_log (vgm s)
     | Err _ => True
     end → (backlog i s' ≤ backlog i s)%nat → R r s') →
  wp t (add_used i (chain_head c) len) R s.
Proof.
  intros (q & Hq & Hr & Hu & Hp & Hl) HR. unfold add_used. apply wp_act. intros r s'.
  unfold vq in Hq. rewrite Hq.
  pose proof (q_add_used_backlog (chain_head c) len q (vgm s)) as Hb.
  pose proof (q_ready_add_used (chain_head c) len q (vgm s)) as Hra.
  destruct (q_add_used (chain_head c) len q (vgm s)) as [[u q'] m'] eqn:E. cbn in Hb, Hra. intros [= <- <-].
  assert (∀ m', vq i (s <| vs ::= set_queue i q' |> <| vgm := m' |>) = Some q') as Hq'
    by (intros; by eapply vq_set_eq).
  apply HR; [by exists q'| |unfold backlog; rewrite Hq'; unfold vq; by rewrite Hq].
  destruct u as [[]|e]; cbn; [|done].
  destruct (q_add_used_ok _ _ _ _ _ _ E) as (H1 & H2 & H3). split; [|done].
  exists q'. split_and!; [done|by rewrite Hra|by rewrite H1, Hu, app_assoc| |done].
  rewrite H2, Hp, fmap_app. cbn. by rewrite app_nil_r.
Qed.

(** Calls of the multiplexer leave the queues alone. *)
Lemma at_queue_mux i q0 used held l x s : at_queue i q0 used held l s → at_queue i q0 used held l (set_mux_st x s).
Proof. done. Qed.

Lemma on_mux_wp {A} t (m : prog (St W) A) (P : A → St W → Prop) (R : A → St' → Prop) s :
  wp t m P (mux_st s) → (∀ a x, P a x → R a (set_mux_st x s)) → wp t (on_mux m) R s.
Proof. intros Hm HR. unfold on_mux. apply wp_zoom. eapply wp_mono; [exact Hm|done]. Qed.

(** *** From the guest *)

(** Between two turns of [pull_tx], and at its end. *)
Definition tx_inv s0 q0 (used : bool) s : Prop :=
  mux_ok (mux (vs s)) ∧ frame QUEUE_TX s0 s ∧ mem_log (vgm s) = mem_log (vgm s0) ∧
  ∃ l, at_queue QUEUE_TX q0 used [] l s.

Definition tx_post s0 q0 (r : result Error bool) s : Prop :=
  mux_ok (mux (vs s)) ∧ frame QUEUE_TX s0 s ∧
  match r with
  | Ok used => mem_log (vgm s) = mem_log (vgm s0) ∧ ∃ l, at_queue QUEUE_TX q0 used [] l s
  | Err _ => is_Some (vq QUEUE_TX s)
  end.

Definition turn_post s0 q0 (b : nat) (r : bool + result Error bool) s : Prop :=
  match r with
  | inl used => tx_inv s0 q0 used s ∧ (backlog QUEUE_TX s < b)%nat
  | inr r => tx_post s0 q0 r s
  end.

Lemma tx_used_go_on_wp s0 q0 used l c len b s :
  mux_ok (mux (vs s)) → frame QUEUE_TX s0 s → mem_log (vgm s) = mem_log (vgm s0) →
  at_queue QUEUE_TX q0 used [c] l s → (backlog QUEUE_TX s < b)%nat →
  wp Total (used_go_on QUEUE_TX (chain_head c) len) (turn_post s0 q0 b) s.
Proof.
  intros Hm Hf Hl Hq Hb. unfold used_go_on. wp_step. eapply vs_add_used_wp; [exact Hq|].
  intros r q' m' s' Hx Hr Hle. wp_step. destruct r as [[]|e]; cbn.
  - destruct Hr as [Hr Hl']. split; [|lia]. split_and!; [done|by apply frame_mem, frame_set|cbn; congruence|by eexists].
  - split_and!; [done|by apply frame_mem, frame_set|]. destruct Hx as [x ->]. by eexists.
Qed.

Lemma tx_mux_go_on_wp (m : prog (St W) unit) s0 q0 used l c len b s :
  (∀ x, inv x → wp Total m (λ _, inv) x) →
  mux_ok (mux (vs s)) → frame QUEUE_TX s0 s → mem_log (vgm s) = mem_log (vgm s0) →
  at_queue QUEUE_TX q0 used [c] l s → (backlog QUEUE_TX s < b)%nat →
  wp Total (on_mux m;; used_go_on QUEUE_TX (chain_head c) len) (turn_post s0 q0 b) s.
Proof.
  intros Hop Hm Hf Hl Hq Hb. wp_step. eapply on_mux_wp; [by apply Hop|]. intros [] x Hx.
  eapply tx_used_go_on_wp; [exact Hx|by apply frame_mux|exact Hl|by eapply at_queue_mux|exact Hb].
Qed.

Lemma pull_tx_step_wp s0 q0 used s :
  tx_inv s0 q0 used s →
  wp Total (pull_tx_step fuel used) (turn_post s0 q0 (backlog QUEUE_TX s)) s.
Proof.
  intros (Hm & Hf & Hlog & l & Hq). unfold pull_tx_step. wp_step. eapply vs_pop_chain_wp; [exact Hq|].
  intros c q' s1 Hq1 Hb Hle. assert (frame QUEUE_TX s0 s1) as Hf1 by (by apply frame_set).
  assert (mux_ok (mux (vs s1))) as Hm1 by exact Hm.
  assert (mem_log (vgm s1) = mem_log (vgm s0)) as Hl1 by exact Hlog. clearbody s1.
  destruct c as [c|]; cbn beta iota; [|wp_step; split_and!; [done|done|done|by exists l]].
  specialize (Hb ltac:(by eexists)). do 2 wp_step.
  destruct (reader_new (vgm s1) c) as [rd|e]; cbn beta iota.
  2:{ wp_step. split_and!; [done|done|]. destruct Hq1 as (x & -> & _). by eexists. }
  destruct (reader_read (vgm s1) HDR rd) as [[raw r] rd'].
  wp_step; [by eapply tx_used_go_on_wp|].
  wp_step; [eapply tx_mux_go_on_wp; [|done..]; intros; by apply drop_conn_ok|].
  destruct (reader_read (vgm s1) (hlen (header_parse raw)) rd') as [[bs r'] rd''].
  wp_step; eapply tx_mux_go_on_wp; try done; intros.
  - by apply drop_conn_ok.
  - apply handle_guest_pkt_ok; [by intros|done].
Qed.

Lemma pull_tx_wp s0 q0 :
  mux_ok (mux (vs s0)) → vq QUEUE_TX s0 = Some q0 → q_ready q0 = true → (q_backlog q0 < fuel)%nat →
  wp Total (pull_tx fuel) (tx_post s0 q0) s0.
Proof.
  intros Hm Hq Hr Hb. unfold pull_tx.
  apply (wp_iter Total (tx_inv s0 q0) (λ _ s, backlog QUEUE_TX s)).
  - split_and!; [done|apply frame_refl|done|]. exists []. by apply at_queue_start.
  - unfold backlog. by rewrite Hq.
  - intros used s Hs. eapply wp_mono; [by apply pull_tx_step_wp|]. intros [u|r] s' H; exact H.
Qed.

(** *** To the guest *)

Definition credit (cs : gmap Flow Conn) (flow : Flow) : Z * Z :=
  match cs !! flow with Some c => (buf_alloc c, fwd_cnt c) | None => (0, 0) end.

(** A packet put into the chain [d.1]: the header with the connection's credit,
    and the payload if there is any. *)
Definition pkt_writes (m : Mux) (d : Z * OutPkt) : list (Z * list Z) :=
  let '(ba, fc) := credit (conns m) (pkt_flow d.2) in
  (d.1, pkt_header d.2 (guest_cid m) ba fc)
  :: (if decide (pkt_data d.2 = []) then [] else [(d.1, pkt_data d.2)]).

(** [m] is [m0] after the packets [ps] were taken off its queues: the control
    packets from the front, the payload of each connection byte by byte. *)
Definition taken (ps : list OutPkt) (m0 m : Mux) : Prop :=
  filter (λ p, pkt_op p ≠ OP_RW) ps ++ out_ctrl m = out_ctrl m0 ∧
  (∀ flow, queued_data flow (filter (λ p, pkt_op p = OP_RW) ps) ++ queued_data flow (out_data m)
           = queued_data flow (out_data m0)) ∧
  conns m = conns m0 ∧ guest_cid m = guest_cid m0.

Definition rx_inv s0 q0 (ds : list (Z * OutPkt)) (l : list (Z * Z)) s : Prop :=
  mux_ok (mux (vs s)) ∧ frame QUEUE_RX s0 s ∧ vw s = vw s0 ∧ taken ds.*2 (mux (vs s0)) (mux (vs s)) ∧
  mem_log (vgm s) = mem_log (vgm s0) ++ concat (pkt_writes (mux (vs s0)) <$> ds) ∧
  filter (λ e, e.2 ≠ 0) l = (λ d, (d.1, HDR + zlen (pkt_data d.2))) <$> ds.

Definition rx_post s0 q0 (r : result Error bool) s : Prop :=
  match r with
  | Ok used => ∃ ds l, rx_inv s0 q0 ds l s ∧ at_queue QUEUE_RX q0 used [] l s
  | Err _ =>
      mux_ok (mux (vs s)) ∧ frame QUEUE_RX s0 s ∧ is_Some (vq QUEUE_RX s) ∧
      ∃ ps, taken ps (mux (vs s0)) (mux (vs s))
  end.

Lemma rx_used_wp s0 q0 used (ds : list (Z * OutPkt)) l c len s (R : result Error unit → St' → Prop) :
  mux_ok (mux (vs s)) → frame QUEUE_RX s0 s → at_queue QUEUE_RX q0 used [c] l s →
  taken ds.*2 (mux (vs s0)) (mux (vs s)) →
  (∀ s', mux (vs s') = mux (vs s) → vw s' = vw s → frame QUEUE_RX s0 s' → mem_log (vgm s') = mem_log (vgm s) →
     at_queue QUEUE_RX q0 true [] (l ++ [(chain_head c, len)]) s' → (backlog QUEUE_RX s' ≤ backlog QUEUE_RX s)%nat →
     R (Ok tt) s') →
  (∀ e s', rx_post s0 q0 (Err e) s' → R (Err e) s') →
  wp Total (add_used QUEUE_RX (chain_head c) len) R s.
Proof.
  intros Hm Hf Hq Ht HO HE. eapply vs_add_used_wp; [exact Hq|]. intros r q' m' s' Hx Hr Hb.
  assert (frame QUEUE_RX s0 s') as Hf' by (by apply frame_mem, frame_set).
  destruct r as [[]|e].
  - destruct Hr as [Hr Hlog]. by apply HO.
  - apply HE. split_and!; [done|done| |by exists ds.*2]. destruct Hx as [x ->]. by eexists.
Qed.

(** Taking one packet off, with the way back. *)
Definition popped (m : Mux) (p : OutPkt) (m' : Mux) : Prop :=
  mux_ok m' ∧ conns m' = conns m ∧ guest_cid m' = guest_cid m ∧
  ((ctrl_pkt_ok (conns m) p ∧ out_ctrl m = p :: out_ctrl m' ∧ out_data m' = out_data m)
   ∨ (data_pkt_ok (conns m) p ∧ out_ctrl m' = out_ctrl m ∧ out_data m = p :: out_data m')).

Lemma pop_out_popped (m : Mux) (w : W) :
  mux_ok m → negb (bool_decide (out_ctrl m = [])) || negb (bool_decide (out_data m = [])) = true →
  ∃ p m', pop_out (mkSt m w) = Ret (Some p, mkSt m' w) ∧ popped m p m' ∧
    push_front_out p (mkSt m' w) = Ret (tt, mkSt m w).
Proof.
  intros Hm Ho. destruct m as [gc pa li ic cs np oc od]. destruct Hm as [H1 H2 H3 H4 H5]. cbn in *.
  destruct oc as [|p oc]; [destruct od as [|p od]; [done|]|]; eexists p, _; split; try reflexivity.
  - apply Forall_cons in H2 as [Hp H2]. split; [split_and!; [by split|done|done|by right]|].
    unfold push_front_out, upd_mux. cbn. by rewrite (proj2 (Z.eqb_eq _ _) (proj1 Hp)).
  - apply Forall_cons in H3 as [Hp H3]. split; [split_and!; [by split|done|done|by left]|].
    unfold push_front_out, upd_mux. cbn. by rewrite (proj2 (Z.eqb_neq _ _) (proj1 Hp)).
Qed.

(** The first [n] bytes of a packet, and what is pushed back. *)
Definition head_of (n : Z) (p : OutPkt) : OutPkt :=
  mkOutPkt (pkt_flow p) (pkt_op p) (pkt_flags p) (take (Z.to_nat n) (pkt_data p)).
Definition rest_of (n : Z) (p : OutPkt) : OutPkt :=
  mkOutPkt (pkt_flow p) (pkt_op p) (pkt_flags p) (drop (Z.to_nat n) (pkt_data p)).

Lemma queued_data_cons flow p l :
  queued_data flow (p :: l) = (if decide (pkt_flow p = flow) then pkt_data p else []) ++ queued_data flow l.
Proof.
  unfold queued_data. destruct (decide (pkt_flow p = flow)).
  - by rewrite filter_cons_True.
  - by rewrite filter_cons_False.
Qed.

Lemma queued_data_snoc flow p l :
  queued_data flow (l ++ [p]) = queued_data flow l ++ (if decide (pkt_flow p = flow) then pkt_data p else []).
Proof.
  unfold queued_data. rewrite filter_app, fmap_app, concat_app. f_equal.
  change (queued_data flow [p] = if decide (pkt_flow p = flow) then pkt_data p else []).
  rewrite queued_data_cons. by rewrite app_nil_r.
Qed.

Lemma taken_whole ps m0 m p m' : taken ps m0 m → popped m p m' → taken (ps ++ [p]) m0 m'.
Proof.
  intros (T1 & T2 & T3 & T4) (_ & C & G & [((Hop & Hd & _) & Ec & Ed)|((Hop & _) & Ec & Ed)]).
  - split_and!; try congruence.
    + rewrite filter_app, filter_cons_True, filter_nil, <-app_assoc by done. cbn. by rewrite <-Ec.
    + intros flow. rewrite filter_app, (filter_cons_False _ p), filter_nil, app_nil_r by done. by rewrite Ed.
  - split_and!; try congruence.
    + rewrite filter_app, (filter_cons_False _ p), filter_nil, app_nil_r by (intros H; by apply H). by rewrite Ec.
    + intros flow. rewrite filter_app, filter_cons_True, filter_nil, queued_data_snoc, <-app_assoc by done.
      rewrite <-queued_data_cons, <-Ed. apply T2.
Qed.

(** A data packet of which the first part goes out and the rest is pushed back. *)
Lemma taken_part ps m0 m p m' n :
  taken ps m0 m → popped m p m' → pkt_op p = OP_RW →
  taken (ps ++ [head_of n p]) m0 (m' <| out_data ::= λ l, rest_of n p :: l |>).
Proof.
  intros (T1 & T2 & T3 & T4) (_ & C & G & [((Hop & _) & _)|(_ & Ec & Ed)]) Hrw; [done|].
  split_and!; try (cbn; congruence).
  - rewrite filter_app, (filter_cons_False _ (head_of n p)), filter_nil, app_nil_r by (intros H; by apply H).
    cbn. by rewrite Ec.
  - intros flow. rewrite filter_app, filter_cons_True, filter_nil, queued_data_snoc, <-app_assoc by done.
    rewrite <-T2, Ed. f_equal. cbn [out_data set_field]. unfold set_field. cbn [out_data].
    rewrite !queued_data_cons, app_assoc. f_equal. cbn. case_decide; [|done]. by rewrite take_drop.
Qed.

Lemma mux_ok_push_rest m p m' n :
  popped m p m' → pkt_op p = OP_RW → 0 ≤ n < zlen (pkt_data p) →
  mux_ok (m' <| out_data ::= λ l, rest_of n p :: l |>).
Proof.
  intros (Hm' & C & _ & [((Hop & _) & _)|((_ & Hne & Hl & Hs) & _)]) Hrw Hn; [done|].
  destruct Hm'. split; cbn; try done. apply Forall_cons. split; [|done].
  split_and!; cbn; [done| | |by rewrite C].
  - intros E%(f_equal zlen). rewrite zlen_drop in E by lia. rewrite zlen_nil in E. lia.
  - rewrite zlen_drop by lia. lia.
Qed.

Lemma zlen_pkt_header p cid ba fc : zlen (pkt_header p cid ba fc) = HDR.
Proof. reflexivity. Qed.

Lemma write_chain_wp t bs wr s (R : result string unit * Wr → St' → Prop) :
  zlen bs ≤ writer_avail wr →
  (∀ wr' m', writer_avail wr' = writer_avail wr - zlen bs → writer_head wr' = writer_head wr →
     mem_log m' = mem_log (vgm s) ++ [(writer_head wr, bs)] → R (Ok tt, wr') (s <| vgm := m' |>)) →
  wp t (write_chain bs wr) R s.
Proof.
  intros Hl HR. unfold write_chain. apply wp_act. intros a s'.
  destruct (writer_write_ok (vgm s) bs wr Hl) as (wr' & m' & -> & H1 & H2 & H3).
  intros [= <- <-]. by apply HR.
Qed.

Lemma write_packet_wp t raw data wr s (R : bool → St' → Prop) :
  zlen raw + zlen data ≤ writer_avail wr →
  (∀ m', mem_log m' = mem_log (vgm s) ++ (writer_head wr, raw)
           :: (if decide (data = []) then [] else [(writer_head wr, data)]) →
     R true (s <| vgm := m' |>)) →
  wp t (write_packet raw data wr) R s.
Proof.
  intros Hl HR. pose proof (zlen_nonneg data). unfold write_packet. wp_step.
  apply write_chain_wp; [lia|]. intros wr1 m1 Ha Hh Hlog. cbn [is_err is_ok negb]. cbn beta iota.
  destruct (decide (data = [])) as [->|Hne].
  - rewrite bool_decide_true by done. wp_step. by apply HR.
  - rewrite bool_decide_false by done. wp_step. apply write_chain_wp; [lia|].
    intros wr2 m2 _ _ Hlog2. wp_step. cbn [is_ok]. apply HR. cbn in Hlog2.
    by rewrite Hlog2, Hlog, <-app_assoc, Hh.
Qed.

(** The end of a turn that delivered a packet or gave the chain back unused. *)
Lemma rx_deliver_wp s0 q0 used ds l c len s (R : bool + result Error bool → St' → Prop) (go : bool) :
  (∃ p : OutPkt, len = HDR + zlen (pkt_data p) ∧ go = true ∧ rx_inv s0 q0 (ds ++ [(chain_head c, p)]) (l ++ [(chain_head c, len)]) s)
  ∨ (len = 0 ∧ go = false ∧ rx_inv s0 q0 ds l s) →
  at_queue QUEUE_RX q0 used [c] l s →
  (∀ ds' l' s', rx_inv s0 q0 ds' l' s' → at_queue QUEUE_RX q0 true [] l' s' →
     (backlog QUEUE_RX s' ≤ backlog QUEUE_RX s)%nat → R (if go then inl true else inr (Ok true)) s') →
  (∀ e s', rx_post s0 q0 (Err e) s' → R (inr (Err e)) s') →
  wp Total (if go then used_go_on QUEUE_RX (chain_head c) len else used_break QUEUE_RX (chain_head c) len) R s.
Proof.
  intros Hcase Hq HO HE.
  assert (∃ ds', rx_inv s0 q0 ds' (l ++ [(chain_head c, len)]) s) as [ds' Hi].
  { destruct Hcase as [(p & _ & _ & H)|(-> & _ & H)]; [by eexists|]. exists ds.
    destruct H as (?&?&?&?&?&Hl). split_and!; try done.
    rewrite filter_app, (filter_cons_False _ (chain_head c, 0)), filter_nil, app_nil_r by (intros H'; by apply H'). done. }
  assert (wp Total (add_used QUEUE_RX (chain_head c) len) (λ r s', match r with
    | Ok _ => R (if go then inl true else inr (Ok true)) s' | Err e => R (inr (Err e)) s' end) s) as Hu.
  { destruct Hi as (Hm & Hf & Hw & Ht & Hlog & Hl).
    eapply (rx_used_wp s0 q0 used ds' l); try done.
    - intros s' E1 E2 Hf' Elog Hq' Hb. apply (HO ds' (l ++ [(chain_head c, len)])); [|done|done].
      split_and!; rewrite ?E1, ?E2, ?Elog; done. }
  destruct go; [unfold used_go_on|unfold used_break]; wp_step;
    (eapply wp_mono; [exact Hu|]); intros [[]|e] s' H; by wp_step.
Qed.

(** What a turn leaves behind, with at most [b] chains to go. *)
Definition rx_turn s0 q0 (b : nat) (r : bool + result Error bool) s : Prop :=
  match r with
  | inl u => (∃ ds l, rx_inv s0 q0 ds l s ∧ at_queue QUEUE_RX q0 u [] l s) ∧ (backlog QUEUE_RX s ≤ b)%nat
  | inr r => rx_post s0 q0 r s
  end.

(** The packet goes back to the front, the chain unused to the driver. *)
Lemma rx_give_back_wp s0 q0 used ds l c s p m' b :
  rx_inv s0 q0 ds l s → at_queue QUEUE_RX q0 used [c] l s →
  push_front_out p (mkSt m' (vw s)) = Ret (tt, mux_st s) →
  wp Total (on_mux (push_front_out p);; used_break QUEUE_RX (chain_head c) 0) (rx_turn s0 q0 b)
    (set_mux_st (mkSt m' (vw s)) s).
Proof.
  intros Hi Hq Epush. wp_step. unfold on_mux. apply wp_zoom. eapply wp_unfold; [exact Epush|].
  replace (set_mux_st (mux_st s) _) with s by (by destruct s as [[] ? ?]).
  eapply (rx_deliver_wp s0 q0 used ds l c 0 s _ false); [by right|done| |done].
  intros ds' l' s' Hi' Hq' _. by exists ds', l'.
Qed.

(** Room for the first [n] bytes of the packet. *)
Lemma popped_size m p m' : popped m p m' → zlen (pkt_data p) ≤ MAX_CHUNK ∧ (pkt_op p ≠ OP_RW → pkt_data p = []).
Proof.
  intros (_ & _ & _ & [((_ & Hd & _) & _)|((Hop & _ & Hl & _) & _)]); [|by split].
  by rewrite Hd.
Qed.

Lemma rx_inv_deliver s0 q0 ds l c s p s' :
  rx_inv s0 q0 ds l s → mux_ok (mux (vs s')) → frame QUEUE_RX s0 s' → vw s' = vw s →
  taken (ds.*2 ++ [p]) (mux (vs s0)) (mux (vs s')) →
  mem_log (vgm s') = mem_log (vgm s) ++ pkt_writes (mux (vs s0)) (chain_head c, p) →
  rx_inv s0 q0 (ds ++ [(chain_head c, p)]) (l ++ [(chain_head c, HDR + zlen (pkt_data p))]) s'.
Proof.
  intros (_ & _ & Hw & _ & Hlog & Hl) Hm Hf Hw' Ht Hlog'. split_and!; try done.
  - congruence.
  - by rewrite fmap_app.
  - rewrite Hlog', Hlog, fmap_app, concat_app, <-app_assoc. cbn [fmap list_fmap concat]. by rewrite app_nil_r.
  - rewrite filter_app, fmap_app, Hl. f_equal. rewrite filter_cons_True; [done|].
    cbn. pose proof (zlen_nonneg (pkt_data p)). unfold HDR, HDR_LEN. lia.
Qed.

Lemma push_rest_wp ps m0 s p m n s1 (R : unit → St' → Prop) :
  taken ps m0 m → popped m p (mux (vs s1)) → 0 ≤ n ≤ zlen (pkt_data p) →
  (n < zlen (pkt_data p) → pkt_op p = OP_RW) →
  (∀ m2, mux_ok m2 → taken (ps ++ [head_of n p]) m0 m2 → R tt (set_mux_st (mkSt m2 (vw s)) s1)) →
  vw s1 = vw s →
  wp Total (push_rest (head_of n p) (if n <? zlen (pkt_data p) then Some (drop (Z.to_nat n) (pkt_data p)) else None)) R s1.
Proof.
  intros Ht Hpop Hn Hrw HR Hw. destruct (Z.ltb_spec n (zlen (pkt_data p))); cbn [push_rest].
  - specialize (Hrw ltac:(lia)). unfold on_mux. apply wp_zoom. unfold push_front_out, upd_mux. wp_step. cbn [pkt_op head_of].
    rewrite (proj2 (Z.eqb_eq _ _) Hrw).
    assert (∀ f, set_mux_st ((mux_st s1) <| mx ::= f |>) s1 = set_mux_st (mkSt (f (mux (vs s1))) (vw s)) s1) as ->
      by (intros; by rewrite <-Hw).
    apply HR; [by apply (mux_ok_push_rest m p (mux (vs s1)) n Hpop Hrw); lia|by apply (taken_part _ _ m p)].
  - wp_step. assert (set_mux_st (mkSt (mux (vs s1)) (vw s)) s1 = s1) as E by (rewrite <-Hw; by destruct s1 as [[] ? ?]).
    rewrite <-E. apply HR; [apply Hpop|]. replace (head_of n p) with p; [by eapply taken_whole|].
    unfold head_of. rewrite take_ge by (unfold zlen in *; lia). by destruct p.
Qed.

Lemma place_pkt_wp s0 q0 used ds l c s p m' wr :
  rx_inv s0 q0 ds l s → at_queue QUEUE_RX q0 used [c] l s → writer_head wr = chain_head c →
  popped (mux (vs s)) p m' → push_front_out p (mkSt m' (vw s)) = Ret (tt, mux_st s) →
  wp Total (place_pkt (chain_head c) wr p) (rx_turn s0 q0 (backlog QUEUE_RX s)) (set_mux_st (mkSt m' (vw s)) s).
Proof.
  intros Hi Hq Hhd Hpop Epush. unfold place_pkt.
  destruct (Z.ltb_spec (writer_avail wr) HDR); [by eapply rx_give_back_wp|]. wp_step; [by eapply rx_give_back_wp|].
  set (n := Z.min (zlen (pkt_data p)) (writer_avail wr - HDR)).
  destruct (popped_size _ _ _ Hpop) as [Hsz Hctrl]. pose proof (zlen_nonneg (pkt_data p)).
  assert (0 ≤ n ≤ zlen (pkt_data p)) as Hn by lia.
  assert (cast 32 (HDR + n) = HDR + zlen (pkt_data (head_of n p))) as ->.
  { cbn [pkt_data head_of]. rewrite zlen_take by done. apply cast_small.
    unfold uint, HDR, HDR_LEN, MAX_CHUNK in *. lia. }
  fold (head_of n p). pose proof Hi as (Hm & Hf & Hw & Ht & Hlog & Hl).
  pose proof Hpop as (Hm' & Hcs & Hcid & _). pose proof Ht as (_ & _ & Hcs0 & Hcid0).
  wp_step. unfold on_mux at 1. apply wp_zoom. unfold credit_of, get_conn. do 3 wp_step.
  replace (set_mux_st _ (set_mux_st _ s)) with (set_mux_st (mkSt m' (vw s)) s) by (by destruct s as [[] ? ?]).
  lazymatch goal with |- wp _ (let '_ := ?x in _) _ _ => change x with (credit (conns m') (pkt_flow p)) end.
  destruct (credit (conns m') (pkt_flow p)) as [ba fc] eqn:Ecr. do 2 wp_step.
  change (guest_cid (mux (vs (set_mux_st _ _)))) with (guest_cid m').
  wp_step. apply write_packet_wp; [rewrite zlen_pkt_header; cbn [pkt_data head_of]; rewrite zlen_take; lia|].
  intros m1 Hm1. cbn [negb]. cbn beta iota. change (vgm (set_mux_st _ s)) with (vgm s) in Hm1.
  assert (mem_log m1 = mem_log (vgm s) ++ pkt_writes (mux (vs s0)) (chain_head c, head_of n p)) as Hlog1.
  { rewrite Hm1, Hhd. unfold pkt_writes. cbn [fst snd pkt_flow head_of]. rewrite <-Hcs0, <-Hcs, Ecr, <-Hcid0, <-Hcid. done. }
  clear Hm1 Ecr. wp_step.
  set (s1 := (set_mux_st {| mx := m'; hw := vw s |} s) <| vgm := m1 |>).
  eapply (push_rest_wp _ _ s p _ n s1); [exact Ht|exact Hpop|done| | |done].
  { intros ?. destruct (Z.eqb_spec (pkt_op p) OP_RW) as [|Hne]; [done|]. specialize (Hctrl Hne).
    rewrite Hctrl in *. rewrite zlen_nil in *. lia. }
  intros m2 Hm2 Ht2.
  eapply (rx_deliver_wp s0 q0 used ds l c _ _ _ true); [left; exists (head_of n p); split_and!; [done|done|]|done| |done].
  - by eapply rx_inv_deliver.
  - intros ds' l' s' Hi' Hq' Hb. split; [by exists ds', l'|exact Hb].
Qed.

Lemma push_rx_step_wp s0 q0 used ds l s :
  rx_inv s0 q0 ds l s → at_queue QUEUE_RX q0 used [] l s →
  wp Total (push_rx_step used)
    (λ r s', rx_turn s0 q0 (backlog QUEUE_RX s) r s' ∧
             match r with inl _ => (backlog QUEUE_RX s' < backlog QUEUE_RX s)%nat | inr _ => True end) s.
Proof.
  intros Hi Hq. unfold push_rx_step. wp_step. unfold on_mux at 1. apply wp_zoom. unfold has_out. wp_step.
  replace (set_mux_st (mux_st s) s) with s by (by destruct s as [[] ? ?]).
  destruct (negb _ || negb _) eqn:Hmore; cbn [negb]; cbn beta iota; [|wp_step; split; [by exists ds, l|done]].
  wp_step. eapply vs_pop_chain_wp; [exact Hq|]. intros c q' s1 Hq1 Hb Hle.
  assert (rx_inv s0 q0 ds l s1) as Hi1.
  { destruct Hi as (?&?&?&?&?&?). split_and!; try done. by apply frame_set. }
  assert (mux (vs s1) = mux (vs s)) as Hmx by done. cbn [mx mux_st] in Hmore. rewrite <-Hmx in Hmore.
  clearbody s1.
  destruct c as [c|]; cbn beta iota; [|wp_step; split; [by exists ds, l|done]].
  specialize (Hb ltac:(by eexists)). do 2 wp_step.
  destruct (writer_new (vgm s1) c) as [wr|e] eqn:Ew; cbn beta iota.
  2:{ wp_step. split; [|done]. destruct Hi1 as (Hm&Hf&_&Ht&_). split_and!; [done|done| |by eexists].
      destruct Hq1 as (x & -> & _). by eexists. }
  destruct (pop_out_popped _ (vw s1) (proj1 Hi1) Hmore) as (p & m' & Epop & Hpop & Epush).
  wp_step. unfold on_mux at 1. apply wp_zoom. eapply wp_unfold; [exact Epop|]. cbn beta iota.
  eapply wp_mono; [eapply place_pkt_wp; try done; by eapply writer_new_head|].
  intros [u|r] s' H; split; try done; [|destruct H as [_ H]; lia].
  destruct H as [H ?]. split; [done|lia].
Qed.

Lemma push_rx_wp s0 q0 :
  mux_ok (mux (vs s0)) → vq QUEUE_RX s0 = Some q0 → q_ready q0 = true → (q_backlog q0 < fuel)%nat →
  wp Total (push_rx fuel) (rx_post s0 q0) s0.
Proof.
  intros Hm Hq Hr Hb. unfold push_rx.
  apply (wp_iter Total (λ u s, ∃ ds l, rx_inv s0 q0 ds l s ∧ at_queue QUEUE_RX q0 u [] l s) (λ _ s, backlog QUEUE_RX s)).
  - exists [], []. split; [split_and!; try done; by rewrite ?app_nil_r|by apply at_queue_start].
  - unfold backlog. by rewrite Hq.
  - intros used s (ds & l & Hi & Hl). eapply wp_mono; [by eapply push_rx_step_wp|].
    intros [u|r] s' [H Hlt]; [|exact H]. split; [apply H|exact Hlt].
Qed.

(** *** The reset event *)

(** One attempt at the report on memory [m] and event queue [q0]: without a buffer
    nothing happens; a buffer of four bytes or more gets the event and is returned with
    its length; a shorter one is returned empty. *)
Definition reset_reported (m : Mem) q0 (l : list (Z * Z)) (ws : list (Z * list Z)) : Prop :=
  match (if q_ready q0 then (q_pop m q0).1 else None) with
  | None => l = [] ∧ ws = []
  | Some c => ∃ wr, writer_new m c = Ok wr ∧
      if writer_avail wr <? 4 then l = [(chain_head c, 0)] ∧ ws = []
      else l = [(chain_head c, 4)] ∧ ws = [(chain_head c, le_bytes 4 EVENT_TRANSPORT_RESET)]
  end.

Definition event_post s0 q0 (r : result Error bool) s : Prop :=
  mux (vs s) = mux (vs s0) ∧ vw s = vw s0 ∧ frame QUEUE_EVENT s0 s ∧
  match r with
  | Ok sent => ∃ q l ws, vq QUEUE_EVENT s = Some q ∧ returned q0 q l ∧ sent = negb (bool_decide (l = [])) ∧
      mem_log (vgm s) = mem_log (vgm s0) ++ ws ∧
      if need_reset_event (vs s0) then reset_reported (vgm s0) q0 l ws else l = [] ∧ ws = []
  | Err _ => is_Some (vq QUEUE_EVENT s)
  end.

Lemma event_used_wp s0 q0 c n ws s :
  mux (vs s) = mux (vs s0) → vw s = vw s0 → frame QUEUE_EVENT s0 s → at_queue QUEUE_EVENT q0 false [c] [] s →
  mem_log (vgm s) = mem_log (vgm s0) ++ ws → need_reset_event (vs s0) = true →
  reset_reported (vgm s0) q0 [(chain_head c, n)] ws →
  wp Total (_ ←? add_used QUEUE_EVENT (chain_head c) n; mret (Ok true)) (event_post s0 q0) s.
Proof.
  intros Hm Hw Hf Hq Hlog Hn Hrep. wp_step. eapply vs_add_used_wp; [exact Hq|]. intros r q' m' s' Hx Hr Hle.
  assert (frame QUEUE_EVENT s0 s') as Hf' by (by apply frame_mem, frame_set).
  destruct r as [[]|e]; [wp_step|].
  2:{ by split_and!. }
  split_and!; try done.
  destruct Hr as [(q1 & Hq1 & _ & Hu & Hp & _) Hl]. exists q1, [(chain_head c, n)], ws.
  split_and!; try done; [by rewrite <-Hlog|by rewrite Hn].
Qed.

(** What popping returned. *)
Lemma pop_chain_eq i s q c s' :
  vq i s = Some q → pop_chain i s = Ret (c, s') → c = if q_ready q then (q_pop (vgm s) q).1 else None.
Proof.
  unfold pop_chain, act, vq. intros -> E. destruct (q_ready q); [|by injection E as <- _].
  destruct (q_pop (vgm s) q). by injection E as <- _.
Qed.

Lemma push_reset_event_wp s0 q0 :
  vq QUEUE_EVENT s0 = Some q0 → need_reset_event (vs s0) = true →
  wp Total push_reset_event (event_post s0 q0) s0.
Proof.
  intros Hq Hn. assert (∀ s, mux (vs s) = mux (vs s0) → vw s = vw s0 → frame QUEUE_EVENT s0 s → vgm s = vgm s0 →
    (if q_ready q0 then (q_pop (vgm s0) q0).1 else None) = None →
    (∃ q, vq QUEUE_EVENT s = Some q ∧ returned q0 q []) → event_post s0 q0 (Ok false) s) as Hnone.
  { intros s H1 H2 H3 H4 Hp (q & H5 & H6). split_and!; [done..|]. exists q, [], []. split_and!; try done.
    - by rewrite H4, app_nil_r.
    - rewrite Hn. unfold reset_reported. by rewrite Hp. }
  unfold push_reset_event. wp_step. destruct (q_ready q0) eqn:Hr.
  2:{ unfold pop_chain. apply wp_act. intros c s. unfold vq in Hq. rewrite Hq, Hr. intros [= <- <-].
      wp_step. apply Hnone; try done. exists q0. split; [done|apply returned_refl]. }
  apply wp_eqn.
  eapply (vs_pop_chain_wp _ _ q0 false []); [by apply at_queue_start|].
  intros c q' s1 Hq1 _ Hle Ec. apply (pop_chain_eq _ _ q0) in Ec; [|done]. rewrite Hr in Ec.
  assert (frame QUEUE_EVENT s0 s1) as Hf1 by (by apply frame_set; [..|apply frame_refl]).
  destruct c as [c|]; cbn beta iota.
  2:{ wp_step. destruct Hq1 as (q1 & ? & _ & ? & ? & _). apply Hnone; try done. exists q1.
      split; [done|]. split; [done|]. by rewrite app_nil_r in *. }
  do 2 wp_step. destruct (writer_new (vgm s1) c) as [wr|e] eqn:Ew; cbn beta iota.
  2:{ wp_step. split_and!; try done. destruct Hq1 as (x & -> & _). by eexists. }
  assert (∀ l ws, (if writer_avail wr <? 4 then l = [(chain_head c, 0)] ∧ ws = []
      else l = [(chain_head c, 4)] ∧ ws = [(chain_head c, le_bytes 4 EVENT_TRANSPORT_RESET)]) →
    reset_reported (vgm s0) q0 l ws) as Hrep.
  { intros l ws H. unfold reset_reported. rewrite Hr, <-Ec. by exists wr. }
  destruct (Z.ltb_spec (writer_avail wr) 4).
  - apply (event_used_wp _ _ _ _ []); try done; [by rewrite app_nil_r|by apply Hrep].
  - wp_step. apply write_chain_wp; [exact H|]. intros wr' m' _ _ Hlog. cbn beta iota.
    apply (event_used_wp _ _ _ _ [(chain_head c, le_bytes 4 EVENT_TRANSPORT_RESET)]); try done; [by rewrite <-(writer_new_head _ _ _ Ew)|by apply Hrep].
Qed.

(** *** The worker's step *)

Lemma vs_signal_wp s (R : result Error unit → St' → Prop) :
  (∀ r s', (∀ i, vq i s' = vq i s) → mux (vs s') = mux (vs s) → vw s' = vw s → vgm s' = vgm s →
     queues_ready (vs s') = queues_ready (vs s) → need_reset_event (vs s') = need_reset_event (vs s) →
     (r = Ok tt → vs_irq s' = vs_irq s + 1 ∧ Z.testbit (interrupt_status (vs_mmio (vs s'))) 0 = true) →
     R r s') →
  wp Total vs_signal R s.
Proof.
  intros HR. unfold vs_signal. apply wp_act. intros r s'. unfold signal_used_queue. cbn.
  destruct (efd_write (irq_fd (vs_mmio (vs s)))) as [x e] eqn:E. intros [= <- <-]. apply HR; try done.
  intros Hx. destruct x as [[]|]; [|done]. split; [by apply efd_write_ok|]. cbn. rewrite Z.lor_spec. apply orb_true_r.
Qed.

Lemma at_queue_returned i q0 used l s :
  at_queue i q0 used [] l s → ∃ q, vq i s = Some q ∧ returned q0 q l ∧ (l ≠ [] → used = true).
Proof.
  intros (q & Hq & _ & Hu & Hp & Hl). exists q. split_and!; try done. split; [done|].
  by rewrite app_nil_r in Hp.
Qed.

(** No queue was lost and no chain made available. *)
Definition calm s s' : Prop :=
  ∀ i, 0 ≤ i → (backlog i s' ≤ backlog i s)%nat ∧ (is_Some (vq i s) → is_Some (vq i s')).

Lemma calm_trans s1 s2 s3 : calm s1 s2 → calm s2 s3 → calm s1 s3.
Proof. intros H H' i Hi. destruct (H i Hi), (H' i Hi). split; [lia|auto]. Qed.

Lemma calm_eq s s' : (∀ i, vq i s' = vq i s) → calm s s'.
Proof. intros H i _. unfold backlog. by rewrite H. Qed.

Lemma frame_calm i s s' : 0 ≤ i → frame i s s' → is_Some (vq i s') → calm s s'.
Proof.
  intros Hi (H & _ & _ & _ & _ & Hb) Hs j Hj. destruct (decide (j = i)) as [->|Hne]; [done|].
  unfold backlog. by rewrite H.
Qed.

Lemma at_queue_some i q0 used held l s : at_queue i q0 used held l s → is_Some (vq i s).
Proof. intros (q & -> & _). by eexists. Qed.

(** A step on ready queues that succeeded: what was returned on each queue and
    written to memory. [s1] is the state after the guest's packets; from its multiplexer
    the packets [ds] went to the guest; [me] is memory when the reset event was tried. *)
Definition driven s0 (qr qt qe : Q) s : Prop :=
  ∃ qr' qt' qe' lr lt le used s1 ds me we,
    vq QUEUE_RX s = Some qr' ∧ vq QUEUE_TX s = Some qt' ∧ vq QUEUE_EVENT s = Some qe' ∧
    returned qr qr' lr ∧ returned qt qt' lt ∧ returned qe qe' le ∧
    pull_tx fuel (s0 <| vs ::= λ v, v <| queues_ready := true |> |>) = Ret (Ok used, s1) ∧
    taken ds.*2 (mux (vs s1)) (mux (vs s)) ∧
    filter (λ e, e.2 ≠ 0) lr = (λ d, (d.1, HDR + zlen (pkt_data d.2))) <$> ds ∧
    mem_log me = mem_log (vgm s0) ++ concat (pkt_writes (mux (vs s1)) <$> ds) ∧
    mem_log (vgm s) = mem_log me ++ we ∧
    (if need_reset_event (vs s0) then reset_reported me qe le we else le = [] ∧ we = []) ∧
    need_reset_event (vs s) = need_reset_event (vs s0) && bool_decide (le = []) ∧
    (lr ++ lt ++ le ≠ [] →
       vs_irq s = vs_irq s0 + 1 ∧ Z.testbit (interrupt_status (vs_mmio (vs s))) 0 = true).

(** The part of [drive] for a transport that is up. *)
Definition drive_queues : prog St' (result Error unit) :=
  used ←? pull_tx fuel;
  pushed ←? push_rx fuel;
  v ← gets vs;
  reset ←? (if need_reset_event v then push_reset_event else mret (Ok false));
  (if reset then upd_vs (λ v, v <| need_reset_event := false |>) else mret tt);;
  if used || pushed || reset then vs_signal else mret (Ok tt).

(** The reset event, when one is due. *)
Lemma drive_event_wp s qe :
  vq QUEUE_EVENT s = Some qe →
  wp Total (if need_reset_event (vs s) then push_reset_event else mret (Ok false)) (event_post s qe) s.
Proof.
  intros Hq. wp_step; [by apply push_reset_event_wp|].
  wp_step. split_and!; try done. exists qe, [], [].
  split_and!; [done|apply returned_refl|done|by rewrite app_nil_r|].
  by destruct (need_reset_event (vs s)).
Qed.

(** Clearing the flag. *)
Lemma drive_clear_wp (le : list (Z * Z)) s (R : unit → St' → Prop) :
  (∀ s', vs_mmio (vs s') = vs_mmio (vs s) → mux (vs s') = mux (vs s) → vgm s' = vgm s →
     queues_ready (vs s') = queues_ready (vs s) →
     need_reset_event (vs s') = need_reset_event (vs s) && bool_decide (le = []) → R tt s') →
  wp Total (if negb (bool_decide (le = [])) then upd_vs (λ v, v <| need_reset_event := false |>) else mret tt) R s.
Proof.
  intros HR. unfold upd_vs. destruct (decide (le = [])) as [Hle|Hle];
    [rewrite bool_decide_true by done|rewrite bool_decide_false by done]; cbn [negb]; wp_step; apply HR; try done.
  - by rewrite bool_decide_true, andb_true_r by done.
  - by rewrite bool_decide_false, andb_false_r by done.
Qed.

(** Interrupting the driver if anything was returned. *)
Lemma drive_signal_wp (ut ur : bool) (lr lt le : list (Z * Z)) s :
  (lt ≠ [] → ut = true) → (lr ≠ [] → ur = true) →
  wp Total (if ut || ur || negb (bool_decide (le = [])) then vs_signal else mret (Ok tt))
    (λ r s', (∀ i, vq i s' = vq i s) ∧ mux (vs s') = mux (vs s) ∧ vgm s' = vgm s ∧
       queues_ready (vs s') = queues_ready (vs s) ∧ need_reset_event (vs s') = need_reset_event (vs s) ∧
       (r = Ok tt → lr ++ lt ++ le ≠ [] →
          vs_irq s' = vs_irq s + 1 ∧ Z.testbit (interrupt_status (vs_mmio (vs s'))) 0 = true)) s.
Proof.
  intros Hut Hur. destruct (ut || ur || negb (bool_decide (le = []))) eqn:Hused; cbn beta iota.
  - apply vs_signal_wp. intros r s' Hv Hm _ Hg Hq Hn Hi. split_and!; auto.
  - wp_step. split_and!; try done. intros _ Hne. exfalso. apply Hne.
    apply orb_false_elim in Hused as [[-> ->]%orb_false_elim Hle%negb_false_iff%bool_decide_eq_true].
    destruct lr; [|by specialize (Hur ltac:(done))]. destruct lt; [|by specialize (Hut ltac:(done))]. by rewrite Hle.
Qed.

Lemma drive_queues_wp s0 qr qt qe :
  let s := s0 <| vs ::= λ v, v <| queues_ready := true |> |> in
  mux_ok (mux (vs s0)) → vq QUEUE_RX s0 = Some qr → vq QUEUE_TX s0 = Some qt → vq QUEUE_EVENT s0 = Some qe →
  q_ready qr = true → q_ready qt = true → (q_backlog qr < fuel)%nat → (q_backlog qt < fuel)%nat →
  wp Total drive_queues (λ r s', mux_ok (mux (vs s')) ∧ queues_ready (vs s') = true ∧
                                 calm s0 s' ∧ (r = Ok tt → driven s0 qr qt qe s')) s.
Proof.
  intros s Hm Hqr Hqt Hqe Hrr Hrt Hbr Hbt. unfold drive_queues.
  wp_step. apply wp_eqn. eapply wp_mono; [by apply (pull_tx_wp s qt)|].
  intros [ut|e] s1 (Hm1 & Hf1 & Hp1) Etx;
    [|split_and!; [done|apply Hf1|by apply (frame_calm QUEUE_TX s)|done]].
  destruct Hp1 as (Hg1 & lt & Hp1).
  assert (calm s0 s1) as Hc1 by (apply (frame_calm QUEUE_TX s); [done|done|by eapply at_queue_some]).
  pose proof Hf1 as (Hv1 & Hi1 & _ & Hqr1 & Hn1 & Hb1). change (queues_ready (vs s)) with true in Hqr1.
  change (vs_irq s) with (vs_irq s0) in Hi1.
  wp_step. eapply wp_mono; [apply (push_rx_wp s1 qr); [done|by rewrite Hv1|done|done]|].
  intros [ur|e] s2 Hp2;
    [|destruct Hp2 as (?&Hf2&?&_); split_and!; [done|rewrite <-Hqr1; apply Hf2|by eapply calm_trans, (frame_calm QUEUE_RX)|done]].
  destruct Hp2 as (ds & lr & (Hm2 & Hf2 & _ & Ht2 & Hg2 & Hl2) & Hp2). pose proof Hf2 as (Hv2 & Hi2 & _ & Hqr2 & Hn2 & Hb2).
  assert (calm s0 s2) as Hc2
    by (eapply calm_trans; [done|eapply (frame_calm QUEUE_RX); [done|done|by eapply at_queue_some]]).
  assert (vq QUEUE_EVENT s2 = Some qe) as Hqe2 by (rewrite Hv2, Hv1; done).
  do 3 wp_step. eapply wp_mono; [by apply (drive_event_wp s2 qe)|].
  intros re s3 (Hm3 & Hw3 & Hf3 & Hp3). pose proof Hf3 as (Hv3 & Hi3 & _ & Hqr3 & Hn3 & _).
  assert (calm s0 s3) as Hc3.
  { eapply calm_trans; [done|]. eapply (frame_calm QUEUE_EVENT); [done|done|].
    destruct re; [destruct Hp3 as (? & ? & ? & -> & _); by eexists|done]. }
  destruct re as [sent|e]; [|split_and!; [by rewrite Hm3|congruence|done|done]].
  destruct Hp3 as (qe' & le & we & Hqe' & Hre' & -> & Hg3 & Hrep).
  destruct (at_queue_returned _ _ _ _ _ Hp1) as (qt' & Hqt' & Hrt' & Hut).
  destruct (at_queue_returned _ _ _ _ _ Hp2) as (qr' & Hqr' & Hrr' & Hur).
  wp_step. apply drive_clear_wp. intros s4 Hv4 Hm4 Hg4 Hqr4 Hn4.
  eapply wp_mono; [by apply (drive_signal_wp ut ur lr lt le)|]. intros r s5 (Hv5 & Hm5 & Hg5 & Hqr5 & Hn5 & Hi5).
  assert (∀ i, vq i s5 = vq i s3) as Hv by (intros i; rewrite Hv5; unfold vq; by rewrite Hv4).
  split_and!; [congruence|congruence|by eapply calm_trans, calm_eq|].
  intros Hr. exists qr', qt', qe', lr, lt, le, ut, s1, ds, (vgm s2), we. rewrite Hn2, Hn1 in Hrep.
  split_and!; try done.
  - by rewrite Hv, Hv3.
  - by rewrite Hv, Hv3, Hv2.
  - by rewrite Hv.
  - by rewrite Hm5, Hm4, Hm3.
  - by rewrite Hg2, Hg1.
  - by rewrite Hg5, Hg4.
  - by rewrite Hn5, Hn4, Hn3, Hn2, Hn1.
  - intros Hne. destruct (Hi5 Hr Hne) as [-> Hb]. split; [|done]. unfold vs_irq in *. rewrite Hv4. congruence.
Qed.

(** What [drive] does on any state of the transport. *)
Definition drive_post s0 (qr qt qe : Q) (r : result Error unit) s : Prop :=
  mux_ok (mux (vs s)) ∧ calm s0 s ∧ queues_ready (vs s) = transport_up (vs s0) ∧
  if transport_up (vs s0) then r = Ok tt → driven s0 qr qt qe s
  else r = Ok tt ∧ vs_mmio (vs s) = vs_mmio (vs s0) ∧ vgm s = vgm s0 ∧
       if queues_ready (vs s0)
       then need_reset_event (vs s) = true ∧ conns (mux (vs s)) = ∅ ∧ incoming (mux (vs s)) = [] ∧
            out_ctrl (mux (vs s)) = [] ∧ out_data (mux (vs s)) = []
       else s = s0.

Lemma drive_up_wp s qr qt qe :
  mux_ok (mux (vs s)) → vq QUEUE_RX s = Some qr → vq QUEUE_TX s = Some qt → vq QUEUE_EVENT s = Some qe →
  (q_backlog qr < fuel)%nat → (q_backlog qt < fuel)%nat → transport_up (vs s) = true →
  wp Total (drive fuel hash_order) (drive_post s qr qt qe) s.
Proof.
  intros Hm Hqr Hqt Hqe Hbr Hbt Hup.
  assert (q_ready qr = true ∧ q_ready qt = true) as [Hrr Hrt].
  { unfold transport_up, queue_is_ready in Hup. apply andb_prop in Hup as [H1 H2].
    unfold vq in Hqr, Hqt. rewrite Hqr in H1. by rewrite Hqt in H2. }
  unfold drive. do 2 wp_step. rewrite Hup, andb_false_r. cbn [negb andb]. cbn iota beta. wp_step.
  assert (wp Total drive_queues (drive_post s qr qt qe) (s <| vs ::= λ v, v <| queues_ready := true |> |>)) as Hrest.
  { eapply wp_mono; [by apply (drive_queues_wp s qr qt qe)|]. intros r s2 (H1 & H2 & H3 & H4).
    unfold drive_post. rewrite Hup. by split_and!. }
  unfold upd_vs at 1. destruct (queues_ready (vs s)) eqn:Eq; cbn [negb]; wp_step; [|exact Hrest].
  replace s with (s <| vs ::= λ v, v <| queues_ready := true |> |>) at 2; [exact Hrest|].
  destruct s as [[] ? ?]. cbn in Eq. by subst.
Qed.

Lemma drive_down_wp s qr qt qe :
  mux_ok (mux (vs s)) → transport_up (vs s) = false →
  wp Total (drive fuel hash_order) (drive_post s qr qt qe) s.
Proof.
  intros Hm Hup. unfold drive. do 2 wp_step. rewrite Hup, andb_true_r. cbn [negb andb]. cbn iota beta.
  unfold drive_post. rewrite Hup. destruct (queues_ready (vs s)) eqn:Eq.
  - do 2 wp_step. unfold upd_vs. wp_step. unfold on_mux. apply wp_zoom.
    eapply wp_mono; [apply wp_and; [by apply (kill_connections_ok hash_order)|]|].
    + instantiate (1 := λ _ x, incoming (mx x) = [] ∧ conns (mx x) = ∅ ∧ out_ctrl (mx x) = [] ∧ out_data (mx x) = []).
      unfold kill_connections. msteps. done.
    + intros [] x [Hx (H1 & H2 & H3 & H4)]. wp_step. by split_and!.
  - do 2 wp_step. by split_and!.
Qed.

(** C21: one step of the vsock worker. It returns, whatever the guest's chains and the
    host's sockets do, and keeps the invariant of the multiplexer. On ready queues,
    if it succeeds, every chain taken from the three queues was returned exactly once
    and in order, the driver was interrupted if any was, and guest memory got the packets
    the multiplexer gave up after it had taken the guest's, then the reset event and
    nothing else. A due reset event stays due while the event queue has no buffer; a
    buffer of four bytes or more gets [EVENT_TRANSPORT_RESET], is returned with
    length 4 and settles it; a shorter buffer is returned empty and settles it too.
    Without a due event the event queue is left alone. When the transport has gone
    down, every connection and every queued packet is dropped and a reset event is
    due; otherwise nothing happens. *)
Theorem vsock_drive_correct s qr qt qe :
  mux_ok (mux (vs s)) → vq QUEUE_RX s = Some qr → vq QUEUE_TX s = Some qt → vq QUEUE_EVENT s = Some qe →
  (q_backlog qr < fuel)%nat → (q_backlog qt < fuel)%nat →
  ∃ r s', drive fuel hash_order s = Ret (r, s') ∧ drive_post s qr qt qe r s'.
Proof.
  intros. apply wp_total_inv. destruct (transport_up (vs s)) eqn:E; [by apply drive_up_wp|by apply drive_down_wp].
Qed.

(** C9: packets to the guest. [push_rx] returns; if it succeeds, the chains it
    returned are the delivered packets, each with its header and payload written
    into the chain and the number of bytes written reported, and chains given back
    with length zero; the control packets delivered are the first ones queued, and
    for every connection the delivered payload followed by what is still queued is
    what was queued before, so a packet that was split loses and reorders nothing. *)
Theorem vsock_rx_exact s q :
  mux_ok (mux (vs s)) → vq QUEUE_RX s = Some q → q_ready q = true → (q_backlog q < fuel)%nat →
  ∃ r s', push_rx fuel s = Ret (r, s') ∧ mux_ok (mux (vs s')) ∧
    (∃ ps, taken ps (mux (vs s)) (mux (vs s'))) ∧
    (∀ used, r = Ok used → ∃ q' ds l,
       vq QUEUE_RX s' = Some q' ∧ returned q q' l ∧
       filter (λ e, e.2 ≠ 0) l = (λ d, (d.1, HDR + zlen (pkt_data d.2))) <$> ds ∧
       mem_log (vgm s') = mem_log (vgm s) ++ concat (pkt_writes (mux (vs s)) <$> ds) ∧
       taken ds.*2 (mux (vs s)) (mux (vs s')) ∧ (l ≠ [] → used = true)).
Proof.
  intros Hm Hq Hr Hb. destruct (wp_total_inv _ _ _ (push_rx_wp s q Hm Hq Hr Hb)) as (r & s' & E & Hp).
  exists r, s'. destruct r as [used|e].
  - destruct Hp as (ds & l & (Hm' & Hf & Hw & Ht & Hlog & Hl) & Hq'). split_and!; [done|done|by eexists|].
    intros u [= ->]. destruct (at_queue_returned _ _ _ _ _ Hq') as (q' & H1 & H2 & H3). by exists q', ds, l.
  - destruct Hp as (Hm' & _ & _ & Ht). by split_and!.
Qed.

(** *** The worker's loop *)

(** What every turn relies on. *)
Definition vs_ok s : Prop :=
  mux_ok (mux (vs s)) ∧ is_Some (vq QUEUE_RX s) ∧ is_Some (vq QUEUE_TX s) ∧ is_Some (vq QUEUE_EVENT s) ∧
  (backlog QUEUE_RX s < fuel)%nat ∧ (backlog QUEUE_TX s < fuel)%nat.

Lemma vs_ok_calm s s' : vs_ok s → mux_ok (mux (vs s')) → calm s s' → vs_ok s'.
Proof.
  intros (_ & H1 & H2 & H3 & H4 & H5) Hm Hc.
  destruct (Hc QUEUE_RX ltac:(done)), (Hc QUEUE_TX ltac:(done)), (Hc QUEUE_EVENT ltac:(done)).
  split_and!; auto; lia.
Qed.

Lemma on_mux_ok {A} (m : prog (St W) A) s :
  vs_ok s → (∀ x, inv x → wp Total m (λ _, inv) x) → wp Total (on_mux m) (λ _, vs_ok) s.
Proof.
  intros Hs Hm. eapply on_mux_wp; [apply Hm, Hs|]. intros a x Hx.
  apply (vs_ok_calm s); [done|exact Hx|by apply calm_eq].
Qed.

Lemma on_fds_ok fds (x : St W) : inv x → wp Total (on_fds fuel hash_order fds) (λ _, inv) x.
Proof.
  revert x. induction fds as [|[fd ev] fds IH]; intros x Hx; cbn [on_fds]; wp_step; [done|].
  apply (wp_mono _ _ (λ _, inv)); [|intros [] ? ?; by apply IH].
  wp_step; [|by wp_step]. apply on_fd_ok; [by intros|done].
Qed.

Lemma drive_ok s : vs_ok s → wp Total (drive fuel hash_order) (λ _, vs_ok) s.
Proof.
  intros Hs. pose proof Hs as (Hm & [qr Hr] & [qt Ht] & [qe He] & Hbr & Hbt).
  unfold backlog in Hbr, Hbt. rewrite Hr in Hbr. rewrite Ht in Hbt.
  destruct (transport_up (vs s)) eqn:E.
  - eapply wp_mono; [by apply (drive_up_wp s qr qt qe)|].
    intros r s' (H1 & H2 & _). by apply (vs_ok_calm s).
  - eapply wp_mono; [by apply (drive_down_wp s qr qt qe)|].
    intros r s' (H1 & H2 & _). by apply (vs_ok_calm s).
Qed.

(** The registers may change in any way the driver can make them. *)
Lemma vs_unlocked_wp l s (R : unit → St' → Prop) :
  vs_ok s → (∀ s', vs_ok s' → R tt s') → wp Total (unlocked l) R s.
Proof.
  intros (Hm & [qr Hr] & [qt Ht] & [qe He] & Hbr & Hbt) HR. unfold unlocked. wp_step. apply HR.
  unfold backlog in Hbr, Hbt. rewrite Hr in Hbr. rewrite Ht in Hbt.
  destruct (vcpu_accesses_settings (vgm s) l _ _ _ Hr) as (_ & qr' & Hr' & Sr).
  destruct (vcpu_accesses_settings (vgm s) l _ _ _ Ht) as (_ & qt' & Ht' & St').
  destruct (vcpu_accesses_settings (vgm s) l _ _ _ He) as (_ & qe' & He' & _).
  destruct (settings_logs _ _ Sr) as (_ & _ & ?), (settings_logs _ _ St') as (_ & _ & ?).
  unfold vs_ok, backlog, vq, queue. cbn. rewrite Hr', Ht', He'. split_and!; [done|by eexists|by eexists|by eexists|lia|lia].
Qed.

Lemma worker_turn_ok t s :
  vs_ok s →
  wp Total (worker_turn fuel hash_order t)
    (λ r s', vs_ok s' ∧ (∀ x, r = inr x →
       ∃ e, wt_poll t = PollErr e ∧ raw_is EINTR e = false ∧ x = Err (VsockErr (MsgIo "poll" e)))) s.
Proof.
  intros Hs0. unfold worker_turn. wp_step. apply vs_unlocked_wp; [exact Hs0|]. intros s' Hs'. do 2 wp_step.
  wp_step. apply vs_unlocked_wp; [exact Hs'|]. clear s Hs0. intros s Hs. destruct (wt_poll t) as [revents|e].
  - wp_step. apply (wp_mono _ _ (λ _, vs_ok)).
    { wp_step; [|by wp_step]. unfold upd_vs. wp_step. apply (vs_ok_calm s); [done|apply Hs|by apply calm_eq]. }
    intros [] s1 Hs1. wp_step. eapply wp_mono; [apply (on_mux_ok _ s1 Hs1); intros; by apply on_fds_ok|].
    intros [] s2 Hs2. wp_step. apply wp_act. intros n s3 E.
    assert (vs_ok s3) as Hs3.
    { destruct (now (vw s2)). injection E as <- <-. apply (vs_ok_calm s2); [done|apply Hs2|by apply calm_eq]. }
    wp_step. eapply wp_mono; [apply (on_mux_ok _ s3 Hs3); intros; by apply check_timeouts_ok|].
    intros [] s4 Hs4. wp_step. eapply wp_mono; [by apply drive_ok|]. intros r s5 Hs5. by wp_step.
  - destruct (raw_is EINTR e) eqn:Ee; wp_step; (split; [done|]); [done|]. intros x [= <-]. by exists e.
Qed.

(** The loop failed in turn [t] with the error of [poll]. *)
Definition poll_failed (ts : list Turn) (r : result Error unit) : Prop :=
  ∃ t e, t ∈ ts ∧ wt_poll t = PollErr e ∧ raw_is EINTR e = false ∧ r = Err (VsockErr (MsgIo "poll" e)).

Lemma worker_loop_ok ts s :
  vs_ok s →
  wp Total (worker_loop fuel hash_order ts) (λ r s', vs_ok s' ∧ (r = Ok tt ∨ poll_failed ts r)) s.
Proof.
  revert s. induction ts as [|t ts IH]; intros s Hs; cbn [worker_loop]; wp_step; [by auto|].
  eapply wp_mono; [by apply worker_turn_ok|]. intros [[]|x] s1 [Hs1 Hr].
  - eapply wp_mono; [by apply IH|]. intros r s2 [Hs2 [Hr2|(t' & e & ? & ?)]]; (split; [done|]); [by left|].
    right. exists t', e. split; [by apply list_elem_of_further|done].
  - wp_step. split; [done|]. right. destruct (Hr x eq_refl) as (e & ? & ? & ->). exists t, e.
    split_and!; try done. apply list_elem_of_here.
Qed.

End vsock_proofs.

(** C22: the vsock worker. Started on the multiplexer that [Mux::bind] returned and a
    transport with its three queues, the loop returns after every sequence of turns,
    whatever events the polls bring, however the guest fills the queues, and whatever the
    vCPUs write to the registers while the worker does not hold the lock, resets of the
    device and of its queues included; nothing makes it panic, the invariant of the
    multiplexer holds at the end, the three queues are still there, and the loop fails
    only with the error of a [poll] that failed other than by an interruption. *)
Theorem vsock_worker_safe {Q Mem Chain Rd Wr Efd W : Type}
    `{VQ : !VirtQueue Q Mem Chain Rd Wr, VL : !VirtQueueLaws Q Mem Chain Rd Wr, QF : !QueueFair Q Mem Chain Rd Wr}
    `{EF : !EventFd Efd, EL : !EventFdLaws Efd, VH : !VsockHost W, HL : !VsockHostLaws W} (fuel : nat)
    `{HF : !VsockHostFair W fuel} hash_order cid p (w w' : W) m (mmio : VirtioMmio Q Efd) (mem : Mem) qr qt qe ts :
  mux_bind cid p w = Ret (Ok m, w') → queues mmio = [qr; qt; qe] →
  (q_backlog qr < fuel)%nat → (q_backlog qt < fuel)%nat →
  ∃ r s', worker_loop fuel hash_order ts (mkVsSt (vsock_state_new mmio m) w' mem) = Ret (r, s') ∧
    mux_ok (mux (vs s')) ∧ is_Some (vq QUEUE_RX s') ∧ is_Some (vq QUEUE_TX s') ∧ is_Some (vq QUEUE_EVENT s') ∧
    (r = Ok tt ∨ poll_failed ts r).
Proof.
  intros E Hqs Hbr Hbt.
  pose proof (wp_partial_inv Total _ _ _ _ _ (mux_bind_wp Total cid p w) E m eq_refl) as [Hm _].
  assert (vs_ok fuel (mkVsSt (vsock_state_new mmio m) w' mem)) as Hs.
  { unfold vs_ok, backlog, vq, queue. cbn. rewrite Hqs. cbn. split_and!; done. }
  destruct (wp_total_inv _ _ _ (worker_loop_ok fuel hash_order ts _ Hs)) as (r & s' & Er & (Hm' & H1 & H2 & H3 & _) & Hr).
  by exists r, s'.
Qed.

(** A device whose guest sends a packet for a connection of the host and has given two
    short receive buffers, the second of which takes a queued packet in part. *)
Definition vs_chain (h : Z) (bytes : list Z) (room : nat) : SChain := mkSChain h bytes room false false.
Definition vs_q (cs : list SChain) : SQueue := mkSQueue 256 256 true true cs [] false [].
Definition demo_pkt : OutPkt := mkOutPkt demo_flow OP_RW 0 [1; 2; 3; 4; 5; 6].
Definition demo_vs (ready : bool) (w : SHost) : VsSt SQueue Z SMem SHost :=
  mkVsSt (mkVsockState (mkVirtioMmio 0 19 0 0 0 0 0 0 0 0 0
    [vs_q [vs_chain 1 [] 44; vs_chain 2 [] 48];
     vs_q [vs_chain 3 (pkt_header (mkOutPkt (mkFlow 1024 80) OP_RW 0 [7; 7]) 2 8 0 ++ [7; 7]) 0; vs_chain 4 [1; 2] 0];
     vs_q [vs_chain 5 [] 8]])
    (demo_mux <| out_ctrl := [pkt_ctrl demo_flow OP_RST 0] |> <| out_data := [demo_pkt] |>) ready ready) w [].

Lemma demo_vs_mux_ok ready w : mux_ok (mux (vs (demo_vs ready w))).
Proof.
  pose proof demo_mux_ok as []. split; cbn -[MAX_CHUNK]; try done.
  - constructor; [|done]. split_and!; [done|done|zcompute|by eexists].
  - constructor; [|done]. by split_and!.
Qed.

Lemma vsock_drive_correct_witness :
  ∃ s', drive 9 map_to_list (demo_vs true sh_empty) = Ret (Ok tt, s') ∧
    driven 9 (demo_vs true sh_empty) (vs_q [vs_chain 1 [] 44; vs_chain 2 [] 48])
      (vs_q [vs_chain 3 (pkt_header (mkOutPkt (mkFlow 1024 80) OP_RW 0 [7; 7]) 2 8 0 ++ [7; 7]) 0; vs_chain 4 [1; 2] 0])
      (vs_q [vs_chain 5 [] 8]) s' ∧
    q_used_log <$> vq QUEUE_RX s' = Some [(1, 44); (2, 48)] ∧ q_used_log <$> vq QUEUE_EVENT s' = Some [(5, 4)] ∧
    need_reset_event (vs s') = false ∧ out_data (mux (vs s')) = [mkOutPkt demo_flow OP_RW 0 [5; 6]] ∧
    last (vgm s') = Some (5, [0; 0; 0; 0]).
Proof.
  destruct (vsock_drive_correct 9 map_to_list (demo_vs true sh_empty) _ _ _ (demo_vs_mux_ok _ _) eq_refl eq_refl eq_refl)
    as (r & s' & E & _ & _ & _ & Hd); [cbn; lia|cbn; lia|].
  assert (ret_of (λ x, (x.1, q_used_log <$> vq QUEUE_RX x.2, q_used_log <$> vq QUEUE_EVENT x.2,
      need_reset_event (vs x.2), out_data (mux (vs x.2)), last (vgm x.2))) (drive 9 map_to_list (demo_vs true sh_empty))
    = Some (Ok tt, Some [(1, 44); (2, 48)], Some [(5, 4)], false, [mkOutPkt demo_flow OP_RW 0 [5; 6]],
        Some (5, [0; 0; 0; 0]))) as Ev
    by (vm_compute; reflexivity).
  rewrite E in Ev. cbn in Ev. injection Ev as -> H1 H2 H3 H4 H5. exists s'.
  split; [exact E|]. split; [exact (Hd eq_refl)|]. split_and!; assumption.
Defined.

Lemma vsock_rx_exact_witness :
  ∃ s', push_rx 9 (demo_vs true sh_empty) = Ret (Ok true, s') ∧
    (∃ ds, taken ds.*2 (mux (vs (demo_vs true sh_empty))) (mux (vs s')) ∧
       vgm s' = concat (pkt_writes (mux (vs (demo_vs true sh_empty))) <$> ds)).
Proof.
  destruct (vsock_rx_exact 9 (demo_vs true sh_empty) (vs_q [vs_chain 1 [] 44; vs_chain 2 [] 48])
    (demo_vs_mux_ok _ _)) as (r & s' & E & _ & _ & H); [reflexivity|reflexivity|cbn; lia|].
  assert (ret_of fst (push_rx 9 (demo_vs true sh_empty)) = Some (Ok true)) as Ev by (vm_compute; reflexivity).
  rewrite E in Ev. injection Ev as ->. exists s'. split; [exact E|].
  destruct (H true eq_refl) as (q' & ds & l & _ & _ & _ & Hlog & Ht & _). exists ds. split; [exact Ht|exact Hlog].
Defined.

(** The transport comes up, the driver resets the device while the worker waits, so that the
    transport goes down; then polling is interrupted, and then it fails. *)
Definition demo_vs_turns : list Turn :=
  [mkWorkerTurn [] [] (Polled [1; 1]);
   mkWorkerTurn [] [(REG_STATUS, le_bytes 4 0)] (Polled [0; 0; 1]);
   mkWorkerTurn [(REG_QUEUE_SEL, le_bytes 4 1)] [] (PollErr (OsError EINTR));
   mkWorkerTurn [] [] (PollErr (OsError EINVAL))].

Lemma vsock_worker_safe_witness :
  ∃ m w' s', mux_bind 3 (ascii_bytes "/tmp/v") demo_host = Ret (Ok m, w') ∧
    worker_loop 9 map_to_list demo_vs_turns
      (mkVsSt (vsock_state_new (vs_mmio (vs (demo_vs true sh_empty))) m) w' [])
      = Ret (Err (VsockErr (MsgIo "poll" (OsError EINVAL))), s') ∧
    mux_ok (mux (vs s')) ∧ need_reset_event (vs s') = true.
Proof.
  destruct (mux_bind 3 (ascii_bytes "/tmp/v") demo_host) as [[[m|e] w']| |] eqn:E; [|exfalso; vm_compute in E; congruence..].
  exists m, w'.
  destruct (vsock_worker_safe 9 map_to_list 3 (ascii_bytes "/tmp/v") demo_host w' m
    (vs_mmio (vs (demo_vs true sh_empty))) [] _ _ _ demo_vs_turns E eq_refl)
    as (r & s' & Er & Hm & _ & _ & _ & _); [cbn; lia|cbn; lia|].
  assert (ret_of (λ p, (p.1, need_reset_event (vs p.2))) (worker_loop 9 map_to_list demo_vs_turns
      (mkVsSt (vsock_state_new (vs_mmio (vs (demo_vs true sh_empty))) m) w' []))
    = Some (Err (VsockErr (MsgIo "poll" (OsError EINVAL))), true)) as Ev.
  { vm_compute in E. injection E as <- <-. vm_compute. reflexivity. }
  rewrite Er in Ev. injection Ev as -> Hn. exists s'. split; [reflexivity|]. split; [exact Er|]. split; [exact Hm|exact Hn].
Defined.
