(* ===== verification/VirtioDev.v ===== *)
(** * The device shell and its worker

    [devices/virtio_dev.rs] and the parts of the three devices that instantiate it:
    the register window with its configuration space, the guest's notifications, and
    the life of the worker thread. Callers of [start_worker] and [stop_worker] and the
    worker threads interleave: a step is one atomic action of one of them. *)

From S2P Require Import Prelude Words Errors VirtQueue VirtioMmio.
From S2P Require Import VirtioBlk VirtioNet VsockMux VirtioVsock.
Local Open Scope Z_scope.

(** ** The register window *)

Definition CONFIG_CAP : nat := 64.

(** The trait [VirtioState]: [copy_config] returns the size of the configuration
    space and the destination with its prefix filled. *)
Class VirtioState (S Q Efd : Type) := {
  st_mmio : S → VirtioMmio Q Efd;
  st_set_mmio : VirtioMmio Q Efd → S → S;
  copy_config : S → list Z → Z * list Z;
}.

(** The body the three devices share, on their configuration bytes. *)
Definition copy_config_bytes (cfg dest : list Z) : Z * list Z :=
  let n := Nat.min (length cfg) (length dest) in
  (zlen cfg, take n cfg ++ drop n dest).

Section shell.
Context {S Q Mem Chain Rd Wr Efd : Type}.
Context `{VQ : !VirtQueue Q Mem Chain Rd Wr} `{EF : !EventFd Efd} `{VS : !VirtioState S Q Efd}.

(** [range] and [handles] of a device at [base]. *)
Definition dev_range (base : Z) : Z * Z := (base, base + MMIO_SIZE).
Definition dev_handles (base addr : Z) : bool :=
  let '(lo, hi) := dev_range base in (lo <=? addr) && (addr <? hi).

Definition dev_read (s : S) (addr : Z) (data : list Z) : option (list Z) :=
  let raw := replicate CONFIG_CAP 0 in
  let '(n, raw) := copy_config s raw in
  let n := Z.min n (zlen raw) in
  mmio_read (st_mmio s) addr data (take (Z.to_nat n) raw).

(** The notification goes through the device's descriptor, which the worker polls. *)
Definition dev_write (mem : Mem) (addr : Z) (data : list Z) : prog S (result Error unit) :=
  s ← get;
  r ← expect (mmio_write mem (st_mmio s) addr data);
  let '(notify, m) := r in
  put (st_set_mmio m s);;
  match notify with
  | None => mret (Ok tt)
  | Some _ =>
      r ← act (λ s, let '(r, e) := efd_write (notify_fd (st_mmio s)) in
                    (r, st_set_mmio ((st_mmio s) <| notify_fd := e |>) s));
      mret (map_err (λ e, VirtioErr (MsgExt "" e)) r)
  end.

End shell.

(** The three devices. *)
#[export] Instance Block_state {Q Efd} : VirtioState (VirtioBlk.BlockTransport Q Efd) Q Efd := {
  st_mmio := VirtioBlk.bt_mmio;
  st_set_mmio m t := t <| VirtioBlk.bt_mmio := m |>;
  copy_config t := copy_config_bytes (VirtioBlk.config_space (VirtioBlk.capacity_sectors t));
}.

#[export] Instance Net_state {Q Efd} : VirtioState (VirtioNet.NetState Q Efd) Q Efd := {
  st_mmio := VirtioNet.net_mmio;
  st_set_mmio m t := t <| VirtioNet.net_mmio := m |>;
  copy_config t := copy_config_bytes (VirtioNet.net_config_space (VirtioNet.mac t));
}.

#[export] Instance Vsock_state {Q Efd} : VirtioState (VirtioVsock.VsockState Q Efd) Q Efd := {
  st_mmio := VirtioVsock.vs_mmio;
  st_set_mmio m t := t <| VirtioVsock.vs_mmio := m |>;
  copy_config t := copy_config_bytes (le_bytes 8 (VsockMux.guest_cid (VirtioVsock.mux t)));
}.

(** ** The worker thread

    [D] is what a worker takes along and gives back when it is joined: the disk of
    the block device. The network and the vsock device take nothing. *)

Inductive WorkerSlot := Idle | Starting | Running (handle : nat).

#[export] Instance WorkerSlot_eq_dec : EqDecision WorkerSlot.
Proof. solve_decision. Defined.

(** How a worker ended. *)
Inductive WorkerEnd := Finished (r : result Error unit) | Panicked.

Record Worker (D : Type) := mkWorker {
  wk_disk : option D;
  wk_end : option WorkerEnd;
}.
Arguments mkWorker {D}.
Arguments wk_disk {D}.
Arguments wk_end {D}.

(** What the callers and the workers share. The handle of a worker is its index. *)
Record DevShared (D : Type) := mkDevShared {
  slot : WorkerSlot;
  stop : bool;
  kick : Z;
  disk_slot : option D;
  workers : list (Worker D);
}.
Arguments mkDevShared {D}.
Arguments slot {D}.
Arguments stop {D}.
Arguments kick {D}.
Arguments disk_slot {D}.
Arguments workers {D}.
#[export] Instance eta_DevShared {D} : Eta (DevShared D) := λ s,
  mkDevShared (slot s) (stop s) (kick s) (disk_slot s) (workers s).

(** The errors of a device: their constructor, and the message for a worker that panicked. *)
Record WorkerErrors := mkWorkerErrors { we_error : errmsg → Error; we_panicked : string }.
Definition blk_errors : WorkerErrors := mkWorkerErrors BlockErr "virtio-blk worker panicked".
Definition net_errors : WorkerErrors := mkWorkerErrors NetErr "virtio-net worker panicked".
Definition vsock_errors : WorkerErrors := mkWorkerErrors VsockErr "virtio-vsock worker panicked".

Section life.
Context {D : Type}.
Implicit Types s : DevShared D.

(** *** Atomic actions *)

(** [reserve]: whether a reservation was made. *)
Definition reserve s : bool * DevShared D :=
  match slot s with
  | Idle => (true, s <| slot := Starting |>)
  | _ => (false, s)
  end.

(** [WorkerReservation::commit]. *)
Definition commit (h : nat) s : DevShared D := s <| slot := Running h |>.

(** [WorkerReservation::drop] of a reservation that was not committed. *)
Definition drop_reservation s : DevShared D :=
  match slot s with Starting => s <| slot := Idle |> | _ => s end.

Definition clear_stop s : DevShared D := s <| stop := false |>.

Definition request_stop s : DevShared D := s <| stop := true |> <| kick ::= Z.succ |>.

(** One turn of [take_worker]: [None] is a turn that found [Starting]. *)
Definition take_worker_step s : option (option nat) * DevShared D :=
  match slot s with
  | Running h => (Some (Some h), s <| slot := Idle |>)
  | Idle => (Some None, s)
  | Starting => (None, s)
  end.

(** [spawn]: the new thread is live and owns the disk. *)
Definition spawn (d : option D) s : nat * DevShared D :=
  (length (workers s), s <| workers ::= λ l, l ++ [mkWorker d None] |>).

(** *** Callers *)

(** [start_worker] between its atomic actions; [uses_disk] is set for the block
    device, whose disk is taken right after the reservation. *)
Inductive StartPc :=
| SReserve
| STakeDisk
| SCloneKick (d : option D)
| SClearStop (d : option D)
| SSpawn (d : option D)
| SCommit (h : nat)
| SDone (r : result Error unit).

Inductive StopPc :=
| TRequest
| TTake
| TJoin (h : nat)
| TDone (r : result Error unit).

Inductive Caller := Start (p : StartPc) | Stop (p : StopPc).

Variable uses_disk : bool.
(** The errors of the device at hand. *)
Variable dev_err : WorkerErrors.

(** One action of a caller. [ok] is the outcome of [try_clone] or [spawn] where one
    of them is called. [None]: the caller has returned or waits. *)
Definition start_step (ok : bool) (p : StartPc) s : option (StartPc * DevShared D) :=
  match p with
  | SReserve =>
      let '(r, s') := reserve s in
      Some (if r then (if uses_disk then STakeDisk else SCloneKick None, s') else (SDone (Ok tt), s'))
  | STakeDisk =>
      match disk_slot s with
      | Some d => Some (SCloneKick (Some d), s <| disk_slot := None |>)
      | None => Some (SDone (Err (we_error dev_err (Msg "block disk already in use"))), drop_reservation s)
      end
  | SCloneKick d =>
      if ok then Some (SClearStop d, s)
      else Some (SDone (Err (we_error dev_err (MsgExt "" "try_clone"))),
                 drop_reservation (if uses_disk then s <| disk_slot := d |> else s))
  | SClearStop d => Some (SSpawn d, clear_stop s)
  | SSpawn d =>
      if ok then let '(h, s') := spawn d s in Some (SCommit h, s')
      else Some (SDone (Err (we_error dev_err (MsgExt "" "spawn"))),
                 drop_reservation (if uses_disk then s <| disk_slot := d |> else s))
  | SCommit h => Some (SDone (Ok tt), commit h s)
  | SDone _ => None
  end.

(** Joining waits for the end of the worker; the block device takes its disk back. *)
Definition stop_step (p : StopPc) s : option (StopPc * DevShared D) :=
  match p with
  | TRequest => Some (TTake, request_stop s)
  | TTake =>
      let '(r, s') := take_worker_step s in
      match r with
      | None => Some (TTake, s')
      | Some None => Some (TDone (Ok tt), s')
      | Some (Some h) => Some (TJoin h, s')
      end
  | TJoin h =>
      match workers s !! h with
      | Some w =>
          match wk_end w with
          | None => None
          | Some (Finished r) =>
              Some (TDone r,
                    let s := s <| workers ::= <[h := mkWorker None (wk_end w)]> |> in
                    if uses_disk then s <| disk_slot := wk_disk w |> else s)
          | Some Panicked => Some (TDone (Err (we_error dev_err (Msg (we_panicked dev_err)))), s)
          end
      | None => None
      end
  | TDone _ => None
  end.

Definition caller_step (ok : bool) (c : Caller) s : option (Caller * DevShared D) :=
  match c with
  | Start p => (λ '(p, s), (Start p, s)) <$> start_step ok p s
  | Stop p => (λ '(p, s), (Stop p, s)) <$> stop_step p s
  end.

(** [drop], which nobody else can interfere with but the worker: the outcome of the
    worker is dropped with its disk. *)
Definition drop_step (p : StopPc) s : option (StopPc * DevShared D) :=
  match p with
  | TRequest => Some (TTake, request_stop s)
  | TTake =>
      let '(r, s') := take_worker_step s in
      match r with
      | None => Some (TTake, s')
      | Some None => Some (TDone (Ok tt), s')
      | Some (Some h) => Some (TJoin h, s')
      end
  | TJoin h =>
      w ← workers s !! h;
      _ ← wk_end w;
      Some (TDone (Ok tt), s <| workers ::= <[h := mkWorker None (wk_end w)]> |>)
  | TDone _ => None
  end.

Inductive drop_run (s0 : DevShared D) : StopPc → DevShared D → Prop :=
| drop_begin : drop_run s0 TRequest s0
| drop_more p s p' s' : drop_run s0 p s → drop_step p s = Some (p', s') → drop_run s0 p' s'
| drop_worker p s h w w' :
    drop_run s0 p s → workers s !! h = Some w → wk_end w = None → is_Some (wk_end w') →
    drop_run s0 p (s <| workers ::= <[h := w']> |>).

(** *** Interleavings *)

Record Config := mkConfig { shared : DevShared D; callers : list Caller }.

(** A step: a new call, an action of a caller, or the end of a worker. A worker
    that returns has seen the stop flag or failed; a worker that panics takes its
    disk with it. *)
Inductive dev_step : Config → Config → Prop :=
| step_call s cs c :
    c = Start SReserve ∨ c = Stop TRequest →
    dev_step (mkConfig s cs) (mkConfig s (cs ++ [c]))
| step_caller s s' cs i c c' ok :
    cs !! i = Some c → caller_step ok c s = Some (c', s') →
    dev_step (mkConfig s cs) (mkConfig s' (<[i := c']> cs))
| step_worker s cs h w r :
    workers s !! h = Some w → wk_end w = None → (r = Ok tt → stop s = true) →
    dev_step (mkConfig s cs) (mkConfig (s <| workers ::= <[h := mkWorker (wk_disk w) (Some (Finished r))]> |>) cs)
| step_panic s cs h w :
    workers s !! h = Some w → wk_end w = None →
    dev_step (mkConfig s cs) (mkConfig (s <| workers ::= <[h := mkWorker None (Some Panicked)]> |>) cs).

(** [VirtioDev::new] with the disk of the device. *)
Definition dev_new (d : option D) : Config := mkConfig (mkDevShared Idle false 0 d []) [].

Definition dev_reach (d : option D) : Config → Prop := rtc dev_step (dev_new d).

End life.

(** [start_worker] and [stop_worker] of the three devices. *)
Definition blk_start_worker {D} := start_step (D := D) true blk_errors.
Definition blk_stop_worker {D} := stop_step (D := D) true blk_errors.
Definition net_start_worker {D} := start_step (D := D) false net_errors.
Definition net_stop_worker {D} := stop_step (D := D) false net_errors.
Definition vsock_start_worker {D} := start_step (D := D) false vsock_errors.
Definition vsock_stop_worker {D} := stop_step (D := D) false vsock_errors.

(** ** Ownership *)

Section ownership.
Context {D : Type} (uses_disk : bool) (dev_err : WorkerErrors).
Implicit Types (s : DevShared D) (c : Caller (D := D)) (cfg : Config (D := D)).

Definition is_live (w : Worker D) : Prop := wk_end w = None.
Definition panicked (w : Worker D) : Prop := wk_end w = Some Panicked.
Definition some_panicked (ws : list (Worker D)) : Prop := ∃ h w, ws !! h = Some w ∧ panicked w.

(** A caller that holds a reservation: it can always go on. *)
Definition reserved_pc (p : StartPc (D := D)) : bool :=
  match p with STakeDisk | SCloneKick _ | SClearStop _ | SSpawn _ | SCommit _ => true | _ => false end.
Definition caller_reserved c : list unit :=
  match c with Start p => if reserved_pc p then [tt] else [] | _ => [] end.

(** What a caller holds: a disk, the handle of a worker. *)
Definition caller_disk c : list D :=
  match c with
  | Start (SCloneKick d) | Start (SClearStop d) | Start (SSpawn d) => option_list d
  | _ => []
  end.
Definition caller_handle c : list nat :=
  match c with Start (SCommit h) | Stop (TJoin h) => [h] | _ => [] end.

(** Every place a disk or a handle can be in. *)
Definition disks cfg : list D :=
  option_list (disk_slot (shared cfg)) ++ (callers cfg ≫= caller_disk)
  ++ (workers (shared cfg) ≫= option_list ∘ wk_disk).
Definition slot_handle (sl : WorkerSlot) : list nat := match sl with Running h => [h] | _ => [] end.
Definition handles cfg : list nat :=
  slot_handle (slot (shared cfg)) ++ (callers cfg ≫= caller_handle).

(** A caller of the block device that is past taking the disk has one. *)
Definition caller_ok c : Prop :=
  match c with
  | Start (SCloneKick d) | Start (SClearStop d) | Start (SSpawn d) => uses_disk = true → is_Some d
  | _ => True
  end.

(** The handles [hs] own the workers [ws]: every live worker has its one handle, and
    a worker of the block device keeps the disk until it is joined or panics. *)
Record owned (hs : list nat) (ws : list (Worker D)) : Prop := mkOwned {
  own_nodup : NoDup hs;
  own_live : ∀ h w, ws !! h = Some w → is_live w → h ∈ hs;
  own_bound : ∀ h, h ∈ hs → (h < length ws)%nat;
  own_disk : uses_disk = true → ∀ h w, h ∈ hs → ws !! h = Some w → is_Some (wk_disk w) ∨ panicked w;
}.

Record dev_inv (d : D) cfg : Prop := mkDevInv {
  inv_reserved : (callers cfg ≫= caller_reserved)
                 = match slot (shared cfg) with Starting => [tt] | _ => [] end;
  inv_handles : owned (handles cfg) (workers (shared cfg));
  inv_callers : Forall caller_ok (callers cfg);
  inv_disks : uses_disk = true →
    disks cfg ≡ₚ [d] ∨ (disks cfg = [] ∧ some_panicked (workers (shared cfg)));
}.

End ownership.

(** ** Lemmas *)

Lemma bind_insert {A B} (f : A → list B) (l : list A) i x y :
  l !! i = Some x →
  ∃ r r', l ≫= f = r ++ f x ++ r' ∧ <[i := y]> l ≫= f = r ++ f y ++ r'.
Proof.
  intros Hi. exists (take i l ≫= f), (drop (S i) l ≫= f).
  rewrite insert_take_drop by (by eapply lookup_lt_Some).
  rewrite <-(take_drop_middle l i x Hi) at 1. by rewrite !bind_app.
Qed.

Section invariant.
Context {D : Type} (uses_disk : bool) (dev_err : WorkerErrors) (d0 : D).
Implicit Types (s : DevShared D) (c : Caller (D := D)) (cfg : Config (D := D)) (ws : list (Worker D)).
Local Abbreviation inv := (dev_inv uses_disk d0).

Lemma some_panicked_insert (ws : list (Worker D)) h w w' :
  ws !! h = Some w → ¬ panicked w → some_panicked ws → some_panicked (<[h := w']> ws).
Proof.
  intros Hh Hn (k & v & Hk & Hp). exists k, v. rewrite list_lookup_insert_ne; [done|].
  intros ->. by simplify_eq.
Qed.

Lemma inv_new d : (uses_disk = true → d = Some d0) → inv (dev_new d).
Proof. intros Hd. split; cbn; try done; [|intros ->%Hd; by left]. split; try done; try set_solver. apply NoDup_nil_2. Qed.

Lemma inv_call s cs c :
  c = Start SReserve ∨ c = Stop TRequest → inv (mkConfig s cs) → inv (mkConfig s (cs ++ [c])).
Proof.
  intros Hc [H1 H2 H3 H4]. unfold handles, disks in *. cbn [shared callers] in *.
  split; unfold handles, disks; cbn [shared callers]; rewrite ?bind_app.
  all: destruct Hc as [-> | ->]; cbn; rewrite ?app_nil_r; try done.
  all: apply Forall_app; split; [done|]; by repeat constructor.
Qed.

(** What an action of a caller does to the workers and their handles: it moves a
    handle, makes a worker and its handle, or gives a handle up when the worker has
    ended. *)
Inductive handle_move (hs hs' : list nat) (ws : list (Worker D)) : list (Worker D) → Prop :=
| HMove : hs ≡ₚ hs' → handle_move hs hs' ws ws
| HNew d : hs' ≡ₚ length ws :: hs → (uses_disk = true → is_Some d) →
    handle_move hs hs' ws (ws ++ [mkWorker d None])
| HJoin h w w' : hs ≡ₚ h :: hs' → ws !! h = Some w → wk_end w' = wk_end w → ¬ is_live w →
    handle_move hs hs' ws (<[h := w']> ws).

Lemma owned_perm hs hs' (ws : list (Worker D)) : hs ≡ₚ hs' → owned uses_disk hs ws → owned uses_disk hs' ws.
Proof. intros E [H1 H2 H3 H4]. split; try setoid_rewrite <-E; eauto. Qed.

Lemma owned_move hs hs' ws ws' : handle_move hs hs' ws ws' → owned uses_disk hs ws → owned uses_disk hs' ws'.
Proof.
  intros [E|d E Hd|h w w' E Hh Hw Hl] Ho; [by eapply owned_perm| |].
  - apply (owned_perm (length ws :: hs)); [by symmetry|]. destruct Ho as [H1 H2 H3 H4]. split.
    + constructor; [|done]. intros ?%H3. lia.
    + intros h w [?|[? [? <-]%list_lookup_singleton_Some]]%lookup_app_Some ?; [right; by eapply H2|].
      apply elem_of_cons. left. lia.
    + intros h [->|?%H3]%elem_of_cons; rewrite length_app; cbn; lia.
    + intros Hu h w Hin [?|[? [? <-]%list_lookup_singleton_Some]]%lookup_app_Some; [|left; by apply Hd].
      apply elem_of_cons in Hin as [->|]; [|eauto]. exfalso. apply lookup_lt_Some in H. lia.
  - apply (owned_perm _ (h :: hs')) in Ho; [|done]. destruct Ho as [H1 H2 H3 H4].
    apply NoDup_cons in H1 as [Hni H1]. split; [done| | |].
    + intros k v Hk Hlv. destruct (decide (h = k)) as [->|].
      * rewrite list_lookup_insert_eq in Hk by (by eapply lookup_lt_Some). simplify_eq.
        unfold is_live in *. congruence.
      * rewrite list_lookup_insert_ne in Hk by done. apply H2 in Hk; [|done]. by apply elem_of_cons in Hk as [->|].
    + intros k Hk. rewrite length_insert. apply H3. set_solver.
    + intros Hu k v Hk. rewrite list_lookup_insert_ne by set_solver. apply H4; set_solver.
Qed.

(** The end of a worker: its handle stays where it is. *)
Lemma owned_end hs ws h w w' :
  ws !! h = Some w → ¬ is_live w' → (wk_disk w' = wk_disk w ∧ ¬ panicked w ∨ panicked w') →
  owned uses_disk hs ws → owned uses_disk hs (<[h := w']> ws).
Proof.
  intros Hh Hl Hw [H1 H2 H3 H4]. split; [done| | |].
  - intros k v [(-> & <- & _)|[_ ?]]%list_lookup_insert_Some Hv; [done|by eapply H2].
  - intros k. rewrite length_insert. apply H3.
  - intros Hu k v Hk [(-> & <- & _)|[_ ?]]%list_lookup_insert_Some; [|by eapply H4].
    destruct Hw as [[-> ?]|?]; [|by right]. left. by destruct (H4 Hu _ _ Hk Hh).
Qed.

Lemma handle_move_frame hs hs' ws ws' r :
  handle_move hs hs' ws ws' → handle_move (hs ++ r) (hs' ++ r) ws ws'.
Proof.
  intros [E|d E Hd|h w w' E Hh Hw Hl].
  - apply HMove. by rewrite E.
  - apply HNew; [by rewrite E|done].
  - eapply HJoin; [by rewrite E|done..].
Qed.

Lemma some_panicked_move hs hs' ws ws' :
  handle_move hs hs' ws ws' → some_panicked ws → some_panicked ws'.
Proof.
  intros [E|d E Hd|h w w' E Hh Hw Hl] (k & v & Hk & Hp); [by exists k, v| |].
  - exists k, v. split; [|done]. by apply lookup_app_l_Some.
  - destruct (decide (h = k)) as [->|].
    + exists k, w'. rewrite list_lookup_insert_eq by (by eapply lookup_lt_Some). simplify_eq.
      split; [done|]. unfold panicked in *. congruence.
    + exists k, v. by rewrite list_lookup_insert_ne.
Qed.

(** The frame of an action of caller [i]: what the others hold stays. *)
Definition held s c : list D :=
  option_list (disk_slot s) ++ caller_disk c ++ (workers s ≫= option_list ∘ wk_disk).

Lemma inv_caller s s' cs i c c' :
  cs !! i = Some c → inv (mkConfig s cs) → caller_ok uses_disk c' →
  (∀ r r', r ++ caller_reserved c ++ r' = (match slot s with Starting => [tt] | _ => [] end) →
           r ++ caller_reserved c' ++ r' = (match slot s' with Starting => [tt] | _ => [] end)) →
  handle_move (slot_handle (slot s) ++ caller_handle c) (slot_handle (slot s') ++ caller_handle c')
    (workers s) (workers s') →
  (uses_disk = true → (length (held s c) ≤ 1)%nat → held s c ≡ₚ held s' c') →
  inv (mkConfig s' (<[i := c']> cs)).
Proof.
  intros Hi [H1 H2 H3 H4] Hc' Hr Hh Hd. unfold handles, disks in *. cbn [shared callers] in *.
  destruct (bind_insert caller_reserved cs i c c' Hi) as (ra & ra' & Ea & Ea').
  destruct (bind_insert caller_handle cs i c c' Hi) as (rb & rb' & Eb & Eb').
  destruct (bind_insert caller_disk cs i c c' Hi) as (rc & rc' & Ec & Ec').
  rewrite Ea in H1. rewrite Eb in H2. rewrite Ec in H4.
  split; unfold handles, disks; cbn [shared callers].
  - rewrite Ea'. by apply Hr.
  - rewrite Eb'. apply (owned_perm ((slot_handle (slot s') ++ caller_handle c') ++ rb ++ rb')); [by solve_Permutation|].
    eapply owned_move; [by apply handle_move_frame|].
    eapply owned_perm; [|exact H2]. by solve_Permutation.
  - by apply Forall_insert.
  - intros Hu. rewrite Ec'.
    assert (length (held s c) ≤ 1)%nat as Hlen.
    { destruct (H4 Hu) as [H%Permutation_length|[H%(f_equal length) _]]; unfold held; rewrite !length_app in *; cbn in *; lia. }
    assert (option_list (disk_slot s') ++ (rc ++ caller_disk c' ++ rc') ++ (workers s' ≫= option_list ∘ wk_disk)
      ≡ₚ option_list (disk_slot s) ++ (rc ++ caller_disk c ++ rc') ++ (workers s ≫= option_list ∘ wk_disk)) as Hnew.
    { transitivity (rc ++ rc' ++ held s' c'); [unfold held; by solve_Permutation|].
      rewrite <-(Hd Hu Hlen). unfold held. by solve_Permutation. }
    destruct (H4 Hu) as [H|[H Hp]]; rewrite H in Hnew; [by left|right].
    split; [by apply Permutation_nil_r|by eapply some_panicked_move].
Qed.

(** Lists of at most one element around a known one. *)
Lemma app_singleton_unit (r r' : list unit) : r ++ [tt] ++ r' = [tt] → r = [] ∧ r' = [].
Proof. intros [[-> H]|[-> H]]%app_singleton; cbn in *; simplify_eq; done. Qed.

Lemma reserved_starting s cs i p :
  inv (mkConfig s cs) → cs !! i = Some (Start p) → reserved_pc p = true → slot s = Starting.
Proof.
  intros [H _ _ _] Hi Hp. cbn in H.
  destruct (bind_insert caller_reserved cs i _ (Start p) Hi) as (r & r' & E & _).
  rewrite E in H. cbn in H. rewrite Hp in H. destruct (slot s); [|done|]; by apply app_eq_nil in H as [_ ?].
Qed.

Lemma unique_reservation (cs : list (Caller (D := D))) :
  cs ≫= caller_reserved = [tt] →
  ∃ i p, cs !! i = Some (Start p) ∧ reserved_pc p = true ∧
    ∀ j q, cs !! j = Some (Start q) → reserved_pc q = true → j = i.
Proof.
  induction cs as [|c cs IH]; [done|]. cbn [mbind list_bind].
  intros H. destruct (caller_reserved c) as [|[] l] eqn:Hc.
  - destruct (IH H) as (i & p & Hi & Hp & Hu). exists (S i), p. split_and!; [done..|].
    intros [|j] q Hj Hq; cbn in Hj; [simplify_eq; cbn in Hc; by rewrite Hq in Hc|f_equal; by eapply Hu].
  - destruct c as [p|]; [|done]. cbn in Hc. destruct (reserved_pc p) eqn:Hp; simplify_eq. cbn in H.
    exists 0%nat, p. split_and!; [done..|]. intros [|j] q Hj Hq; [done|]. exfalso.
    assert (tt ∈ cs ≫= caller_reserved) as Hin.
    { apply list_elem_of_bind. exists (Start q). cbn. rewrite Hq. split; [set_solver|by eapply list_elem_of_lookup_2]. }
    apply (f_equal tail) in H. change (cs ≫= caller_reserved = []) in H. rewrite H in Hin. set_solver.
Qed.

(** The frame conditions of a step whose state is known. *)
Ltac reserved_case :=
  let E := fresh "E" in intros ??; cbn; intros E; try (destruct uses_disk);
  first [ exact E
        | apply app_singleton_unit in E as [-> ->]; reflexivity
        | apply app_eq_nil in E as [-> ->]; reflexivity ].

Ltac frame Hi Hinv :=
  eapply (inv_caller _ _ _ _ _ _ Hi Hinv); cbn; [|reserved_case| | ].

Lemma option_list_le (x y : option D) (l : list D) :
  is_Some y → (length (option_list x ++ option_list y ++ l) ≤ 1)%nat → x = None.
Proof. intros [? ->]. destruct x; cbn; rewrite ?length_app; cbn; [lia|done]. Qed.

(** The two error paths that put the disk back and drop the reservation. *)
Lemma inv_give_back s cs i d p r :
  cs !! i = Some (Start p) → caller_disk (Start p) = option_list d → caller_handle (Start p) = [] →
  reserved_pc p = true → (uses_disk = true → is_Some d) →
  inv (mkConfig s cs) →
  inv (mkConfig (drop_reservation (if uses_disk then s <| disk_slot := d |> else s)) (<[i := Start (SDone r)]> cs)).
Proof.
  intros Hi Hp Hh Hr Hok Hinv. pose proof (reserved_starting _ _ _ _ Hinv Hi Hr) as Hst.
  destruct s as [sl st k ds ws]. cbn in Hst. subst sl.
  eapply (inv_caller _ _ _ _ _ _ Hi Hinv); [done| | |].
  - intros r1 r2. cbn. rewrite Hr. intros [-> ->]%app_singleton_unit. by destruct uses_disk.
  - rewrite Hh. destruct uses_disk; by apply HMove.
  - intros Hu. unfold held. rewrite Hp. cbn -[option_list]. rewrite Hu. cbn -[option_list].
    intros ->%option_list_le; [done|by apply Hok].
Qed.

Lemma inv_start ok s s' cs i p p' :
  cs !! i = Some (Start p) → start_step uses_disk dev_err ok p s = Some (p', s') →
  inv (mkConfig s cs) → inv (mkConfig s' (<[i := Start p']> cs)).
Proof.
  intros Hi Hs Hinv. pose proof (reserved_starting _ _ _ _ Hinv Hi) as Hst.
  pose proof (Forall_lookup_1 _ _ _ _ (inv_callers _ _ _ Hinv) Hi) as Hok. cbn in Hok.
  destruct s as [sl st k ds ws]. cbn in Hst.
  destruct p; cbn in Hs, Hst; try specialize (Hst eq_refl); subst.
  - destruct sl; cbn in Hs; simplify_eq; frame Hi Hinv; try done; try (by apply HMove).
    all: destruct uses_disk eqn:?; done || by apply HMove.
  - destruct ds; simplify_eq; frame Hi Hinv; try done; by apply HMove.
  - destruct ok; simplify_eq; [|by eapply inv_give_back].
    frame Hi Hinv; try done. by apply HMove.
  - simplify_eq. frame Hi Hinv; try done. by apply HMove.
  - destruct ok; simplify_eq; [|by eapply inv_give_back].
    frame Hi Hinv; try done; [by apply HNew|].
    intros _ _. unfold held. cbn. rewrite bind_app. cbn. by solve_Permutation.
  - simplify_eq. frame Hi Hinv; try done. by apply HMove.
  - done.
Qed.

Lemma joining_handle s cs i h : cs !! i = Some (Stop (TJoin h)) → h ∈ handles (mkConfig s cs).
Proof.
  intros Hi. unfold handles. cbn. apply elem_of_app; right. apply list_elem_of_bind.
  exists (Stop (TJoin h)). split; [cbn; set_solver|by eapply list_elem_of_lookup_2].
Qed.

Lemma inv_stop s s' cs i p p' :
  cs !! i = Some (Stop p) → stop_step uses_disk dev_err p s = Some (p', s') →
  inv (mkConfig s cs) → inv (mkConfig s' (<[i := Stop p']> cs)).
Proof.
  intros Hi Hs Hinv. destruct s as [sl st k ds ws]. destruct p as [| |h|]; cbn in Hs; simplify_eq.
  - frame Hi Hinv; try done. by apply HMove.
  - destruct sl; cbn in Hs; simplify_eq; frame Hi Hinv; try done; by apply HMove.
  - destruct (ws !! h) as [[wd [[r|]|]]|] eqn:Hh; cbn in Hs; simplify_eq.
    + assert (uses_disk = true → is_Some wd) as Hwd.
      { intros Hu. by destruct (own_disk _ _ _ (inv_handles _ _ _ Hinv) Hu _ _ (joining_handle _ _ _ _ Hi) Hh). }
      frame Hi Hinv; try done.
      * replace (slot (if uses_disk then _ else _)) with sl by (by destruct uses_disk).
        replace (workers (if uses_disk then _ else _)) with (<[h:=mkWorker None (Some (Finished r))]> ws)
          by (by destruct uses_disk).
        eapply (HJoin _ _ _ h); [|done|done|done]. cbn. rewrite app_nil_r. by solve_Permutation.
      * intros Hu. rewrite Hu. unfold held. cbn -[option_list].
        destruct (bind_insert (option_list ∘ wk_disk) ws h _ (mkWorker None (Some (Finished r))) Hh) as (a & b & E & E').
        rewrite E, E'. cbn -[option_list]. intros Hl.
        assert (ds = None) as ->.
        { destruct (Hwd Hu) as [x ->]. destruct ds; [|done]. cbn in Hl. rewrite !length_app in Hl. cbn in Hl. lia. }
        cbn -[option_list]. by solve_Permutation.
    + frame Hi Hinv; try done. rewrite <-(list_insert_id ws h _ Hh) at 2.
      eapply (HJoin _ _ _ h); [|done|done|done]. cbn. rewrite app_nil_r. by solve_Permutation.
Qed.

(** The end of a worker: a panic loses its disk. *)
Lemma inv_worker s cs h w w' :
  workers s !! h = Some w → is_live w → ¬ is_live w' →
  wk_disk w' = wk_disk w ∨ panicked w' ∧ wk_disk w' = None →
  inv (mkConfig s cs) → inv (mkConfig (s <| workers ::= <[h := w']> |>) cs).
Proof.
  intros Hh Hl Hl' Hw [H1 H2 H3 H4]. assert (¬ panicked w) as Hnp by (unfold is_live, panicked in *; congruence).
  split; try done.
  - unfold handles in *. cbn in *. eapply owned_end; [done..| |done]. naive_solver.
  - intros Hu. specialize (H4 Hu). unfold disks in *. cbn [shared callers disk_slot workers set_field] in *.
    destruct (bind_insert (option_list ∘ wk_disk) _ _ _ w' Hh) as (a & b & E & E'). cbn -[option_list] in E, E' |- *.
    cbn -[option_list]. rewrite E'. rewrite E in H4. destruct Hw as [->|[Hp Hd]].
    + destruct H4 as [H|[H ?]]; [by left|right]. split; [done|by eapply some_panicked_insert].
    + destruct (own_disk _ _ _ H2 Hu h w) as [[x Hx]|]; [by eapply own_live|done| |done].
      rewrite Hx in H4. right. split.
      * destruct H4 as [H%Permutation_length|[H%(f_equal length) _]]; rewrite !length_app in H; cbn in H; [|lia].
        rewrite Hd. apply length_zero_iff_nil. rewrite !length_app. cbn. lia.
      * exists h, w'. split; [|done]. by rewrite list_lookup_insert_eq by (by eapply lookup_lt_Some).
Qed.

Lemma inv_step cfg cfg' : dev_step uses_disk dev_err cfg cfg' → inv cfg → inv cfg'.
Proof.
  intros [s cs c Hc|s s' cs i c c' ok Hi Hs|s cs h w r Hh Hl Hr|s cs h w Hh Hl] Hinv.
  - by apply inv_call.
  - destruct c as [p|p]; cbn in Hs; apply fmap_Some in Hs as ([p' s1] & Hs & [= -> ->]);
      [by eapply inv_start|by eapply inv_stop].
  - eapply inv_worker; [done|done|done|by left|done].
  - eapply inv_worker; [done|done|done|by right|done].
Qed.

Lemma inv_reach d cfg :
  (uses_disk = true → d = Some d0) → dev_reach uses_disk dev_err d cfg → inv cfg.
Proof. intros Hd. apply (rtc_ind_r _ _ (inv_new _ Hd)). intros ???? Hinv. by eapply inv_step. Qed.

End invariant.

(** ** Theorems *)

(** A schedule of the device, evaluated: a call, an action of a caller or the end of
    a worker. *)
Inductive event := ECall (stop : bool) | ECaller (i : nat) (ok : bool) | EEnd (h : nat) (r : result Error unit).

Section run.
Context {D : Type} (uses_disk : bool) (dev_err : WorkerErrors).

Definition run_event (e : event) (cfg : Config (D := D)) : option Config :=
  let s := shared cfg in
  match e with
  | ECall st => Some (mkConfig s (callers cfg ++ [if st then Stop TRequest else Start SReserve]))
  | ECaller i ok =>
      c ← callers cfg !! i;
      '(c', s') ← caller_step uses_disk dev_err ok c s;
      Some (mkConfig s' (<[i := c']> (callers cfg)))
  | EEnd h r =>
      w ← workers s !! h;
      match wk_end w with
      | None => if is_err r || stop s
                then Some (mkConfig (s <| workers ::= <[h := mkWorker (wk_disk w) (Some (Finished r))]> |>) (callers cfg))
                else None
      | Some _ => None
      end
  end.

Lemma run_event_step e cfg cfg' : run_event e cfg = Some cfg' → dev_step uses_disk dev_err cfg cfg'.
Proof.
  destruct cfg as [s cs]. destruct e as [[]|i ok|h r]; cbn; intros H.
  - simplify_eq. apply step_call. by right.
  - simplify_eq. apply step_call. by left.
  - destruct (cs !! i) as [c|] eqn:Hi; cbn in H; [|done].
    destruct (caller_step uses_disk dev_err ok c s) as [[c' s']|] eqn:Hc; cbn in H; simplify_eq. by eapply step_caller.
  - destruct (workers s !! h) as [w|] eqn:Hh; cbn in H; [|done].
    destruct (wk_end w) eqn:Hw; [done|]. destruct (is_err r || stop s) eqn:Hr; simplify_eq.
    eapply step_worker; [done|done|]. by intros ->.
Qed.

Lemma run_events_reach es d cfg :
  foldl (λ o e, o ≫= run_event e) (Some (dev_new d)) es = Some cfg → dev_reach uses_disk dev_err d cfg.
Proof.
  revert cfg. induction es as [|e es IH] using rev_ind; intros cfg; cbn; [intros [= <-]; constructor|].
  rewrite foldl_app. cbn. intros (c1 & H & He)%bind_Some. eapply rtc_r; [by apply IH|by eapply run_event_step].
Qed.

End run.

Lemma two_disks {D} (ws : list (Worker D)) h1 h2 w1 w2 :
  h1 ≠ h2 → ws !! h1 = Some w1 → ws !! h2 = Some w2 → is_Some (wk_disk w1) → is_Some (wk_disk w2) →
  (2 ≤ length (ws ≫= option_list ∘ wk_disk))%nat.
Proof.
  intros Hne E1 E2 [d1 D1] [d2 D2].
  destruct (bind_insert (option_list ∘ wk_disk) ws h1 w1 (mkWorker None None) E1) as (a & b & Ea & Eb).
  destruct (bind_insert (option_list ∘ wk_disk) (<[h1 := mkWorker None None]> ws) h2 w2 (mkWorker None None))
    as (a' & b' & Ea' & _); [by rewrite list_lookup_insert_ne|].
  apply (f_equal length) in Ea, Eb, Ea'. rewrite !length_app in *. cbn in *. rewrite D1 in Ea. rewrite D2 in Ea'.
  cbn in *. lia.
Qed.

(** C27: whatever the interleaving of calls to start and stop a device's worker, every
    live worker is owned through exactly one handle (in the slot, with the caller that
    just spawned it or with the caller that joins it), so none is detached; and a
    caller that waits in [take_worker] for a start in progress waits for exactly one
    other caller, whose next action is always possible. *)
Theorem worker_handles_owned {D} (uses_disk : bool) dev_err (d : D) d' cfg :
  (uses_disk = true → d' = Some d) →
  dev_reach uses_disk dev_err d' cfg →
  NoDup (handles cfg) ∧
  (∀ h w, workers (shared cfg) !! h = Some w → is_live w → h ∈ handles cfg) ∧
  (slot (shared cfg) = Starting → ∃ i p, callers cfg !! i = Some (Start p) ∧ reserved_pc p = true ∧
     (∀ j q, callers cfg !! j = Some (Start q) → reserved_pc q = true → j = i) ∧
     ∀ ok, is_Some (start_step uses_disk dev_err ok p (shared cfg))).
Proof.
  intros Hd Hreach. pose proof (inv_reach uses_disk dev_err d _ _ Hd Hreach) as [H1 [H2 H3 _ _] _ _].
  split_and!; [done|done|]. intros Hs. rewrite Hs in H1.
  destruct (unique_reservation _ H1) as (i & p & Hi & Hp & Hu). exists i, p. split_and!; [done..|].
  intros ok. destruct p; cbn in *; try done; repeat case_match; eauto.
Qed.

(** The device of the witnesses: a block device with disk 7. *)
Definition demo_start : list event :=
  ECall false :: ((λ _, ECaller 0 true) <$> seq 0 6).

Lemma worker_handles_owned_witness :
  ∃ cfg, dev_reach true blk_errors (Some 7%nat) cfg ∧ NoDup (handles cfg) ∧ handles cfg = [0%nat].
Proof.
  destruct (foldl (λ o e, o ≫= run_event true blk_errors e) (Some (dev_new (Some 7%nat))) demo_start) as [cfg|] eqn:E;
    [|vm_compute in E; discriminate].
  pose proof (run_events_reach _ _ _ _ _ E) as Hr. exists cfg. split; [done|]. split.
  - exact (proj1 (worker_handles_owned true blk_errors 7%nat (Some 7%nat) cfg (λ _, eq_refl) Hr)).
  - vm_compute in E. injection E as <-. reflexivity.
Defined.

(** C16: the block device never has two live workers, and its disk is always in exactly
    one place: its slot, a start in progress, or one worker. Only the panic of a worker
    loses it. *)
Theorem block_disk_unique {D} dev_err (d : D) cfg :
  dev_reach true dev_err (Some d) cfg →
  (∀ h1 h2 w1 w2, workers (shared cfg) !! h1 = Some w1 → workers (shared cfg) !! h2 = Some w2 →
     is_live w1 → is_live w2 → h1 = h2) ∧
  (disks cfg ≡ₚ [d] ∨ disks cfg = [] ∧ some_panicked (workers (shared cfg))).
Proof.
  intros Hreach. pose proof (inv_reach true dev_err d _ _ (λ _, eq_refl) Hreach) as [_ H2 _ H4].
  specialize (H4 eq_refl). split; [|done]. intros h1 h2 w1 w2 E1 E2 L1 L2.
  assert (∀ h w, workers (shared cfg) !! h = Some w → is_live w → is_Some (wk_disk w)) as Hlive.
  { intros h w E L. destruct (own_disk _ _ _ H2 eq_refl h w) as [?|?]; [by eapply own_live|done..|].
    unfold is_live, panicked in *. congruence. }
  destruct (decide (h1 = h2)) as [|Hne]; [done|]. exfalso.
  pose proof (two_disks _ _ _ _ _ Hne E1 E2 (Hlive _ _ E1 L1) (Hlive _ _ E2 L2)) as Hlen.
  unfold disks in H4.
  destruct H4 as [H%Permutation_length|[H%(f_equal length) _]]; rewrite !length_app in H; cbn in H; lia.
Qed.

Lemma block_disk_unique_witness :
  ∃ cfg, dev_reach true blk_errors (Some 7%nat) cfg ∧ disks cfg ≡ₚ [7%nat] ∧ disk_slot (shared cfg) = None.
Proof.
  destruct (foldl (λ o e, o ≫= run_event true blk_errors e) (Some (dev_new (Some 7%nat))) demo_start) as [cfg|] eqn:E;
    [|vm_compute in E; discriminate].
  pose proof (run_events_reach _ _ _ _ _ E) as Hr. exists cfg. split; [done|].
  destruct (proj2 (block_disk_unique blk_errors 7%nat cfg Hr)) as [H|[H _]];
    vm_compute in E; injection E as <-; [by split|discriminate H].
Defined.

(** *** Dropping a device *)

Definition returned {D} (c : Caller (D := D)) : bool :=
  match c with Start (SDone _) | Stop (TDone _) => true | _ => false end.

(** While a device without callers is dropped, [p] says which worker can be live. *)
Definition drop_owned {D} (p : StopPc) (s : DevShared D) : Prop :=
  let live_in (hs : list nat) := ∀ h w, workers s !! h = Some w → is_live w → h ∈ hs in
  match p with
  | TRequest => slot s ≠ Starting ∧ live_in (slot_handle (slot s))
  | TTake => slot s ≠ Starting ∧ stop s = true ∧ live_in (slot_handle (slot s))
  | TJoin h => stop s = true ∧ live_in [h]
  | TDone _ => live_in []
  end.

Lemma drop_run_owned {D} (s0 s : DevShared D) p : drop_owned TRequest s0 → drop_run s0 p s → drop_owned p s.
Proof.
  intros H0. induction 1 as [|p s p' s' _ IH Hs|p s h w w' _ IH Hh Hw Hw']; [done|..].
  - destruct p; cbn in Hs.
    + by simplify_eq/=; destruct IH.
    + unfold take_worker_step in Hs. destruct IH as (H1 & H2 & H3).
      destruct (slot s) eqn:E; simplify_eq/=; auto.
    + apply bind_Some in Hs as (w & Hh & (e & He & Hs)%bind_Some). simplify_eq/=. destruct IH as [_ IH].
      intros h' w' [(-> & <- & _)|[Hne Hh']]%list_lookup_insert_Some Hl; [unfold is_live in Hl; cbn in Hl; congruence|].
      by destruct Hne; symmetry; eapply list_elem_of_singleton, IH.
    + done.
  - assert (∀ hs : list nat, (∀ h w, workers s !! h = Some w → is_live w → h ∈ hs) →
      ∀ h0 w0, <[h := w']> (workers s) !! h0 = Some w0 → is_live w0 → h0 ∈ hs) as Hkeep.
    { intros hs Hlive h0 w0 [(-> & <- & _)|[_ H]]%list_lookup_insert_Some Hl; [|by eapply Hlive].
      unfold is_live in Hl. rewrite Hl in Hw'. by apply is_Some_None in Hw'. }
    destruct p; cbn in *; [destruct IH; split_and!|destruct IH as (? & ? & ?); split_and!|destruct IH; split_and!|]; try done; by apply Hkeep.
Qed.

(** Dropping a device whose callers have all returned ends its worker: the drop never
    waits for a start in progress, the worker it joins has been told to stop, and when it
    is done no worker is live. *)
Theorem drop_ends_worker {D} (uses_disk : bool) dev_err (d : D) d' cfg p s :
  (uses_disk = true → d' = Some d) → dev_reach uses_disk dev_err d' cfg →
  Forall (λ c, returned c = true) (callers cfg) → drop_run (shared cfg) p s →
  match p with
  | TTake => ∀ p' s', drop_step p s = Some (p', s') → p' ≠ TTake
  | TJoin h => stop s = true
  | TDone _ => ∀ h w, workers s !! h = Some w → ¬ is_live w
  | TRequest => True
  end.
Proof.
  intros Hd Hreach Hret Hrun. pose proof (inv_reach uses_disk dev_err d _ _ Hd Hreach) as [H1 [_ H3 _ _] _ _].
  assert (∀ {B} (f : Caller (D := D) → list B), (∀ c, returned c = true → f c = []) → callers cfg ≫= f = []) as Hnone.
  { clear -Hret. intros B f Hf. induction Hret as [|c cs Hc _ IH]; [done|]. by rewrite bind_cons, (Hf c Hc), IH. }
  unfold handles in H3. rewrite (Hnone _ caller_reserved) in H1 by (intros [[]|[]] Hc; done).
  rewrite (Hnone _ caller_handle), app_nil_r in H3 by (intros [[]|[]] Hc; done).
  assert (drop_owned TRequest (shared cfg)) as H0 by (split; [by intros E; rewrite E in H1|done]).
  pose proof (drop_run_owned _ _ _ H0 Hrun) as Hp. destruct p; cbn in Hp; try done.
  - intros p' s'. cbn. unfold take_worker_step. destruct Hp as [Hp _]. destruct (slot s); intros [= <- <-]; done.
  - apply Hp.
  - intros h w Hh Hl. by apply Hp in Hh as ?%not_elem_of_nil.
Qed.

(** A stop requested while a start is in progress is lost: the start clears the flag
    before it spawns, and the stopping caller then joins a worker that was never told to
    stop. No action of a caller is possible any more and the worker cannot return. The
    block, network and vsock devices all behave this way. *)
Theorem concurrent_stop_lost {D} (uses_disk : bool) dev_err (d : D) :
  ∃ cfg, dev_reach uses_disk dev_err (Some d) cfg ∧
    callers cfg = [Start (SDone (Ok tt)); Stop (TJoin 0)] ∧
    stop (shared cfg) = false ∧
    (∃ w, workers (shared cfg) !! 0%nat = Some w ∧ is_live w) ∧
    (∀ i c ok, callers cfg !! i = Some c → caller_step uses_disk dev_err ok c (shared cfg) = None) ∧
    ∀ cfg' w, dev_step uses_disk dev_err cfg cfg' → workers (shared cfg') !! 0%nat = Some w →
      wk_end w ≠ Some (Finished (Ok tt)).
Proof.
  set (es := [ECall false; ECaller 0 true; ECaller 0 true] ++ (if uses_disk then [ECaller 0 true] else [])
             ++ [ECall true; ECaller 1 true; ECaller 1 true; ECaller 0 true; ECaller 0 true; ECaller 0 true; ECaller 1 true]).
  destruct (foldl (λ o e, o ≫= run_event uses_disk dev_err e) (Some (dev_new (Some d))) es) as [cfg|] eqn:E;
    [|by destruct uses_disk].
  exists cfg. split; [by eapply run_events_reach|].
  assert (shared cfg = mkDevShared Idle false 1 (if uses_disk then None else Some d)
            [mkWorker (if uses_disk then Some d else None) None]
          ∧ callers cfg = [Start (SDone (Ok tt)); Stop (TJoin 0)]) as [Hs Hc]
    by (destruct uses_disk; cbn in E; injection E as <-; done).
  rewrite Hs, Hc. split_and!; [done|done|by eexists| |].
  - intros [|[|i]] c ok [= <-]; done.
  - clear E es. destruct cfg as [s cs]. cbn in Hs, Hc. subst. intros cfg' w Hstep Hw Hend.
    inversion Hstep as [s cs c Hc|s s' cs i c c' ok Hi Hs|s cs h v r Hh Hl Hr|s cs h v Hh Hl]; simplify_eq; clear Hstep; cbn in *.
    + by simplify_eq.
    + destruct i as [|[|i]]; cbn in *; simplify_eq; cbn in *; try discriminate.
    + destruct h as [|h]; [|done]. cbn in Hw. injection Hw as <-. cbn in Hend. injection Hend as ->.
      by specialize (Hr eq_refl).
    + destruct h as [|h]; [|done]. cbn in Hw. by injection Hw as <-.
Qed.
