(* ===== verification/Cmdline.v ===== *)
(** * The kernel command line

    [cmdline.rs]: the tokens kitsune adds to the command line of the user. A string is
    the list of its characters, as code points. *)

From S2P Require Import Prelude Words Memory VsockMux VirtioBlk VirtioNet VirtioVsock.
Local Open Scope Z_scope.

(** ** Strings *)

(** [char::is_whitespace]. *)
Definition is_whitespace (c : Z) : bool :=
  (9 <=? c) && (c <=? 13) || (c =? 0x20) || (c =? 0x85) || (c =? 0xa0) || (c =? 0x1680)
  || (0x2000 <=? c) && (c <=? 0x200a) || (c =? 0x2028) || (c =? 0x2029) || (c =? 0x202f)
  || (c =? 0x205f) || (c =? 0x3000).

(** [split_whitespace]: [cur] is the token being read. *)
Fixpoint split_from (cur s : list Z) : list (list Z) :=
  match s with
  | [] => if bool_decide (cur = []) then [] else [cur]
  | c :: s' =>
      if is_whitespace c then (if bool_decide (cur = []) then [] else [cur]) ++ split_from [] s'
      else split_from (cur ++ [c]) s'
  end.
Definition split_whitespace (s : list Z) : list (list Z) := split_from [] s.

(** [starts_with] and [contains]. *)
Fixpoint starts_with (p s : list Z) : bool :=
  match p, s with
  | [], _ => true
  | x :: p', y :: s' => (x =? y) && starts_with p' s'
  | _, _ => false
  end.

Fixpoint contains (p s : list Z) : bool :=
  starts_with p s || match s with [] => false | _ :: s' => contains p s' end.

(** [ends_with(char::is_whitespace)]. *)
Definition ends_with_whitespace (s : list Z) : bool :=
  match last s with Some c => is_whitespace c | None => false end.

(** Lower-case hexadecimal digits, and [format!("{n:#x}")] of a [u64]. *)
Definition hex_digit (d : Z) : Z := if d <? 10 then 48 + d else 87 + d.
Fixpoint hex_digits (fuel : nat) (n : Z) (acc : list Z) : list Z :=
  match fuel with
  | O => acc
  | S f => let acc' := hex_digit (n mod 16) :: acc in
           if n <? 16 then acc' else hex_digits f (n / 16) acc'
  end.
Definition hex_u64 (n : Z) : list Z := ascii_bytes "0x" ++ hex_digits 16 n [].

(** ** The command line *)

Definition DEFAULT_KERNEL_CMDLINE : list Z := ascii_bytes "console=ttyS0 reboot=k panic=1 pci=off nomodule".
Definition INITRD_CMDLINE_EXTRA : list Z := ascii_bytes "rdinit=/init".

Record KernelCmdlineOpts := mkOpts { initrd : bool; block : bool; tap : bool; vsock : bool }.

Definition push_token (cmdline token : list Z) : list Z :=
  (if negb (bool_decide (cmdline = [])) && negb (ends_with_whitespace cmdline) then cmdline ++ [0x20] else cmdline)
  ++ token.

(** The token of a device and the part of it that is searched for. *)
Definition device_prefix (base : Z) : list Z := ascii_bytes "virtio_mmio.device=4K@" ++ hex_u64 base ++ ascii_bytes ":".
Definition device_token (base irq : Z) : list Z := device_prefix base ++ dec_u32 irq.

Definition has_token (p cmdline : list Z) : bool := existsb (starts_with p) (split_whitespace cmdline).

Definition add_device (base irq : Z) (cmdline : list Z) : list Z :=
  if negb (contains (device_prefix base) cmdline) then push_token cmdline (device_token base irq) else cmdline.

Definition build_kernel_cmdline (base : list Z) (opts : KernelCmdlineOpts) : list Z :=
  let cmdline := base in
  let cmdline :=
    if initrd opts && negb (has_token (ascii_bytes "rdinit=") cmdline)
    then push_token cmdline INITRD_CMDLINE_EXTRA else cmdline in
  let cmdline :=
    if block opts then
      let cmdline := add_device VIRTIO_MMIO_BASE VIRTIO_BLK_IRQ cmdline in
      if negb (has_token (ascii_bytes "root=") cmdline) then push_token cmdline (ascii_bytes "root=/dev/vda rw") else cmdline
    else cmdline in
  let cmdline := if tap opts then add_device VIRTIO_NET_MMIO_BASE VIRTIO_NET_IRQ cmdline else cmdline in
  if vsock opts then add_device VIRTIO_VSOCK_MMIO_BASE VIRTIO_VSOCK_IRQ cmdline else cmdline.

(** ** Lemmas *)

Lemma split_from_space cur a w b :
  is_whitespace w = true → split_from cur (a ++ w :: b) = split_from cur a ++ split_from [] b.
Proof.
  intros Hw. revert cur. induction a as [|c a IH]; intros cur; cbn; [by rewrite Hw|].
  destruct (is_whitespace c); rewrite IH; [by rewrite app_assoc|done].
Qed.

Lemma last_snoc_inv {A} (l : list A) x : last l = Some x → ∃ l', l = l' ++ [x].
Proof. intros [l' ->]%last_Some. by exists l'. Qed.

(** A pushed token starts after whitespace or at the start. *)
Lemma push_token_cases c t :
  (c = [] ∧ push_token c t = t) ∨
  ∃ a w, is_whitespace w = true ∧ push_token c t = a ++ w :: t ∧ (c = a ∨ c = a ++ [w]).
Proof.
  unfold push_token, ends_with_whitespace. destruct (decide (c = [])) as [->|Hc]; [by left|right].
  rewrite bool_decide_eq_false_2 by done. cbn [negb andb].
  destruct (last c) as [w|] eqn:E; [|by apply last_None in E].
  destruct (is_whitespace w) eqn:Hw; cbn [negb].
  - apply last_snoc_inv in E as [a ->]. exists a, w. rewrite <-app_assoc. auto.
  - exists c, 0x20. rewrite <-app_assoc. auto.
Qed.

Lemma split_push c t : split_whitespace (push_token c t) = split_whitespace c ++ split_whitespace t.
Proof.
  unfold split_whitespace. destruct (push_token_cases c t) as [[-> ->]|(a & w & Hw & -> & [-> | ->])]; [done|..].
  - by apply split_from_space.
  - rewrite !split_from_space by done. cbn. by rewrite app_nil_r.
Qed.

Lemma has_token_push p c t : has_token p (push_token c t) = has_token p c || has_token p t.
Proof. unfold has_token. by rewrite split_push, existsb_app. Qed.

Lemma starts_with_iff p s : starts_with p s = true ↔ ∃ b, s = p ++ b.
Proof.
  revert s. induction p as [|x p IH]; intros s; cbn; [split; [by exists s|done]|].
  destruct s as [|y s]; [split; [done|by intros [? ?]]|].
  rewrite andb_true_iff, Z.eqb_eq, IH. split.
  - intros [-> [b ->]]. by exists b.
  - intros [b [= -> ->]]. eauto.
Qed.

Lemma contains_iff p s : contains p s = true ↔ ∃ a b, s = a ++ p ++ b.
Proof.
  induction s as [|y s IH]; cbn; rewrite orb_true_iff, starts_with_iff.
  - split; [|intros (a & b & E); left; symmetry in E; apply app_nil in E as [-> E]; by exists b].
    intros [[b E]|?]; [|done]. by exists [], b.
  - rewrite IH. split.
    + intros [[b E]|(a & b & ->)]; [by exists [], b|by exists (y :: a), b].
    + intros ([|z a] & b & E); [left; by exists b|]. injection E as -> ->. right. eauto.
Qed.

Lemma contains_space p a w b :
  p ≠ [] → w ∉ p → contains p (a ++ w :: b) = contains p a || contains p b.
Proof.
  intros Hp Hw. apply eq_bool_prop_intro. rewrite !Is_true_true, orb_true_iff, !contains_iff. split.
  - intros (x & y & E). apply app_eq_inv in E as [(k & -> & E)|(k & -> & E)].
    + apply app_eq_inv in E as [(k2 & -> & E)|(k2 & -> & _)]; [|left; by exists x, k2].
      destruct k2 as [|c k2]; [left; exists x, []; by rewrite !app_nil_r|]. cbn in E. injection E as <- _. set_solver.
    + destruct k as [|c k]; cbn in E.
      * destruct p as [|c p]; [done|]. injection E as <- _. set_solver.
      * injection E as <- ->. right. eauto.
  - intros [(x & y & ->)|(x & y & ->)]; [exists x, (y ++ w :: b)|exists (a ++ w :: x), y]; by rewrite <-!app_assoc.
Qed.

(** A pattern without whitespace is not made by joining. *)
Definition plain (p : list Z) : Prop := p ≠ [] ∧ forallb (negb ∘ is_whitespace) p = true.

Lemma plain_space p w : plain p → is_whitespace w = true → w ∉ p.
Proof.
  intros [_ Hp] Hw Hin. rewrite forallb_forall in Hp. apply list_elem_of_In in Hin. specialize (Hp w Hin).
  cbn in Hp. by rewrite Hw in Hp.
Qed.

Lemma contains_push p c t : plain p → contains p (push_token c t) = contains p c || contains p t.
Proof.
  intros Hp. destruct (push_token_cases c t) as [[-> ->]|(a & w & Hw & -> & [-> | ->])].
  - destruct Hp as [Hp _]. by destruct p.
  - apply contains_space; [apply Hp|by apply (plain_space _ _ Hp)].
  - rewrite !contains_space by (apply Hp || by apply (plain_space _ _ Hp)).
    replace (contains p []) with false by (destruct Hp as [Hp _]; by destruct p). by rewrite orb_false_r.
Qed.

(** ** Theorems *)

(** The tokens that are added to [base]. *)
Definition device_tokens (b irq : Z) (base : list Z) : list (list Z) :=
  if contains (device_prefix b) base then [] else [device_token b irq].
Definition extra_tokens (base : list Z) (o : KernelCmdlineOpts) : list (list Z) :=
  (if initrd o && negb (has_token (ascii_bytes "rdinit=") base) then [INITRD_CMDLINE_EXTRA] else [])
  ++ (if block o then device_tokens VIRTIO_MMIO_BASE VIRTIO_BLK_IRQ base
        ++ (if has_token (ascii_bytes "root=") base then [] else [ascii_bytes "root=/dev/vda"; ascii_bytes "rw"])
      else [])
  ++ (if tap o then device_tokens VIRTIO_NET_MMIO_BASE VIRTIO_NET_IRQ base else [])
  ++ (if vsock o then device_tokens VIRTIO_VSOCK_MMIO_BASE VIRTIO_VSOCK_IRQ base else []).

(** The stages of the assembly: each adds a token when it is enabled and its check does
    not find it. *)
Record Stage := mkStage { enabled : bool; found : list Z → bool; token : list Z }.

Definition run_stage (c : list Z) (st : Stage) : list Z :=
  if enabled st && negb (found st c) then push_token c (token st) else c.

Definition stage_tokens (c : list Z) (st : Stage) : list (list Z) :=
  if enabled st && negb (found st c) then split_whitespace (token st) else [].

(** A check over a pushed token is the check of both parts. *)
Definition additive (P : list Z → bool) : Prop := ∀ c t, P (push_token c t) = P c || P t.

Lemma stage_keeps P c st : additive P → P (token st) = false → P (run_stage c st) = P c.
Proof. intros Ha Ht. unfold run_stage. case_match; [|done]. by rewrite Ha, Ht, orb_false_r. Qed.

Lemma stage_mono P c st : additive P → P c = true → P (run_stage c st) = true.
Proof. intros Ha Hc. unfold run_stage. case_match; [|done]. by rewrite Ha, Hc. Qed.

(** No token is found by a later check. *)
Definition independent (l : list Stage) : Prop :=
  ∀ i j si sj, (i < j)%nat → l !! i = Some si → l !! j = Some sj → found sj (token si) = false.

Lemma split_stages l c :
  Forall (additive ∘ found) l → independent l →
  split_whitespace (foldl run_stage c l) = split_whitespace c ++ (l ≫= stage_tokens c).
Proof.
  revert c. induction l as [|st l IH]; intros c Ha Hi; [by rewrite app_nil_r|].
  apply Forall_cons in Ha as [Ha0 Ha]. cbn [foldl]. rewrite IH; [|done|].
  2: { intros i j si sj Hij H1 H2. by apply (Hi (S i) (S j) si sj ltac:(lia)). }
  assert (l ≫= stage_tokens (run_stage c st) = l ≫= stage_tokens c) as ->.
  { assert (Forall (λ sj, found sj (run_stage c st) = found sj c) l) as Hk.
    { apply Forall_lookup. intros j sj Hj. apply stage_keeps; [by apply (Forall_lookup_1 _ _ _ _ Ha Hj)|].
      by apply (Hi 0%nat (S j) st sj ltac:(lia)). }
    clear -Hk. induction Hk as [|sj l Hs _ IHl]; [done|]. cbn. unfold stage_tokens at 1 3. rewrite Hs. by f_equal. }
  cbn. rewrite (app_assoc _ (stage_tokens c st)). f_equal. unfold run_stage, stage_tokens.
  case_match; [apply split_push|by rewrite app_nil_r].
Qed.

Lemma run_stages_mono l P c : additive P → P c = true → P (foldl run_stage c l) = true.
Proof.
  intros Ha. revert c. induction l as [|st l IH]; intros c Hc; [done|]. cbn. by apply IH, stage_mono.
Qed.

Lemma run_stages_found l c :
  Forall (additive ∘ found) l → Forall (λ st, found st (token st) = true) l →
  Forall (λ st, enabled st = true → found st (foldl run_stage c l) = true) l.
Proof.
  revert c. induction l as [|st l IH]; intros c Ha Hs; [done|].
  apply Forall_cons in Ha as [Ha0 Ha]. apply Forall_cons in Hs as [Hs0 Hs]. constructor; [|by apply IH].
  intros He. cbn. apply run_stages_mono; [done|]. unfold run_stage. rewrite He.
  destruct (found st c) eqn:E; [done|]. cbn. by rewrite Ha0, Hs0, orb_true_r.
Qed.

Lemma run_stages_id l c :
  Forall (λ st, enabled st = true → found st c = true) l → foldl run_stage c l = c.
Proof.
  induction 1 as [|st l Hs _ IH]; [done|]. cbn. replace (run_stage c st) with c; [done|].
  unfold run_stage. destruct (enabled st); [|done]. by rewrite Hs.
Qed.

Definition device_stage (b : bool) (base irq : Z) : Stage :=
  mkStage b (contains (device_prefix base)) (device_token base irq).
Definition stages (o : KernelCmdlineOpts) : list Stage :=
  [mkStage (initrd o) (has_token (ascii_bytes "rdinit=")) INITRD_CMDLINE_EXTRA;
   device_stage (block o) VIRTIO_MMIO_BASE VIRTIO_BLK_IRQ;
   mkStage (block o) (has_token (ascii_bytes "root=")) (ascii_bytes "root=/dev/vda rw");
   device_stage (tap o) VIRTIO_NET_MMIO_BASE VIRTIO_NET_IRQ;
   device_stage (vsock o) VIRTIO_VSOCK_MMIO_BASE VIRTIO_VSOCK_IRQ].

Lemma build_stages base o : build_kernel_cmdline base o = foldl run_stage base (stages o).
Proof. by destruct o as [[] [] [] []]. Qed.

Lemma stages_additive o : Forall (additive ∘ found) (stages o).
Proof.
  repeat constructor; unfold additive; cbn [compose found device_stage]; intros c t;
    first [apply has_token_push|apply contains_push; split; [done|vm_compute; reflexivity]].
Qed.

Lemma stages_self o : Forall (λ st, found st (token st) = true) (stages o).
Proof. repeat constructor. Qed.

Lemma stages_independent o : independent (stages o).
Proof.
  intros [|[|[|[|[|i]]]]] [|[|[|[|[|j]]]]] si sj Hij; cbn; try lia; intros [= <-] [= <-]; vm_compute; reflexivity.
Qed.

Lemma device_stage_tokens c b base irq :
  split_whitespace (device_token base irq) = [device_token base irq] →
  stage_tokens c (device_stage b base irq) = if b then device_tokens base irq c else [].
Proof.
  intros E. unfold stage_tokens, device_tokens. cbn [enabled found token device_stage]. rewrite E.
  destruct b; [|done]. by destruct (contains _ c).
Qed.

(** C31: whatever the base string, the tokens of the command line are those of the user,
    in order, followed by the ones kitsune adds: the init program unless the user chose
    one, the device of each attached backend unless it is already announced, the root
    device unless given. *)
Theorem cmdline_tokens base o :
  split_whitespace (build_kernel_cmdline base o) = split_whitespace base ++ extra_tokens base o.
Proof.
  rewrite build_stages, split_stages by (apply stages_additive || apply stages_independent). f_equal.
  unfold extra_tokens. cbn [mbind list_bind stages].
  rewrite !device_stage_tokens by (vm_compute; reflexivity). unfold stage_tokens. cbn [enabled found token].
  rewrite app_nil_r. f_equal. rewrite app_assoc. f_equal.
  destruct (block o); [|done]. cbn [andb]. f_equal. destruct (has_token _ base); vm_compute; reflexivity.
Qed.

(** Assembling a command line from one that was already assembled changes nothing:
    every token that would be added is found. *)
Theorem cmdline_idempotent base o :
  build_kernel_cmdline (build_kernel_cmdline base o) o = build_kernel_cmdline base o.
Proof.
  rewrite !build_stages. apply run_stages_id, run_stages_found; [apply stages_additive|apply stages_self].
Qed.
