(* ===== verification/PioBus.v ===== *)
(** * The port I/O bus

    [devices/pio_bus.rs]: guest port accesses go to the serial console or to the legacy
    registers. *)

From S2P Require Import Prelude Words Errors VirtQueue LegacyIo Serial.
Local Open Scope Z_scope.

Record PioBus (U Efd : Type) := mkPioBus { serial : SerialConsole U Efd; legacy : LegacyIo }.
Arguments mkPioBus {U Efd}.
Arguments serial {U Efd}.
Arguments legacy {U Efd}.
#[export] Instance eta_PioBus {U Efd} : Eta (PioBus U Efd) := λ b, mkPioBus (serial b) (legacy b).

Section bus.
Context {U Efd : Type} `{SH : !SerialHost U} `{EF : !EventFd Efd}.
Variable fuel : nat.

Definition pio_new (s : SerialConsole U Efd) : PioBus U Efd := mkPioBus s legacy_new.

Definition on_serial {A} (m : prog (SerialConsole U Efd) A) : prog (PioBus U Efd) A :=
  zoom serial (λ x b, b <| serial := x |>) m.

(** The buffer after the read. *)
Definition pio_read (port : Z) (data : list Z) : prog (PioBus U Efd) (list Z) :=
  if handles_port port then on_serial (bus_read port data)
  else if legacy_handles_port port then gets (λ b, legacy_bus_read (legacy b) port data)
  else mret (replicate (length data) 0xff).

Definition pio_write (port : Z) (data : list Z) : prog (PioBus U Efd) (result Error PowerAction) :=
  if handles_port port then
    _ ←? on_serial (bus_write fuel port data);
    mret (Ok PowerNone)
  else if legacy_handles_port port then
    act (λ b, let '(a, l) := legacy_bus_write (legacy b) port data in (Ok a, b <| legacy := l |>))
  else mret (Ok PowerNone).

End bus.

(** ** Lemmas *)

Section facts.
Context {U Efd : Type} `{SH : !SerialHost U, SL : !SerialHostLaws U} `{EF : !EventFd Efd}.
Variable fuel : nat.
Implicit Types s : SerialConsole U Efd.
Local Abbreviation calm := (λ (_ : _) (_ : SerialConsole U Efd), True).

(** No operation of the console panics. *)

Lemma serial_flush_calm s : wp Partial flush_pending_rx calm s.
Proof.
  unfold flush_pending_rx. do 2 wp_step. apply (wp_iter_partial (λ _ _, True)); [done|]. intros [] s1 _.
  unfold flush_rx_step. do 2 wp_step. case_bool_decide; [by wp_step|]. wp_step; [by wp_step|].
  wp_step. apply on_uart_wp. intros [n|e] u Eq; [|by wp_step]. apply enqueue_count in Eq.
  pose proof (zlen_take_le (Z.to_nat (Z.min (fifo_capacity (inner s1)) (zlen (pending_rx s1)))) (pending_rx s1)).
  wp_step. apply wp_assert; [apply Z.leb_le; cbn; lia|]. by do 3 wp_step.
Qed.

Lemma reassert_rx_irq_calm s : wp Partial reassert_rx_irq calm s.
Proof. unfold reassert_rx_irq. do 2 wp_step. wp_step; [|by wp_step]. wp_step. apply on_uart_wp. intros r u _. by wp_step. Qed.

Lemma observe_guest_tx_calm b s : wp Partial (observe_guest_tx b) calm s.
Proof.
  unfold observe_guest_tx. do 2 wp_step. wp_step; [by do 3 wp_step|]. wp_step.
  eapply (wp_mono _ _ (λ _ _, True)); [|intros [[]|e] s1 _; [by do 3 wp_step|by wp_step]].
  wp_step; [|by wp_step]. do 2 wp_step. wp_step. wp_apply serial_flush_calm. intros [[]|e] s1 _; [|done].
  wp_step. wp_apply reassert_rx_irq_calm. intros [[]|e] s2 _; [|done]. wp_step. unfold notify_rx_space. by do 2 wp_step.
Qed.

Lemma write_uart_calm o b s : wp Partial (write_uart fuel o b) calm s.
Proof.
  unfold write_uart. apply (wp_iter_partial (λ _ _, True)); [done|]. intros [] s1 _. wp_step. apply on_uart_wp.
  intros [[]|[e|e]] u _; [by wp_step|wp_step; by wp_step|by wp_step].
Qed.

Lemma write_bytes_calm o data s : wp Partial (write_bytes fuel o data) calm s.
Proof.
  revert s. induction data as [|b data IH]; intros s; cbn [write_bytes]; [by wp_step|].
  wp_step. wp_apply write_uart_calm. intros [[]|e] s1 _; [|done]. wp_step.
  eapply (wp_mono _ _ (λ _ _, True)); [wp_step; [apply observe_guest_tx_calm|by wp_step]|].
  intros [[]|e] s2 _; [apply IH|done].
Qed.

Lemma handles_port_offset port : handles_port port = true → checked_sub port SERIAL_PORT_BASE = Some (port - SERIAL_PORT_BASE).
Proof. intros [?%Z.leb_le _]%andb_true_iff. apply checked_sub_Some. lia. Qed.

Lemma pio_write_calm port data (b : PioBus U Efd) : wp Partial (pio_write fuel port data) (λ _ _, True) b.
Proof.
  unfold pio_write. destruct (handles_port port) eqn:Hp.
  - wp_step. unfold on_serial. wp_step. unfold bus_write. wp_step. eapply wp_expect; [by apply handles_port_offset|].
    wp_step. wp_apply write_bytes_calm. intros [[]|e] s1 _; [|done]. wp_step; [|by do 2 wp_step]. by do 4 wp_step.
  - wp_step; [by apply wp_act|by wp_step].
Qed.

Lemma read_bytes_calm t o n s : wp t (read_bytes o n) (λ bs _, length bs = n) s.
Proof.
  revert s. induction n as [|n IH]; intros s; cbn [read_bytes]; [by wp_step|]. wp_step. apply on_uart_wp. intros b u _.
  wp_step. wp_apply IH. intros bs s1 Hb. wp_step. cbn. by rewrite Hb.
Qed.

Lemma pio_read_calm t port data (b : PioBus U Efd) : wp t (pio_read port data) (λ bs _, length bs = length data) b.
Proof.
  unfold pio_read. destruct (handles_port port) eqn:Hp.
  - unfold on_serial. wp_step. unfold bus_read. wp_step. eapply wp_expect; [by apply handles_port_offset|].
    wp_step. wp_apply read_bytes_calm. intros bs s1 Hb. wp_step. wp_step; [unfold notify_rx_space; by do 2 wp_step|by do 2 wp_step].
  - wp_step; [|wp_step; by rewrite length_replicate]. wp_step. destruct data; [done|]. cbn. by rewrite length_replicate.
Qed.

End facts.
