(* ===== verification/VcpuRun.v ===== *)
(** * The vCPU loop

    [devices/mmio_device.rs] and the run loop of [vmm.rs]: the exits of a vCPU, their
    dispatch to the port bus and to the devices by address, and the stop request. *)

From S2P Require Import Prelude Words Errors VirtQueue VirtioMmio LegacyIo Serial PioBus.
From S2P Require Import VirtioBlk VirtioNet VsockMux VirtioVsock VirtioDev.
Local Open Scope Z_scope.

(** ** Devices *)

Inductive MmioKind := Block | Net | Vsock.

#[export] Instance MmioKind_eq_dec : EqDecision MmioKind.
Proof. solve_decision. Defined.

(** The trait [MmioDevice] as the loop uses it. *)
Class MmioDevice (Dev Mem : Type) := {
  md_kind : Dev → MmioKind;
  md_range : Dev → Z * Z;
  (** the buffer after the read; [None] is a panic *)
  md_read : Dev → Z → list Z → option (list Z);
  md_write : Mem → Z → list Z → prog Dev (result Error unit);
}.

Definition in_range (r : Z * Z) (addr : Z) : bool := (r.1 <=? addr) && (addr <? r.2).

(** What the loop needs of a device: accesses to its window do not panic, and it stays
    where it is. *)
Class MmioDeviceLaws (Dev Mem : Type) `{MmioDevice Dev Mem} := {
  md_ok : Dev → Prop;
  md_read_ok : ∀ d addr data, md_ok d → in_range (md_range d) addr = true → is_Some (md_read d addr data);
  md_write_ok : ∀ mem d addr data, md_ok d → in_range (md_range d) addr = true →
    wp Total (md_write mem addr data) (λ _ d', md_ok d' ∧ md_kind d' = md_kind d ∧ md_range d' = md_range d) d;
}.

(** ** The devices of the crate *)

Section devices.
Context {Q Mem Chain Rd Wr Efd : Type}.
Context `{VQ : !VirtQueue Q Mem Chain Rd Wr} `{EF : !EventFd Efd}.

Inductive VirtioDevice :=
| DevBlock (t : BlockTransport Q Efd)
| DevNet (t : NetState Q Efd)
| DevVsock (t : VsockState Q Efd).

Definition device_kind (d : VirtioDevice) : MmioKind :=
  match d with DevBlock _ => Block | DevNet _ => Net | DevVsock _ => Vsock end.

(** The bases the three devices are created with. *)
Definition kind_base (k : MmioKind) : Z :=
  match k with Block => VIRTIO_MMIO_BASE | Net => VIRTIO_NET_MMIO_BASE | Vsock => VIRTIO_VSOCK_MMIO_BASE end.

Definition device_read (d : VirtioDevice) (addr : Z) (data : list Z) : option (list Z) :=
  match d with
  | DevBlock t => dev_read t addr data
  | DevNet t => dev_read t addr data
  | DevVsock t => dev_read t addr data
  end.

(** Run a write on the state of the device. *)
Definition write_as {T} (mk : T → VirtioDevice) (t : T) (m : prog T (result Error unit)) : outcome (result Error unit * VirtioDevice) :=
  match m t with Ret (r, t') => Ret (r, mk t') | Panic => Panic | Prelude.Running => Prelude.Running end.

Definition device_write (mem : Mem) (addr : Z) (data : list Z) : prog VirtioDevice (result Error unit) := λ d,
  match d with
  | DevBlock t => write_as DevBlock t (dev_write mem addr data)
  | DevNet t => write_as DevNet t (dev_write mem addr data)
  | DevVsock t => write_as DevVsock t (dev_write mem addr data)
  end.

End devices.
Arguments VirtioDevice : clear implicits.

#[export] Instance Virtio_devices {Q Mem Chain Rd Wr Efd} `{VQ : !VirtQueue Q Mem Chain Rd Wr} `{EF : !EventFd Efd} :
    MmioDevice (VirtioDevice Q Efd) Mem := {
  md_kind := device_kind;
  md_range d := dev_range (kind_base (device_kind d));
  md_read := device_read;
  md_write := device_write;
}.

(** ** The loop *)

Definition DEBUG_EXIT_IOPORT : Z := 0x501.
Definition KVM_SYSTEM_EVENT_SHUTDOWN : Z := 1.
Definition KVM_SYSTEM_EVENT_RESET : Z := 2.

Inductive VcpuExit :=
| IoOut (port : Z) (data : list Z)
| IoIn (port : Z) (data : list Z)
| MmioRead (addr : Z) (data : list Z)
| MmioWrite (addr : Z) (data : list Z)
| Hlt
| ShutdownExit
| SystemEvent (event_type : Z)
| OtherExit (name : string).

(** What [vcpu.run()] returns. *)
Inductive run_result := RunExit (e : VcpuExit) | RunErr (errno : Z).

(** The fields of [VcpuRunCtx] the thread does not share. *)
Record VcpuRunCtx := mkCtx { ctx_id : Z; exit_on_hlt : bool; idle_exits_disabled : bool }.

Section loop.
Context {U Efd Dev Mem : Type} `{SH : !SerialHost U} `{EF : !EventFd Efd} `{MD : !MmioDevice Dev Mem}.
Variable fuel : nat.

(** What the threads share, and the buffers handed back to the guest by this one. *)
Record RunSt := mkRunSt {
  rs_stop : bool; rs_kicks : Z; rs_pio : PioBus U Efd; rs_devs : list Dev; rs_replies : list (list Z);
}.
#[export] Instance eta_RunSt : Eta RunSt := λ s,
  mkRunSt (rs_stop s) (rs_kicks s) (rs_pio s) (rs_devs s) (rs_replies s).

Definition request_stop : prog RunSt unit := modify (λ s, s <| rs_stop := true |> <| rs_kicks ::= Z.succ |>).

Definition on_pio {A} (m : prog (PioBus U Efd) A) : prog RunSt A :=
  zoom rs_pio (λ x s, s <| rs_pio := x |>) m.

Definition reply (data : list Z) : prog RunSt unit := modify (λ s, s <| rs_replies ::= λ l, l ++ [data] |>).

(** [find(|dev| dev.range().contains(&addr))]: its index. *)
Fixpoint find_dev (addr : Z) (devs : list Dev) : option nat :=
  match devs with
  | [] => None
  | d :: ds => if in_range (md_range d) addr then Some 0%nat else S <$> find_dev addr ds
  end.

(** Run an operation of device [i]. *)
Definition on_dev {A} (i : nat) (m : prog Dev A) : prog RunSt A := λ s,
  match rs_devs s !! i with
  | None => Panic
  | Some d =>
      match m d with
      | Ret (r, d') => Ret (r, s <| rs_devs ::= <[i := d']> |>)
      | Panic => Panic
      | Prelude.Running => Prelude.Running
      end
  end.

Definition mmio_read_exit (addr : Z) (data : list Z) : prog RunSt unit :=
  s ← get;
  match find_dev addr (rs_devs s) with
  | None => reply data
  | Some i =>
      d ← expect (rs_devs s !! i);
      data ← expect (md_read d addr data);
      reply data
  end.

Definition mmio_write_exit (mem : Mem) (addr : Z) (data : list Z) : prog RunSt (result Error unit) :=
  s ← get;
  match find_dev addr (rs_devs s) with
  | None => mret (Ok tt)
  | Some i =>
      on_dev i (md_write mem addr data)
  end.

Definition EAGAIN_OR_EINTR (e : Z) : bool := (e =? EINTR) || (e =? EAGAIN).

(** One turn: [inl] stays in the loop, [inr] leaves it. *)
Definition vcpu_turn (ctx : VcpuRunCtx) (mem : Mem) (r : run_result) : prog RunSt (unit + result Error unit) :=
  match r with
  | RunErr e =>
      if EAGAIN_OR_EINTR e then mret (inl tt)
      else request_stop;; mret (inr (Err (KvmIoctl e)))
  | RunExit (IoOut port data) =>
      if exit_on_hlt ctx && (port =? DEBUG_EXIT_IOPORT) then
        request_stop;;
        let code := default 0 (head data) in
        if negb (code =? 0) then mret (inr (Err (UnexpectedExit (MsgNum "debug exit status" code))))
        else mret (inr (Ok tt))
      else
        r ← on_pio (pio_write fuel port data);
        match r with
        | Err e => mret (inr (Err e))
        | Ok PowerReset | Ok PowerShutdown => request_stop;; mret (inr (Ok tt))
        | Ok PowerNone => mret (inl tt)
        end
  | RunExit (IoIn port data) => bs ← on_pio (pio_read port data); reply bs;; mret (inl tt)
  | RunExit (MmioRead addr data) => mmio_read_exit addr data;; mret (inl tt)
  | RunExit (MmioWrite addr data) =>
      r ← mmio_write_exit mem addr data;
      match r with Err e => mret (inr (Err e)) | Ok _ => mret (inl tt) end
  | RunExit Hlt => if exit_on_hlt ctx then request_stop;; mret (inr (Ok tt)) else mret (inl tt)
  | RunExit ShutdownExit => request_stop;; mret (inr (Ok tt))
  | RunExit (SystemEvent ev) =>
      request_stop;;
      if (ev =? KVM_SYSTEM_EVENT_SHUTDOWN) || (ev =? KVM_SYSTEM_EVENT_RESET) then mret (inr (Ok tt))
      else mret (inr (Err (UnexpectedExit (MsgNum "system event" ev))))
  | RunExit (OtherExit name) => request_stop;; mret (inr (Err (UnexpectedExit (MsgExt "" name))))
  end.

(** The turns of the loop. Between two of them another thread may have requested the
    stop. [inl]: the list is used up and the loop goes on. *)
Fixpoint run_vcpu_loop (ctx : VcpuRunCtx) (mem : Mem) (ts : list (bool * run_result)) : prog RunSt (unit + result Error unit) :=
  match ts with
  | [] => mret (inl tt)
  | (others_stop, r) :: ts =>
      modify (λ s, if others_stop then s <| rs_stop := true |> else s);;
      stopped ← gets rs_stop;
      if (stopped : bool) then mret (inr (Ok tt))
      else
        o ← vcpu_turn ctx mem r;
        match o with inl _ => run_vcpu_loop ctx mem ts | inr r => mret (inr r) end
  end.

End loop.
Arguments RunSt : clear implicits.

(** ** The devices behave *)

Section device_laws.
Context {Q Mem Chain Rd Wr Efd : Type}.
Context `{VQ : !VirtQueue Q Mem Chain Rd Wr} `{EF : !EventFd Efd}.

(** The transport of a device is at the base of its kind. *)
Definition device_base (d : VirtioDevice Q Efd) : Z :=
  match d with
  | DevBlock t => base (st_mmio t)
  | DevNet t => base (st_mmio t)
  | DevVsock t => base (st_mmio t)
  end.

Lemma dev_read_some {S} `{VS : !VirtioState S Q Efd} (s : S) addr data :
  base (st_mmio s) ≤ addr → is_Some (dev_read s addr data).
Proof.
  intros Ha. unfold dev_read. destruct (copy_config s _) as [n raw]. unfold mmio_read.
  rewrite (proj2 (checked_sub_Some addr (base (st_mmio s)) _) (conj eq_refl Ha)). cbn. case_match; eauto.
Qed.

Lemma dev_write_wp {S} `{VS : !VirtioState S Q Efd} mem addr data (s : S) P :
  base (st_mmio s) ≤ addr → (∀ s' m, st_mmio (st_set_mmio m s') = m) →
  (∀ s' r, base (st_mmio s') = base (st_mmio s) → P r s') →
  wp Total (dev_write mem addr data) P s.
Proof.
  intros Ha Hset HP. unfold dev_write. do 2 wp_step.
  assert (∃ r m', mmio_write mem (st_mmio s) addr data = Some (r, m') ∧ base m' = base (st_mmio s)) as (r & m' & E & Hb).
  { unfold mmio_write. rewrite (proj2 (checked_sub_Some addr (base (st_mmio s)) _) (conj eq_refl Ha)). cbn.
    pose proof (write_reg_same_device mem (st_mmio s) (addr - base (st_mmio s)) (read_le data)) as (Hb & _).
    destruct (write_reg _ _ _ _) as [r m']. by exists r, m'. }
  wp_step. eapply wp_expect; [exact E|]. cbn beta iota. do 2 wp_step. wp_step; [|by wp_step; apply HP; rewrite Hset].
  wp_step. apply wp_act. intros r' s' Hs. destruct (efd_write _) as [r2 e]. injection Hs as <- <-. wp_step.
  apply HP. by rewrite !Hset.
Qed.

#[export] Program Instance Virtio_device_laws : MmioDeviceLaws (VirtioDevice Q Efd) Mem := {
  md_ok d := device_base d = kind_base (device_kind d);
}.
Next Obligation.
  intros d addr data Hok [Ha%Z.leb_le _]%andb_true_iff. cbn in Ha. rewrite <-Hok in Ha.
  destruct d; by apply dev_read_some.
Qed.
Next Obligation.
  intros mem d addr data Hok [Ha%Z.leb_le _]%andb_true_iff. cbn in Ha. rewrite <-Hok in Ha.
  unfold wp. cbn. destruct d as [t|t|t]; cbn in *; unfold write_as;
    pose proof (dev_write_wp mem addr data t (λ _ t', base (st_mmio t') = base (st_mmio t)) Ha ltac:(done) ltac:(done)) as Hw;
    unfold wp in Hw; destruct (dev_write mem addr data t) as [[r t']| |]; try done; cbn in *; (split_and!; [congruence|done|done]).
Qed.

End device_laws.

(** ** Lemmas *)

Section facts.
Context {U Efd Dev Mem : Type} `{SH : !SerialHost U, SL : !SerialHostLaws U} `{EF : !EventFd Efd}.
Context `{MD : !MmioDevice Dev Mem, ML : !MmioDeviceLaws Dev Mem}.
Variable fuel : nat.
Implicit Types s : RunSt U Efd Dev.

Lemma find_dev_Some addr (devs : list Dev) i :
  find_dev addr devs = Some i → ∃ d, devs !! i = Some d ∧ in_range (md_range d) addr = true.
Proof.
  revert i. induction devs as [|d devs IH]; intros i; [done|]. cbn. destruct (in_range (md_range d) addr) eqn:E.
  - intros [= <-]. by exists d.
  - intros (j & Hj & ->)%fmap_Some. by apply IH.
Qed.

(** Devices that work and do not move. *)
Definition devs_ok s : Prop := Forall md_ok (rs_devs s).

Record calm_turn s s' : Prop := mkCalm {
  ct_devs : devs_ok s';
  ct_windows : md_range <$> rs_devs s' = md_range <$> rs_devs s;
  ct_stop : rs_stop s' = rs_stop s;
  ct_kicks : rs_kicks s' = rs_kicks s;
}.

Lemma calm_refl s : devs_ok s → calm_turn s s.
Proof. by split. Qed.

Lemma mmio_read_exit_wp addr data s (P : unit → RunSt U Efd Dev → Prop) :
  devs_ok s → (∀ s', calm_turn s s' → P tt s') → wp Partial (mmio_read_exit addr data) P s.
Proof.
  intros Hd HP. unfold mmio_read_exit. do 2 wp_step. destruct (find_dev addr (rs_devs s)) as [i|] eqn:E.
  - destruct (find_dev_Some _ _ _ E) as (d & Hi & Hr). wp_step. eapply wp_expect; [exact Hi|].
    destruct (md_read_ok d addr data (Forall_lookup_1 _ _ _ _ Hd Hi) Hr) as [bs Hb]. wp_step.
    eapply wp_expect; [exact Hb|]. unfold reply. wp_step. by apply HP.
  - unfold reply. wp_step. by apply HP.
Qed.

Lemma mmio_write_exit_wp mem addr data s (P : result Error unit → RunSt U Efd Dev → Prop) :
  devs_ok s → (∀ r s', calm_turn s s' → P r s') → wp Partial (mmio_write_exit mem addr data) P s.
Proof.
  intros Hd HP. unfold mmio_write_exit. do 2 wp_step. destruct (find_dev addr (rs_devs s)) as [i|] eqn:E.
  - destruct (find_dev_Some _ _ _ E) as (d & Hi & Hr). unfold wp, on_dev. rewrite Hi.
    pose proof (md_write_ok mem d addr data (Forall_lookup_1 _ _ _ _ Hd Hi) Hr) as Hw. unfold wp in Hw.
    destruct (md_write mem addr data d) as [[r d']| |]; [|done|done]. destruct Hw as (H1 & _ & H2). apply HP.
    split; try done; [by apply Forall_insert|]. cbn. rewrite list_fmap_insert, H2. apply list_insert_id.
    by rewrite list_lookup_fmap, Hi.
  - wp_step. by apply HP, calm_refl.
Qed.

Lemma on_pio_wp {A} (m : prog (PioBus U Efd) A) s (P : A → RunSt U Efd Dev → Prop) :
  devs_ok s → (∀ b, wp Partial m (λ _ _, True) b) → (∀ a s', calm_turn s s' → P a s') → wp Partial (on_pio m) P s.
Proof. intros Hd Hm HP. unfold on_pio. wp_step. wp_apply Hm. intros a b _. apply HP. by split. Qed.

(** An exit whose handling can fail in a device. *)
Definition device_exit (r : run_result) : Prop :=
  match r with RunExit (IoOut _ _) | RunExit (MmioWrite _ _) => True | _ => False end.

(** How a turn ends: it changes nothing about the stop, it requests the stop and leaves,
    or it leaves with the error of a device. *)
Definition turn_post (r : run_result) s (o : unit + result Error unit) s' : Prop :=
  devs_ok s' ∧ md_range <$> rs_devs s' = md_range <$> rs_devs s ∧
  match o with
  | inl _ => rs_stop s' = rs_stop s ∧ rs_kicks s' = rs_kicks s
  | inr q => (rs_stop s' = true ∧ rs_kicks s' = rs_kicks s + 1) ∨
             (rs_stop s' = rs_stop s ∧ rs_kicks s' = rs_kicks s ∧ is_err q = true ∧ device_exit r)
  end.

Lemma turn_calm r s s' u : calm_turn s s' → turn_post r s (inl u) s'.
Proof. intros [? ? ? ?]. done. Qed.

Lemma turn_error r s s' e : calm_turn s s' → device_exit r → turn_post r s (inr (Err e)) s'.
Proof. intros [? ? ? ?] ?. split_and!; [done|done|]. right. done. Qed.

Lemma request_stop_wp r s0 s (P : unit → RunSt U Efd Dev → Prop) :
  calm_turn s0 s → (∀ s', (∀ q, turn_post r s0 (inr q) s') → P tt s') → wp Partial request_stop P s.
Proof.
  intros [H1 H2 H3 H4] HP. unfold request_stop. wp_step. apply HP. intros q. split_and!; [done|done|]. left. cbn. split; [done|lia].
Qed.

(** Leave the loop after a stop request. *)
Ltac stop_now Hc := wp_step; eapply (request_stop_wp _ _ _ _ Hc); intros ? Hq; repeat wp_step; apply Hq.

Lemma vcpu_turn_wp ctx mem r s : devs_ok s → wp Partial (vcpu_turn fuel ctx mem r) (turn_post r s) s.
Proof.
  intros Hd. pose proof (calm_refl s Hd) as Hc. unfold vcpu_turn.
  destruct r as [[port data|port data|addr data|addr data| | |ev|name]|e].
  - wp_step; [stop_now Hc|]. wp_step. apply on_pio_wp; [done|apply pio_write_calm|]. intros a s1 Hc1.
    destruct a as [[]|e]; [wp_step; by apply turn_calm|stop_now Hc1..|wp_step; by apply turn_error].
  - wp_step. apply on_pio_wp; [done|intros b; wp_apply pio_read_calm; done|]. intros bs s1 Hc1. unfold reply. do 3 wp_step.
    apply turn_calm. destruct Hc1. by split.
  - wp_step. apply mmio_read_exit_wp; [done|]. intros s1 Hc1. wp_step. by apply turn_calm.
  - wp_step. apply mmio_write_exit_wp; [done|]. intros [[]|e] s1 Hc1; wp_step; [by apply turn_calm|by apply turn_error].
  - wp_step; [stop_now Hc|wp_step; by apply turn_calm].
  - stop_now Hc.
  - stop_now Hc.
  - stop_now Hc.
  - wp_step; [wp_step; by apply turn_calm|stop_now Hc].
Qed.

End facts.

(** ** Theorems *)

Section theorems.
Context {U Efd Dev Mem : Type} `{SH : !SerialHost U, SL : !SerialHostLaws U} `{EF : !EventFd Efd}.
Context `{MD : !MmioDevice Dev Mem, ML : !MmioDeviceLaws Dev Mem}.
Implicit Types s : RunSt U Efd Dev.

(** How the loop ends, or stays. *)
Definition loop_post (ts : list (bool * run_result)) s (o : unit + result Error unit) s' : Prop :=
  devs_ok s' ∧ md_range <$> rs_devs s' = md_range <$> rs_devs s ∧
  match o with
  | inl _ => rs_stop s' = false ∧ rs_kicks s' = rs_kicks s
  | inr (Ok _) => rs_stop s' = true ∧ (rs_kicks s' = rs_kicks s + 1 ∨ ∃ r, (true, r) ∈ ts)
  | inr (Err _) => rs_stop s' = true ∧ rs_kicks s' = rs_kicks s + 1 ∨
                   rs_stop s' = false ∧ ∃ r, (false, r) ∈ ts ∧ device_exit r
  end.

Lemma run_vcpu_loop_wp fuel ctx mem ts s :
  devs_ok s → rs_stop s = false → wp Partial (run_vcpu_loop fuel ctx mem ts) (loop_post ts s) s.
Proof.
  unfold loop_post. revert s. induction ts as [|[others r] ts IH]; intros s Hd Hs; cbn [run_vcpu_loop]; [by wp_step|].
  do 4 wp_step. destruct others; [change (rs_stop (s <| rs_stop := true |>)) with true|rewrite Hs]; cbn beta iota.
  - wp_step. split_and!; [done|done|done|]. right. exists r. set_solver.
  - wp_step. wp_apply (vcpu_turn_wp fuel ctx mem r s Hd). intros o s1 (Hd1 & Hw1 & Ho). destruct o as [u|q].
    + destruct Ho as [Ho1 Ho2]. rewrite Hs in Ho1. wp_apply (IH s1 Hd1 Ho1). intros o s2 (H1 & H2 & H3).
      rewrite Hw1 in H2. rewrite Ho2 in H3. split_and!; [done|done|]. destruct o as [|[]]; [done| |]; set_solver.
    + wp_step. split_and!; [done|done|]. destruct q as [[]|e]; destruct Ho as [[? ?]|(? & ? & ? & ?)]; try done; auto.
      right. split; [congruence|]. exists r. set_solver.
Qed.

(** C15: the loop of a vCPU never panics, whatever the guest does. It stays in the loop
    without a trace of a stop; it leaves it successfully only with the stop flag set, by
    itself together with one kick of the other vCPUs or by another thread; and it leaves
    it with an error without stopping the others only when a device failed. *)
Theorem vcpu_loop_safe fuel ctx mem ts s :
  devs_ok s → rs_stop s = false →
  run_vcpu_loop fuel ctx mem ts s ≠ Panic ∧
  ∀ o s', run_vcpu_loop fuel ctx mem ts s = Ret (o, s') →
    devs_ok s' ∧ md_range <$> rs_devs s' = md_range <$> rs_devs s ∧
    match o with
    | inl _ => rs_stop s' = false ∧ rs_kicks s' = rs_kicks s
    | inr (Ok _) => rs_stop s' = true ∧ (rs_kicks s' = rs_kicks s + 1 ∨ ∃ r, (true, r) ∈ ts)
    | inr (Err _) => rs_stop s' = true ∧ rs_kicks s' = rs_kicks s + 1 ∨
                     rs_stop s' = false ∧ ∃ r, (false, r) ∈ ts ∧ device_exit r
    end.
Proof.
  intros Hd Hs. pose proof (run_vcpu_loop_wp fuel ctx mem ts s Hd Hs) as Hw.
  split; [by eapply wp_no_panic|]. intros o s' E. by apply (wp_partial_inv _ _ _ _ _ _ Hw E).
Qed.

End theorems.

(** ** Dispatch by address *)

Section dispatch.
Context {U Q Mem Chain Rd Wr Efd : Type} `{SH : !SerialHost U}.
Context `{VQ : !VirtQueue Q Mem Chain Rd Wr} `{EF : !EventFd Efd}.
Implicit Types (s : RunSt U Efd (VirtioDevice Q Efd)) (d : VirtioDevice Q Efd).

(** Windows of different kinds of devices do not meet, and lie above guest RAM. *)
Lemma windows_disjoint k1 k2 addr :
  in_range (dev_range (kind_base k1)) addr = true → in_range (dev_range (kind_base k2)) addr = true → k1 = k2.
Proof.
  unfold in_range, dev_range, kind_base, VIRTIO_MMIO_BASE, VIRTIO_NET_MMIO_BASE, VIRTIO_VSOCK_MMIO_BASE, MMIO_SIZE,
    Memory.GUEST_RAM_END. cbn [fst snd].
  rewrite !andb_true_iff, !Z.leb_le, !Z.ltb_lt. destruct k1, k2; try done; lia.
Qed.

Lemma find_dev_unique (devs : list (VirtioDevice Q Efd)) i d addr :
  NoDup (device_kind <$> devs) → devs !! i = Some d → in_range (md_range d) addr = true → find_dev addr devs = Some i.
Proof.
  revert i. induction devs as [|e devs IH]; intros i Hn Hi Hr; [done|]. cbn [fmap list_fmap] in Hn.
  apply NoDup_cons in Hn as [Hne Hn]. cbn [find_dev]. destruct (in_range (md_range e) addr) eqn:E.
  - destruct i as [|i]; [done|]. cbn in Hi. exfalso. apply Hne. cbn in E, Hr. rewrite (windows_disjoint _ _ _ E Hr).
    by apply list_elem_of_fmap_2, (list_elem_of_lookup_2 _ i).
  - destruct i as [|i]; cbn in Hi; [congruence|]. by rewrite (IH i).
Qed.

Lemma find_dev_none (devs : list (VirtioDevice Q Efd)) addr :
  (∀ d, d ∈ devs → in_range (md_range d) addr = false) → find_dev addr devs = None.
Proof.
  induction devs as [|e devs IH]; intros H; [done|]. cbn. cbn in H. rewrite (H e) by set_solver. cbn. rewrite IH; [done|set_solver].
Qed.

(** C24: an MMIO exit goes to the device whose window has the address, and only to it:
    with at most one device of each kind, in whatever order they were attached, a read
    in the window of device [i] returns what that device answers and a write changes
    that device alone; an access outside of all windows, so every one below the end of
    guest RAM, changes no device and leaves the buffer of a read as it was. *)
Theorem mmio_dispatch_exact mem s i d addr data :
  NoDup (device_kind <$> rs_devs s) →
  rs_devs s !! i = Some d → in_range (dev_range (kind_base (device_kind d))) addr = true →
  Memory.GUEST_RAM_END ≤ addr ∧
  mmio_read_exit addr data s
  = match device_read d addr data with
    | Some bs => Ret (tt, s <| rs_replies ::= λ l, l ++ [bs] |>)
    | None => Panic
    end ∧
  mmio_write_exit mem addr data s
  = match device_write mem addr data d with
    | Ret (r, d') => Ret (r, s <| rs_devs ::= <[i := d']> |>)
    | Panic => Panic
    | Prelude.Running => Prelude.Running
    end ∧
  (∀ out, (∀ d, d ∈ rs_devs s → in_range (dev_range (kind_base (device_kind d))) out = false) →
     mmio_read_exit out data s = Ret (tt, s <| rs_replies ::= λ l, l ++ [data] |>) ∧
     mmio_write_exit mem out data s = Ret (Ok tt, s)).
Proof.
  intros Hn Hi Hr. pose proof (find_dev_unique _ i d addr Hn Hi Hr) as Hf. split_and!.
  - apply andb_true_iff in Hr as [Hr%Z.leb_le _]. revert Hr.
    unfold dev_range, kind_base, VIRTIO_MMIO_BASE, VIRTIO_NET_MMIO_BASE, VIRTIO_VSOCK_MMIO_BASE. cbn [fst]. destruct (device_kind d); lia.
  - unfold mmio_read_exit, mbind, prog_bind, get. rewrite Hf. cbn -[device_read]. rewrite Hi. cbn -[device_read].
    by destruct (device_read d addr data).
  - unfold mmio_write_exit, mbind, prog_bind, get. rewrite Hf. unfold on_dev. by rewrite Hi.
  - intros out Ho. pose proof (find_dev_none (rs_devs s) out Ho) as Hno.
    unfold mmio_read_exit, mmio_write_exit, mbind, prog_bind, get. by rewrite Hno.
Qed.

End dispatch.

(** ** Witnesses *)

(** A device that records the writes to it, or refuses them. *)
Record SDev := mkSDev { sd_kind : MmioKind; sd_fails : bool; sd_log : list (Z * list Z) }.
#[export] Instance eta_SDev : Eta SDev := λ d, mkSDev (sd_kind d) (sd_fails d) (sd_log d).

#[export] Instance Scripted_device : MmioDevice SDev unit := {
  md_kind := sd_kind;
  md_range d := dev_range (kind_base (sd_kind d));
  md_read d addr data := Some data;
  md_write _ addr data := λ d,
    if sd_fails d then Ret (Err (VirtioErr (Msg "kick")), d)
    else Ret (Ok tt, d <| sd_log ::= λ l, l ++ [(addr, data)] |>);
}.
#[export] Program Instance Scripted_device_laws : MmioDeviceLaws SDev unit := { md_ok _ := True }.
Next Obligation. by intros. Qed.
Next Obligation. intros mem d addr data _ _. unfold wp. cbn. by destruct (sd_fails d). Qed.

Definition demo_run (fails : bool) : RunSt SUart Z SDev :=
  mkRunSt false 0 (pio_new demo_serial) [mkSDev Net fails []; mkSDev Block fails []] [].
Definition demo_ctx : VcpuRunCtx := mkCtx 1 false true.

Definition demo_turns : list (bool * run_result) :=
  [(false, RunExit (IoOut 0x3f8 [0x41])); (false, RunExit (MmioWrite (VIRTIO_MMIO_BASE + 0x70) [1; 0; 0; 0]));
   (false, RunExit Hlt); (false, RunErr EINTR); (false, RunExit (IoOut 0x64 [0xfe]))].

Lemma vcpu_loop_safe_witness :
  ∃ s', run_vcpu_loop SU_BURST demo_ctx tt demo_turns (demo_run false) = Ret (inr (Ok tt), s') ∧
    rs_stop s' = true ∧ rs_kicks s' = 1.
Proof.
  destruct (vcpu_loop_safe (SL := Scripted_uart_laws) (ML := Scripted_device_laws) SU_BURST demo_ctx tt
    demo_turns (demo_run false)) as [_ H]; [repeat constructor|reflexivity|].
  assert (∃ s', run_vcpu_loop SU_BURST demo_ctx tt demo_turns (demo_run false) = Ret (inr (Ok tt), s')) as [s' E]
    by (eexists; vm_compute; reflexivity).
  exists s'. split; [exact E|]. destruct (H _ _ E) as (_ & _ & H1 & H2). split; [exact H1|].
  destruct H2 as [H2|[r Hr]]; [exact H2|]. exfalso. unfold demo_turns in Hr.
  repeat (apply elem_of_cons in Hr as [Hr|Hr]; [discriminate Hr|]). by apply not_elem_of_nil in Hr.
Defined.

(** An application processor whose device access fails leaves its loop without
    requesting the stop: the error is not seen and the machine goes on without this
    vCPU. *)
Theorem ap_device_error_unseen :
  ∃ e s', run_vcpu_loop SU_BURST demo_ctx tt [(false, RunExit (MmioWrite (VIRTIO_MMIO_BASE + 0x50) [0; 0; 0; 0]))] (demo_run true)
          = Ret (inr (Err e), s') ∧ rs_stop s' = false ∧ rs_kicks s' = 0.
Proof. do 2 eexists. split; [vm_compute; reflexivity|]. split; reflexivity. Qed.

(** A block device of 1000 sectors behind a network device. *)
Definition demo_machine : RunSt SUart Z (VirtioDevice SQueue Z) :=
  mkRunSt false 0 (pio_new demo_serial)
    [DevNet (mkNetState (demo_mmio <| base := VIRTIO_NET_MMIO_BASE |>) [] [] [] None None);
     DevBlock (mkBlockTransport demo_mmio 1000 false)] [].

Lemma mmio_dispatch_exact_witness :
  mmio_read_exit (VIRTIO_MMIO_BASE + REG_CONFIG) [0; 0; 0; 0] demo_machine
  = Ret (tt, demo_machine <| rs_replies := [[0xe8; 3; 0; 0]] |>) ∧
  mmio_write_exit ([] : SMem) 0x1000 [1] demo_machine = Ret (Ok tt, demo_machine).
Proof.
  destruct (mmio_dispatch_exact ([] : SMem) demo_machine 1 (DevBlock (mkBlockTransport demo_mmio 1000 false))
    (VIRTIO_MMIO_BASE + REG_CONFIG) [0; 0; 0; 0]) as (_ & H1 & _ & H2);
    [by apply (bool_decide_unpack _); vm_compute|reflexivity|reflexivity|].
  split; [rewrite H1; vm_compute; reflexivity|]. apply (H2 0x1000).
  intros d Hd. repeat (apply elem_of_cons in Hd as [->|Hd]; [reflexivity|]). by apply not_elem_of_nil in Hd.
Defined.
