(* ===== verification/VcpuKick.v ===== *)
(** * Stopping the vCPU threads

    [vmm.rs]: the kick registry, the stop flag and the points of [run_vcpu_loop],
    [idle_wait] and the end of [Vmm::run] between which the threads of the vCPUs can be
    interrupted, as a machine whose steps interleave. Thread 0 runs in [Vmm::run], which
    stops and kicks the others once more and then joins them. A signal takes a thread out
    of the guest when it is in [KVM_RUN]; before that, its handler does nothing.

    The stop reaches every thread when a kick is sent while no thread is between its
    check of the flag and its entry into the guest; otherwise it can be lost. *)

From S2P Require Import Prelude.

(** ** The machine *)

(** Slices of an idle wait. *)
Definition SLICES : nat := 10.

Inductive ThreadPc :=
| ThRegister | ThCheck | ThEnter | ThGuest
| ThIdle (slices : nat)
| ThStop | ThKick
| ThMainStop | ThMainKick | ThJoin
| ThDone.

#[export] Instance ThreadPc_eq_dec : EqDecision ThreadPc.
Proof. solve_decision. Defined.

(** What the loop does with an exit of the guest: go on, sleep, end the machine, or
    return an error of a device. *)
Inductive ExitKind := ExitGoOn | ExitIdle | ExitStop | ExitDeviceError.

(** The stop flag, the threads in the kick registry and where each thread is. *)
Record Machine := mkMachine { m_stop : bool; registry : list nat; threads : list ThreadPc }.
#[export] Instance eta_Machine : Eta Machine := λ m, mkMachine (m_stop m) (registry m) (threads m).

(** [VcpuKickRegistry::register] and the [drop] of a registration. *)
Definition register (i : nat) (m : Machine) : Machine := m <| registry ::= λ l, l ++ [i] |>.
Definition unregister (i : nat) (m : Machine) : Machine := m <| registry ::= filter (λ t, t ≠ i) |>.

(** [kick_all]: every registered thread gets the signal. *)
Definition signal (p : ThreadPc) : ThreadPc := match p with ThGuest => ThCheck | p => p end.
Definition kick_all (m : Machine) : Machine :=
  m <| threads ::= λ l, foldl (λ l i, alter signal i l) l (registry m) |>.

Definition goto (i : nat) (p : ThreadPc) (m : Machine) : Machine := m <| threads ::= <[i := p]> |>.

(** The loop returns, which drops its registration; the first vCPU goes on in [Vmm::run]. *)
Definition leave (i : nat) (m : Machine) : Machine :=
  goto i (if bool_decide (i = 0) then ThMainStop else ThDone) (unregister i m).

(** One round of [idle_wait]. *)
Definition idle_wait (k : nat) (m : Machine) : ThreadPc :=
  match k with O => ThCheck | S k => if m_stop m then ThCheck else ThIdle k end.

(** All threads but the first have returned. *)
Definition joinable (m : Machine) : bool := forallb (λ p, bool_decide (p = ThDone)) (drop 1 (threads m)).

(** The action of thread [i]; [x] is the exit it takes from the guest. [None]: it has
    returned or blocks. *)
Definition thread_step (x : ExitKind) (i : nat) (m : Machine) : option Machine :=
  p ← threads m !! i;
  match p with
  | ThRegister => Some (goto i ThCheck (register i m))
  | ThCheck => Some (if m_stop m then leave i m else goto i ThEnter m)
  | ThEnter => Some (goto i ThGuest m)
  | ThGuest =>
      Some match x with
           | ExitGoOn => goto i ThCheck m
           | ExitIdle => goto i (ThIdle SLICES) m
           | ExitStop => goto i ThStop m
           | ExitDeviceError => leave i m
           end
  | ThIdle k => Some (goto i (idle_wait k m) m)
  | ThStop => Some (goto i ThKick (m <| m_stop := true |>))
  | ThKick => Some (leave i (kick_all m))
  | ThMainStop => Some (goto i ThMainKick (m <| m_stop := true |>))
  | ThMainKick => Some (goto i ThJoin (kick_all m))
  | ThJoin => if joinable m then Some (goto i ThDone m) else None
  | ThDone => None
  end.

Definition thread_steps (l : list (ExitKind * nat)) (m : Machine) : option Machine :=
  foldl (λ o '(x, i), o ≫= thread_step x i) (Some m) l.

(** [n] vCPUs before they run. *)
Definition machine_new (n : nat) : Machine := mkMachine false [] (replicate n ThRegister).

(** ** Registrations *)

(** The thread is in [run_vcpu_loop], registered. *)
Definition in_loop (p : ThreadPc) : bool :=
  match p with ThCheck | ThEnter | ThGuest | ThIdle _ | ThStop | ThKick => true | _ => false end.
Definition in_main (p : ThreadPc) : bool :=
  match p with ThMainStop | ThMainKick | ThJoin => true | _ => false end.

Record machine_ok (m : Machine) : Prop := {
  mo_reg : ∀ i p, threads m !! i = Some p → (i ∈ registry m ↔ in_loop p = true);
  mo_main : ∀ i p, threads m !! i = Some p → in_main p = true → i = 0;
}.

Lemma machine_new_ok n : machine_ok (machine_new n).
Proof.
  split; cbn; intros i p [-> _]%lookup_replicate; [|done]. split; [by intros ?%not_elem_of_nil|done].
Qed.

(** What a kick does to one thread. *)
Lemma kicked_lookup (l : list nat) (ths : list ThreadPc) i :
  foldl (λ l i, alter signal i l) ths l !! i =
  (λ p, if bool_decide (i ∈ l) then signal p else p) <$> ths !! i.
Proof.
  revert ths. induction l as [|j l IH]; intros ths; cbn [foldl].
  { destruct (ths !! i); cbn; [|done]. by rewrite bool_decide_eq_false_2 by apply not_elem_of_nil. }
  rewrite IH. destruct (decide (i = j)) as [->|Hne].
  - rewrite list_lookup_alter_eq. destruct (ths !! j) as [p|]; cbn; [|done].
    rewrite (bool_decide_eq_true_2 (j ∈ j :: l)) by (by left). by case_bool_decide; [destruct p|].
  - rewrite list_lookup_alter_ne by done. destruct (ths !! i) as [p|]; cbn; [|done].
    by rewrite (bool_decide_ext (i ∈ j :: l) (i ∈ l)) by (rewrite elem_of_cons; naive_solver).
Qed.

Lemma kick_all_lookup m i p :
  threads (kick_all m) !! i = Some p →
  ∃ p0, threads m !! i = Some p0 ∧ p = (if bool_decide (i ∈ registry m) then signal p0 else p0).
Proof. cbn. rewrite kicked_lookup. intros (p0 & H & ->)%fmap_Some. by exists p0. Qed.

Lemma signal_kinds (b : bool) p :
  in_loop (if b then signal p else p) = in_loop p ∧ in_main (if b then signal p else p) = in_main p.
Proof. by destruct b, p. Qed.

Lemma kick_all_ok m : machine_ok m → machine_ok (kick_all m).
Proof.
  intros [Hr Hm]. split; intros i p (p0 & H0 & ->)%kick_all_lookup;
    destruct (signal_kinds (bool_decide (i ∈ registry m)) p0) as [H1 H2].
  - rewrite H1. exact (Hr i p0 H0).
  - rewrite H2. eauto.
Qed.

(** Moving a thread keeps the registry right when it is registered as its new place says. *)
Lemma goto_ok i p m m0 :
  machine_ok m0 → threads m = threads m0 → (∀ j, j ≠ i → (j ∈ registry m ↔ j ∈ registry m0)) →
  (i ∈ registry m ↔ in_loop p = true) → (in_main p = true → i = 0) → machine_ok (goto i p m).
Proof.
  intros [Hr Hm] Ht Hj Hi Hp. split; intros j q; cbn; rewrite Ht; intros [(-> & -> & _)|[Hne H]]%list_lookup_insert_Some; auto.
  - rewrite (Hj j) by done. auto.
  - eauto.
Qed.

Lemma leave_ok i m : machine_ok m → machine_ok (leave i m).
Proof.
  intros Hok. eapply goto_ok; [exact Hok|done|..].
  - intros j Hne. cbn. rewrite list_elem_of_filter. naive_solver.
  - cbn. rewrite list_elem_of_filter. case_bool_decide; naive_solver.
  - by case_bool_decide.
Qed.

Lemma thread_step_ok x i m m' : machine_ok m → thread_step x i m = Some m' → machine_ok m'.
Proof.
  intros Hok (p & Hp & E)%bind_Some. pose proof (mo_reg m Hok i p Hp) as Hi. pose proof (mo_main m Hok i p Hp) as Hm.
  assert (∀ q b, in_loop q = in_loop p → (in_main q = true → i = 0) → machine_ok (goto i q (m <| m_stop := b |>))) as Hgo.
  { intros q b Hq Hmq. eapply goto_ok; [exact Hok|done|done| |done]. cbn. by rewrite Hq. }
  assert (∀ q, in_loop q = in_loop p → (in_main q = true → i = 0) → machine_ok (goto i q m)) as Hgo'.
  { intros q Hq Hmq. eapply goto_ok; [exact Hok|done|done| |done]. by rewrite Hq. }
  destruct p; simplify_eq/=; try (by apply Hgo); try (by apply Hgo').
  - eapply goto_ok; [exact Hok|done|..|done]; cbn.
    + intros j Hne. rewrite elem_of_app, list_elem_of_singleton. naive_solver.
    + rewrite elem_of_app, list_elem_of_singleton. naive_solver.
  - destruct (m_stop m); [by apply leave_ok|by apply Hgo'].
  - destruct x; [by apply Hgo'..|by apply leave_ok].
  - apply Hgo'; [|]; unfold idle_wait; by repeat case_match.
  - by apply leave_ok, kick_all_ok.
  - eapply goto_ok; [apply kick_all_ok, Hok|done|done|done|done].
  - case_match; simplify_eq. by apply Hgo'.
Qed.

Lemma thread_steps_cons x i l m : thread_steps ((x, i) :: l) m = thread_step x i m ≫= thread_steps l.
Proof.
  unfold thread_steps. cbn. destruct (thread_step x i m) as [m'|]; [done|]. cbn.
  by induction l as [|[y j] l IH].
Qed.

Lemma thread_steps_ok l m m' : machine_ok m → thread_steps l m = Some m' → machine_ok m'.
Proof.
  revert m. induction l as [|[x i] l IH]; intros m Hok; [by intros [= <-]|].
  rewrite thread_steps_cons. intros (m1 & H1 & H2)%bind_Some. eapply IH; [by eapply thread_step_ok|done].
Qed.

(** ** A stop that reaches every thread *)

(** The flag is set, no thread is about to enter the guest unchecked, and a kick is still
    to come if a thread is in the guest. *)
Record stopping (m : Machine) : Prop := {
  st_ok : machine_ok m;
  st_stop : m_stop m = true;
  st_enter : ∀ i, threads m !! i ≠ Some ThEnter;
  st_kick : (∃ i, threads m !! i = Some ThKick ∨ threads m !! i = Some ThMainKick) ∨
            ∀ i, threads m !! i ≠ Some ThGuest;
}.

(** Steps a thread has left once the flag is set. *)
Definition rank (p : ThreadPc) : nat :=
  match p with
  | ThDone => 0
  | ThJoin => 1
  | ThMainKick => 2
  | ThMainStop => 3
  | ThCheck | ThKick => 4
  | ThRegister | ThIdle _ | ThStop => 5
  | ThGuest | ThEnter => 6
  end.
Definition steps_left (m : Machine) : nat := sum_list_with rank (threads m).

Lemma sum_insert_lt (l : list ThreadPc) i p q :
  l !! i = Some p → rank q < rank p → sum_list_with rank (<[i := q]> l) < sum_list_with rank l.
Proof.
  revert i. induction l as [|a l IH]; intros [|i] Hi Hr; simplify_eq/=.
  - lia.
  - specialize (IH i Hi Hr). lia.
Qed.

Lemma sum_kicked_le (rs : list nat) (l : list ThreadPc) :
  sum_list_with rank (foldl (λ l i, alter signal i l) l rs) ≤ sum_list_with rank l.
Proof.
  revert l. induction rs as [|r rs IH]; intros l; cbn [foldl]; [done|]. etrans; [apply IH|].
  clear. revert r. induction l as [|a l IH]; intros [|r]; cbn; [done|done|destruct a; cbn; lia|by apply Nat.add_le_mono_l].
Qed.

Lemma steps_left_bound m : steps_left m ≤ 6 * length (threads m).
Proof. unfold steps_left. induction (threads m) as [|[] l IH]; cbn in *; lia. Qed.

Lemma kick_all_left m : steps_left (kick_all m) ≤ steps_left m.
Proof. apply sum_kicked_le. Qed.

(** Nobody is in the guest after a kick. *)
Lemma kick_all_guest m i : machine_ok m → threads (kick_all m) !! i ≠ Some ThGuest.
Proof.
  intros Hok (p0 & H0 & E)%kick_all_lookup. pose proof (mo_reg m Hok i p0 H0) as Hi.
  case_bool_decide; [by destruct p0|]. subst p0. cbn in Hi. naive_solver.
Qed.

Lemma kick_all_keeps m i p : p ≠ ThGuest → threads m !! i = Some p → threads (kick_all m) !! i = Some p.
Proof. intros Hp Hi. cbn. rewrite kicked_lookup, Hi. cbn. by case_bool_decide; destruct p. Qed.

(** A move of a thread that is not kicking to a place outside the guest keeps what
    [stopping] says of the others. *)
Lemma stopping_goto i p q m m' :
  stopping m → threads m !! i = Some p → p ≠ ThKick → p ≠ ThMainKick → q ≠ ThGuest → q ≠ ThEnter →
  m_stop m' = true → threads m' = <[i := q]> (threads m) → machine_ok m' → stopping m'.
Proof.
  intros [Hok Hs He Hk] Hi Hp1 Hp2 Hq1 Hq2 Hs' Ht Hok'. split; [done|done|..].
  - intros j. rewrite Ht. intros [(_ & -> & _)|[_ H]]%list_lookup_insert_Some; [done|by eapply He].
  - rewrite Ht. destruct Hk as [(j & Hj)|Hg]; [left; exists j|right].
    + assert (i ≠ j) by (intros ->; naive_solver). by rewrite !list_lookup_insert_ne.
    + intros j [(_ & -> & _)|[_ H]]%list_lookup_insert_Some; [done|by eapply Hg].
Qed.

(** The thread that kicks moves on to [q] afterwards. *)
Lemma stopping_kick i p q m m' :
  stopping m → threads m !! i = Some p → q ≠ ThGuest → q ≠ ThEnter →
  m_stop m' = true → threads m' = <[i := q]> (threads (kick_all m)) → machine_ok m' → stopping m'.
Proof.
  intros [Hok Hs He Hk] Hi Hq1 Hq2 Hs' Ht Hok'. split; [done|done|..].
  - intros j. rewrite Ht. intros [(_ & -> & _)|[_ (p0 & H0 & E)%kick_all_lookup]]%list_lookup_insert_Some; [done|].
    apply (He j). rewrite H0. case_bool_decide; by destruct p0.
  - right. rewrite Ht. intros j [(_ & -> & _)|[_ H]]%list_lookup_insert_Some; [done|]. exact (kick_all_guest m j Hok H).
Qed.

Lemma stopping_step x i m m' :
  stopping m → thread_step x i m = Some m' → stopping m' ∧ steps_left m' < steps_left m.
Proof.
  intros Hst Hstep. pose proof (thread_step_ok _ _ _ _ (st_ok _ Hst) Hstep) as Hok'.
  apply bind_Some in Hstep as (p & Hp & E). pose proof (st_stop _ Hst) as Hs.
  assert (∀ q, p ≠ ThKick → p ≠ ThMainKick → rank q < rank p → m_stop m' = true → threads m' = <[i := q]> (threads m) →
    q ≠ ThGuest → q ≠ ThEnter → stopping m' ∧ steps_left m' < steps_left m) as Hgo.
  { intros q Hk1 Hk2 Hr Hs' Ht Hq1 Hq2. split; [by eapply stopping_goto|]. unfold steps_left. rewrite Ht.
    by eapply sum_insert_lt. }
  assert (∀ q, p ≠ ThGuest → rank q < rank p → m_stop m' = true → threads m' = <[i := q]> (threads (kick_all m)) →
    q ≠ ThGuest → q ≠ ThEnter → stopping m' ∧ steps_left m' < steps_left m) as Hkick.
  { intros q Hg Hr Hs' Ht Hq1 Hq2. split; [by eapply stopping_kick|]. unfold steps_left. rewrite Ht.
    eapply Nat.lt_le_trans; [|apply kick_all_left]. eapply sum_insert_lt; [|done]. exact (kick_all_keeps m i p Hg Hp). }
  destruct p; rewrite ?Hs in E; simplify_eq/=.
  - by eapply (Hgo ThCheck); try done; cbn; lia.
  - eapply Hgo; try done; case_bool_decide; cbn; done || lia.
  - by destruct (st_enter _ Hst i).
  - destruct x; [eapply (Hgo ThCheck)|eapply (Hgo (ThIdle SLICES))|eapply (Hgo ThStop)|eapply Hgo];
      try done; try case_bool_decide; cbn; done || lia.
  - eapply (Hgo ThCheck); try done; [cbn; lia|]. unfold idle_wait. rewrite Hs. by destruct slices.
  - by eapply (Hgo ThKick); try done; cbn; lia.
  - eapply Hkick; try done; case_bool_decide; cbn; done || lia.
  - by eapply (Hgo ThMainKick); try done; cbn; lia.
  - by eapply (Hkick ThJoin); try done; cbn; lia.
  - case_match; simplify_eq. by eapply (Hgo ThDone); try done; cbn; lia.
Qed.

(** When no thread outside the guest can act, all have returned. *)
Lemma stopping_progress m :
  stopping m → (∀ i x m', thread_step x i m = Some m' → threads m !! i = Some ThGuest) →
  Forall (λ p, p = ThDone) (threads m).
Proof.
  intros [Hok Hs He Hk] Hstuck.
  assert (∀ i p, threads m !! i = Some p →
    (∃ x m', thread_step x i m = Some m') ∨ p = ThJoin ∨ p = ThDone) as Hact.
  { intros i p Hp. unfold thread_step. rewrite Hp. cbn. destruct p; try (left; by eexists ExitGoOn, _); auto. }
  assert (∀ i, threads m !! i ≠ Some ThGuest) as Hg.
  { destruct Hk as [(i & Hi)|Hg]; [|done]. exfalso.
    destruct Hi as [Hi|Hi]; (destruct (Hact i _ Hi) as [(x & m' & E)|[?|?]]; [|done|done]);
      apply Hstuck in E; congruence. }
  assert (∀ i p, threads m !! i = Some p → i ≠ 0 → p = ThDone) as Hrest.
  { intros i p Hp Hi. destruct (Hact i p Hp) as [(x & m' & E)|[->|?]]; [|..|done].
    - by apply Hstuck, Hg in E.
    - by destruct Hi; eapply (mo_main m Hok i ThJoin). }
  apply Forall_lookup. intros i p Hp. destruct (decide (i = 0)) as [->|]; [|by eapply Hrest].
  destruct (Hact 0 p Hp) as [(x & m' & E)|[->|?]]; [by apply Hstuck, Hg in E| |done]. exfalso.
  assert (joinable m = true) as Hj.
  { unfold joinable. apply Is_true_true, forallb_True, Forall_lookup. intros j q Hq. apply bool_decide_pack. rewrite lookup_drop in Hq. by eapply Hrest. }
  apply (Hg 0). apply (Hstuck 0 ExitGoOn (goto 0 ThDone m)). unfold thread_step. rewrite Hp. cbn. by rewrite Hj.
Qed.

Lemma stopping_run l m m' :
  stopping m → thread_steps l m = Some m' → stopping m' ∧ length l + steps_left m' ≤ steps_left m.
Proof.
  revert m. induction l as [|[x i] l IH]; intros m Hst; [by intros [= <-]|].
  rewrite thread_steps_cons. intros (m1 & H1 & H2)%bind_Some.
  destruct (stopping_step _ _ _ _ Hst H1) as [Hst1 Hlt]. destruct (IH m1 Hst1 H2). cbn. split; [done|lia].
Qed.

(** ** Theorems *)

(** C13: a stop ends the machine. In any state the threads can reach, when the flag is set,
    a kick is about to be sent and no thread is between its check of the flag and its
    entry into the guest, every way the threads go on ends after at most six steps per
    thread, whatever the guests do; and when no thread outside the guest can act any
    more, all of them have returned and the main thread has joined them. *)
Theorem stop_ends_machine n l0 m l m' :
  thread_steps l0 (machine_new n) = Some m →
  m_stop m = true → (∀ i, threads m !! i ≠ Some ThEnter) →
  (∃ i, threads m !! i = Some ThKick ∨ threads m !! i = Some ThMainKick) →
  thread_steps l m = Some m' →
  length l ≤ 6 * length (threads m) ∧
  ((∀ i x m'', thread_step x i m' = Some m'' → threads m' !! i = Some ThGuest) →
   Forall (λ p, p = ThDone) (threads m')).
Proof.
  intros Hreach Hs He Hk Hrun.
  assert (stopping m) as Hst by (split; auto; eapply thread_steps_ok; [apply machine_new_ok|done]).
  destruct (stopping_run _ _ _ Hst Hrun) as [Hst' Hlen]. pose proof (steps_left_bound m).
  split; [lia|]. by apply stopping_progress.
Qed.

(** Two application processors, one in the guest and one sleeping, when the first vCPU
    ends the machine. *)
Definition demo_before : list (ExitKind * nat) :=
  (λ i, (ExitGoOn, i)) <$> [0; 1; 2; 0; 1; 2; 0; 1; 2].
Definition demo_kicking : list (ExitKind * nat) := demo_before ++ [(ExitStop, 0); (ExitIdle, 2); (ExitGoOn, 0)].
Definition demo_after : list (ExitKind * nat) := (λ i, (ExitGoOn, i)) <$> [0; 1; 2; 2; 0; 0; 0].

Lemma stop_ends_machine_witness :
  ∃ m m', thread_steps demo_kicking (machine_new 3) = Some m ∧
    threads m = [ThKick; ThGuest; ThIdle 10] ∧ thread_steps demo_after m = Some m' ∧
    Forall (λ p, p = ThDone) (threads m').
Proof.
  eexists. eexists. split; [vm_compute; reflexivity|]. split; [reflexivity|]. split; [vm_compute; reflexivity|].
  eapply (stop_ends_machine 3 demo_kicking _ demo_after).
  - vm_compute. reflexivity.
  - reflexivity.
  - intros [|[|[|i]]]; discriminate.
  - exists 0. left. reflexivity.
  - vm_compute. reflexivity.
  - intros [|[|[|i]]] x m''; discriminate.
Defined.

(** The condition is needed: the kick of an application processor can be lost. When all
    kicks are sent after the thread has checked the flag and before it enters the guest,
    it enters the guest with the flag set; no other thread has an action left, so only an
    exit of the guest itself, which an idle guest does not make, lets it leave, and the
    main thread waits to join it. *)
Lemma kick_can_be_lost :
  ∃ l m, thread_steps l (machine_new 2) = Some m ∧
    m_stop m = true ∧ threads m = [ThJoin; ThGuest] ∧
    ∀ x i m', thread_step x i m = Some m' → i = 1 ∧ threads m !! i = Some ThGuest.
Proof.
  exists ((λ i, (ExitStop, i)) <$> [0; 1; 0; 1; 0; 0; 0; 0; 0; 0; 1]).
  eexists. split; [vm_compute; reflexivity|]. split_and!; [reflexivity..|].
  intros x [|[|i]] m'; cbn; [done|done|done].
Qed.
