(* ===== verification/Vmm.v ===== *)
(** * The virtual machine

    [Vmm] of [vmm.rs]: creating the VM and its vCPUs, attaching devices, and loading a
    flat binary or a kernel. The loop of a vCPU is in [VcpuRun], [run] in [VmmRun]. *)

From S2P Require Import Prelude Words Errors GuestMem Kvm Memory Boot Gdt Paging Vcpu.
From S2P Require Import VirtQueue VirtioMmio Acpi VirtioBlk VirtioNet VsockMux VirtioVsock VirtioDev VcpuRun.
Local Open Scope Z_scope.

(** ** Constants of KVM *)

Definition KVM_API_VERSION : Z := 12.
Definition KVM_PIT_SPEAKER_DUMMY : Z := 1.
Definition KVM_CAP_X86_DISABLE_EXITS : Z := 143.
Definition KVM_X86_DISABLE_EXITS_MWAIT : Z := 1.
Definition KVM_X86_DISABLE_EXITS_HLT : Z := 2.
Definition KVM_X86_DISABLE_EXITS_PAUSE : Z := 4.
Definition KVM_MP_STATE_UNINITIALIZED : Z := 1.

(** ** What the devices say of themselves *)

Definition blk_acpi : VirtioMmioAcpi := mkAcpi (cast 32 VIRTIO_MMIO_BASE) (cast 32 MMIO_SIZE) VIRTIO_BLK_IRQ 0.
Definition net_acpi : VirtioMmioAcpi := mkAcpi (cast 32 VIRTIO_NET_MMIO_BASE) (cast 32 MMIO_SIZE) VIRTIO_NET_IRQ 1.
Definition vsock_acpi : VirtioMmioAcpi := mkAcpi (cast 32 VIRTIO_VSOCK_MMIO_BASE) (cast 32 MMIO_SIZE) VIRTIO_VSOCK_IRQ 2.
Definition kind_acpi (k : MmioKind) : VirtioMmioAcpi :=
  match k with Block => blk_acpi | Net => net_acpi | Vsock => vsock_acpi end.

(** ** The host *)

(** [W] is KVM and the VM in it, [P] the port bus. [PioBus::new] registers the console. *)
Class VmHost (W V P : Type) := {
  kvm_open : W → result Z unit * W;
  api_version : W → Z;
  create_vm : W → result Z unit * W;
  set_tss_address : Z → W → result Z unit * W;
  create_irq_chip : W → result Z unit * W;
  create_pit2 : Z → W → result Z unit * W;
  create_vcpu : Z → W → result Z V * W;
  supported_cpuid : W → result Z (list kvm_cpuid_entry2);
  pio_bus_new : W → result Error P * W;
  check_extension_raw : Z → W → Z;
  (** [enable_cap] with the capability and its first argument *)
  enable_cap : Z → Z → W → result Z unit * W;
}.

(** A device as [Vmm] keeps it: its kind. *)
Class DeviceKind (Dev : Type) := { dev_kind : Dev → MmioKind }.

#[export] Instance Virtio_device_kind {Q Efd} : DeviceKind (VirtioDevice Q Efd) := { dev_kind := device_kind }.

Record Vmm (V Mem P Dev : Type) := mkVmm {
  guest_mem : Mem; vcpus : list V; vm_pio : P; mmio_devices : list Dev; vm_num_vcpus : Z;
  vm_exit_on_hlt : bool; vm_idle_exits_disabled : bool;
}.
Arguments mkVmm {V Mem P Dev}.
Arguments guest_mem {V Mem P Dev}.
Arguments vcpus {V Mem P Dev}.
Arguments vm_pio {V Mem P Dev}.
Arguments mmio_devices {V Mem P Dev}.
Arguments vm_num_vcpus {V Mem P Dev}.
Arguments vm_exit_on_hlt {V Mem P Dev}.
Arguments vm_idle_exits_disabled {V Mem P Dev}.
#[export] Instance eta_Vmm {V Mem P Dev} : Eta (Vmm V Mem P Dev) := λ v,
  mkVmm (guest_mem v) (vcpus v) (vm_pio v) (mmio_devices v) (vm_num_vcpus v) (vm_exit_on_hlt v) (vm_idle_exits_disabled v).

(** ** Operations *)

Section vmm.
Context {W V Mem P Dev F : Type}.
Context `{VH : !VmHost W V P} `{MH : !MemHost Mem W} `{KV : !KvmVcpu V} `{KM : !KvmMpState V}.
Context `{GM : !GuestMemory Mem} `{KH : !KernelHost F Mem} `{AT : !AcpiTables} `{DK : !DeviceKind Dev}.
Local Abbreviation Vm := (Vmm V Mem P Dev).

(** A call on the VM, its error mapped. *)
Definition kvm_call {A} (f : W → result Z A * W) : prog W (result Error A) :=
  r ← act f; mret (map_err KvmIoctl r).

(** The loop over the ids of the vCPUs. *)
Fixpoint create_vcpus (guest_mem : Mem) (num_vcpus : Z) (n : nat) (id : Z) : prog W (result Error (list V)) :=
  match n with
  | O => mret (Ok [])
  | S n =>
      vcpu ←? kvm_call (create_vcpu id);
      supported ← gets supported_cpuid;
      vcpu ←? zoom (λ _, mkBootSt vcpu guest_mem) (λ _ w, w)
                (_ ←? setup_cpuid supported id num_vcpus; s ← get; mret (Ok (bs_vcpu s)));
      vcpus ←? create_vcpus guest_mem num_vcpus n (id + 1);
      mret (Ok (vcpu :: vcpus))
  end.

Definition vmm_new (config : VmmConfig) : prog W (result Error Vm) :=
  if (num_vcpus config =? 0) || (MAX_VCPUS <? num_vcpus config)
  then mret (Err (InvalidVcpuCount (num_vcpus config) MAX_VCPUS))
  else
    r ← act kvm_open;
    _ ←? mret (map_err KvmOpen r);
    api ← gets api_version;
    if negb (cast 32 api =? KVM_API_VERSION) then mret (Err (KvmApiVersion api KVM_API_VERSION))
    else
      _ ←? kvm_call create_vm;
      _ ←? kvm_call (set_tss_address KVM_TSS_ADDRESS);
      _ ←? kvm_call create_irq_chip;
      _ ←? kvm_call (create_pit2 KVM_PIT_SPEAKER_DUMMY);
      guest_mem ←? create_guest_memory (mem_size config);
      vcpus ←? create_vcpus guest_mem (num_vcpus config) (Z.to_nat (num_vcpus config)) 0;
      pio ←? act pio_bus_new;
      mret (Ok (mkVmm guest_mem vcpus pio [] (num_vcpus config) true false)).

Fixpoint enable_first (attempts : list Z) : prog W bool :=
  match attempts with
  | [] => mret false
  | flags :: attempts =>
      r ← act (enable_cap KVM_CAP_X86_DISABLE_EXITS flags);
      if is_ok r then mret true else enable_first attempts
  end.

Definition idle_attempts : list Z :=
  [Z.lor (Z.lor KVM_X86_DISABLE_EXITS_HLT KVM_X86_DISABLE_EXITS_PAUSE) KVM_X86_DISABLE_EXITS_MWAIT;
   Z.lor KVM_X86_DISABLE_EXITS_HLT KVM_X86_DISABLE_EXITS_PAUSE; KVM_X86_DISABLE_EXITS_HLT].

Definition try_disable_idle_exits : prog W bool :=
  ext ← gets (check_extension_raw KVM_CAP_X86_DISABLE_EXITS);
  if ext <=? 0 then mret false else enable_first idle_attempts.

(** The state from here on: the [Vmm] and the host. *)
Definition on_host {A} (m : prog W A) : prog (Vm * W) A := zoom snd (λ w s, (s.1, w)) m.
Definition on_guest_mem {A} (m : prog Mem A) : prog (Vm * W) A :=
  zoom (λ s, guest_mem s.1) (λ x s, (s.1 <| guest_mem := x |>, s.2)) m.

(** [&self.vcpus[0]] with guest memory; the index panics when there is none. *)
Definition on_vcpu0 {A} (m : prog (BootSt V Mem) A) : prog (Vm * W) A :=
  s ← get;
  match vcpus s.1 with
  | [] => panic
  | v :: vs => zoom (λ s, mkBootSt v (guest_mem s.1)) (λ b s, (s.1 <| vcpus := bs_vcpu b :: vs |> <| guest_mem := bs_mem b |>, s.2)) m
  end.

(** [new] is the constructor of the device, called when there is none of its kind. *)
Definition add_device (kind : MmioKind) (err : Error) (new : prog W (result Error Dev)) : prog (Vm * W) (result Error unit) :=
  s ← get;
  if existsb (λ d, bool_decide (dev_kind d = kind)) (mmio_devices s.1) then mret (Err err)
  else
    dev ←? on_host new;
    modify (λ s, (s.1 <| mmio_devices ::= λ l, l ++ [dev] |>, s.2));;
    mret (Ok tt).

Definition add_block_device := add_device Block (BlockErr (Msg "only one block device is supported")).
Definition add_net_device := add_device Net (NetErr (Msg "only one network device is supported")).
Definition add_vsock_device := add_device Vsock (VsockErr (Msg "only one vsock device is supported")).

Definition load_flat_binary (image : list Z) (load_addr entry : Z) : prog (Vm * W) (result Error unit) :=
  s ← get;
  if negb (vm_num_vcpus s.1 =? 1) then mret (Err FlatBinaryMultiVcpu)
  else if negb (check_range (guest_mem s.1) load_addr (zlen image)) then mret (Err (ImageDoesNotFit load_addr (zlen image)))
  else
    r ← on_guest_mem (act (write_slice load_addr image));
    _ ←? mret (map_err (λ e, MemoryAccess (MsgExt "" e)) r);
    _ ←? on_vcpu0 (setup_real_mode entry);
    modify (λ s, (s.1 <| vm_exit_on_hlt := true |> <| vm_idle_exits_disabled := false |>, s.2));;
    mret (Ok tt).

(** [for ap in self.vcpus.iter().skip(1)]: the descriptors after the calls. *)
Fixpoint park_aps (aps : list V) : result Error unit * list V :=
  match aps with
  | [] => (Ok tt, [])
  | ap :: aps =>
      let '(r, ap) := set_mp_state KVM_MP_STATE_UNINITIALIZED ap in
      match r with
      | Err e => (Err (KvmIoctl e), ap :: aps)
      | Ok _ => let '(r, aps) := park_aps aps in (r, ap :: aps)
      end
  end.

Definition load_kernel (kernel : result io_error F) (initrd : option (result io_error (list Z))) (cmdline : list Z)
    : prog (Vm * W) (result Error unit) :=
  s ← get;
  let virtio := (λ d, kind_acpi (dev_kind d)) <$> mmio_devices s.1 in
  rsdp ←? on_guest_mem (install_tables virtio (vm_num_vcpus s.1));
  entry ←? on_guest_mem (load_linux kernel initrd cmdline rsdp);
  _ ←? match entry with
       | Linux64 rip => on_vcpu0 (setup_long_mode rip)
       | Pvh rip start_info => on_vcpu0 (setup_pvh rip start_info)
       end;
  _ ←? act (λ s, let '(r, aps) := park_aps (drop 1 (vcpus s.1)) in
                 (r, (s.1 <| vcpus := take 1 (vcpus s.1) ++ aps |>, s.2)));
  idle ← on_host try_disable_idle_exits;
  modify (λ s, (s.1 <| vm_idle_exits_disabled := idle |> <| vm_exit_on_hlt := false |>, s.2));;
  mret (Ok tt).

End vmm.

(** ** Creation *)

(** What is relied on: only [set_user_memory_region] changes the memory slots. *)
Class VmHostLaws (W V P Mem : Type) `{!VmHost W V P} `{!MemHost Mem W} `{!MemHostLaws Mem W} : Prop := {
  kvm_open_slots : ∀ w : W, slots (kvm_open w).2 = slots w;
  create_vm_slots : ∀ w : W, slots (create_vm w).2 = slots w;
  set_tss_slots : ∀ a (w : W), slots (set_tss_address a w).2 = slots w;
  irq_chip_slots : ∀ w : W, slots (create_irq_chip w).2 = slots w;
  pit2_slots : ∀ f (w : W), slots (create_pit2 f w).2 = slots w;
  create_vcpu_slots : ∀ id (w : W), slots (create_vcpu id w).2 = slots w;
  pio_bus_slots : ∀ w : W, slots (pio_bus_new w).2 = slots w;
}.

Section creation.
Context {W V Mem P Dev : Type}.
Context `{VH : !VmHost W V P} `{MH : !MemHost Mem W, ML : !MemHostLaws Mem W, VL : !VmHostLaws W V P Mem}.
Context `{KV : !KvmVcpu V, KL : !KvmVcpuLaws V} `{GM : !GuestMemory Mem}.
Implicit Types w : W.

Lemma kvm_call_wp {A} (f : W → result Z A * W) w (Q : result Error A → W → Prop) :
  (∀ w, slots (f w).2 = slots w) →
  (∀ r w', slots w' = slots w → Q r w') → wp Total (kvm_call f) Q w.
Proof.
  intros Hs HQ. unfold kvm_call. wp_step. apply wp_act. intros r w' E. wp_step. apply HQ. by rewrite <-(Hs w), E.
Qed.

Lemma apply_cpu_topology_some id n entries : 1 ≤ n ≤ MAX_VCPUS → is_Some (apply_cpu_topology id n entries).
Proof.
  intros Hn. destruct (next_power_of_two_bounds n Hn) as (p & Hp & _). unfold apply_cpu_topology.
  destruct (Z.ltb_spec n 1); [lia|]. rewrite Hp. cbn. eauto.
Qed.

(** The CPUID of a vCPU is the host's with the topology of its id. *)
Definition vcpu_identified (n id : Z) (v : V) : Prop :=
  ∃ supported, apply_cpu_topology id n supported = Some (v_cpuid v).

Lemma setup_cpuid_wp supported id n (s : BootSt V Mem) :
  1 ≤ n ≤ MAX_VCPUS →
  wp Total (setup_cpuid supported id n) (λ r s', r = Ok tt → vcpu_identified n id (bs_vcpu s')) s.
Proof.
  intros Hn. unfold setup_cpuid. wp_step. destruct supported as [entries|e]; cbn [map_err]; wp_step; [|done].
  destruct (apply_cpu_topology_some id n entries Hn) as [es Es]. wp_step. eapply wp_expect; [exact Es|].
  wp_step; [|by wp_step]. unfold ioctl. wp_step. apply wp_act. intros r s' E. wp_step. intros Hr.
  destruct (set_cpuid2 es (bs_vcpu s)) as [r' v] eqn:Ev. injection E as <- <-. destruct r' as [[]|]; [|done].
  apply set_cpuid2_ok in Ev as [Hc _]. exists entries. by rewrite Es, <-Hc.
Qed.

Lemma create_vcpus_wp (m : Mem) n k id w :
  1 ≤ n ≤ MAX_VCPUS →
  wp Total (create_vcpus m n k id) (λ r w', slots w' = slots w ∧
    ∀ vs, r = Ok vs → length vs = k ∧ ∀ i v, vs !! i = Some v → vcpu_identified n (id + Z.of_nat i) v) w.
Proof.
  intros Hn. revert id w. induction k as [|k IH]; intros id w; cbn [create_vcpus].
  { wp_step. split; [done|]. intros vs [= <-]. done. }
  wp_step. apply kvm_call_wp; [apply create_vcpu_slots|]. intros [v|e] w1 H1; [|done].
  do 2 wp_step. wp_step. wp_step. wp_step. wp_apply setup_cpuid_wp; [done|]. intros [[]|e] s1 Hs1; [|done].
  do 3 wp_step. wp_step. wp_apply IH. intros [vs|e] w2 [H2 Hvs]; [|split; [congruence|done]].
  wp_step. split; [congruence|]. intros ? [= <-]. destruct (Hvs vs eq_refl) as [Hl Hi]. split; [cbn; lia|].
  intros [|i] v' Hv'; cbn in Hv'; [injection Hv' as <-; replace (id + Z.of_nat 0) with id by lia; by apply Hs1|].
  replace (id + Z.of_nat (S i)) with (id + 1 + Z.of_nat i) by lia. by apply Hi.
Qed.

(** A machine as it is created. *)
Record created (config : VmmConfig) w (vm : Vmm V Mem P Dev) w' : Prop := mkCreated {
  cr_vcpus : length (vcpus vm) = Z.to_nat (num_vcpus config) ∧ vm_num_vcpus vm = num_vcpus config;
  cr_cpuid : ∀ i v, vcpus vm !! i = Some v → vcpu_identified (num_vcpus config) (Z.of_nat i) v;
  cr_memory : region_size (guest_mem vm) = mem_size config ∧ mem_size_ok (mem_size config);
  cr_slot : ∃ a, slots w' = slots w ++ [mkRegion 0 GUEST_MEM_START (mem_size config) a 0];
  cr_fresh : mmio_devices vm = [] ∧ vm_exit_on_hlt vm = true ∧ vm_idle_exits_disabled vm = false;
}.

(** How the creation of a machine can end. *)
Definition creation_post (config : VmmConfig) w (r : result Error (Vmm V Mem P Dev)) w' : Prop :=
  match r with
  | Ok vm => 1 ≤ num_vcpus config ≤ MAX_VCPUS ∧ created config w vm w'
  | Err e => (num_vcpus config = 0 ∨ MAX_VCPUS < num_vcpus config → e = InvalidVcpuCount (num_vcpus config) MAX_VCPUS ∧ w' = w) ∧
             (slots w' = slots w ∨ ∃ a, slots w' = slots w ++ [mkRegion 0 GUEST_MEM_START (mem_size config) a 0])
  end.

(** A call of KVM before guest memory is registered. *)
Lemma early_call_wp {A} config (f : W → result Z A * W) w w1 (k : A → prog W (result Error (Vmm V Mem P Dev))) :
  1 ≤ num_vcpus config ≤ MAX_VCPUS → (∀ w, slots (f w).2 = slots w) → slots w1 = slots w →
  (∀ a w2, slots w2 = slots w → wp Total (k a) (creation_post config w) w2) →
  wp Total (try_bind (kvm_call f) k) (creation_post config w) w1.
Proof.
  intros Hn Hf Hw Hk. wp_step. apply kvm_call_wp; [done|]. intros [a|e] w2 H2; [apply Hk; congruence|].
  split; [lia|left; congruence].
Qed.

Lemma vmm_new_wp (config : VmmConfig) w :
  is_u64 (mem_size config) → 0 ≤ num_vcpus config → wp Total (vmm_new config) (creation_post config w) w.
Proof.
  intros Hsize Hnum. unfold vmm_new.
  destruct ((num_vcpus config =? 0) || (MAX_VCPUS <? num_vcpus config)) eqn:Hn; [wp_step; split; [done|by left]|].
  apply orb_false_iff in Hn as [Hn0%Z.eqb_neq Hn1%Z.ltb_ge]. assert (1 ≤ num_vcpus config ≤ MAX_VCPUS) as Hn by lia.
  wp_step. apply wp_act. intros r w1 E1. pose proof (kvm_open_slots w) as S1. rewrite E1 in S1. cbn in S1.
  wp_step. destruct r as [[]|e]; cbn [map_err]; wp_step; [|split; [lia|by left]].
  do 2 wp_step. wp_step; [wp_step; split; [lia|by left]|].
  apply early_call_wp; [done|apply create_vm_slots|done|]. intros [] w2 S2.
  apply early_call_wp; [done|apply set_tss_slots|done|]. intros [] w3 S3.
  apply early_call_wp; [done|apply irq_chip_slots|done|]. intros [] w4 S4.
  apply early_call_wp; [done|apply pit2_slots|done|]. intros [] w5 S5.
  wp_step. wp_apply create_guest_memory_slot; [done|]. intros [m|e] w6 Hm; [|split; [lia|left; congruence]].
  destruct Hm as (Hsz & a & S6 & Hok). rewrite S5 in S6.
  wp_step. wp_apply (create_vcpus_wp m); [done|]. intros [vs|e] w7 [S7 Hvs]; [|split; [lia|right; exists a; congruence]].
  destruct (Hvs vs eq_refl) as [Hl Hid]. wp_step. apply wp_act. intros r w8 E8.
  pose proof (pio_bus_slots w7) as S8. rewrite E8 in S8. cbn in S8.
  destruct r as [pio|e]; [|split; [lia|right; exists a; congruence]].
  wp_step. split; [done|]. split; [done|done|done|exists a; congruence|done].
Qed.

(** C18: creating a machine. The call always returns. It refuses a number of vCPUs outside
    1 to 32 before it touches KVM; when it succeeds the machine has that many vCPUs, each
    with the CPUID topology of its own id, and guest memory of the requested, valid size,
    registered as the one slot at address 0; no memory beyond one slot is registered
    when it fails. *)
Theorem vmm_created (config : VmmConfig) w :
  is_u64 (mem_size config) → 0 ≤ num_vcpus config →
  ∃ r w', vmm_new (Dev := Dev) config w = Ret (r, w') ∧ creation_post config w r w'.
Proof. intros Hsize Hnum. by apply wp_total_inv, vmm_new_wp. Qed.

End creation.

(** ** Attached devices *)

Section devices.
Context {W V Mem P Dev : Type} `{DK : !DeviceKind Dev}.
Implicit Types (s : Vmm V Mem P Dev * W).

(** The calls of [add_block_device], [add_net_device] and [add_vsock_device]. *)
Inductive attach :=
| AttachBlock (new : prog W (result Error Dev))
| AttachNet (new : prog W (result Error Dev))
| AttachVsock (new : prog W (result Error Dev)).

Definition attach_kind (a : attach) : MmioKind :=
  match a with AttachBlock _ => Block | AttachNet _ => Net | AttachVsock _ => Vsock end.
Definition attach_new (a : attach) : prog W (result Error Dev) :=
  match a with AttachBlock new | AttachNet new | AttachVsock new => new end.
Definition run_attach (a : attach) : prog (Vmm V Mem P Dev * W) (result Error unit) :=
  match a with
  | AttachBlock new => add_block_device new
  | AttachNet new => add_net_device new
  | AttachVsock new => add_vsock_device new
  end.

(** The constructor gives a device of the kind that was asked for, with the property
    [Good]. *)
Definition attach_ok (Good : Dev → Prop) (a : attach) : Prop :=
  ∀ w, wp Total (attach_new a) (λ r _, ∀ d, r = Ok d → dev_kind d = attach_kind a ∧ Good d) w.

(** Calls one after the other, whatever they return. *)
Fixpoint attach_all (l : list attach) : prog (Vmm V Mem P Dev * W) (list (result Error unit)) :=
  match l with
  | [] => mret []
  | a :: l => r ← run_attach a; rs ← attach_all l; mret (r :: rs)
  end.

(** A device is added when the call succeeds and nothing changes when it fails. *)
Lemma add_device_wp Good kind err new s :
  (∀ w, wp Total new (λ r _, ∀ d, r = Ok d → dev_kind d = kind ∧ Good d) w) →
  wp Total (add_device kind err new) (λ r s',
    match r with
    | Ok _ => (kind ∉ (dev_kind <$> mmio_devices s.1)) ∧
              (∃ d w', s' = (s.1 <| mmio_devices ::= (λ l, l ++ [d]) |>, w') ∧ dev_kind d = kind ∧ Good d)
    | Err _ => s'.1 = s.1 ∧ (kind ∈ (dev_kind <$> mmio_devices s.1) → s' = s)
    end) s.
Proof.
  intros Hnew. unfold add_device. do 2 wp_step.
  destruct (existsb _ _) eqn:Ex.
  - wp_step. done.
  - assert (kind ∉ (dev_kind <$> mmio_devices s.1)) as Hno.
    { intros (d & -> & Hd)%list_elem_of_fmap. apply not_true_iff_false in Ex. apply Ex. apply existsb_exists.
      exists d. split; [by apply list_elem_of_In|by apply bool_decide_eq_true]. }
    wp_step. unfold on_host. wp_step. wp_apply Hnew. intros [d|e] w' Hd; [|by split].
    wp_step. wp_step. wp_step. split; [done|]. exists d, w'. split; [done|by apply Hd].
Qed.

Lemma run_attach_wp Good a s :
  attach_ok Good a →
  wp Total (run_attach a) (λ r s',
    match r with
    | Ok _ => (attach_kind a ∉ (dev_kind <$> mmio_devices s.1)) ∧
              ∃ d w', s' = (s.1 <| mmio_devices ::= λ l, l ++ [d] |>, w') ∧ dev_kind d = attach_kind a ∧ Good d
    | Err _ => s'.1 = s.1 ∧ (attach_kind a ∈ (dev_kind <$> mmio_devices s.1) → s' = s)
    end) s.
Proof. intros Ha. destruct a; by apply add_device_wp. Qed.

(** The kinds of the calls that succeeded, in order. *)
Definition attached (l : list attach) (rs : list (result Error unit)) : list MmioKind :=
  omap (λ '(a, r), if is_ok r then Some (attach_kind a) else None) (zip l rs).

Lemma attach_all_wp Good (l : list attach) s :
  Forall (attach_ok Good) l → NoDup (dev_kind <$> mmio_devices s.1) → Forall Good (mmio_devices s.1) →
  wp Total (attach_all l) (λ rs s', length rs = length l ∧
    (dev_kind <$> mmio_devices s'.1) = (dev_kind <$> mmio_devices s.1) ++ attached l rs ∧
    NoDup (dev_kind <$> mmio_devices s'.1) ∧ Forall Good (mmio_devices s'.1) ∧
    s'.1 = s.1 <| mmio_devices := mmio_devices s'.1 |>) s.
Proof.
  intros Hl. revert s. induction Hl as [|a l Ha Hl IH]; intros s Hn Hg; cbn [attach_all].
  { wp_step. cbn. rewrite app_nil_r. split_and!; try done. by destruct s as [[]]. }
  wp_step. wp_apply (run_attach_wp Good); [done|]. intros [[]|e] s1.
  - intros (Hno & d & w' & -> & Hd & Hgd). wp_step. set (s1 := (s.1 <| mmio_devices ::= _ |>, w')).
    assert ((dev_kind <$> mmio_devices s1.1) = (dev_kind <$> mmio_devices s.1) ++ [attach_kind a]) as Hs1
      by (cbn; by rewrite fmap_app, <-Hd).
    wp_apply IH; [rewrite Hs1; apply NoDup_app; split_and!; [done|set_solver|apply NoDup_singleton]|cbn; by apply Forall_app_2; [|constructor]|].
    intros rs s2 (H1 & H2 & H3 & H4 & H5). wp_step. split_and!; [cbn; lia| |done|done|done].
    by rewrite H2, Hs1, <-app_assoc.
  - intros [E1 _]. wp_step. wp_apply IH; rewrite E1; [done|done|]. intros rs s2 (H1 & H2 & H3 & H4 & H5). wp_step.
    split_and!; [cbn; lia|done..].
Qed.

(** Whatever devices are asked for and whichever of the requests fail, a machine has
    at most one device of each kind: the devices are those of the requests that succeeded,
    in their order, all with what their constructors promise, and nothing else of the
    machine has changed. In particular the windows of the devices are disjoint, as the
    dispatch of MMIO exits needs. *)
Theorem one_device_per_kind Good (l : list attach) s :
  Forall (attach_ok Good) l → NoDup (dev_kind <$> mmio_devices s.1) → Forall Good (mmio_devices s.1) →
  ∃ rs s', attach_all l s = Ret (rs, s') ∧ length rs = length l ∧
    (dev_kind <$> mmio_devices s'.1) = (dev_kind <$> mmio_devices s.1) ++ attached l rs ∧
    NoDup (dev_kind <$> mmio_devices s'.1) ∧ Forall Good (mmio_devices s'.1) ∧
    s'.1 = s.1 <| mmio_devices := mmio_devices s'.1 |>.
Proof. intros Hl Hn Hg. by apply (wp_total_inv _ _ _ (attach_all_wp Good l s Hl Hn Hg)). Qed.

End devices.

(** ** A recording host *)

Record SHost := mkSHost {
  sh_slots : list kvm_userspace_memory_region; sh_api : Z; sh_cpuid : list kvm_cpuid_entry2;
  (** the largest set of exits that can be disabled; 0 when there is no such capability *)
  sh_exits : Z;
}.
#[export] Instance eta_SHost : Eta SHost := λ h, mkSHost (sh_slots h) (sh_api h) (sh_cpuid h) (sh_exits h).

#[export] Instance Recording_host : VmHost SHost SVcpu unit := {
  kvm_open h := (Ok tt, h);
  api_version := sh_api;
  create_vm h := (Ok tt, h);
  set_tss_address _ h := (Ok tt, h);
  create_irq_chip h := (Ok tt, h);
  create_pit2 _ h := (Ok tt, h);
  create_vcpu _ h := (Ok svcpu_reset, h);
  supported_cpuid h := Ok (sh_cpuid h);
  pio_bus_new h := (Ok tt, h);
  check_extension_raw _ := sh_exits;
  enable_cap _ flags h := (if flags <=? sh_exits h then Ok tt else Err EINVAL, h);
}.

#[export] Instance Recording_mem_host : MemHost ByteMem SHost := {
  from_range _ size h := (Ok (mkByteMem size ∅), h);
  host_address _ _ := Ok 0x7f0000000000;
  set_user_memory_region r h := (Ok tt, h <| sh_slots ::= λ l, l ++ [r] |>);
}.

#[export] Program Instance Recording_mem_host_laws : MemHostLaws ByteMem SHost := {
  slots := sh_slots; region_size := bm_size;
}.
Next Obligation. by intros a n w m w' [= <- <-]. Qed.
Next Obligation. by intros a n w e w' [=]. Qed.
Next Obligation. by intros r w w' [= <-]. Qed.
Next Obligation. by intros r w e w' [=]. Qed.

#[export] Instance Recording_host_laws : VmHostLaws SHost SVcpu unit ByteMem.
Proof. by split. Qed.

#[export] Instance Scripted_device_kind : DeviceKind SDev := { dev_kind := sd_kind }.

Definition demo_host : SHost := mkSHost [] KVM_API_VERSION [mkCpuid 0 0 0 1 0 0 0; mkCpuid 1 0 0 0 0 0 0] 6.

Lemma vmm_created_witness :
  ∃ (vm : Vmm SVcpu ByteMem unit SDev) w', vmm_new (mkVmmConfig 0x200000 2) demo_host = Ret (Ok vm, w') ∧
    created (mkVmmConfig 0x200000 2) demo_host vm w'.
Proof.
  destruct (vmm_created (P := unit) (Dev := SDev) (Mem := ByteMem) (mkVmmConfig 0x200000 2) demo_host)
    as (r & w' & E & H); [by zcompute|by zcompute|].
  assert (ret_of (λ p, is_ok p.1) (vmm_new (P := unit) (Dev := SDev) (Mem := ByteMem) (mkVmmConfig 0x200000 2) demo_host) = Some true)
    as Er by (vm_compute; reflexivity).
  rewrite E in Er. destruct r as [vm|e]; [|discriminate Er]. exists vm, w'. split; [exact E|apply H].
Defined.

Definition demo_vmm : Vmm SVcpu ByteMem unit SDev := mkVmm (mkByteMem 0x200000 ∅) [svcpu_reset; svcpu_reset] tt [] 2 true false.

(** The constructors of scripted devices. *)
Definition new_sdev (k : MmioKind) : prog SHost (result Error SDev) := mret (Ok (mkSDev k false [])).

(** A block device, a second one, and a network device that cannot be opened. *)
Definition demo_attach : list (attach (W := SHost) (Dev := SDev)) :=
  [AttachBlock (new_sdev Block); AttachBlock (new_sdev Block); AttachNet (mret (Err (NetErr (Msg "TUNSETIFF")))); AttachVsock (new_sdev Vsock)].

Lemma one_device_per_kind_witness :
  ∃ rs s', attach_all demo_attach (demo_vmm, demo_host) = Ret (rs, s') ∧
    is_ok <$> rs = [true; false; false; true] ∧ (dev_kind <$> mmio_devices s'.1) = [Block; Vsock].
Proof.
  destruct (one_device_per_kind (λ d, sd_fails d = false) demo_attach (demo_vmm, demo_host)) as (rs & s' & E & Hl & Hk & Hn & _).
  - repeat apply Forall_cons_2; [..|by apply Forall_nil_2]; intros w d [= <-]; done.
  - apply NoDup_nil_2.
  - apply Forall_nil_2.
  - exists rs, s'. split; [exact E|]. vm_compute in E. injection E as <- <-. split; reflexivity.
Defined.
