(* ===== verification/VmmLoad.v ===== *)
(** * Loading a guest

    The theorems on [load_flat_binary] and [load_kernel] of [vmm.rs]: what a guest finds
    in memory and in its vCPUs when it starts. *)

From S2P Require Import Prelude Words Errors GuestMem Kvm Memory Boot Gdt Paging Vcpu.
From S2P Require Import VirtQueue Acpi VcpuRun Vmm.
Local Open Scope Z_scope.

Section loading.
Context {W V Mem P Dev F : Type}.
Context `{VH : !VmHost W V P} `{KV : !KvmVcpu V, KL : !KvmVcpuLaws V} `{KM : !KvmMpState V, KML : !KvmMpStateLaws V}.
Context `{GM : !GuestMemory Mem, GL : !GuestMemoryLaws Mem} `{KH : !KernelHost F Mem, KHL : !KernelHostLaws F Mem}.
Context `{AT : !AcpiTables, AL : !AcpiTablesLaws} `{DK : !DeviceKind Dev}.
Local Abbreviation Vm := (Vmm V Mem P Dev).
Implicit Types (vm : Vm) (w : W) (s : Vm * W).

Lemma on_vcpu0_wp {A} t (m : prog (BootSt V Mem) A) s v vs (Q : A → Vm * W → Prop) :
  vcpus s.1 = v :: vs →
  wp t m (λ a b, Q a (s.1 <| vcpus := bs_vcpu b :: vs |> <| guest_mem := bs_mem b |>, s.2)) (mkBootSt v (guest_mem s.1)) →
  wp t (on_vcpu0 m) Q s.
Proof. intros E H. unfold on_vcpu0. do 2 wp_step. rewrite E. wp_step. exact H. Qed.

(** ** Flat binaries *)

(** Real mode at [entry] with a flat code segment. *)
Record real_mode_at (entry : Z) (v : V) : Prop := mkRealMode {
  rm_rip : r_rip (v_regs v) = entry ∧ r_rflags (v_regs v) = 2;
  rm_cs : seg_base (sr_cs (v_sregs v)) = 0 ∧ seg_selector (sr_cs (v_sregs v)) = 0;
}.

Lemma setup_real_mode_wp entry (b : BootSt V Mem) :
  wp Total (setup_real_mode entry) (λ r b', bs_mem b' = bs_mem b ∧
    match r with Ok _ => real_mode_at entry (bs_vcpu b') | Err e => ∃ errno, e = KvmIoctl errno end) b.
Proof.
  unfold setup_real_mode. wp_step. apply ioctl_get_wp; [|intros e; eauto]. intros sregs _.
  wp_step. apply ioctl_wp; [|intros e v _; eauto]. intros [] v1 E1. apply set_sregs_ok in E1 as (S1 & _).
  wp_step. apply ioctl_get_wp; [|intros e; eauto]. intros regs _.
  apply ioctl_wp; [|intros e v _; eauto]. intros [] v2 E2. apply set_regs_ok in E2 as (R2 & S2 & _). cbn [bs_vcpu bs_mem] in *.
  split; [done|]. split; cbn [bs_vcpu]; rewrite ?R2, ?S2, ?S1; done.
Qed.

(** How the loading of a flat binary can end. *)
Inductive flat_post vm w (image : list Z) (load_addr entry : Z) : result Error unit → Vm * W → Prop :=
| flat_many : vm_num_vcpus vm ≠ 1 → flat_post vm w image load_addr entry (Err FlatBinaryMultiVcpu) (vm, w)
| flat_outside : vm_num_vcpus vm = 1 → check_range (guest_mem vm) load_addr (zlen image) = false →
    flat_post vm w image load_addr entry (Err (ImageDoesNotFit load_addr (zlen image))) (vm, w)
| flat_refused errno vm' : vm_num_vcpus vm = 1 → check_range (guest_mem vm) load_addr (zlen image) = true →
    flat_post vm w image load_addr entry (Err (KvmIoctl errno)) (vm', w)
| flat_loaded v vm' : vm_num_vcpus vm = 1 → check_range (guest_mem vm) load_addr (zlen image) = true →
    (∀ x, byte_at (guest_mem vm') x = overlay load_addr image (byte_at (guest_mem vm)) x) →
    vcpus vm' = [v] → real_mode_at entry v → vm_exit_on_hlt vm' = true → mmio_devices vm' = mmio_devices vm →
    flat_post vm w image load_addr entry (Ok tt) (vm', w).

Lemma flat_post_ok vm w image load_addr entry s :
  flat_post vm w image load_addr entry (Ok tt) s →
  ∃ v vm', s = (vm', w) ∧ (∀ x, byte_at (guest_mem vm') x = overlay load_addr image (byte_at (guest_mem vm)) x) ∧
    vcpus vm' = [v] ∧ real_mode_at entry v ∧ vm_exit_on_hlt vm' = true ∧ mmio_devices vm' = mmio_devices vm.
Proof. intros H. inversion H. subst. eexists _, _. split_and!; done. Qed.

Lemma load_flat_binary_wp vm w image load_addr entry :
  0 ≤ load_addr → vm_num_vcpus vm = zlen (vcpus vm) →
  wp Total (load_flat_binary image load_addr entry) (flat_post vm w image load_addr entry) (vm, w).
Proof.
  intros Ha Hn. unfold load_flat_binary. do 2 wp_step. cbn [fst].
  destruct (Z.eqb_spec (vm_num_vcpus vm) 1) as [E1|E1]; cbn [negb]; [|wp_step; by apply flat_many].
  destruct (check_range (guest_mem vm) load_addr (zlen image)) eqn:Er; cbn [negb]; [|wp_step; by apply flat_outside].
  pose proof (check_range_spec _ _ _ Ha (zlen_nonneg image) Er) as Hfit.
  destruct (write_slice_in_range (guest_mem vm) load_addr image Ha Hfit) as (m1 & Ew & Hb).
  wp_step. unfold on_guest_mem. wp_step. apply wp_act. intros r m. cbn [fst]. rewrite Ew. intros [= <- <-].
  wp_step. cbn [map_err]. wp_step. wp_step. destruct (vcpus vm) as [|v [|v' vs]] eqn:Ev; unfold zlen in Hn; cbn in Hn; [lia| |lia].
  eapply on_vcpu0_wp; [exact Ev|]. wp_apply setup_real_mode_wp. cbn [fst snd bs_mem]. intros [[]|e] b [Hbm Hr].
  - do 2 wp_step. wp_step. eapply (flat_loaded _ _ _ _ _ (bs_vcpu b)); try done. intros x. cbn. rewrite Hbm. apply Hb.
  - destruct Hr as [errno ->]. by apply flat_refused.
Qed.

(** C36: loading a flat binary. It is refused, with nothing changed, when the machine has
    more than one vCPU or the image is not within guest memory; otherwise, unless KVM
    refuses a call, the image is in memory at its address, no other byte has changed, the
    vCPU is at the entry point with a flat code segment and a halt ends the machine. *)
Theorem flat_binary_loaded vm w image load_addr entry :
  0 ≤ load_addr → vm_num_vcpus vm = zlen (vcpus vm) →
  ∃ r s', load_flat_binary image load_addr entry (vm, w) = Ret (r, s') ∧ flat_post vm w image load_addr entry r s'.
Proof. intros Ha Hn. by apply wp_total_inv, load_flat_binary_wp. Qed.

(** ** Kernels *)

Lemma park_aps_ok aps aps' :
  park_aps aps = (Ok tt, aps') →
  length aps' = length aps ∧ Forall (λ v, mp_state v = Some KVM_MP_STATE_UNINITIALIZED) aps'.
Proof.
  revert aps'. induction aps as [|ap aps IH]; intros aps'; cbn; [by intros [= <-]|].
  destruct (set_mp_state _ ap) as [[[]|e] ap'] eqn:E; [|done]. destruct (park_aps aps) as [r l] eqn:Ea.
  intros [= -> <-]. destruct (IH l eq_refl) as [Hl Hf]. split; [cbn; lia|]. constructor; [|done]. by eapply set_mp_state_ok.
Qed.

(** What the vCPU that boots is set to. *)
Definition entered (m : Mem) (entry : KernelEntry) (b : BootSt V Mem) : Prop :=
  match entry with
  | Linux64 rip => long_mode_ready m rip b
  | Pvh rip start_info => pvh_ready m rip start_info b
  end.

Definition setup_entry (entry : KernelEntry) : prog (BootSt V Mem) (result Error unit) :=
  match entry with Linux64 rip => setup_long_mode rip | Pvh rip start_info => setup_pvh rip start_info end.

Lemma setup_entry_wp entry (b : BootSt V Mem) :
  ram_ok (bs_mem b) →
  wp Total (setup_entry entry) (λ r b', r = Ok tt → entered (bs_mem b) entry b') b.
Proof.
  intros Hram. destruct b as [v m]. cbn [bs_mem] in *. destruct entry as [rip|rip si]; cbn [setup_entry entered].
  - destruct (long_mode_boot_state v m rip Hram) as (r & b' & E & H). eapply wp_unfold; [exact E|].
    intros ->. destruct H as [[_ H]|[H|[e H]]]; [exact H|discriminate H..].
  - destruct (pvh_boot_state v m rip si) as (r & b' & E & H).
    { unfold ram_ok, CMDLINE_START, MAX_GUEST_MEM_SIZE, GUEST_RAM_END, GUEST_MEM_START, BOOT_IDT_OFFSET in *. lia. }
    eapply wp_unfold; [exact E|]. intros ->. destruct H as [[_ H]|[H|[e H]]]; [exact H|discriminate H..].
Qed.

(** The set-up writes only below the command line and not in the parameters. *)
Lemma entered_frame m entry b x :
  ram_ok m → entered m entry b → PVH_INFO_START ≤ x → ¬ (PML4_START ≤ x < 0xf000) → byte_at (bs_mem b) x = byte_at m x.
Proof.
  intros Hram He Hx Hn. pose proof (ram_ok_tables m Hram) as Ht.
  destruct entry as [rip|rip si]; [apply (lm_memory _ _ _ He)|apply (pv_memory _ _ _ _ He)];
    unfold boot_scratch, PML4_START, PDPT_START, PVH_INFO_START, BOOT_GDT_OFFSET, BOOT_IDT_OFFSET in *; lia.
Qed.

(** A machine that is ready to run a kernel. *)
Record booted vm0 (k : KernelLoaderResult) (initrd : option (result io_error (list Z))) (cmdline : list Z)
    (rsdp : Z) (rd : option (Z * Z)) (entry : KernelEntry) vm : Prop := mkBooted {
  bt_acpi : acpi_present ((λ d, kind_acpi (dev_kind d)) <$> mmio_devices vm0) (vm_num_vcpus vm0) rsdp (guest_mem vm);
  bt_data : boot_data k initrd cmdline rsdp rd (guest_mem vm0) entry (guest_mem vm);
  bt_bsp : ∃ v m, head (vcpus vm) = Some v ∧ last_addr m = last_addr (guest_mem vm0) ∧ entered m entry (mkBootSt v (guest_mem vm));
  bt_aps : Forall (λ v, mp_state v = Some KVM_MP_STATE_UNINITIALIZED) (tail (vcpus vm));
  bt_vcpus : length (vcpus vm) = length (vcpus vm0);
  bt_halt : vm_exit_on_hlt vm = false;
  bt_devices : mmio_devices vm = mmio_devices vm0;
}.

(** The image of a kernel linked above 1 MiB: it ends above, and loading it leaves the
    memory below alone. *)
Definition image_above (f : F) : Prop :=
  ∀ (m m1 : Mem) k, load_image f m = Ret (Ok k, m1) →
    HIMEM_START ≤ kernel_end k ∧ ∀ x, x < HIMEM_START → byte_at m1 x = byte_at m x.

Lemma boot_data_last k initrd cmdline rsdp rd entry (m m' m1 : Mem) :
  last_addr m = last_addr m' → boot_data k initrd cmdline rsdp rd m entry m1 → boot_data k initrd cmdline rsdp rd m' entry m1.
Proof.
  intros Hl [Hc Hrd He]. split; [done|unfold initrd_at in *; by rewrite <-Hl|].
  destruct (pvh_entry k) as [e|].
  - destruct He as (-> & si & Hsi & [? Hm ? ? ?]). split; [done|]. exists si. split; [done|].
    split; try done. unfold ram_map in *. by rewrite <-Hl.
  - destruct He as (rip & p & ? & ? & ? & [Hm ? ? ?]). exists rip, p. split_and!; try done. split; try done.
    unfold ram_map in *. by rewrite <-Hl.
Qed.

Lemma on_host_wp {A} t (m : prog W A) s (Q : A → Vm * W → Prop) :
  (∀ w, wp t m (λ _ _, True) w) → (∀ a w, Q a (s.1, w)) → wp t (on_host m) Q s.
Proof. intros Hm HQ. unfold on_host. wp_step. wp_apply Hm. intros a w _. apply HQ. Qed.

Lemma try_disable_idle_exits_wp w : wp Total try_disable_idle_exits (λ _ _, True) w.
Proof.
  unfold try_disable_idle_exits. do 2 wp_step. wp_step; [by wp_step|]. generalize idle_attempts. intros l. clear Hif.
  revert w. induction l as [|f l IH]; intros w; cbn [enable_first]; [by wp_step|].
  wp_step. apply wp_act. intros r w' _. wp_step; [by wp_step|apply IH].
Qed.

(** The end of [load_kernel], from the memory with all boot data. *)
Lemma enter_kernel_wp entry m s v vs (Q : result Error unit → Vm * W → Prop) :
  guest_mem s.1 = m → vcpus s.1 = v :: vs → ram_ok m →
  (∀ r s', (r = Ok tt → ∃ v' m', entered m entry (mkBootSt v' m') ∧ s' = (s.1 <| vcpus := v' :: vs |> <| guest_mem := m' |>, s.2)) → Q r s') →
  wp Total (match entry with
            | Linux64 rip => on_vcpu0 (setup_long_mode rip)
            | Pvh rip start_info => on_vcpu0 (setup_pvh rip start_info)
            end) Q s.
Proof.
  intros <- Ev Hram HQ. replace (match entry with Linux64 _ => _ | Pvh _ _ => _ end) with (on_vcpu0 (P := P) (Dev := Dev) (W := W) (setup_entry entry))
    by (by destruct entry).
  eapply on_vcpu0_wp; [exact Ev|]. wp_apply setup_entry_wp; [exact Hram|]. intros r b H. apply HQ. intros Hr.
  exists (bs_vcpu b), (bs_mem b). split; [|done]. cbn [bs_mem] in H. destruct b. by apply H.
Qed.

(** What a kernel that was loaded leaves, wherever its image is. *)
Definition kernel_loaded vm (kernel : result io_error F) initrd cmdline vm' : Prop :=
  length (vcpus vm') = length (vcpus vm) ∧ mmio_devices vm' = mmio_devices vm ∧ vm_exit_on_hlt vm' = false ∧
  ∃ f, kernel = Ok f ∧ (image_above f → ∃ k rsdp rd entry, booted vm k initrd cmdline rsdp rd entry vm').

Lemma load_kernel_wp vm w kernel initrd cmdline :
  HIMEM_START ≤ last_addr (guest_mem vm) < MAX_GUEST_MEM_SIZE →
  vcpus vm ≠ [] → 0 < vm_num_vcpus vm < 256 →
  zlen (dsdt_aml ((λ d, kind_acpi (dev_kind d)) <$> mmio_devices vm)) ≤ 0x10000 →
  wp Total (load_kernel kernel initrd cmdline)
    (λ r s', r = Ok tt → kernel_loaded vm kernel initrd cmdline s'.1) (vm, w).
Proof.
  intros Hm Hv Hn Haml. unfold load_kernel.
  do 2 wp_step. cbn [fst]. set (devs := (λ d, kind_acpi (dev_kind d)) <$> mmio_devices vm) in *.
  unfold MAX_GUEST_MEM_SIZE, GUEST_RAM_END, GUEST_MEM_START in Hm.
  wp_step. unfold on_guest_mem at 1. wp_step. cbn [fst].
  wp_apply (install_tables_wp devs (vm_num_vcpus vm) (guest_mem vm)); [done|apply Hm|done|].
  intros r m1 (rsdp & -> & Hacpi). destruct (acpi_installed_frame _ _ _ _ _ Hacpi) as [L1 F1].
  wp_step. unfold on_guest_mem. wp_step. cbn [fst]. cbn [guest_mem].
  destruct (load_linux_hands_over kernel initrd cmdline rsdp m1) as (r & m2 & E2 & H2); [rewrite L1; lia|].
  eapply wp_unfold; [exact E2|]. destruct r as [entry|e]; [|done].
  destruct (H2 entry eq_refl) as (f & k & mi & rd & Ef & Ei & L2 & Ho).
  destruct (vcpus vm) as [|v vs] eqn:Ev; [done|].
  assert (ram_ok m2) as Hram.
  { unfold ram_ok, CMDLINE_START, HIMEM_START, MAX_GUEST_MEM_SIZE, GUEST_RAM_END, GUEST_MEM_START in *. rewrite L2, L1. lia. }
  wp_step. apply (enter_kernel_wp entry m2 _ v vs); [done|done|done|]. intros [[]|e] s3 H3; [|done].
  destruct (H3 eq_refl) as (v' & m3 & Hent & ->). clear H3.
  wp_step. apply wp_act. intros r s4 E4. cbn in E4. rewrite drop_0 in E4. destruct (park_aps vs) as [r' aps] eqn:Ea. injection E4 as <- <-.
  destruct r' as [[]|e]; [|done]. wp_step. apply on_host_wp; [apply try_disable_idle_exits_wp|]. intros idle w'.
  do 3 wp_step. intros _. destruct (park_aps_ok _ _ Ea) as [Hl Ha].
  split_and!; [rewrite Ev; cbn; lia|done|done|]. exists f. split; [done|]. intros Himg. exists k, rsdp, rd, entry.
  destruct (Himg _ _ _ Ei) as [Hend Hlow]. destruct (Ho Hend) as [Hd2 _ F2].
  assert (∀ x, PVH_INFO_START ≤ x → ¬ (PML4_START ≤ x < 0xf000) → byte_at m3 x = byte_at m2 x) as F3
    by (intros x; apply (entered_frame m2 entry (mkBootSt v' m3) x Hram Hent)).
  split; cbn.
  - eapply acpi_installed_present; [exact Hacpi|]. unfold load_scratch, ACPI_TABLES_BASE, HIMEM_START, PVH_INFO_START,
      ZERO_PAGE_START, CMDLINE_START, PML4_START in *. intros x Hx.
    rewrite F3, F2, Hlow by (unfold HIMEM_START; lia). done.
  - eapply boot_data_last; [exact L1|]. eapply boot_data_ext; [|exact Hd2]. unfold load_scratch, HIMEM_START, PVH_INFO_START,
      ZERO_PAGE_START, CMDLINE_START, PML4_START in *. intros x Hx. apply F3; lia.
  - exists v', m2. split_and!; [done|congruence|done].
  - done.
  - rewrite Ev. cbn. lia.
  - done.
  - done.
Qed.

(** C5: booting a kernel. With enough memory for the boot data and a kernel image linked
    above 1 MiB, which the loader does not check of an ELF file, [load_kernel] always returns; when it succeeds, everything it wrote is in
    memory at once, none of it overwritten by a later step: the ACPI tables that describe
    the devices and vCPUs of the machine, the command line, the initrd and the boot
    parameters that lead to them. The first vCPU is set up for the protocol of the kernel
    at its entry point, the others wait for it, and a halt no longer ends the machine. *)
Theorem kernel_booted vm w kernel initrd cmdline :
  HIMEM_START ≤ last_addr (guest_mem vm) < MAX_GUEST_MEM_SIZE →
  vcpus vm ≠ [] → 0 < vm_num_vcpus vm < 256 → (∀ f, kernel = Ok f → image_above f) →
  zlen (dsdt_aml ((λ d, kind_acpi (dev_kind d)) <$> mmio_devices vm)) ≤ 0x10000 →
  ∃ r s', load_kernel kernel initrd cmdline (vm, w) = Ret (r, s') ∧
    (r = Ok tt → ∃ k rsdp rd entry, booted vm k initrd cmdline rsdp rd entry s'.1).
Proof.
  intros Hm Hv Hn Himg Haml. destruct (wp_total_inv _ _ _ (load_kernel_wp vm w kernel initrd cmdline Hm Hv Hn Haml)) as (r & s' & E & H).
  exists r, s'. split; [done|]. intros Hr. destruct (H Hr) as (_ & _ & _ & f & Hf & Hb). by apply Hb, Himg.
Qed.

End loading.

(** ** Witnesses *)

Lemma flat_binary_loaded_witness :
  ∃ v vm', load_flat_binary [0xf4] 0x1000 0x1000 (demo_vmm <| vcpus := [svcpu_reset] |> <| vm_num_vcpus := 1 |>, demo_host)
           = Ret (Ok tt, (vm', demo_host))
    ∧ byte_at (guest_mem vm') 0x1000 = 0xf4 ∧ vcpus vm' = [v] ∧ real_mode_at 0x1000 v.
Proof.
  destruct (flat_binary_loaded (demo_vmm <| vcpus := [svcpu_reset] |> <| vm_num_vcpus := 1 |>) demo_host [0xf4] 0x1000 0x1000)
    as (r & s' & E & H); [by zcompute|reflexivity|].
  assert (r = Ok tt) as -> by (apply (f_equal (ret_of fst)) in E; vm_compute in E; congruence).
  apply flat_post_ok in H as (v & vm' & -> & Hb & Hv & Hm & _). exists v, vm'.
  split_and!; [exact E|by rewrite Hb|exact Hv|exact Hm].
Defined.

Lemma demo_bzimage_above : image_above (Mem := ByteMem) demo_bzimage.
Proof.
  intros m m1 k E. unfold load_image, mbind, prog_bind, act in E. cbn [elf_load ByteMem_host demo_bzimage kf_elf kf_load] in E.
  injection E as <- <-. split; [by zcompute|]. intros x Hx.
  change (byte_at (write_slice HIMEM_START [0x90; 0xf4] m).2 x = byte_at m x).
  destruct (write_slice HIMEM_START [0x90; 0xf4] m) as [[[]|e] m'] eqn:Ew.
  - apply bm_write_ok in Ew as [_ Hb]. rewrite Hb. apply overlay_out. by left.
  - unfold write_slice, ByteMem_memory in Ew. destruct (_ && _); [discriminate Ew|]. by injection Ew as _ <-.
Qed.

Lemma kernel_booted_witness :
  ∃ s' k rsdp rd entry, load_kernel (Ok demo_bzimage) (Some (Ok [1; 2; 3])) [0x61] (demo_vmm, demo_host) = Ret (Ok tt, s')
    ∧ booted demo_vmm k (Some (Ok [1; 2; 3])) [0x61] rsdp rd entry s'.1.
Proof.
  destruct (kernel_booted demo_vmm demo_host (Ok demo_bzimage) (Some (Ok [1; 2; 3])) [0x61]) as (r & s' & E & H);
    [by zcompute|done|by zcompute|intros f [= <-]; exact demo_bzimage_above|by zcompute|].
  assert (r = Ok tt) as -> by (apply (f_equal (ret_of fst)) in E; vm_compute in E; congruence).
  exists s'. destruct (H eq_refl) as (k & rsdp & rd & entry & Hb). exists k, rsdp, rd, entry. split; [exact E|exact Hb].
Defined.
