(* ===== verification/VmmRun.v ===== *)
(** * Running the machine

    [Vmm::run] of [vmm.rs], the handle of the standard input worker of [serial.rs] and the
    start and stop of the workers of the devices: the signal handler is installed, the
    workers and the threads of the vCPUs are started, the first vCPU runs in the calling
    thread, and everything is stopped and joined. The host gives threads; waiting for one
    may take for ever. What a vCPU does in its loop is in [VcpuRun], what the workers do is
    in the files of the devices and in [Serial], and what becomes of calls of start and
    stop from several threads is in [VirtioDev]. *)

From S2P Require Import Prelude Words Errors VcpuRun Vmm VirtioDev.
Local Open Scope Z_scope.

(** The handler of [SIGUSR2]: the no-op of [noop_vcpu_kick], or another one. *)
Inductive SigHandler := NoopKick | OtherHandler (h : Z).

(** The descriptors [StdinWorker::start] makes. *)
Inductive StdinFd := StopFd | StopFdClone | SpaceFdClone.

(** What a thread runs: the loop of the standard input worker, of the worker of a device,
    or of a vCPU. *)
Inductive Body := StdinBody | DeviceBody (i : nat) | VcpuBody (c : VcpuRunCtx).

(** How a joined thread ended. *)
Inductive JoinEnd := Joined (r : result Error unit) | JoinPanicked.

(** [W] is the host; a thread is known by its handle. *)
Class RunHost (W : Type) := {
  (** [sigaction] of [VCPU_KICK_SIGNUM], which returns the previous handler *)
  sigaction : SigHandler → W → result string SigHandler * W;
  (** the descriptors of the standard input worker, and [try_clone] of the one of a device *)
  stdin_fd : StdinFd → W → result string unit * W;
  clone_kick : nat → W → result string unit * W;
  thread_spawn : Body → W → result string nat * W;
  (** [join]; [told]: the thread has been told to stop; [None]: the thread never ends *)
  thread_join : nat → bool → W → option (JoinEnd * W);
  (** [run_vcpu_loop] in the calling thread; [None]: it never returns *)
  run_here : VcpuRunCtx → W → option (result Error unit * W);
}.

(** The host and what the threads of a run share with it: the stop descriptor of the
    standard input worker, the stop flag and the kick of the vCPUs, and of each device the
    worker slot, the stop flag, the notification descriptor and the disk. *)
Record RunSt (W : Type) := mkRunSt {
  rt_host : W;
  rt_stdin_stop : bool;
  rt_stop : bool;
  rt_kicked : bool;
  rt_devs : list (DevShared unit);
}.
Arguments mkRunSt {W}.
Arguments rt_host {W}.
Arguments rt_stdin_stop {W}.
Arguments rt_stop {W}.
Arguments rt_kicked {W}.
Arguments rt_devs {W}.
#[export] Instance eta_RunSt {W} : Eta (RunSt W) := λ s,
  mkRunSt (rt_host s) (rt_stdin_stop s) (rt_stop s) (rt_kicked s) (rt_devs s).

(** ** Operations *)

Section run.
Context {W : Type} `{RH : !RunHost W}.
Local Abbreviation M := (prog (RunSt W)).

Definition host_call {A} (f : W → A * W) : M A := zoom rt_host (λ w s, s <| rt_host := w |>) (act f).

Definition join_thread (h : nat) (told : RunSt W → bool) : M JoinEnd := λ s,
  match thread_join h (told s) (rt_host s) with
  | Some (e, w) => Ret (e, s <| rt_host := w |>)
  | None => Prelude.Running
  end.

(** [VcpuKickHandlerGuard::install], which keeps the previous handler, and its [drop]. *)
Definition install_handler : M (result Error SigHandler) :=
  r ← host_call (sigaction NoopKick);
  mret (map_err (λ e, SerialErr (MsgExt "sigaction SIGUSR2: " e)) r).
Definition restore_handler (prev : SigHandler) : M unit := _ ← host_call (sigaction prev); mret tt.

(** *** The standard input worker *)

(** [f().map_err(|e| Error::Serial(e.to_string()))] *)
Definition serial_call {A} (f : W → result string A * W) : M (result Error A) :=
  r ← host_call f; mret (map_err (λ e, SerialErr (MsgExt "" e)) r).

(** [StdinWorker::start], with the handle of its thread. *)
Definition stdin_start : M (result Error nat) :=
  _ ←? serial_call (stdin_fd StopFd);
  _ ←? serial_call (stdin_fd StopFdClone);
  _ ←? serial_call (stdin_fd SpaceFdClone);
  serial_call (thread_spawn StdinBody).

(** [StdinWorker::stop]. *)
Definition stdin_stop (h : nat) : M (result Error unit) :=
  modify (λ s, s <| rt_stdin_stop := true |>);;
  e ← join_thread h rt_stdin_stop;
  mret match e with
       | Joined r => r
       | JoinPanicked => Err (SerialErr (Msg "serial stdin worker panicked"))
       end.

(** [drop] of the worker. *)
Definition stdin_drop (h : nat) : M unit :=
  modify (λ s, s <| rt_stdin_stop := true |>);; _ ← join_thread h rt_stdin_stop; mret tt.

(** *** The workers of the devices *)

(** An action on what is shared with the device [i]. *)
Definition with_dev {A} (i : nat) (f : DevShared unit → A * DevShared unit) : M A := λ s,
  match rt_devs s !! i with
  | Some d => let '(a, d') := f d in Ret (a, s <| rt_devs ::= <[i := d']> |>)
  | None => Panic
  end.
Definition upd_dev (i : nat) (f : DevShared unit → DevShared unit) : M unit := with_dev i (λ d, (tt, f d)).

Definition kind_errors (k : MmioKind) : WorkerErrors :=
  match k with Block => blk_errors | Net => net_errors | Vsock => vsock_errors end.
(** Only the worker of the block device takes something along. *)
Definition kind_disk (k : MmioKind) : bool := bool_decide (k = Block).

(** [start_worker] fails: the disk goes back and the reservation is dropped. *)
Definition start_failed (k : MmioKind) (i : nat) (d : option unit) (e : string) : M (result Error unit) :=
  upd_dev i (λ x, drop_reservation (if kind_disk k then x <| disk_slot := d |> else x));;
  mret (Err (we_error (kind_errors k) (MsgExt "" e))).

(** The last part of [start_worker], with the disk in hand. *)
Definition start_thread (k : MmioKind) (i : nat) (d : option unit) : M (result Error unit) :=
  r ← host_call (clone_kick i);
  match r with
  | Err e => start_failed k i d e
  | Ok _ =>
      upd_dev i clear_stop;;
      r ← host_call (thread_spawn (DeviceBody i));
      match r with
      | Err e => start_failed k i d e
      | Ok h => upd_dev i (commit h);; mret (Ok tt)
      end
  end.

(** [start_worker] of a device of kind [k]. *)
Definition start_worker (k : MmioKind) (i : nat) : M (result Error unit) :=
  reserved ← with_dev i reserve;
  if negb reserved then mret (Ok tt)
  else if kind_disk k then
    d ← with_dev i (λ x, (disk_slot x, x <| disk_slot := None |>));
    match d with
    | None => upd_dev i drop_reservation;; mret (Err (BlockErr (Msg "block disk already in use")))
    | Some _ => start_thread k i d
    end
  else start_thread k i None.

(** [take_worker]; it spins while a start is under way. *)
Definition take_worker (i : nat) : M (option nat) :=
  r ← with_dev i take_worker_step;
  match r with Some o => mret o | None => running end.

(** The worker of the device [i] has been told to stop. *)
Definition dev_told (i : nat) (s : RunSt W) : bool :=
  match rt_devs s !! i with Some d => stop d && (0 <? kick d) | None => false end.

(** [stop_worker]. *)
Definition stop_worker (k : MmioKind) (i : nat) : M (result Error unit) :=
  upd_dev i request_stop;;
  o ← take_worker i;
  match o with
  | None => mret (Ok tt)
  | Some h =>
      e ← join_thread h (dev_told i);
      match e with
      | Joined r => (if kind_disk k then upd_dev i (λ x, x <| disk_slot := Some tt |>) else mret tt);; mret r
      | JoinPanicked => mret (Err (we_error (kind_errors k) (Msg (we_panicked (kind_errors k)))))
      end
  end.

(** *** The machine *)

(** Stop the devices of [ks], from the index [i], and ignore the results. *)
Fixpoint stop_quietly (ks : list MmioKind) (i : nat) : M unit :=
  match ks with
  | [] => mret tt
  | k :: ks => _ ← stop_worker k i; stop_quietly ks (S i)
  end.

(** Start the devices [ks] after the [started] ones; on an error those are stopped. *)
Fixpoint start_devices (started ks : list MmioKind) : M (result Error unit) :=
  match ks with
  | [] => mret (Ok tt)
  | k :: ks =>
      r ← start_worker k (length started);
      match r with
      | Err e => stop_quietly started 0;; mret (Err e)
      | Ok _ => start_devices (started ++ [k]) ks
      end
  end.

(** The threads of the application processors, from the id [i]; on an error the handles
    so far are dropped, which detaches their threads. *)
Fixpoint spawn_aps (n : nat) (i : Z) (idle : bool) : M (result Error (list nat)) :=
  match n with
  | O => mret (Ok [])
  | S n =>
      r ← host_call (thread_spawn (VcpuBody (mkCtx (cast 8 i) false idle)));
      match r with
      | Err e => mret (Err (VcpuThread (MsgExt "" e)))
      | Ok h => hs ←? spawn_aps n (i + 1) idle; mret (Ok (h :: hs))
      end
  end.

(** The first vCPU in the calling thread. *)
Definition run_bsp (c : VcpuRunCtx) : M (result Error unit) := λ s,
  match run_here c (rt_host s) with
  | Some (r, w) => Ret (r, s <| rt_host := w |>)
  | None => Prelude.Running
  end.

(** [stop.store(true)] and [kick_all]. *)
Definition stop_vcpus : M unit := modify (λ s, s <| rt_stop := true |>);; modify (λ s, s <| rt_kicked := true |>).
Definition vcpus_told (s : RunSt W) : bool := rt_stop s && rt_kicked s.

(** [if first_err.is_none() { first_err = Some(e) }] *)
Definition note (first_err : option Error) (r : result Error unit) : option Error :=
  match first_err with
  | Some e => Some e
  | None => match r with Err e => Some e | Ok _ => None end
  end.

Definition join_result (e : JoinEnd) : result Error unit :=
  match e with Joined r => r | JoinPanicked => Err (VcpuThread (Msg "vCPU thread panicked")) end.

Fixpoint join_all (first_err : option Error) (hs : list nat) : M (option Error) :=
  match hs with
  | [] => mret first_err
  | h :: hs => e ← join_thread h vcpus_told; join_all (note first_err (join_result e)) hs
  end.

Fixpoint stop_devices (first_err : option Error) (ks : list MmioKind) (i : nat) : M (option Error) :=
  match ks with
  | [] => mret first_err
  | k :: ks => r ← stop_worker k i; stop_devices (note first_err r) ks (S i)
  end.

(** From the spawning of the threads to the return; [stdin] is the handle of the standard
    input worker. *)
Definition run_machine (stdin : nat) (ks : list MmioKind) (naps : nat) (exit_on_hlt idle : bool) : M (result Error unit) :=
  hs ← spawn_aps naps 1 idle;
  match hs with
  | Err e => stdin_drop stdin;; mret (Err e)
  | Ok hs =>
      bsp ← run_bsp (mkCtx 0 exit_on_hlt idle);
      stop_vcpus;;
      first_err ← join_all (note None bsp) hs;
      r ← stdin_stop stdin;
      let first_err := note first_err r in
      first_err ← stop_devices first_err ks 0;
      mret match first_err with Some e => Err e | None => Ok tt end
  end.

Context {V Mem P Dev : Type} `{DK : !DeviceKind Dev}.
Local Abbreviation Vm := (Vmm V Mem P Dev).

Definition on_run {A} (m : M A) : prog (Vm * RunSt W) A := zoom snd (λ x s, (s.1, x)) m.

(** The guard of the signal handler is dropped on every return; [mem::take] leaves the
    machine without vCPUs, and [remove(0)] panics when it had none. *)
Definition run_body : prog (Vm * RunSt W) (result Error unit) :=
  prev ←? on_run install_handler;
  r ← (stdin ←? on_run stdin_start;
       s ← get;
       let ks := dev_kind <$> mmio_devices s.1 in
       r ← on_run (start_devices [] ks);
       match r with
       | Err e => on_run (stdin_drop stdin);; mret (Err e)
       | Ok _ =>
           modify (λ s, (s.1 <| vcpus := [] |>, s.2));;
           match vcpus s.1 with
           | [] => panic
           | _ :: aps => on_run (run_machine stdin ks (length aps) (vm_exit_on_hlt s.1) (vm_idle_exits_disabled s.1))
           end
       end);
  on_run (restore_handler prev);;
  mret r.

(** A run starts with its flags cleared and the devices as their constructors left them. *)
Definition run_start (vm : Vm) (w : W) : RunSt W :=
  mkRunSt w false false false ((λ d, shared (dev_new (if kind_disk (dev_kind d) then Some tt else None))) <$> mmio_devices vm).

Definition vmm_run : prog (Vm * W) (result Error unit) :=
  zoom (λ s, (s.1, run_start s.1 s.2)) (λ x _, (x.1, rt_host x.2)) run_body.

End run.

(** ** The error that is reported *)

(** The first error of a list of results. *)
Fixpoint first_error (rs : list (result Error unit)) : result Error unit :=
  match rs with
  | [] => Ok tt
  | Ok _ :: rs => first_error rs
  | Err e :: _ => Err e
  end.

Section reference.
Context {W : Type} `{RH : !RunHost W}.
Implicit Types s : RunSt W.

Fixpoint join_results (hs : list nat) : prog (RunSt W) (list (result Error unit)) :=
  match hs with
  | [] => mret []
  | h :: hs => e ← join_thread h vcpus_told; rs ← join_results hs; mret (join_result e :: rs)
  end.

Fixpoint stop_results (ks : list MmioKind) (i : nat) : prog (RunSt W) (list (result Error unit)) :=
  match ks with
  | [] => mret []
  | k :: ks => r ← stop_worker k i; rs ← stop_results ks (S i); mret (r :: rs)
  end.

(** Everything is joined and stopped, and then the results are looked at. *)
Definition run_machine_reference (stdin : nat) (ks : list MmioKind) (naps : nat) (exit_on_hlt idle : bool) : prog (RunSt W) (result Error unit) :=
  hs ← spawn_aps naps 1 idle;
  match hs with
  | Err e => stdin_drop stdin;; mret (Err e)
  | Ok hs =>
      bsp ← run_bsp (mkCtx 0 exit_on_hlt idle);
      stop_vcpus;;
      aps ← join_results hs;
      stdin ← stdin_stop stdin;
      devs ← stop_results ks 0;
      mret (first_error (bsp :: aps ++ stdin :: devs))
  end.

Lemma join_all_results fe hs s :
  join_all fe hs s = (rs ← join_results hs; mret (foldl note fe rs)) s.
Proof.
  revert fe s. induction hs as [|h hs IH]; intros fe s; [done|]. cbn [join_all join_results].
  unfold mbind, prog_bind. destruct (join_thread h vcpus_told s) as [[e s1]| |]; [|done|done].
  rewrite IH. unfold mbind, prog_bind. by destruct (join_results hs s1) as [[rs s2]| |].
Qed.

Lemma stop_devices_results fe ks i s :
  stop_devices fe ks i s = (rs ← stop_results ks i; mret (foldl note fe rs)) s.
Proof.
  revert fe i s. induction ks as [|k ks IH]; intros fe i s; [done|]. cbn [stop_devices stop_results].
  unfold mbind, prog_bind. destruct (stop_worker k i s) as [[r s1]| |]; [|done|done].
  rewrite IH. unfold mbind, prog_bind. by destruct (stop_results ks (S i) s1) as [[rs s2]| |].
Qed.

Lemma foldl_note fe rs : foldl note fe rs = note fe (first_error rs).
Proof. revert fe. induction rs as [|[[]|e] rs IH]; intros [e'|]; cbn; try done; by rewrite IH. Qed.

Lemma note_first_error rs : (match foldl note None rs with Some e => Err e | None => Ok tt end) = first_error rs.
Proof. rewrite foldl_note. cbn. by destruct (first_error rs) as [[]|]. Qed.

(** C34: the error threaded through the end of [run] is the first one of all the results in
    the order first vCPU, other vCPUs, standard input, devices: [run] behaves like the
    reference that joins and stops everything and then reports the first failure. No
    failure hides another part's clean-up, and a success means every part succeeded. *)
Theorem run_reports_first_error stdin ks naps exit_on_hlt idle s :
  run_machine stdin ks naps exit_on_hlt idle s = run_machine_reference stdin ks naps exit_on_hlt idle s.
Proof.
  unfold run_machine, run_machine_reference, mbind, prog_bind.
  destruct (spawn_aps naps 1 idle s) as [[[hs|e] s1]| |]; [|done|done|done].
  destruct (run_bsp _ s1) as [[bsp s2]| |]; [|done|done].
  destruct (stop_vcpus s2) as [[[] s3]| |]; [|done|done]. rewrite join_all_results. unfold mbind, prog_bind.
  destruct (join_results hs s3) as [[aps s4]| |]; [|done|done]. cbn [mret prog_ret].
  destruct (stdin_stop stdin s4) as [[r s5]| |]; [|done|done]. rewrite stop_devices_results. unfold mbind, prog_bind.
  destruct (stop_results ks 0 s5) as [[devs s6]| |]; [|done|done]. cbn [mret prog_ret]. do 2 f_equal.
  rewrite <-note_first_error. cbn [foldl]. by rewrite foldl_app.
Qed.

End reference.

(** ** Nothing is left running *)

(** What is relied on: [sigaction] returns the handler it replaces and fails, if at all,
    because of the number of the signal; nothing else changes the handler. Only [spawn]
    makes threads; any thread may end at any time; [join] returns once the thread has
    ended, so that it waits for running threads only. *)
Class RunHostLaws (W : Type) `{!RunHost W} := {
  handler : W → SigHandler;
  threads : W → gmap nat Body;
  sigaction_ok : ∀ a w prev w', sigaction a w = (Ok prev, w') → prev = handler w ∧ handler w' = a;
  sigaction_err : ∀ a w e w', sigaction a w = (Err e, w') → handler w' = handler w;
  sigaction_valid : ∀ a w a' w', is_ok (sigaction a w).1 = is_ok (sigaction a' w').1;
  sigaction_threads : ∀ a w, threads (sigaction a w).2 ⊆ threads w;
  stdin_fd_host : ∀ f w, handler (stdin_fd f w).2 = handler w ∧ threads (stdin_fd f w).2 ⊆ threads w;
  clone_kick_host : ∀ i w, handler (clone_kick i w).2 = handler w ∧ threads (clone_kick i w).2 ⊆ threads w;
  spawn_host : ∀ b w, match thread_spawn b w with
    | (Ok h, w') => handler w' = handler w ∧ threads w' ⊆ <[h := b]> (threads w)
    | (Err _, w') => handler w' = handler w ∧ threads w' ⊆ threads w
    end;
  join_host : ∀ h told w e w', thread_join h told w = Some (e, w') →
    handler w' = handler w ∧ threads w' ⊆ delete h (threads w);
  join_waits : ∀ h told w, thread_join h told w = None → is_Some (threads w !! h);
  run_host : ∀ c w r w', run_here c w = Some (r, w') → handler w' = handler w ∧ threads w' ⊆ threads w;
}.

(** A wait that never ends: the loop of the first vCPU does not return, or a thread that
    was told to stop goes on. *)
Inductive blocked {W : Type} `{RH : !RunHost W, RL : !RunHostLaws W} : Prop :=
| blocked_bsp c w : run_here c w = None → blocked
| blocked_join h b w : threads w !! h = Some b → thread_join h true w = None → blocked.

(** *** Computations that may wait for ever *)

Section wait.
Context {B : Prop} {S : Type}.

(** [m] does not panic; it returns with [Q], or [B]. *)
Definition wpw {A} (m : prog S A) (Q : A → S → Prop) (s : S) : Prop :=
  match m s with Ret (a, s') => Q a s' | Panic => False | Prelude.Running => B end.

Lemma wpw_total {A} (m : prog S A) Q s : wp Total m Q s → wpw m Q s.
Proof. unfold wp, wpw. by destruct (m s) as [[]| |]. Qed.

Lemma wpw_bind {A C} (m : prog S A) (f : A → prog S C) Q s :
  wpw m (λ a s', wpw (f a) Q s') s → wpw (m ≫= f) Q s.
Proof. unfold wpw, mbind, prog_bind. by destruct (m s) as [[]| |]. Qed.

Lemma wpw_mono {A} (m : prog S A) (Q R : A → S → Prop) s :
  wpw m Q s → (∀ a s', Q a s' → R a s') → wpw m R s.
Proof. unfold wpw. destruct (m s) as [[]| |]; naive_solver. Qed.

Lemma wpw_try {E A C} (m : prog S (result E A)) (k : A → prog S (result E C)) Q s :
  wpw m (λ r s', match r with Ok a => wpw (k a) Q s' | Err e => Q (Err e) s' end) s →
  wpw (try_bind m k) Q s.
Proof. intros H. unfold try_bind. apply wpw_bind. eapply wpw_mono; [exact H|]. by intros [a|e] s'. Qed.

End wait.
Arguments wpw B {S A}.

Lemma wpw_zoom {B : Prop} {S T A} (getT : S → T) (setT : T → S → S) (m : prog T A) Q s :
  wpw B m (λ a x, Q a (setT x s)) (getT s) → wpw B (zoom getT setT m) Q s.
Proof. unfold wpw, zoom. by destruct (m (getT s)) as [[a x]| |]. Qed.

(** One step of such a computation. *)
Ltac ww_step :=
  lazymatch goal with
  | |- wpw _ (_ ≫= _) _ _ => apply wpw_bind
  | |- wpw _ (try_bind _ _) _ _ => apply wpw_try
  | |- wpw _ (zoom _ _ _) _ _ => apply wpw_zoom
  | |- wpw _ (mret _) _ _ => apply wpw_total, wp_ret
  | |- wpw _ get _ _ => apply wpw_total, wp_get
  | |- wpw _ (modify _) _ _ => apply wpw_total, wp_modify
  end; cbn beta iota zeta.
Ltac ww_apply lem := eapply wpw_mono; [eapply lem|].

Section clean.
Context {W : Type} `{RH : !RunHost W, RL : !RunHostLaws W}.
Implicit Types s : RunSt W.
Local Abbreviation ww := (wpw blocked).

(** The slot of the device [i]. *)
Definition slot_at (i : nat) s : option WorkerSlot := slot <$> rt_devs s !! i.

(** The notification descriptors count up. *)
Definition kicks_ok s : Prop := Forall (λ d, 0 ≤ kick d) (rt_devs s).

(** Every running thread has somebody who holds its handle: its device in the slot, or the
    caller, among [X]. *)
Record covered (h0 : SigHandler) (X : list (nat * Body)) s : Prop := mkCovered {
  cv_handler : handler (rt_host s) = h0;
  cv_threads : ∀ h b, threads (rt_host s) !! h = Some b →
    (h, b) ∈ X ∨ ∃ i, slot_at i s = Some (Running h) ∧ b = DeviceBody i;
  cv_kicks : kicks_ok s;
}.

(** *** The host *)

Lemma covered_host h0 X s w :
  covered h0 X s → handler w = handler (rt_host s) → threads w ⊆ threads (rt_host s) → covered h0 X (s <| rt_host := w |>).
Proof.
  intros [H1 H2 H3] Hh Ht. split; [by rewrite <-H1| |done]. intros h b Hb. apply (H2 h b). by eapply lookup_weaken.
Qed.

Lemma host_call_wp {A} (f : W → A * W) h0 X s (Q : A → RunSt W → Prop) :
  (∀ w, handler (f w).2 = handler w ∧ threads (f w).2 ⊆ threads w) → covered h0 X s →
  (∀ a w, covered h0 X (s <| rt_host := w |>) → Q a (s <| rt_host := w |>)) → ww (host_call f) Q s.
Proof.
  intros Hf Hc HQ. unfold host_call. ww_step. apply wpw_total, wp_act. intros a w E.
  destruct (Hf (rt_host s)) as [H1 H2]. rewrite E in H1, H2. by apply HQ, covered_host.
Qed.

Lemma host_spawn_wp b h0 X s (Q : result string nat → RunSt W → Prop) :
  covered h0 X s →
  (∀ h w, covered h0 ((h, b) :: X) (s <| rt_host := w |>) → Q (Ok h) (s <| rt_host := w |>)) →
  (∀ e w, thread_spawn b (rt_host s) = (Err e, w) → covered h0 X (s <| rt_host := w |>) → Q (Err e) (s <| rt_host := w |>)) →
  ww (host_call (thread_spawn b)) Q s.
Proof.
  intros Hc Hok Herr. unfold host_call. ww_step. apply wpw_total, wp_act. intros a w E.
  pose proof (spawn_host b (rt_host s)) as H. rewrite E in H. destruct a as [h|e], H as [H1 H2].
  - apply Hok. destruct Hc as [C1 C2 C3]. split; [by rewrite <-C1| |done]. intros h' b' Hb'.
    pose proof (lookup_weaken _ _ _ _ Hb' H2) as Hb. apply lookup_insert_Some in Hb as [[-> ->]|[_ Hb]].
    + left. apply list_elem_of_here.
    + destruct (C2 h' b' Hb) as [?|?]; [left; by apply list_elem_of_further|by right].
  - by apply Herr, covered_host.
Qed.

(** Waiting for a thread that was told to stop. *)
Lemma join_thread_wp h b told h0 X s (Q : JoinEnd → RunSt W → Prop) :
  told s = true → covered h0 ((h, b) :: X) s →
  (∀ e w, covered h0 X (s <| rt_host := w |>) → Q e (s <| rt_host := w |>)) → ww (join_thread h told) Q s.
Proof.
  intros Ht Hc HQ. unfold wpw, join_thread. rewrite Ht. destruct (thread_join h true (rt_host s)) as [[e w]|] eqn:E.
  - destruct (join_host _ _ _ _ _ E) as [H1 H2]. apply HQ. destruct Hc as [C1 C2 C3]. split; [by rewrite <-C1| |done].
    intros h' b' Hb'. pose proof (lookup_weaken _ _ _ _ Hb' H2) as Hb. apply lookup_delete_Some in Hb as [Hne Hb].
    destruct (C2 h' b' Hb) as [[[= -> ->]|?]%elem_of_cons|?]; [done|by left|by right].
  - destruct (join_waits _ _ _ E) as [b' Hb']. by eapply blocked_join.
Qed.

(** The guard of the handler. *)
Lemma install_handler_wp h0 X s (Q : result Error SigHandler → RunSt W → Prop) :
  covered h0 X s →
  (∀ w, (∀ a w1, is_ok (sigaction a w1).1 = true) → covered NoopKick X (s <| rt_host := w |>) → Q (Ok h0) (s <| rt_host := w |>)) →
  (∀ e w, covered h0 X (s <| rt_host := w |>) → Q (Err e) (s <| rt_host := w |>)) → ww install_handler Q s.
Proof.
  intros [C1 C2 C3] Hok Herr. unfold install_handler, host_call. do 2 ww_step. apply wpw_total, wp_act. intros r w E.
  ww_step. pose proof (sigaction_threads NoopKick (rt_host s)) as Ht. rewrite E in Ht.
  destruct r as [prev|e]; cbn [map_err].
  - destruct (sigaction_ok _ _ _ _ E) as [-> Hh]. rewrite C1. apply Hok.
    + intros a w1. by rewrite (sigaction_valid a w1 NoopKick (rt_host s)), E.
    + split; [done| |done]. intros h b Hb. apply (C2 h b). by eapply lookup_weaken.
  - apply Herr, covered_host; [done|by eapply sigaction_err|done].
Qed.

Lemma restore_handler_wp prev s :
  (∀ a w1, is_ok (sigaction a w1).1 = true) →
  ww (restore_handler prev) (λ _ s', handler (rt_host s') = prev ∧ threads (rt_host s') ⊆ threads (rt_host s)) s.
Proof.
  intros Hok. unfold restore_handler, host_call. do 2 ww_step. apply wpw_total, wp_act. intros r w E. ww_step.
  pose proof (sigaction_threads prev (rt_host s)) as Ht. pose proof (Hok prev (rt_host s)) as Ho. rewrite E in Ht, Ho.
  destruct r as [x|e]; [|done]. by destruct (sigaction_ok _ _ _ _ E) as [_ Hh].
Qed.

(** *** The standard input worker *)

Lemma stdin_start_wp h0 X s :
  covered h0 X s →
  ww stdin_start (λ r s', rt_devs s' = rt_devs s ∧
    match r with Ok h => covered h0 ((h, StdinBody) :: X) s' | Err _ => covered h0 X s' end) s.
Proof.
  intros Hc. unfold stdin_start, serial_call.
  do 3 (ww_step; ww_step; eapply host_call_wp; [apply stdin_fd_host|eassumption|]; intros [?|?] ? ?; ww_step; cbn [map_err]; [|done]).
  ww_step. eapply host_spawn_wp; [eassumption|intros; by ww_step..].
Qed.

Lemma stdin_stop_wp h h0 X s :
  covered h0 ((h, StdinBody) :: X) s → ww (stdin_stop h) (λ _ s', covered h0 X s' ∧ rt_devs s' = rt_devs s) s.
Proof.
  intros Hc. unfold stdin_stop. do 2 ww_step. ww_step. eapply (join_thread_wp h StdinBody); [done|by destruct Hc|].
  intros e w Hw. by ww_step.
Qed.

Lemma stdin_drop_wp h h0 X s :
  covered h0 ((h, StdinBody) :: X) s → ww (stdin_drop h) (λ _ s', covered h0 X s' ∧ rt_devs s' = rt_devs s) s.
Proof.
  intros Hc. unfold stdin_drop. do 2 ww_step. ww_step. eapply (join_thread_wp h StdinBody); [done|by destruct Hc|].
  intros e w Hw. by ww_step.
Qed.

(** *** The workers of the devices *)

(** [s'] has another slot for the device [i] than [s], and the same ones for the others. *)
Definition new_slot (i : nat) (x : WorkerSlot) s s' : Prop :=
  slot_at i s' = Some x ∧ (∀ j, j ≠ i → slot_at j s' = slot_at j s) ∧ (kicks_ok s → kicks_ok s').

Lemma new_slot_trans i x y s1 s2 s3 : new_slot i x s1 s2 → new_slot i y s2 s3 → new_slot i y s1 s3.
Proof. intros (_ & H1 & K1) (H2 & H3 & K2). split_and!; [done| |by auto]. intros j Hj. by rewrite H3, H1. Qed.

(** Any action on the device [i]. *)
Lemma with_dev_wp {A} i (f : DevShared unit → A * DevShared unit) s d (Q : A → RunSt W → Prop) :
  rt_devs s !! i = Some d → kick d ≤ kick (f d).2 →
  (∀ s', rt_host s' = rt_host s → rt_devs s' !! i = Some (f d).2 → new_slot i (slot (f d).2) s s' → Q (f d).1 s') →
  ww (with_dev i f) Q s.
Proof.
  intros Hd Hk HQ. pose proof (lookup_lt_Some _ _ _ Hd). unfold wpw, with_dev. rewrite Hd.
  destruct (f d) as [a d'] eqn:E. apply HQ; [done|by apply list_lookup_insert_eq|].
  unfold new_slot, slot_at, kicks_ok. cbn in *. rewrite list_lookup_insert_eq by done. split_and!; [done| |].
  - intros j Hj. by rewrite list_lookup_insert_ne.
  - intros H0. apply Forall_insert; [done|]. pose proof (Forall_lookup_1 _ _ _ _ H0 Hd). cbn in *. lia.
Qed.

Lemma upd_dev_wp i f s d (Q : unit → RunSt W → Prop) :
  rt_devs s !! i = Some d → kick d ≤ kick (f d) →
  (∀ s', rt_host s' = rt_host s → rt_devs s' !! i = Some (f d) → new_slot i (slot (f d)) s s' → Q tt s') →
  ww (upd_dev i f) Q s.
Proof. intros Hd Hk HQ. unfold upd_dev. by eapply with_dev_wp. Qed.

(** A slot without a handle is overwritten; a handle is taken out of its slot; a handle is
    put into a slot. *)
Lemma covered_slot h0 X i x y s s' :
  covered h0 X s → rt_host s' = rt_host s → slot_at i s = Some x → new_slot i y s s' →
  x = y ∨ (∀ h, x ≠ Running h) → covered h0 X s'.
Proof.
  intros [C1 C2 C3] Hh Hx (Hy & Ho & Hk) Hxy. split; [by rewrite Hh| |by auto]. intros h b Hb. rewrite Hh in Hb.
  destruct (C2 h b Hb) as [?|(j & Hj & ->)]; [by left|right]. exists j. split; [|done].
  destruct (decide (j = i)) as [->|]; [|by rewrite Ho]. rewrite Hj in Hx. injection Hx as <-.
  destruct Hxy as [<-|Hn]; [done|]. by destruct (Hn h).
Qed.

Lemma covered_take h0 X i h y s s' :
  covered h0 X s → rt_host s' = rt_host s → slot_at i s = Some (Running h) → new_slot i y s s' →
  covered h0 ((h, DeviceBody i) :: X) s'.
Proof.
  intros [C1 C2 C3] Hh Hx (Hy & Ho & Hk). split; [by rewrite Hh| |by auto]. intros h' b Hb. rewrite Hh in Hb.
  destruct (C2 h' b Hb) as [?|(j & Hj & ->)]; [left; by apply list_elem_of_further|].
  destruct (decide (j = i)) as [->|]; [left|right; exists j; by rewrite Ho].
  rewrite Hj in Hx. injection Hx as ->. apply list_elem_of_here.
Qed.

Lemma covered_give h0 X i h x s s' :
  covered h0 ((h, DeviceBody i) :: X) s → rt_host s' = rt_host s → slot_at i s = Some x → (∀ h, x ≠ Running h) →
  new_slot i (Running h) s s' → covered h0 X s'.
Proof.
  intros [C1 C2 C3] Hh Hx Hn (Hy & Ho & Hk). split; [by rewrite Hh| |by auto]. intros h' b Hb. rewrite Hh in Hb.
  destruct (C2 h' b Hb) as [[[= -> ->]|?]%elem_of_cons|(j & Hj & ->)]; [right; by exists i|by left|right].
  exists j. split; [|done]. destruct (decide (j = i)) as [->|]; [|by rewrite Ho]. rewrite Hj in Hx.
  injection Hx as <-. by destruct (Hn h').
Qed.

Lemma slot_at_dev i s d : rt_devs s !! i = Some d → slot_at i s = Some (slot d).
Proof. unfold slot_at. by intros ->. Qed.

(** What a start leaves. *)
Definition start_post h0 X i s (r : result Error unit) s' : Prop :=
  covered h0 X s' ∧ match r with Ok _ => ∃ h, new_slot i (Running h) s s' | Err _ => new_slot i Idle s s' end.

Lemma start_failed_wp k i d0 e h0 X s s1 d :
  covered h0 X s1 → rt_devs s1 !! i = Some d → slot d = Starting → new_slot i Starting s s1 →
  ww (start_failed k i d0 e) (start_post h0 X i s) s1.
Proof.
  intros Hc Hd Hs Ho. unfold start_failed. ww_step. eapply upd_dev_wp; [exact Hd| |].
  { unfold drop_reservation. by destruct (kind_disk k); cbn; rewrite Hs. }
  intros s2 Hh _ Hn. ww_step.
  assert (slot (drop_reservation (if kind_disk k then d <| disk_slot := d0 |> else d)) = Idle) as Hi.
  { unfold drop_reservation. destruct (kind_disk k); cbn; by rewrite Hs. }
  rewrite Hi in Hn. split.
  - eapply (covered_slot _ _ i Starting); [exact Hc|done|by rewrite (slot_at_dev _ _ _ Hd), Hs|exact Hn|by right].
  - by eapply new_slot_trans.
Qed.

Lemma start_thread_wp k i d0 h0 X s s1 d :
  covered h0 X s1 → rt_devs s1 !! i = Some d → slot d = Starting → new_slot i Starting s s1 →
  ww (start_thread k i d0) (start_post h0 X i s) s1.
Proof.
  intros Hc Hd Hs Ho. unfold start_thread. ww_step. eapply host_call_wp; [apply clone_kick_host|exact Hc|].
  intros [[]|e] w Hw; [|by eapply start_failed_wp]. ww_step. eapply upd_dev_wp; [exact Hd|done|]. cbn [slot clear_stop].
  intros s2 Hh2 Hd2 Hn2.
  assert (covered h0 X s2) as Hc2.
  { eapply (covered_slot _ _ i (slot d)); [exact Hw|done|by apply slot_at_dev|exact Hn2|by left]. }
  assert (new_slot i Starting s s2) as Ho2 by (rewrite <-Hs; by eapply new_slot_trans).
  ww_step. eapply host_spawn_wp; [exact Hc2| |intros e w2 _ Hw2; by eapply start_failed_wp].
  intros h w2 Hw2. ww_step. eapply upd_dev_wp; [exact Hd2|done|]. intros s3 Hh3 _ Hn3. ww_step.
  split.
  - eapply (covered_give _ _ i h Starting); [exact Hw2|done| |done|exact Hn3].
    change (slot_at i s2 = Some Starting). rewrite (slot_at_dev _ _ _ Hd2). cbn. by rewrite Hs.
  - exists h. by eapply new_slot_trans.
Qed.

Lemma start_worker_wp k i h0 X s :
  covered h0 X s → slot_at i s = Some Idle → ww (start_worker k i) (start_post h0 X i s) s.
Proof.
  intros Hc Hi. unfold slot_at in Hi. apply fmap_Some in Hi as (d & Hd & Hs). unfold start_worker. ww_step.
  eapply with_dev_wp; [exact Hd|unfold reserve; by rewrite <-Hs|]. unfold reserve. rewrite <-Hs. cbn. intros s1 Hh1 Hd1 Hn1.
  assert (covered h0 X s1) as Hc1.
  { eapply (covered_slot _ _ i Idle); [exact Hc|done|by rewrite (slot_at_dev _ _ _ Hd), <-Hs|exact Hn1|by right]. }
  destruct (kind_disk k); [|by eapply start_thread_wp].
  ww_step. eapply with_dev_wp; [exact Hd1|done|]. cbn. intros s2 Hh2 Hd2 Hn2.
  assert (covered h0 X s2) as Hc2.
  { eapply (covered_slot _ _ i Starting); [exact Hc1|done|by rewrite (slot_at_dev _ _ _ Hd1)|exact Hn2|by left]. }
  assert (new_slot i Starting s s2) as Ho by (by eapply new_slot_trans).
  destruct (disk_slot d) as [[]|]; cbn beta iota; [by eapply start_thread_wp|]. ww_step. eapply upd_dev_wp; [exact Hd2|done|]. cbn.
  intros s3 Hh3 _ Hn3. split.
  - eapply (covered_slot _ _ i Starting); [exact Hc2|done|by rewrite (slot_at_dev _ _ _ Hd2)|exact Hn3|by right].
  - by eapply new_slot_trans.
Qed.

(** A slot between calls of start and stop. *)
Definition settled i s : Prop := slot_at i s = Some Idle ∨ ∃ h, slot_at i s = Some (Running h).

Lemma stop_worker_wp k i h0 X s :
  covered h0 X s → settled i s → ww (stop_worker k i) (λ _ s', covered h0 X s' ∧ new_slot i Idle s s') s.
Proof.
  intros Hc Hs. assert (∃ d, rt_devs s !! i = Some d ∧ (slot d = Idle ∨ ∃ h, slot d = Running h)) as (d & Hd & Hsd).
  { unfold settled, slot_at in Hs. destruct (rt_devs s !! i) as [d|]; cbn in Hs.
    - exists d. split; [done|]. destruct Hs as [[= ->]|[h [= ->]]]; eauto.
    - by destruct Hs as [|[? ?]]. }
  unfold stop_worker. ww_step. eapply upd_dev_wp; [exact Hd|cbn; lia|]. cbn [slot request_stop]. intros s1 Hh1 Hd1 Hn1.
  assert (covered h0 X s1) as Hc1.
  { eapply (covered_slot _ _ i (slot d)); [exact Hc|done|by apply slot_at_dev|exact Hn1|by left]. }
  ww_step. unfold take_worker. ww_step. eapply with_dev_wp; [exact Hd1|unfold take_worker_step; by case_match|].
  unfold take_worker_step. change (slot (request_stop d)) with (slot d). destruct Hsd as [E|[h E]]; rewrite E; cbn [fst snd].
  - (* no worker *)
    intros s2 Hh2 _ Hn2. ww_step. ww_step. change (slot (request_stop d)) with (slot d) in Hn2. rewrite E in Hn2. split.
    + eapply (covered_slot _ _ i (slot d)); [exact Hc1|done|apply Hn1|exact Hn2|by left].
    + by eapply new_slot_trans.
  - cbn [slot]. intros s2 Hh2 Hd2 Hn2. ww_step. ww_step. eapply (join_thread_wp h (DeviceBody i)).
    + unfold dev_told. rewrite Hd2. cbn. pose proof (Forall_lookup_1 _ _ _ _ (cv_kicks _ _ _ Hc) Hd). cbn in *. apply Z.ltb_lt. lia.
    + eapply covered_take; [exact Hc1|done| |exact Hn2]. rewrite (proj1 Hn1). cbn. by rewrite E.
    + intros e w Hw. assert (new_slot i Idle s (s2 <| rt_host := w |>)) as Hn by (by eapply new_slot_trans).
      destruct e as [r|]; [|by ww_step]. ww_step. destruct (kind_disk k); [|by do 2 ww_step].
      eapply upd_dev_wp; [exact Hd2|done|]. cbn [slot]. intros s3 Hh3 _ Hn3. ww_step. split; [|by eapply new_slot_trans].
      eapply (covered_slot _ _ i Idle); [exact Hw|done|apply Hn|exact Hn3|by left].
Qed.

(** *** The machine *)

(** The devices from [i] to [i + n) have idle slots and the others the ones from before. *)
Definition stopped (i n : nat) s s' : Prop :=
  (∀ j, (i ≤ j < i + n)%nat → slot_at j s' = Some Idle) ∧
  (∀ j, ~ (i ≤ j < i + n)%nat → slot_at j s' = slot_at j s).

Lemma settled_other i x j s s' : new_slot i x s s' → j ≠ i → settled j s → settled j s'.
Proof. intros (_ & Ho & _) Hj. unfold settled. by rewrite Ho. Qed.

Lemma stopped_cons i n s s1 s2 : new_slot i Idle s s1 → stopped (S i) n s1 s2 → stopped i (S n) s s2.
Proof.
  intros (Hi & Ho & _) [H1 H2]. split; intros j Hj.
  - destruct (decide (j = i)) as [->|]; [|apply H1; lia]. rewrite H2 by lia. done.
  - rewrite H2 by lia. apply Ho. lia.
Qed.

Lemma stopped_nil i s : stopped i 0 s s.
Proof. split; intros j Hj; [lia|done]. Qed.

Lemma stop_devices_wp fe ks i h0 X s :
  covered h0 X s → (∀ j, (i ≤ j < i + length ks)%nat → settled j s) →
  ww (stop_devices fe ks i) (λ _ s', covered h0 X s' ∧ stopped i (length ks) s s') s.
Proof.
  revert fe i s. induction ks as [|k ks IH]; intros fe i s Hc Hs; cbn [stop_devices length] in *.
  { ww_step. split; [done|apply stopped_nil]. }
  ww_step. ww_apply stop_worker_wp; [exact Hc|apply Hs; lia|]. intros r s1 [Hc1 Hn].
  ww_apply IH; [exact Hc1|intros j Hj; eapply settled_other; [exact Hn|lia|apply Hs; lia]|].
  intros x s2 [Hc2 Hs2]. split; [done|by eapply stopped_cons].
Qed.

Lemma stop_quietly_wp ks i h0 X s :
  covered h0 X s → (∀ j, (i ≤ j < i + length ks)%nat → settled j s) →
  ww (stop_quietly ks i) (λ _ s', covered h0 X s' ∧ stopped i (length ks) s s') s.
Proof.
  revert i s. induction ks as [|k ks IH]; intros i s Hc Hs; cbn [stop_quietly length] in *.
  { ww_step. split; [done|apply stopped_nil]. }
  ww_step. ww_apply stop_worker_wp; [exact Hc|apply Hs; lia|]. intros r s1 [Hc1 Hn].
  ww_apply IH; [exact Hc1|intros j Hj; eapply settled_other; [exact Hn|lia|apply Hs; lia]|].
  intros x s2 [Hc2 Hs2]. split; [done|by eapply stopped_cons].
Qed.

(** No device has a worker. *)
Definition no_workers s : Prop := ∀ j h, slot_at j s ≠ Some (Running h).

Lemma start_devices_wp started ks h0 X s :
  covered h0 X s → (∀ j, (j < length started)%nat → settled j s) →
  (∀ j, (length started ≤ j < length started + length ks)%nat → slot_at j s = Some Idle) →
  (∀ j, (length started + length ks ≤ j)%nat → slot_at j s = None) →
  ww (start_devices started ks) (λ r s', covered h0 X s' ∧
    match r with
    | Ok _ => (∀ j, (j < length started + length ks)%nat → settled j s') ∧
              (∀ j, (length started + length ks ≤ j)%nat → slot_at j s' = None)
    | Err _ => no_workers s'
    end) s.
Proof.
  revert started s. induction ks as [|k ks IH]; intros started s Hc Hs Hi Hn; cbn [start_devices length] in *.
  { ww_step. split_and!; [done|intros j Hj; apply Hs; lia|done]. }
  ww_step. ww_apply start_worker_wp; [exact Hc|apply Hi; lia|]. intros [[]|e] s1 [Hc1 Hr].
  - destruct Hr as (h & Hr). ww_apply IH; [exact Hc1|..|]; rewrite ?length_app; cbn [length].
    + intros j Hj. destruct (decide (j = length started)) as [->|]; [right; exists h; apply Hr|].
      eapply settled_other; [exact Hr|done|apply Hs; lia].
    + intros j Hj. rewrite (proj1 (proj2 Hr)) by lia. apply Hi. lia.
    + intros j Hj. rewrite (proj1 (proj2 Hr)) by lia. apply Hn. lia.
    + intros [[]|e] s2 [Hc2 H2]; (split; [done|]); [|done].
      split; intros j Hj; apply H2; rewrite ?length_app; cbn; lia.
  - ww_step. ww_apply stop_quietly_wp; [exact Hc1|intros j Hj; eapply settled_other; [exact Hr|lia|apply Hs; lia]|].
    intros [] s2 [Hc2 [H1 H2]]. ww_step. split; [done|]. intros j h.
    destruct (decide (j < length started)%nat); [rewrite H1 by lia; done|]. rewrite H2 by lia.
    destruct Hr as (Hr & Ho & _). destruct (decide (j = length started)) as [->|]; [by rewrite Hr|]. rewrite Ho by done.
    destruct (decide (j < length started + S (length ks))%nat); [rewrite Hi by lia|rewrite Hn by lia]; done.
Qed.

(** The threads of the vCPUs [hs]. *)
Definition vcpu_bodies (X : list (nat * Body)) : Prop := Forall (λ x, ∃ c, x.2 = VcpuBody c) X.

(** The thread of a vCPU could not be created. *)
Definition spawn_refused : Prop := ∃ c w e w', thread_spawn (VcpuBody c) w = (Err e, w').

Lemma covered_perm h0 X Y s : X ≡ₚ Y → covered h0 X s → covered h0 Y s.
Proof. intros HP [C1 C2 C3]. split; [done| |done]. intros h b Hb. destruct (C2 h b Hb) as [?|?]; [left; by rewrite <-HP|by right]. Qed.

Lemma spawn_aps_wp n i idle h0 X s :
  covered h0 X s →
  ww (spawn_aps n i idle) (λ r s', rt_devs s' = rt_devs s ∧ ∃ Y, vcpu_bodies Y ∧ covered h0 (Y ++ X) s' ∧
    match r with Ok hs => Y.*1 = hs | Err e => spawn_refused ∧ ∃ m, e = VcpuThread m end) s.
Proof.
  revert i X s. induction n as [|n IH]; intros i X s Hc; cbn [spawn_aps].
  { ww_step. split; [done|]. exists []. split_and!; [constructor|done|done]. }
  ww_step. eapply host_spawn_wp; [exact Hc| |].
  - intros h w Hw. ww_step. ww_apply IH; [exact Hw|]. intros [hs|e] s2 [Hd (Y & HY & Hc2 & Hr)].
    + ww_step. split; [done|]. exists ((h, VcpuBody (mkCtx (cast 8 i) false idle)) :: Y). split_and!.
      * constructor; [by eexists|done].
      * eapply covered_perm; [|exact Hc2]. cbn. by rewrite Permutation_middle.
      * cbn. by rewrite Hr.
    + split; [done|]. exists (Y ++ [(h, VcpuBody (mkCtx (cast 8 i) false idle))]). split_and!; [|by rewrite <-app_assoc|apply Hr..].
      apply Forall_app_2; [done|]. constructor; [by eexists|constructor].
  - intros e w E Hw. ww_step. split; [done|]. exists []. split_and!; [constructor|done| |by eexists]. by repeat eexists.
Qed.

Lemma join_all_wp fe Y h0 X s :
  covered h0 (Y ++ X) s → vcpus_told s = true →
  ww (join_all fe Y.*1) (λ _ s', covered h0 X s' ∧ rt_devs s' = rt_devs s) s.
Proof.
  revert fe s. induction Y as [|[h b] Y IH]; intros fe s Hc Ht; cbn [join_all fmap list_fmap fst]; ww_step; [done|].
  eapply (join_thread_wp h b); [exact Ht|exact Hc|]. intros e w Hw. by ww_apply IH.
Qed.

Lemma slot_at_devs j s s' : rt_devs s' = rt_devs s → slot_at j s' = slot_at j s.
Proof. unfold slot_at. by intros ->. Qed.

(** What a run leaves: nothing, or, when the thread of a vCPU could not be created, workers
    of devices and vCPUs, but not the standard input worker. *)
Definition run_left (r : result Error unit) (w : W) : Prop :=
  threads w = ∅ ∨
  (spawn_refused ∧ (∃ m, r = Err (VcpuThread m)) ∧ ∀ h b, threads w !! h = Some b → b ≠ StdinBody).

Lemma covered_nothing h0 s r : covered h0 [] s → no_workers s → run_left r (rt_host s).
Proof.
  intros [_ H _] Hn. left. apply map_empty. intros h. destruct (threads (rt_host s) !! h) as [b|] eqn:E; [|done].
  destruct (H h b E) as [?%elem_of_nil|(i & Hi & _)]; [done|by destruct (Hn i h)].
Qed.

Lemma covered_left h0 Y s m : covered h0 Y s → vcpu_bodies Y → spawn_refused → run_left (Err (VcpuThread m)) (rt_host s).
Proof.
  intros [_ H _] HY Hf. right. split_and!; [done|by eexists|]. intros h b Hb. destruct (H h b Hb) as [Hin|(i & _ & ->)]; [|done].
  unfold vcpu_bodies in HY. rewrite Forall_forall in HY. destruct (HY _ Hin) as [c Hc]. cbn in Hc. by subst.
Qed.

Lemma run_left_mono r w w' : threads w' ⊆ threads w → run_left r w → run_left r w'.
Proof.
  intros Hsub [H|(H1 & H2 & H3)]; [left|right; split_and!; [done..|]].
  - apply map_empty. intros h. destruct (threads w' !! h) eqn:E; [|done].
    pose proof (lookup_weaken _ _ _ _ E Hsub) as E'. by rewrite H in E'.
  - intros h b Hb. eapply H3, lookup_weaken; [exact Hb|exact Hsub].
Qed.

Lemma run_bsp_wp c h0 X s (Q : result Error unit → RunSt W → Prop) :
  covered h0 X s → (∀ r w, covered h0 X (s <| rt_host := w |>) → Q r (s <| rt_host := w |>)) → ww (run_bsp c) Q s.
Proof.
  intros Hc HQ. unfold wpw, run_bsp. destruct (run_here c (rt_host s)) as [[r w]|] eqn:E; [|by eapply blocked_bsp].
  destruct (run_host _ _ _ _ E) as [H1 H2]. by apply HQ, covered_host.
Qed.

Lemma stop_vcpus_wp h0 X s :
  covered h0 X s → ww stop_vcpus (λ _ s', covered h0 X s' ∧ vcpus_told s' = true ∧ rt_devs s' = rt_devs s) s.
Proof. intros []. unfold stop_vcpus. do 3 ww_step. by split_and!. Qed.

Lemma run_machine_wp stdin ks naps hlt idle h0 s :
  covered h0 [(stdin, StdinBody)] s → (∀ j, (j < length ks)%nat → settled j s) →
  (∀ j, (length ks ≤ j)%nat → slot_at j s = None) →
  ww (run_machine stdin ks naps hlt idle) (λ r s', run_left r (rt_host s')) s.
Proof.
  intros Hc Hs Hn. unfold run_machine. ww_step. ww_apply spawn_aps_wp; [exact Hc|].
  intros [hs|e] s1 (Hd1 & Y & HY & Hc1 & Hr).
  - subst hs. ww_step. eapply run_bsp_wp; [exact Hc1|]. intros bsp w2 Hc2. ww_step.
    ww_apply stop_vcpus_wp; [exact Hc2|]. intros [] s3 (Hc3 & Ht & Hd3). ww_step.
    ww_apply join_all_wp; [exact Hc3|exact Ht|]. intros fe s4 [Hc4 Hd4]. ww_step.
    ww_apply stdin_stop_wp; [exact Hc4|]. intros r s5 [Hc5 Hd5]. ww_step.
    assert (∀ j, slot_at j s5 = slot_at j s) as Hsl.
    { intros j. apply slot_at_devs. rewrite Hd5, Hd4, Hd3. exact Hd1. }
    ww_apply stop_devices_wp; [exact Hc5|intros j Hj; unfold settled; rewrite Hsl; apply Hs; lia|].
    intros fe' s6 [Hc6 [H1 H2]]. ww_step. eapply covered_nothing; [exact Hc6|]. intros j h.
    destruct (decide (j < length ks)%nat); [by rewrite H1 by lia|]. rewrite H2, Hsl, Hn by lia. done.
  - destruct Hr as [Hf [m ->]]. ww_step. ww_apply stdin_drop_wp; [eapply covered_perm; [symmetry; apply Permutation_cons_append|exact Hc1]|].
    intros [] s2 [Hc2 _]. ww_step. by eapply covered_left.
Qed.

Context {V Mem P Dev : Type} `{DK : !DeviceKind Dev}.
Implicit Types vm : Vmm V Mem P Dev.

(** The devices as a run finds them. *)
Lemma run_start_slots vm w j :
  slot_at j (run_start vm w) = if decide (j < length (mmio_devices vm))%nat then Some Idle else None.
Proof.
  unfold slot_at, run_start. cbn. rewrite list_lookup_fmap. destruct (decide _) as [Hj|Hj].
  - apply lookup_lt_is_Some in Hj as [d ->]. done.
  - by rewrite (proj2 (lookup_ge_None _ _)) by lia.
Qed.

Lemma run_start_covered vm w : threads w = ∅ → covered (handler w) [] (run_start vm w).
Proof.
  intros Ht. split; [done|intros h b; cbn; by rewrite Ht|]. unfold kicks_ok, run_start. cbn.
  apply Forall_fmap, Forall_true. intros d. cbn. lia.
Qed.

(** C7: nothing outlives a run. [run] of a machine with vCPUs never panics. When it returns,
    whatever failed on the way, the handler of the kick signal is the one from before and
    none of the threads of the run goes on, the standard input worker, the workers of the
    devices and the vCPUs, with one exception: when the thread of a vCPU cannot be
    created, [run] fails with that error and leaves workers of devices and vCPUs behind.
    When it does not return, it waits for the loop of the first vCPU, or for a running
    thread that it has told to stop: by the stop flag and the kick, by the stop
    descriptor, or by the flag and the notification descriptor of the device. *)
Theorem run_cleans_up vm w :
  threads w = ∅ → vcpus vm ≠ [] →
  match vmm_run (vm, w) with
  | Ret (r, x) => handler x.2 = handler w ∧ run_left r x.2
  | Panic => False
  | Prelude.Running => blocked
  end.
Proof.
  intros Hw Hv. change (wpw blocked vmm_run (λ r x, handler x.2 = handler w ∧ run_left r x.2) (vm, w)).
  unfold vmm_run, run_body, on_run. do 3 ww_step. cbn [fst snd].
  eapply install_handler_wp; [by apply run_start_covered|intros w1 Hok Hc1|intros e w1 Hc1].
  2: { split; [apply Hc1|]. eapply covered_nothing; [exact Hc1|]. intros j h.
       change (slot_at j (run_start vm w) ≠ Some (Running h)). rewrite run_start_slots. by case_decide. }
  ww_step. eapply (wpw_mono _ (λ r x, run_left r (rt_host x.2))).
  2: { intros r x H. ww_step. ww_step. ww_apply (restore_handler_wp (handler w)); [done|]. intros [] s2 [H2 H3]. ww_step.
       split; [done|]. by eapply run_left_mono. }
  ww_step. ww_step. ww_apply stdin_start_wp; [exact Hc1|]. intros [stdin|e] s2 [Hd2 Hc2].
  2: { eapply covered_nothing; [exact Hc2|]. intros j h. rewrite (slot_at_devs _ _ _ Hd2).
       change (slot_at j (run_start vm w) ≠ Some (Running h)). rewrite run_start_slots. by case_decide. }
  do 3 ww_step. cbn [fst snd].
  assert (∀ j, slot_at j s2 = if decide (j < length (mmio_devices vm))%nat then Some Idle else None) as Hsl.
  { intros j. rewrite (slot_at_devs _ _ _ Hd2). exact (run_start_slots vm w j). }
  ww_step. ww_apply (start_devices_wp []); [exact Hc2|..]; rewrite ?length_fmap; cbn [length].
  - lia.
  - intros j Hj. rewrite Hsl, decide_True by lia. done.
  - intros j Hj. rewrite Hsl, decide_False by lia. done.
  - intros [[]|e] s3 [Hc3 H3]; rewrite ?length_fmap in H3.
    + do 2 ww_step. cbn [fst snd]. destruct (vcpus vm) as [|v aps]; [done|]. ww_step. cbn [snd].
      ww_apply run_machine_wp; [exact Hc3|rewrite length_fmap; apply H3..|]. done.
    + ww_step. ww_step. ww_apply stdin_drop_wp; [exact Hc3|]. intros [] s4 [Hc4 Hd4]. ww_step.
      eapply covered_nothing; [exact Hc4|]. intros j h. cbn [snd]. rewrite (slot_at_devs _ _ _ Hd4). apply H3.
Qed.

End clean.

(** ** A scripted host *)

(** The handler, the threads, the number of the next one, the device whose descriptor
    cannot be cloned, the number of vCPU threads that can be created, and whether the
    standard input worker ends when it is told to. *)
Record SRun := mkSRun { sr_handler : SigHandler; sr_threads : gmap nat Body; sr_next : nat; sr_bad_device : option nat;
  sr_vcpus : nat; sr_stdin_ends : bool }.
#[export] Instance eta_SRun : Eta SRun := λ h,
  mkSRun (sr_handler h) (sr_threads h) (sr_next h) (sr_bad_device h) (sr_vcpus h) (sr_stdin_ends h).

Definition sr_new (b : Body) (h : SRun) : result string nat * SRun :=
  (Ok (sr_next h), h <| sr_threads ::= <[sr_next h := b]> |> <| sr_next ::= S |>).

#[export] Instance Scripted_run : RunHost SRun := {
  sigaction a h := (Ok (sr_handler h), h <| sr_handler := a |>);
  stdin_fd _ h := (Ok tt, h);
  clone_kick i h := (if bool_decide (sr_bad_device h = Some i) then Err "dup" else Ok tt, h);
  thread_spawn b h :=
    match b with
    | VcpuBody _ => match sr_vcpus h with O => (Err "pthread_create", h) | S n => sr_new b (h <| sr_vcpus := n |>) end
    | _ => sr_new b h
    end;
  thread_join i told h :=
    match sr_threads h !! i with
    | Some b => if told && (sr_stdin_ends h || (if b is StdinBody then false else true))
                then Some (Joined (Ok tt), h <| sr_threads ::= delete i |>) else None
    | None => Some (Joined (Ok tt), h)
    end;
  run_here _ h := Some (Ok tt, h);
}.

#[export] Instance Scripted_run_laws : RunHostLaws SRun.
Proof.
  refine {| handler := sr_handler; threads := sr_threads |}; try done.
  - by intros a w prev w' [= <- <-].
  - intros b h. cbn. destruct b; [done|done|]. by destruct (sr_vcpus h).
  - intros i told h e h'. cbn. destruct (sr_threads h !! i) eqn:E.
    + destruct (told && _); [|done]. by intros [= <- <-].
    + intros [= <- <-]. split; [done|]. by rewrite delete_id.
  - intros i told h. cbn. destruct (sr_threads h !! i) eqn:E; [by eexists|done].
  - by intros c w r w' [= <- <-].
Defined.

Definition demo_run_host (bad : option nat) (threads : nat) (ends : bool) : SRun := mkSRun (OtherHandler 7) ∅ 0 bad threads ends.
#[export] Instance Kind_itself : DeviceKind MmioKind := { dev_kind k := k }.
Definition demo_run_vmm : Vmm unit unit unit MmioKind := mkVmm tt [tt; tt; tt] tt [Block; Net] 3 false true.

Lemma run_cleans_up_witness :
  ∃ x, vmm_run (demo_run_vmm, demo_run_host (Some 1%nat) 2 true) = Ret (Err (NetErr (MsgExt "" "dup")), x) ∧
    handler x.2 = OtherHandler 7 ∧ threads x.2 = ∅.
Proof.
  pose proof (run_cleans_up demo_run_vmm (demo_run_host (Some 1%nat) 2 true) eq_refl ltac:(discriminate)) as H.
  assert (ret_of fst (vmm_run (demo_run_vmm, demo_run_host (Some 1%nat) 2 true)) = Some (Err (NetErr (MsgExt "" "dup")))) as Hr
    by (vm_compute; reflexivity).
  destruct (vmm_run (demo_run_vmm, demo_run_host (Some 1%nat) 2 true)) as [[r x]| |]; [|destruct H|discriminate Hr].
  injection Hr as ->. exists x. split; [reflexivity|]. destruct H as [Hh [Ht|(_ & [m Hm] & _)]]; [|discriminate Hm].
  split; [exact Hh|exact Ht].
Defined.

(** When the second thread cannot be created, [run] fails with the workers of the devices
    and the first thread running. *)
Theorem spawn_failure_leaks :
  ∃ e x, vmm_run (demo_run_vmm, demo_run_host None 1 true) = Ret (Err (VcpuThread e), x) ∧
    threads x.2 = {[1%nat := DeviceBody 0; 2%nat := DeviceBody 1; 3%nat := VcpuBody (mkCtx 1 false true)]}.
Proof. do 2 eexists. split; [vm_compute; reflexivity|]. vm_compute. reflexivity. Qed.

(** A standard input worker that does not end keeps [run] from returning. *)
Example stuck_worker_blocks : vmm_run (demo_run_vmm, demo_run_host None 2 false) = Prelude.Running.
Proof. vm_compute. reflexivity. Qed.
