(* ===== verification/Devices.v ===== *)
(** * The constructors of the devices

    [VirtioBlock::new], [VirtioNet::new] and [VirtioVsock::new]
    ([devices/virtio_blk.rs], [devices/virtio_net.rs], [devices/virtio_vsock.rs]) put a
    device together from its host side, its transport ([VirtioMmio]) and its shell
    ([VirtioDev]), and register its interrupt and its notifications with KVM. What they
    make is what [Vmm] attaches, [Acpi] describes to the guest and the run loop of
    [VcpuRun] dispatches to. *)

From S2P Require Import Prelude Words Errors VirtQueue Serial VirtioMmio Acpi VirtioBlk VirtioBlkQueue VirtioNet VsockMux VsockMuxInv VirtioVsock VirtioDev VcpuRun Vmm.
Local Open Scope Z_scope.

(** A device as [Vmm] keeps it: its registers and state, and what its callers share. *)
Record Device (Q Efd : Type) := mkDevice { d_dev : VirtioDevice Q Efd; d_life : DevShared BlockDisk }.
Arguments mkDevice {Q Efd}.
Arguments d_dev {Q Efd}.
Arguments d_life {Q Efd}.

(** KVM and descriptors: [register_irqfd] of an interrupt, [register_ioevent] of an
    address and a value, whether [IoUring::new] succeeds, and [try_clone] of the
    notification descriptor. *)
Class DeviceKvm (K : Type) := {
  kvm_irqfd : Z → K → result Z unit * K;
  kvm_ioevent : Z → Z → K → result Z unit * K;
  uring_new : K → bool * K;
  clone_notify : K → result string unit * K;
}.

(** The host by its parts: disk images, TAP devices, sockets, KVM. *)
Record Host (WB WT WV K : Type) := mkHost { h_disk : WB; h_tap : WT; h_sockets : WV; h_kvm : K }.
Arguments mkHost {WB WT WV K}.
Arguments h_disk {WB WT WV K}.
Arguments h_tap {WB WT WV K}.
Arguments h_sockets {WB WT WV K}.
Arguments h_kvm {WB WT WV K}.
#[export] Instance eta_Host {WB WT WV K} : Eta (Host WB WT WV K) := λ h, mkHost (h_disk h) (h_tap h) (h_sockets h) (h_kvm h).

(** ** Operations *)

Section constructors.
Context {Q Mem Chain Rd Wr Efd WB WT WV K : Type} `{VQ : !VirtQueue Q Mem Chain Rd Wr} `{EF : !EventFd Efd}.
Context `{BH : !BlkHost WB} `{TH : !TapHost WT} `{VH : !VsockHost WV} `{DK : !DeviceKvm K}.
Local Abbreviation M := (prog (Host WB WT WV K)).

Definition on_disk {A} (m : prog WB A) : M A := zoom h_disk (λ w h, h <| h_disk := w |>) m.
Definition on_tap {A} (m : prog WT A) : M A := zoom h_tap (λ w h, h <| h_tap := w |>) m.
Definition on_sockets {A} (m : prog WV A) : M A := zoom h_sockets (λ w h, h <| h_sockets := w |>) m.
Definition on_kvm {A} (f : K → A * K) : M A := zoom h_kvm (λ k h, h <| h_kvm := k |>) (act f).

Definition register_irq (irq : Z) : M (result Z unit) := on_kvm (kvm_irqfd irq).

(** The part the three constructors share: the transport and its registration. *)
Definition transport_new (base id features : Z) (num_queues : nat) (irq : Z) : M (result Error (VirtioMmio Q Efd)) :=
  mmio ←? mret (mmio_new base id features num_queues QUEUE_MAX_SIZE);
  r ← register_irq irq;
  _ ←? mret (map_err KvmIoctl r);
  r ← on_kvm (register_ioeventfds kvm_ioevent mmio);
  _ ←? mret (map_err KvmIoctl r);
  mret (Ok mmio).

(** [VirtioDev::new]. *)
Definition shell_new (d : VirtioDevice Q Efd) (disk : option BlockDisk) : M (result Error (Device Q Efd)) :=
  r ← on_kvm clone_notify;
  _ ←? mret (map_err (λ e, VirtioErr (MsgExt "" e)) r);
  mret (Ok (mkDevice d (shared (dev_new disk)))).

(** What is dropped when a constructor fails. *)
Definition or_drop {A} (drop : M unit) (m : M (result Error A)) : M (result Error A) :=
  r ← m;
  match r with
  | Ok a => mret (Ok a)
  | Err e => drop;; mret (Err e)
  end.

Definition block_new (path : list Z) : M (result Error (Device Q Efd)) :=
  '(opened, capacity) ←? on_disk (check_image path);
  mmio ←? transport_new VIRTIO_MMIO_BASE VIRTIO_ID_BLOCK (VirtioBlk.advertised_features (od_readonly opened)) 1 VIRTIO_BLK_IRQ;
  b ← on_disk (aligned_new SCRATCH_INITIAL);
  scratch ←? mret (map_err (λ e, BlockErr (MsgExt "" e)) b);
  ring ← on_kvm uring_new;
  shell_new (DevBlock (mkBlockTransport mmio capacity (od_readonly opened))) (Some (disk_of opened scratch ring)).

(** The TAP descriptor is closed when a later step fails. *)
Definition net_new (ifname : list Z) : M (result Error (Device Q Efd)) :=
  '(tap, offloads) ←? on_tap (open_tap ifname);
  or_drop (on_tap (modify (tun_close tap))) (
    mmio ←? transport_new VIRTIO_NET_MMIO_BASE VIRTIO_ID_NET (net_advertised_features offloads) 2 VIRTIO_NET_IRQ;
    shell_new (DevNet (net_state_new mmio ifname)) None).

(** [drop] of the multiplexer removes its socket; then the listener is closed. *)
Definition mux_drop (m : Mux) : prog WV unit :=
  _ ← act (fs_remove_file (path m));
  modify (sys_close (listener m)).

Definition vsock_new (guest_cid : Z) (uds_path : list Z) : M (result Error (Device Q Efd)) :=
  m ←? on_sockets (mux_bind guest_cid uds_path);
  or_drop (on_sockets (mux_drop m)) (
    mmio ←? transport_new VIRTIO_VSOCK_MMIO_BASE VIRTIO_ID_VSOCK (Z.lor VIRTIO_F_VERSION_1 VIRTIO_VSOCK_F_STREAM) 3 VIRTIO_VSOCK_IRQ;
    shell_new (DevVsock (vsock_state_new mmio m)) None).

End constructors.

(** ** What KVM promises *)

(** The registered interrupts and notifications, in order. *)
Class DeviceKvmLaws (K : Type) `{!DeviceKvm K} := {
  irqs : K → list Z;
  ioevents : K → list (Z * Z);
  irqfd_registers : ∀ irq k r k', kvm_irqfd irq k = (r, k') →
    irqs k' = irqs k ++ (if is_ok r then [irq] else []) ∧ ioevents k' = ioevents k;
  ioevent_registers : ∀ a v k r k', kvm_ioevent a v k = (r, k') →
    ioevents k' = ioevents k ++ (if is_ok r then [(a, v)] else []) ∧ irqs k' = irqs k;
  uring_new_frame : ∀ k b k', uring_new k = (b, k') → irqs k' = irqs k ∧ ioevents k' = ioevents k;
  clone_notify_frame : ∀ k r k', clone_notify k = (r, k') → irqs k' = irqs k ∧ ioevents k' = ioevents k;
}.

(** ** What the host promises of descriptors and sockets *)

(** The open descriptors of TAP devices. *)
Class TapFds (W : Type) `{!TapHost W} := {
  tap_fds : W → gset Z;
  tun_open_fds : ∀ w, match tun_open w with
    | (Ok fd, w') => (fd ∉ tap_fds w) ∧ tap_fds w' = {[fd]} ∪ tap_fds w
    | (Err _, w') => tap_fds w' = tap_fds w
    end;
  tun_setiff_fds : ∀ fd name flags w, tap_fds (tun_setiff fd name flags w).2 = tap_fds w;
  tun_setvnethdrsz_fds : ∀ fd n w, tap_fds (tun_setvnethdrsz fd n w).2 = tap_fds w;
  tun_setoffload_fds : ∀ fd n w, tap_fds (tun_setoffload fd n w).2 = tap_fds w;
  tun_close_fds : ∀ fd w, tap_fds (tun_close fd w) = tap_fds w ∖ {[fd]};
}.

(** The open sockets, and the paths at which there is a socket: [bind] makes one and
    closing it does not remove it. *)
Class SocketFds (W : Type) `{!VsockHost W} := {
  sock_fds : W → gset Z;
  sock_files : W → gset (list Z);
  fs_is_socket_files : ∀ p w, fs_is_socket p w = Some true ↔ p ∈ sock_files w;
  sys_socket_fds : ∀ w, sock_files (sys_socket w).2 = sock_files w ∧ match sys_socket w with
    | (Ok fd, w') => (fd ∉ sock_fds w) ∧ sock_fds w' = {[fd]} ∪ sock_fds w
    | (Err _, w') => sock_fds w' = sock_fds w
    end;
  sys_bind_fds : ∀ fd p w, sock_fds (sys_bind fd p w).2 = sock_fds w ∧
    sock_files (sys_bind fd p w).2 = if is_ok (sys_bind fd p w).1 then {[p]} ∪ sock_files w else sock_files w;
  sys_listen_fds : ∀ fd w, sock_fds (sys_listen fd w).2 = sock_fds w ∧ sock_files (sys_listen fd w).2 = sock_files w;
  sys_close_fds : ∀ fd w, sock_fds (sys_close fd w) = sock_fds w ∖ {[fd]} ∧ sock_files (sys_close fd w) = sock_files w;
  fs_remove_fds : ∀ p w, sock_fds (fs_remove_file p w).2 = sock_fds w ∧
    sock_files (fs_remove_file p w).2 = if is_ok (fs_remove_file p w).1 then sock_files w ∖ {[p]} else sock_files w;
}.

(** ** What the constructors make *)

(** The requests of [Vmm]. *)
Inductive DeviceRequest := NewBlock (path : list Z) | NewNet (ifname : list Z) | NewVsock (cid : Z) (path : list Z).

Definition request_kind (q : DeviceRequest) : MmioKind :=
  match q with NewBlock _ => Block | NewNet _ => Net | NewVsock _ _ => Vsock end.

Definition kind_queues (k : MmioKind) : nat := match k with Block => 1 | Net => 2 | Vsock => 3 end.

Section ready.
Context {Q Mem Chain Rd Wr Efd WB WT WV K : Type} `{VQ : !VirtQueue Q Mem Chain Rd Wr} `{EF : !EventFd Efd}.
Context `{BH : !BlkHost WB, BL : !BlkHostLaws WB} `{TH : !TapHost WT, TF : !TapFds WT} `{VH : !VsockHost WV, SF : !SocketFds WV}.
Context `{DK : !DeviceKvm K, DL : !DeviceKvmLaws K}.
Local Abbreviation H := (Host WB WT WV K).
Implicit Types (k : K) (h : H) (d : Device Q Efd).

Definition new_device (q : DeviceRequest) : prog H (result Error (Device Q Efd)) :=
  match q with
  | NewBlock p => block_new p
  | NewNet n => net_new n
  | NewVsock c p => vsock_new c p
  end.

Definition device_mmio (v : VirtioDevice Q Efd) : VirtioMmio Q Efd :=
  match v with DevBlock t => bt_mmio t | DevNet t => net_mmio t | DevVsock t => vs_mmio t end.

(** The notifications of a device: its register of the window that ACPI describes, one
    for each queue. *)
Definition notifications (kind : MmioKind) : list (Z * Z) :=
  (λ i, (va_base (kind_acpi kind) + REG_QUEUE_NOTIFY, Z.of_nat i)) <$> seq 0 (kind_queues kind).

(** A device of its kind, reset and with a stopped worker, whose window and interrupt are
    the ones ACPI describes and KVM knows. *)
Record device_ready (kind : MmioKind) k d k' : Prop := mkReady {
  dr_kind : device_kind (d_dev d) = kind;
  dr_window : base (device_mmio (d_dev d)) = va_base (kind_acpi kind) ∧ base (device_mmio (d_dev d)) = kind_base kind;
  dr_mmio : mmio_ok (device_mmio (d_dev d)) ∧ status (device_mmio (d_dev d)) = 0;
  dr_queues : length (queues (device_mmio (d_dev d))) = kind_queues kind;
  dr_irq : irqs k' = irqs k ++ [va_irq (kind_acpi kind)];
  dr_ioevents : ioevents k' = ioevents k ++ notifications kind;
  dr_worker : slot (d_life d) = Idle ∧ workers (d_life d) = [];
  dr_disk : is_Some (disk_slot (d_life d)) ↔ kind = Block;
}.

Lemma new_queues_length n sz (qs : list Q) : new_queues n sz = Ok qs → length qs = n.
Proof.
  revert qs. induction n as [|n IH]; intros qs; cbn; [by intros [= <-]|].
  destruct (q_new sz) as [q|]; cbn; [|done]. destruct (new_queues n sz) as [qs'|]; cbn; [|done].
  intros [= <-]. cbn. by rewrite (IH qs').
Qed.

Lemma mmio_new_queues b id f n sz (m : VirtioMmio Q Efd) :
  mmio_new b id f n sz = Ok m → length (queues m) = n.
Proof.
  unfold mmio_new. destruct n as [|n]; [done|]. destruct (efd_new 0) as [e|]; cbn -[new_queues]; [|done]. destruct (efd_new 1) as [e'|]; cbn -[new_queues]; [|done].
  destruct (new_queues (S n) sz) as [qs|] eqn:Eq; cbn -[new_queues]; [|done]. intros [= <-]. by apply new_queues_length in Eq.
Qed.

(** Notifications are registered one after the other. *)
Lemma register_all_ioevents reqs k :
  ∃ r k', register_all kvm_ioevent reqs k = (r, k') ∧ irqs k' = irqs k ∧ (is_ok r = true → ioevents k' = ioevents k ++ reqs).
Proof.
  revert k. induction reqs as [|[a v] reqs IH]; intros k; cbn.
  { exists (Ok tt), k. by rewrite app_nil_r. }
  destruct (kvm_ioevent a v k) as [r k1] eqn:E. apply ioevent_registers in E as [E1 E2]. destruct r as [[]|e].
  - destruct (IH k1) as (r & k' & -> & H1 & H2). exists r, k'. split_and!; [done|congruence|].
    intros Hr. rewrite (H2 Hr), E1. by rewrite <-app_assoc.
  - by exists (Err e), k1.
Qed.

(** Only KVM was used. *)
Definition only_kvm h h' : Prop := h_tap h' = h_tap h ∧ h_sockets h' = h_sockets h.

(** A transport that was made and registered. *)
Record transport_ready (b : Z) (n : nat) (irq : Z) k (m : VirtioMmio Q Efd) k' : Prop := mkTransport {
  tr_ok : mmio_ok m ∧ base m = b ∧ status m = 0;
  tr_queues : length (queues m) = n;
  tr_irq : irqs k' = irqs k ++ [irq];
  tr_ioevents : ioevents k' = ioevents k ++ ((λ i, (b + REG_QUEUE_NOTIFY, Z.of_nat i)) <$> seq 0 n);
}.

Lemma wp_on_kvm {A} (f : K → A * K) (P : A → H → Prop) h :
  (∀ a k', f (h_kvm h) = (a, k') → P a (h <| h_kvm := k' |>)) → wp Total (on_kvm f) P h.
Proof. intros HP. unfold on_kvm. wp_step. apply wp_act. intros a k' E. by apply HP. Qed.

Lemma transport_new_wp b id f n irq h :
  wp Total (transport_new b id f n irq)
    (λ r h', only_kvm h h' ∧ ∀ m, r = Ok m → transport_ready b n irq (h_kvm h) m (h_kvm h')) h.
Proof.
  unfold transport_new. wp_step. wp_step. destruct (mmio_new b id f n QUEUE_MAX_SIZE) as [m|e] eqn:Em; [|done].
  unfold register_irq. wp_step. apply wp_on_kvm. intros r k1 E1. wp_step. wp_step. apply irqfd_registers in E1 as [I1 J1].
  destruct r as [[]|e]; cbn [map_err]; [|done]. wp_step. apply wp_on_kvm. cbn. intros r k2 E2. wp_step. wp_step.
  unfold register_ioeventfds in E2. destruct (register_all_ioevents (ioeventfds m) k1) as (r' & k' & E & Hi & Hj).
  rewrite E in E2. injection E2 as -> ->. destruct r as [[]|e]; cbn [map_err]; [|done]. wp_step. split; [done|]. intros m' [= <-].
  pose proof (mmio_new_queues _ _ _ _ _ _ Em) as Hq. apply mmio_new_ok in Em as (Hok & Hb & _ & _ & Hs).
  split; cbn; [done|done|by rewrite Hi, I1|]. rewrite (Hj eq_refl), J1. unfold ioeventfds. by rewrite Hb, Hq.
Qed.

(** The shell of a device whose transport is ready. *)
Lemma shell_new_wp kind k v disk h :
  device_kind v = kind → kind_base kind = va_base (kind_acpi kind) →
  transport_ready (kind_base kind) (kind_queues kind) (va_irq (kind_acpi kind)) k (device_mmio v) (h_kvm h) →
  (is_Some disk ↔ kind = Block) →
  wp Total (shell_new v disk)
    (λ r h', only_kvm h h' ∧ ∀ d, r = Ok d → d = mkDevice v (shared (dev_new disk)) ∧ device_ready kind k d (h_kvm h')) h.
Proof.
  intros Hk Hb [(T1 & T2 & T3) T4 T5 T6] Hd. unfold shell_new. wp_step. apply wp_on_kvm. intros r k' Ec. wp_step. wp_step.
  apply clone_notify_frame in Ec as [C1 C2].
  destruct r as [[]|e]; cbn [map_err]; [|done]. wp_step. split; [done|]. intros d [= <-]. split; [done|]. split; cbn [d_dev d_life]; try done.
  - split; congruence.
  - cbn. congruence.
  - cbn. rewrite C2, T6. unfold notifications. by rewrite Hb.
Qed.

(** A later step fails: what was made before is dropped. *)
Lemma or_drop_wp {A} (drop : prog H unit) (m : prog H (result Error A)) (P : A → H → Prop) (E : H → Prop) h :
  (∀ h', only_kvm h h' → wp Total drop (λ _, E) h') →
  wp Total m (λ r h', only_kvm h h' ∧ ∀ a, r = Ok a → P a h') h →
  wp Total (or_drop drop m) (λ r h', match r with Ok a => P a h' | Err _ => E h' end) h.
Proof.
  intros Hd Hm. unfold or_drop. wp_step. wp_apply Hm. intros [a|e] h' [Hk HP]; [wp_step; by apply HP|].
  wp_step. wp_apply Hd; [exact Hk|]. intros u h2 He. by wp_step.
Qed.

(** Opening the TAP leaves one descriptor open, or none. *)
Lemma open_tap_wp ifname (w : WT) :
  wp Total (open_tap ifname) (λ r w', match r with
    | Ok (fd, _) => (fd ∉ tap_fds w) ∧ tap_fds w' = {[fd]} ∪ tap_fds w
    | Err _ => tap_fds w' = tap_fds w
    end) w.
Proof.
  assert (∀ fd w1, fd ∉ tap_fds w → tap_fds w1 = {[fd]} ∪ tap_fds w → tap_fds (tun_close fd w1) = tap_fds w) as Hcl
    by (intros fd w1 Hf H1; rewrite tun_close_fds, H1; set_solver).
  unfold open_tap. wp_step; [by wp_step|]. wp_step. apply wp_act. intros r w1 E1. pose proof (tun_open_fds w) as F1.
  rewrite E1 in F1. destruct r as [fd|e]; wp_step; wp_step; cbn [map_err]; [|done]. destruct F1 as [Hf F1].
  wp_step. apply wp_act. intros r w2 E2.
  pose proof (tun_setiff_fds fd (copy_at 0 ifname (replicate 16 0)) (Z.lor (Z.lor IFF_TAP IFF_NO_PI) IFF_VNET_HDR) w1) as F2.
  rewrite E2 in F2. cbn in F2. rewrite F1 in F2. destruct r as [[]|e]; [|do 3 wp_step; by apply Hcl].
  wp_step. apply wp_act. intros r w3 E3. pose proof (tun_setvnethdrsz_fds fd NET_HDR_LEN w2) as F3. rewrite E3 in F3.
  cbn in F3. rewrite F2 in F3. destruct r as [[]|e]; [|do 3 wp_step; by apply Hcl].
  wp_step. apply wp_act. intros r w4 E4. pose proof (tun_setoffload_fds fd TUN_OFFLOADS w3) as F4. rewrite E4 in F4.
  cbn in F4. wp_step. by rewrite F4.
Qed.

(** Why a socket may be left at [p] by a failing [bind]: the arguments were refused before
    the path was looked at, [listen] failed on the socket bound to [p], or it could not be
    removed. *)
Definition bind_refused (c : Z) (p : list Z) : Prop :=
  is_err (validate_guest_cid c) = true ∨ p = [] ∨ MAX_UDS_PATH < zlen p ∨ 0 ∈ p.
Definition listen_failed (p : list Z) : Prop :=
  ∃ fd (w : WV), is_ok (sys_bind fd p w).1 = true ∧ is_err (sys_listen fd (sys_bind fd p w).2).1 = true.
Definition remove_failed (p : list Z) : Prop := ∃ w : WV, is_err (fs_remove_file p w).1 = true.

(** [w'] has the sockets of [w], but at [p]. *)
Definition files_but (p : list Z) (w w' : WV) : Prop := ∀ x, x ≠ p → (x ∈ sock_files w' ↔ x ∈ sock_files w).

(** A failing [bind]. *)
Definition bind_failed c p (w w' : WV) : Prop :=
  sock_fds w' = sock_fds w ∧ files_but p w w' ∧
  (p ∈ sock_files w' → bind_refused c p ∨ listen_failed p ∨ remove_failed p).

(** What is done with a socket that is there already. *)
Lemma remove_stale_wp p (w : WV) :
  wp Total (match fs_is_socket p w with
            | Some true => r ← act (fs_remove_file p); mret (map_err (λ e, VsockErr (MsgIo "remove" e)) r)
            | Some false => mret (Err (VsockErr (Msg "exists and is not a socket")))
            | None => mret (Ok tt)
            end)
    (λ r w', sock_fds w' = sock_fds w ∧ files_but p w w' ∧
       (p ∈ sock_files w' → is_err r = true ∧ remove_failed p)) w.
Proof.
  pose proof (fs_is_socket_files p w) as Hs. destruct (fs_is_socket p w) as [[]|].
  - wp_step. apply wp_act. intros r w1 E. wp_step. destruct (fs_remove_fds p w) as [F1 F2]. rewrite E in F1, F2.
    cbn in F1, F2. split; [done|]. destruct r as [[]|e]; cbn in F2.
    + split; [intros x Hx|]; rewrite F2; set_solver.
    + split; [intros x Hx; by rewrite F2|]. intros _. split; [done|]. exists w. by rewrite E.
  - wp_step. split_and!; [done|done|]. intros H. by apply Hs in H.
  - wp_step. split_and!; [done|done|]. intros H. by apply Hs in H.
Qed.

Lemma files_but_trans p w1 w2 w3 : files_but p w1 w2 → files_but p w2 w3 → files_but p w1 w3.
Proof. intros H1 H2 x Hx. by rewrite (H2 x Hx), (H1 x Hx). Qed.

Lemma mux_bind_fds c p (w : WV) :
  wp Total (mux_bind c p) (λ r w', match r with
    | Ok m => path m = p ∧ (listener m ∉ sock_fds w) ∧ sock_fds w' = {[listener m]} ∪ sock_fds w ∧ files_but p w w'
    | Err _ => bind_failed c p w w'
    end) w.
Proof.
  unfold mux_bind. wp_step. wp_step. destruct (validate_guest_cid c) as [[]|e] eqn:Ec.
  2: { split_and!; [done|done|]. intros _. left. left. by rewrite Ec. }
  destruct (bool_decide (p = []) || (MAX_UDS_PATH <? zlen p)) eqn:Ep.
  { wp_step. split_and!; [done|done|]. intros _. left. right. rewrite orb_true_iff, bool_decide_eq_true, Z.ltb_lt in Ep. tauto. }
  destruct (bool_decide (0 ∈ p)) eqn:E0.
  { wp_step. split_and!; [done|done|]. intros _. left. right. right. right. by apply bool_decide_eq_true in E0. }
  do 3 wp_step. wp_apply remove_stale_wp. intros r w1 (F1 & G1 & R1).
  destruct r as [[]|e]; [|split_and!; [done|done|intros Hp; right; right; by apply R1]].
  assert (p ∉ sock_files w1) as Hp1 by (intros Hp; by destruct (R1 Hp)).
  wp_step. apply wp_act. intros r w2 E2. destruct (sys_socket_fds w1) as [G2 F2]. rewrite E2 in F2, G2. cbn in G2.
  wp_step. wp_step. destruct r as [fd|e]; cbn [map_err]; [|split_and!; [congruence|intros x Hx; by rewrite G2, (G1 x Hx)|by rewrite G2]].
  destruct F2 as [Hf F2]. rewrite F1 in Hf, F2.
  assert (∀ w3, sock_fds w3 = sock_fds w2 → sock_fds (sys_close fd w3) = sock_fds w) as Hcl
    by (intros w3 H3; rewrite (proj1 (sys_close_fds fd w3)), H3, F2; set_solver).
  wp_step. apply wp_act. intros r w3 E3. destruct (sys_bind_fds fd p w2) as [F3 G3]. rewrite E3 in F3, G3. cbn in F3, G3.
  destruct r as [[]|e]; cbn in G3.
  2: { do 3 wp_step. destruct (sys_close_fds fd w3) as [_ G4].
       split_and!; [by apply Hcl|intros x Hx; by rewrite G4, G3, G2, (G1 x Hx)|by rewrite G4, G3, G2]. }
  assert (files_but p w w3) as Hfb by (intros x Hx; rewrite G3, G2; specialize (G1 x Hx); set_solver).
  wp_step. apply wp_act. intros r w4 E4. destruct (sys_listen_fds fd w3) as [F4 G4]. rewrite E4 in F4, G4. cbn in F4, G4.
  destruct r as [[]|e].
  - wp_step. cbn. split_and!; [done|done|congruence|intros x Hx; by rewrite G4, (Hfb x Hx)].
  - do 3 wp_step. destruct (sys_close_fds fd w4) as [_ G5]. split_and!; [apply Hcl; congruence|intros x Hx; by rewrite G5, G4, (Hfb x Hx)|].
    intros _. right. left. exists fd, w2. rewrite E3. cbn. by rewrite E4.
Qed.

(** Dropping the multiplexer. *)
Lemma mux_drop_wp m (w : WV) :
  wp Total (mux_drop m) (λ _ w', sock_fds w' = sock_fds w ∖ {[listener m]} ∧ files_but (path m) w w' ∧
    (path m ∈ sock_files w' → remove_failed (path m))) w.
Proof.
  unfold mux_drop. wp_step. apply wp_act. intros r w1 E. wp_step. destruct (fs_remove_fds (path m) w) as [F1 G1].
  rewrite E in F1, G1. cbn in F1, G1. destruct (sys_close_fds (listener m) w1) as [F2 G2].
  split; [by rewrite F2, F1|]. unfold files_but. rewrite G2, G1. destruct r as [[]|e]; cbn; [set_solver|].
  split; [done|]. intros _. exists w. by rewrite E.
Qed.

(** The geometry of a block device: the advertised capacity is the length of the image in
    whole sectors, at least one; its disk uses direct I/O exactly when the image could be
    opened for it, with an alignment of at least a sector, and a scratch block of 64 KiB. *)
Definition block_geometry d : Prop :=
  match d_dev d with
  | DevBlock t =>
      1 ≤ capacity_sectors t ∧
      ∃ disk, disk_slot (d_life d) = Some disk ∧
        (∃ w1, file_len (buffered_file disk) w1 = Ok (capacity_sectors t * SECTOR_SIZE)) ∧
        use_direct disk = bool_decide (is_Some (direct_file disk)) ∧ SECTOR_SIZE ≤ direct_align disk ∧
        zlen (buf_bytes (scratch disk)) = cap (scratch disk) ∧ SCRATCH_INITIAL ≤ cap (scratch disk)
  | _ => True
  end.

(** What a constructor that fails leaves: no descriptor of a TAP and no socket that was not
    open before; no path has a socket that had none and none was removed, but at the path
    asked for, where a socket is left only for the reasons named. *)
Definition given_back (q : DeviceRequest) h h' : Prop :=
  match q with
  | NewBlock _ => h_tap h' = h_tap h ∧ h_sockets h' = h_sockets h
  | NewNet _ => tap_fds (h_tap h') = tap_fds (h_tap h) ∧ h_sockets h' = h_sockets h
  | NewVsock c p => h_tap h' = h_tap h ∧ bind_failed c p (h_sockets h) (h_sockets h')
  end.

Definition new_device_post q h (r : result Error (Device Q Efd)) h' : Prop :=
  match r with
  | Ok d => device_ready (request_kind q) (h_kvm h) d (h_kvm h') ∧ block_geometry d
  | Err _ => given_back q h h'
  end.

Lemma wp_exact {S A} (m : prog S A) P (x : S) : wp Total m P x → wp Total m (λ a y, m x = Ret (a, y) ∧ P a y) x.
Proof. unfold wp. by destruct (m x) as [[a s']| |]. Qed.

Lemma block_new_wp p h : wp Total (block_new p) (new_device_post (NewBlock p) h) h.
Proof.
  unfold block_new, on_disk. wp_step. wp_step. wp_apply check_image_wp. intros [[o caps]|e] w1 Ho; [|done].
  destruct (Ho o caps eq_refl) as ((w2 & len & Hl & Hlen) & Hc & _ & Ha). cbn beta iota.
  wp_step. wp_apply transport_new_wp. intros [m|e] h1 [[K1 K2] Ht]; [|done]. specialize (Ht m eq_refl).
  wp_step. wp_step. wp_apply aligned_new_wp; [by unfold SCRATCH_INITIAL|]. intros [b|e] w3 Hb; wp_step; wp_step; cbn [map_err]; [|done].
  destruct (Hb b eq_refl) as [Hb1 Hb2]. wp_step. apply wp_on_kvm. cbn. intros ring k4 Er. apply uring_new_frame in Er as [E1 E2].
  wp_apply (shell_new_wp Block (h_kvm h)); [done|done| |by split|].
  { destruct Ht as [T1 T2 T3 T4]. split; cbn; [exact T1|exact T2|by rewrite E1|by rewrite E2]. }
  intros [d|e] h2 [[K3 K4] Hd]; [|by split; [rewrite K3|rewrite K4]]. destruct (Hd d eq_refl) as [-> Hr]. split; [exact Hr|]. unfold block_geometry. cbn.
  split; [done|]. eexists. split_and!; [done|exists w2; cbn; by rewrite <-Hlen|done..].
Qed.

(** The transport and the shell of a device without a disk. *)
Lemma assemble_wp kind (v : VirtioMmio Q Efd → VirtioDevice Q Efd) id f h h0 :
  (∀ m, device_kind (v m) = kind ∧ device_mmio (v m) = m) → kind ≠ Block → kind_base kind = va_base (kind_acpi kind) →
  h_kvm h = h_kvm h0 →
  wp Total (mmio ←? transport_new (kind_base kind) id f (kind_queues kind) (va_irq (kind_acpi kind)); shell_new (v mmio) None)
    (λ r h', only_kvm h h' ∧ ∀ d, r = Ok d → device_ready kind (h_kvm h0) d (h_kvm h') ∧ block_geometry d) h.
Proof.
  intros Hv Hk Hb <-. wp_step. wp_apply transport_new_wp. intros [m|e] h1 [[K1 K2] Ht]; [|done].
  destruct (Hv m) as [V1 V2]. wp_apply (shell_new_wp kind (h_kvm h)); [done|done|rewrite V2; by apply Ht|by split; [intros []|]|].
  intros r h2 [[K3 K4] Hd]. split; [split; congruence|]. intros d ->. destruct (Hd d eq_refl) as [-> Hr]. split; [done|].
  unfold block_geometry. cbn. by destruct (v m), kind.
Qed.

Lemma net_new_wp n h : wp Total (net_new n) (new_device_post (NewNet n) h) h.
Proof.
  unfold net_new, on_tap at 1. wp_step. wp_step. wp_apply open_tap_wp.
  intros [[fd o]|e] w1 Ho; [|done]. destruct Ho as [Hf Ho]. cbn beta iota.
  eapply wp_mono; [apply (or_drop_wp _ _ (λ d h', device_ready Net (h_kvm h) d (h_kvm h') ∧ block_geometry d) (given_back (NewNet n) h))|].
  - intros h2 [K1 K2]. unfold on_tap. wp_step. wp_step. cbn. split; [|by rewrite K2].
    rewrite tun_close_fds, K1. cbn. rewrite Ho. set_solver.
  - by apply (assemble_wp Net (λ m, DevNet (net_state_new m n))).
  - by intros [d|e] h' Hp.
Qed.

Lemma vsock_new_wp c p h : wp Total (vsock_new c p) (new_device_post (NewVsock c p) h) h.
Proof.
  unfold vsock_new, on_sockets at 1. wp_step. wp_step. wp_apply mux_bind_fds.
  intros [x|e] w1 Hx; [|done]. destruct Hx as (Hp & Hf & Ho & Hb). cbn beta iota.
  eapply wp_mono; [apply (or_drop_wp _ _ (λ d h', device_ready Vsock (h_kvm h) d (h_kvm h') ∧ block_geometry d) (given_back (NewVsock c p) h))|].
  - intros h2 [K1 K2]. unfold on_sockets. wp_step. rewrite K2. cbn. wp_apply mux_drop_wp. rewrite Hp, Ho. intros [] w2 (D1 & D2 & D3).
    split; [done|]. cbn. split_and!; [rewrite D1; set_solver|by eapply files_but_trans|]. intros Hin. right. right. by apply D3.
  - by apply (assemble_wp Vsock (λ m, DevVsock (vsock_state_new m x))).
  - by intros [d|e] h' Hp'.
Qed.

Lemma new_device_wp q h : wp Total (new_device q) (new_device_post q h) h.
Proof. destruct q; [apply block_new_wp|apply net_new_wp|apply vsock_new_wp]. Qed.

(** C17: the constructors of the three devices return. A device they make is of its kind, is
    reset, with the queues of its kind and a stopped worker; the window and the interrupt
    that ACPI describes to the guest are the ones it has and KVM knows, with a
    notification for each queue; a block device has the geometry of its image. One that
    fails, at whatever step, leaves no descriptor of a TAP and no socket open that was not
    open before, and leaves the socket files alone but for the path it was given: there a
    socket is left only if the arguments were refused before the path was looked at, or the
    socket could not be removed, or [listen] failed after [bind], a case in which the
    code does not remove it. *)
Theorem devices_created q h :
  ∃ r h', new_device q h = Ret (r, h') ∧
    match r with
    | Ok d => device_ready (request_kind q) (h_kvm h) d (h_kvm h') ∧ block_geometry d
    | Err _ => given_back q h h'
    end.
Proof. by apply (wp_total_inv _ _ _ (new_device_wp q h)). Qed.

End ready.

#[export] Instance Device_kind {Q Efd} : DeviceKind (Device Q Efd) := { dev_kind d := device_kind (d_dev d) }.

(** ** The devices of a running machine *)

Section machine.
Context {Q Mem Chain Rd Wr Efd WB WT WV K : Type} `{VQ : !VirtQueue Q Mem Chain Rd Wr} `{EF : !EventFd Efd}.
Context `{BH : !BlkHost WB, BL : !BlkHostLaws WB} `{TH : !TapHost WT, TF : !TapFds WT} `{VH : !VsockHost WV, SF : !SocketFds WV}.
Context `{DK : !DeviceKvm K, DL : !DeviceKvmLaws K}.
Local Abbreviation H := (Host WB WT WV K).
Context {V GMem P U : Type} `{UH : !SerialHost U, UL : !SerialHostLaws U}.

(** A request to [Vmm]. *)
Definition attach_request (q : DeviceRequest) : attach (W := H) (Dev := Device Q Efd) :=
  match q with
  | NewBlock p => AttachBlock (block_new p)
  | NewNet n => AttachNet (net_new n)
  | NewVsock c p => AttachVsock (vsock_new c p)
  end.

(** What the run loop and the guest rely on. *)
Definition dispatched (d : Device Q Efd) : Prop := md_ok (Mem := Mem) (d_dev d).

Lemma attach_request_ok q : attach_ok dispatched (attach_request q).
Proof.
  intros h. assert (wp Total (attach_new (attach_request q)) (new_device_post q h) h) as Hw
    by (destruct q; cbn; [apply block_new_wp|apply net_new_wp|apply vsock_new_wp]).
  wp_apply Hw. intros r s' Hp d ->. destruct Hp as [[Hk [_ Hb] _ _ _ _ _ _] _]. split.
  - cbn. rewrite Hk. by destruct q.
  - unfold dispatched, md_ok. cbn. rewrite Hk, <-Hb. by destruct (d_dev d).
Qed.

(** Devices of different kinds that are where they should be: each is reached at its
    window, and no exit makes the run loop panic. *)
Definition served_by (devs : list (VirtioDevice Q Efd)) : Prop :=
  (∀ i d addr, devs !! i = Some d →
     va_base (kind_acpi (device_kind d)) ≤ addr < va_base (kind_acpi (device_kind d)) + va_size (kind_acpi (device_kind d)) →
     find_dev (Mem := Mem) addr devs = Some i) ∧
  (∀ fuel ctx (mem : Mem) ts (s : RunSt U Efd (VirtioDevice Q Efd)),
     rs_devs s = devs → rs_stop s = false → run_vcpu_loop fuel ctx mem ts s ≠ Panic).

Lemma devices_served (ds : list (Device Q Efd)) :
  NoDup (dev_kind <$> ds) → Forall dispatched ds → served_by (d_dev <$> ds).
Proof.
  intros Hn Hg. assert ((device_kind <$> (d_dev <$> ds)) = (dev_kind <$> ds)) as Hkinds by (by rewrite <-list_fmap_compose).
  split.
  - intros i d addr Hi Ha. eapply find_dev_unique; [by rewrite Hkinds|done|]. cbn. unfold in_range, dev_range. cbn.
    apply andb_true_iff. rewrite Z.leb_le, Z.ltb_lt. destruct (device_kind d); exact Ha.
  - intros fuel ctx mem ts s Hs Hst. eapply wp_no_panic, (run_vcpu_loop_wp fuel ctx mem ts s); [|done].
    unfold devs_ok. rewrite Hs. by apply Forall_fmap.
Qed.

(** A machine serves its devices. Whatever devices were asked for and whichever failed,
    an access to the window that ACPI describes for an attached device is dispatched to
    that device, and no sequence of exits of the guest makes the loop of a vCPU panic. *)
Theorem machine_serves_devices (l : list DeviceRequest) (vm : Vmm V GMem P (Device Q Efd)) (h : H) :
  mmio_devices vm = [] →
  ∃ rs s', attach_all (attach_request <$> l) (vm, h) = Ret (rs, s') ∧
    let devs := d_dev <$> mmio_devices s'.1 in
    (device_kind <$> devs) = attached (attach_request <$> l) rs ∧
    served_by devs.
Proof.
  intros Hvm. assert (Forall (attach_ok dispatched) (attach_request <$> l)) as Hok
    by (apply Forall_fmap, Forall_true; intros q; apply attach_request_ok).
  destruct (wp_total_inv _ _ _ (attach_all_wp dispatched _ (vm, h) Hok ltac:(cbn; rewrite Hvm; constructor) ltac:(cbn; by rewrite Hvm)))
    as (rs & s' & E & _ & Hk & Hn & Hg & _).
  exists rs, s'. split; [exact E|]. cbn zeta. cbn [fst] in Hk. rewrite Hvm in Hk. cbn [fmap list_fmap app] in Hk.
  split; [by rewrite <-Hk, <-list_fmap_compose|by apply devices_served].
Qed.

End machine.

(** ** A recording host *)

(** Whether the notification descriptor can be cloned, and what was registered. *)
Record SKvm := mkSKvm { sk_clones : bool; sk_irqs : list Z; sk_ioevents : list (Z * Z) }.
#[export] Instance eta_SKvm : Eta SKvm := λ k, mkSKvm (sk_clones k) (sk_irqs k) (sk_ioevents k).

#[export] Instance Recording_kvm : DeviceKvm SKvm := {
  kvm_irqfd irq k := (Ok tt, k <| sk_irqs ::= λ l, l ++ [irq] |>);
  kvm_ioevent a v k := (Ok tt, k <| sk_ioevents ::= λ l, l ++ [(a, v)] |>);
  uring_new k := (false, k);
  clone_notify k := (if sk_clones k then Ok tt else Err "EMFILE", k);
}.

#[export] Program Instance Recording_kvm_laws : DeviceKvmLaws SKvm := { irqs := sk_irqs; ioevents := sk_ioevents }.
Next Obligation. by intros irq k r k' [= <- <-]. Qed.
Next Obligation. by intros a v k r k' [= <- <-]. Qed.
Next Obligation. by intros k b k' [= _ <-]. Qed.
Next Obligation. by intros k r k' [= _ <-]. Qed.

(** A host [W] with its descriptors and socket files; [listen] can be made to fail. *)
Record Fds (W : Type) := mkFds { fd_base : W; fd_open : gset Z; fd_files : gset (list Z); fd_listens : bool }.
Arguments mkFds {W}.
Arguments fd_base {W}.
Arguments fd_open {W}.
Arguments fd_files {W}.
Arguments fd_listens {W}.
#[export] Instance eta_Fds {W} : Eta (Fds W) := λ h, mkFds (fd_base h) (fd_open h) (fd_files h) (fd_listens h).

Definition on_base {W A} (f : W → A * W) (h : Fds W) : A * Fds W :=
  let '(a, w) := f (fd_base h) in (a, h <| fd_base := w |>).
Definition fd_new {W} (h : Fds W) : result io_error Z * Fds W :=
  (Ok (fresh (fd_open h)), h <| fd_open ::= λ s, {[fresh (fd_open h)]} ∪ s |>).

#[export] Instance Fds_tap {W} `{!TapHost W} : TapHost (Fds W) := {
  tap_write p := on_base (tap_write p);
  tap_read n := on_base (tap_read n);
  tun_open := fd_new;
  tun_setiff _ _ _ h := (Ok tt, h);
  tun_setvnethdrsz _ _ h := (Ok tt, h);
  tun_setoffload _ _ h := (Err (OsError EINVAL), h);
  tun_close fd h := h <| fd_open ::= λ s, s ∖ {[fd]} |>;
}.

#[export] Instance Fds_tap_laws {W} `{!TapHost W} : TapFds (Fds W).
Proof. refine {| tap_fds := fd_open |}; try done. intros w. cbn. split; [apply is_fresh|done]. Defined.

#[export] Instance Fds_sockets {W} `{!VsockHost W} : VsockHost (Fds W) := {
  sys_send fd bs := on_base (sys_send fd bs);
  sys_read fd n := on_base (sys_read fd n);
  sys_accept4 fd := on_base (sys_accept4 fd);
  sys_socket := fd_new;
  sys_connect fd p := on_base (sys_connect fd p);
  sys_so_error fd := on_base (sys_so_error fd);
  sys_shutdown fd how h := h <| fd_base ::= sys_shutdown fd how |>;
  sys_close fd h := h <| fd_open ::= λ s, s ∖ {[fd]} |>;
  sys_bind _ p h := (Ok tt, h <| fd_files ::= λ s, {[p]} ∪ s |>);
  sys_listen _ h := (if fd_listens h then Ok tt else Err (OsError EINVAL), h);
  fs_is_socket p h := if decide (p ∈ fd_files h) then Some true else None;
  fs_remove_file p h := (Ok tt, h <| fd_files ::= λ s, s ∖ {[p]} |>);
  now := on_base now;
}.

#[export] Instance Fds_sockets_laws {W} `{!VsockHost W} : SocketFds (Fds W).
Proof.
  refine {| sock_fds := fd_open; sock_files := fd_files |}; try done.
  - intros p w. cbn. by case_decide.
  - intros w. cbn. split_and!; [done|apply is_fresh|done].
Defined.

Definition demo_parts (clones : bool) : Host SBlk (Fds STap) (Fds VsockMux.SHost) SKvm :=
  mkHost (mkSBlk ∅ ∅ [] None false [] 0) (mkFds (mkSTap [] [] [] 0 0) ∅ ∅ true) (mkFds sh_empty ∅ ∅ true) (mkSKvm clones [] []).

Lemma devices_created_witness :
  ∃ (d : Device SQueue Z) h', new_device (NewBlock [100]) (demo_parts true) = Ret (Ok d, h') ∧
    device_ready Block (h_kvm (demo_parts true)) d (h_kvm h') ∧ block_geometry (WB := SBlk) d ∧ sk_irqs (h_kvm h') = [5].
Proof.
  destruct (devices_created (Q := SQueue) (Efd := Z) (NewBlock [100]) (demo_parts true)) as (r & h' & E & Hp).
  assert (ret_of (λ p, is_ok p.1) (new_device (Q := SQueue) (Efd := Z) (NewBlock [100]) (demo_parts true)) = Some true)
    as Er by (vm_compute; reflexivity).
  rewrite E in Er. destruct r as [d|e]; [|discriminate Er]. exists d, h'. split; [exact E|]. destruct Hp as [Hr Hg].
  split; [exact Hr|]. split; [exact Hg|]. apply (dr_irq _ _ _ _ Hr).
Defined.

Lemma machine_serves_devices_witness :
  ∃ rs s', attach_all (attach_request <$> [NewVsock 3 [118]; NewBlock [100]; NewBlock [101]])
             (mkVmm tt [tt] tt [] 1 true false, demo_parts true) = Ret (rs, s') ∧
    is_ok <$> rs = [true; true; false] ∧
    find_dev (Mem := SMem) (VIRTIO_MMIO_BASE + REG_CONFIG) (d_dev <$> mmio_devices s'.1 : list (VirtioDevice SQueue Z)) = Some 1%nat.
Proof.
  destruct (machine_serves_devices (Q := SQueue) (Efd := Z) (Mem := SMem) (U := SUart) [NewVsock 3 [118]; NewBlock [100]; NewBlock [101]]
    (mkVmm tt [tt] tt [] 1 true false) (demo_parts true)) as (rs & s' & E & _ & [Hd _]); [reflexivity|].
  exists rs, s'. split; [exact E|].
  assert (ret_of (λ p, (is_ok <$> p.1, device_kind <$> (d_dev <$> mmio_devices p.2.1)))
    (attach_all (attach_request (Q := SQueue) (Efd := Z) <$> [NewVsock 3 [118]; NewBlock [100]; NewBlock [101]])
       (mkVmm tt [tt] tt [] 1 true false, demo_parts true)) = Some ([true; true; false], [Vsock; Block])) as Er by (vm_compute; reflexivity).
  rewrite E in Er. cbn [ret_of fst snd] in Er. injection Er as Er1 Er2. split; [exact Er1|].
  destruct ((d_dev <$> mmio_devices s'.1) !! 1%nat) as [d|] eqn:Ed.
  - apply (Hd 1%nat d); [exact Ed|]. apply (f_equal (lookup 1%nat)) in Er2. rewrite list_lookup_fmap, Ed in Er2.
    injection Er2 as ->. zcompute.
  - apply (f_equal (lookup 1%nat)) in Er2. rewrite list_lookup_fmap, Ed in Er2. discriminate Er2.
Defined.

(** A failing [listen] leaves the socket file that [bind] made. *)
Theorem listen_failure_leaves_socket :
  ∃ e h', new_device (Q := SQueue) (Efd := Z) (NewVsock 3 [118])
      ((demo_parts true) <| h_sockets := mkFds sh_empty ∅ ∅ false |>) = Ret (Err e, h') ∧
    [118] ∈ sock_files (h_sockets h') ∧ sock_fds (h_sockets h') = ∅.
Proof.
  do 2 eexists. split; [vm_compute; reflexivity|]. split; [|vm_compute; reflexivity].
  apply (bool_decide_unpack _). vm_compute. exact I.
Qed.
