(* ===== verification/Cli.v ===== *)
(** * The command line program

    [main.rs]: the checks on the arguments, and the machine that is put together from
    them. The parsing of the arguments themselves, with their ranges and conflicts, is
    done by [clap]. *)

From S2P Require Import Prelude Words Errors GuestMem Kvm Memory Boot Vcpu VirtQueue VsockMux VsockMuxFacts Acpi.
From S2P Require Cmdline.
From S2P Require Import VcpuRun Vmm VmmLoad VmmRun.
Local Open Scope Z_scope.

(** ** Arguments *)

(** Paths and strings are the bytes of their text. *)
Record RunArgs := mkArgs {
  a_kernel : option (list Z); a_initrd : option (list Z); a_block : option (list Z); a_tap : option (list Z);
  a_vsock : option (list Z); a_cmdline : list Z; a_flat_binary : option (list Z);
  a_memory : Z; a_cpus : Z; a_load_addr : Z; a_entry : Z;
}.

(** [split_once(c)]. *)
Fixpoint split_once (c : Z) (l : list Z) : option (list Z * list Z) :=
  match l with
  | [] => None
  | b :: l => if b =? c then Some ([], l) else (λ '(x, y), (b :: x, y)) <$> split_once c l
  end.

Definition strip_plus (l : list Z) : list Z := match l with b :: l' => if b =? 43 then l' else l | [] => [] end.

(** [str::parse::<u64>]: an optional plus sign and at least one digit. *)
Definition parse_u64 (l : list Z) : option Z :=
  let digits := strip_plus l in
  if bool_decide (digits = []) || negb (forallb is_ascii_digit digits) then None
  else if digits_value digits <? 2 ^ 64 then Some (digits_value digits) else None.

Definition COLON : Z := 58.

Definition split_vsock (spec : list Z) : option (Z * list Z) :=
  '(cid, path) ← split_once COLON spec;
  cid ← parse_u64 cid;
  if bool_decide (path = []) then None else Some (cid, path).

(** ** The program *)

(** How it ends: with a usage error, or with the result of the machine. *)
Inductive CliEnd := Usage (msg : string) | Finished (r : result Error unit).

Definition exit_code (e : CliEnd) : Z :=
  match e with Usage _ => 2 | Finished (Ok _) => 0 | Finished (Err _) => 1 end.

(** Files and the constructors of the devices. *)
Class CliHost (W Dev F : Type) := {
  open_file : list Z → W → result io_error F;
  read_file : list Z → W → result io_error (list Z);
  new_block : list Z → prog W (result Error Dev);
  new_net : list Z → prog W (result Error Dev);
  new_vsock : Z → list Z → prog W (result Error Dev);
}.

(** The first match on the arguments. *)
Definition usage_error (a : RunArgs) : option string :=
  match a_kernel a, a_flat_binary a with
  | None, None => Some "either --kernel or --flat-binary is required"
  | Some _, None => if a_memory a <? 32 then Some "kernel boot requires at least 32 MiB of memory" else None
  | None, Some _ => if negb (a_cpus a =? 1) then Some "--flat-binary supports only --cpus 1" else None
  | Some _, Some _ => None
  end.

Section cli.
Context {W V Mem P Dev F : Type}.
Context `{VH : !VmHost W V P} `{MH : !MemHost Mem W} `{KV : !KvmVcpu V} `{KM : !KvmMpState V}.
Context `{GM : !GuestMemory Mem} `{KH : !KernelHost F Mem} `{AT : !AcpiTables} `{DK : !DeviceKind Dev}.
Context `{CH : !CliHost W Dev F} `{RH : !RunHost W}.
Local Abbreviation Vm := (Vmm V Mem P Dev).

(** [?] in [run]. *)
Definition or_finish {S A} (m : prog S (result Error A)) (k : A → prog S (CliEnd + unit)) : prog S (CliEnd + unit) :=
  r ← m; match r with Ok x => k x | Err e => mret (inl (Finished (Err e))) end.

(** [mem_size] of the configuration; [usize] has 64 bits. *)
Definition cli_config (a : RunArgs) : VmmConfig := mkVmmConfig (a_memory a * 1024 * 1024) (a_cpus a).

Definition cli_opts (a : RunArgs) : Cmdline.KernelCmdlineOpts :=
  Cmdline.mkOpts (bool_decide (is_Some (a_initrd a))) (bool_decide (is_Some (a_block a)))
    (bool_decide (is_Some (a_tap a))) (bool_decide (is_Some (a_vsock a))).

(** An optional device. *)
Definition attach_if {A} (o : option A) (m : A → prog (Vm * W) (result Error unit)) (k : prog (Vm * W) (CliEnd + unit))
    : prog (Vm * W) (CliEnd + unit) :=
  match o with Some x => or_finish (m x) (λ _, k) | None => k end.

Definition cli_load (a : RunArgs) : prog (Vm * W) (CliEnd + unit) :=
  w ← gets snd;
  match a_kernel a with
  | Some kernel =>
      let cmdline := Cmdline.build_kernel_cmdline (a_cmdline a) (cli_opts a) in
      or_finish (load_kernel (open_file kernel w) ((λ p, read_file (Dev := Dev) (F := F) p w) <$> a_initrd a) cmdline) (λ _, mret (inr tt))
  | None =>
      match a_flat_binary a with
      | Some flat =>
          or_finish (mret (map_err ImageIo (read_file (Dev := Dev) (F := F) flat w))) (λ image,
          or_finish (load_flat_binary image (a_load_addr a) (a_entry a)) (λ _, mret (inr tt)))
      | None => mret (inr tt)
      end
  end.

(** From the machine to the point where it runs. *)
Definition cli_assemble (a : RunArgs) : prog (Vm * W) (CliEnd + unit) :=
  attach_if (a_block a) (λ path, add_block_device (new_block path)) (
  attach_if (a_tap a) (λ ifname, add_net_device (new_net ifname)) (
  match a_vsock a with
  | Some spec =>
      match split_vsock spec with
      | None => mret (inl (Usage "--vsock must be CID:PATH with CID >= 3"))
      | Some (cid, path) => or_finish (add_vsock_device (new_vsock cid path)) (λ _, cli_load a)
      end
  | None => cli_load a
  end)).

(** Run an operation of the machine [vm]. *)
Definition with_vmm {A} (vm : Vm) (m : prog (Vm * W) A) : prog W (A * Vm) := λ w,
  match m (vm, w) with
  | Ret (r, (vm', w')) => Ret ((r, vm'), w')
  | Panic => Panic
  | Prelude.Running => Prelude.Running
  end.

Definition cli_prepare (a : RunArgs) : prog W (CliEnd + Vm) :=
  match usage_error a with
  | Some msg => mret (inl (Usage msg))
  | None =>
      r ← vmm_new (cli_config a);
      match r with
      | Err e => mret (inl (Finished (Err e)))
      | Ok vm =>
          p ← with_vmm vm (cli_assemble a);
          let '(r, vm) := p in
          match r with inl e => mret (inl e) | inr _ => mret (inr vm) end
      end
  end.

Definition cli_run (a : RunArgs) : prog W CliEnd :=
  r ← cli_prepare a;
  match r with
  | inl e => mret e
  | inr vm => p ← with_vmm vm vmm_run; mret (Finished p.1)
  end.

End cli.

(** ** The vsock argument *)

(** [format!("{n}")] of a [u64]: twenty digits are enough. *)
Definition dec_u64 (n : Z) : list Z := dec_digits 20 n [].

Lemma split_once_app c x y : c ∉ x → split_once c (x ++ c :: y) = Some (x, y).
Proof.
  induction x as [|b x IH]; intros Hx; cbn; [by rewrite Z.eqb_refl|].
  apply not_elem_of_cons in Hx as [Hb Hx]. rewrite (proj2 (Z.eqb_neq b c)) by done. by rewrite IH.
Qed.

Lemma split_once_Some c l x y : split_once c l = Some (x, y) → l = x ++ c :: y ∧ c ∉ x.
Proof.
  revert x. induction l as [|b l IH]; intros x; [done|]. cbn. destruct (Z.eqb_spec b c) as [->|Hb].
  - intros [= <- <-]. split; [done|apply not_elem_of_nil].
  - destruct (split_once c l) as [[x' y']|]; [|done]. intros [= <- <-]. destruct (IH x' eq_refl) as [-> Hx].
    split; [done|]. by apply not_elem_of_cons.
Qed.

Lemma digits_value_nonneg ds : Forall (λ b, is_ascii_digit b = true) ds → 0 ≤ digits_value ds.
Proof.
  intros Hd. unfold digits_value. enough (∀ v, 0 ≤ v → 0 ≤ fold_left (λ v b, 10 * v + (b - 48)) ds v) as H by (by apply H).
  induction Hd as [|b ds Hb Hd IH]; intros v Hv; cbn; [done|]. apply IH.
  unfold is_ascii_digit in Hb. apply andb_true_iff in Hb as [Hb%Z.leb_le _]. lia.
Qed.

Lemma strip_plus_digits ds : Forall (λ b, is_ascii_digit b = true) ds → strip_plus ds = ds.
Proof. intros [|b l Hb Hl]; [done|]. cbn. by destruct (Z.eqb_spec b 43) as [->|]. Qed.

Lemma strip_plus_cases l : l = strip_plus l ∨ l = 43 :: strip_plus l.
Proof. destruct l as [|b l]; [by left|]. cbn. destruct (Z.eqb_spec b 43) as [->|]; [by right|by left]. Qed.

(** The argument of [--vsock]. A number and a path, joined by a colon, are read back,
    also when the path has colons of its own; and whatever is accepted is such a pair of
    a 64-bit number in digits, possibly signed with a plus, and a path that is not
    empty, split at the first colon. *)
Theorem split_vsock_roundtrip :
  (∀ cid path, is_u64 cid → path ≠ [] → split_vsock (dec_u64 cid ++ COLON :: path) = Some (cid, path)) ∧
  (∀ spec cid path, split_vsock spec = Some (cid, path) →
     path ≠ [] ∧ is_u64 cid ∧
     ∃ ds, (spec = ds ++ COLON :: path ∨ spec = 43 :: ds ++ COLON :: path) ∧
           Forall (λ b, is_ascii_digit b = true) ds ∧ digits_value ds = cid).
Proof.
  split.
  - intros cid path Hc Hp. unfold uint in Hc.
    assert (Forall (λ b, is_ascii_digit b = true) (dec_u64 cid)) as Hd by (apply dec_digits_are_digits; [lia|constructor]).
    assert (digits_value (dec_u64 cid) = cid) as Hv.
    { unfold digits_value, dec_u64. rewrite dec_digits_value; [done| |lia].
      change (10 ^ Z.of_nat 20) with 100000000000000000000. lia. }
    assert (dec_u64 cid ≠ []) as Hne.
    { intros H. pose proof (dec_digits_length 20 cid []) as Hl. fold (dec_u64 cid) in Hl. rewrite H in Hl. cbn in Hl. lia. }
    unfold split_vsock. rewrite split_once_app.
    2: { intros Hin. rewrite Forall_forall in Hd. by specialize (Hd _ Hin). }
    cbn [mbind option_bind]. unfold parse_u64. rewrite strip_plus_digits by done.
    set (ds := dec_u64 cid) in *. clearbody ds.
    rewrite bool_decide_eq_false_2 by done. rewrite (proj2 (forallb_Forall _ _) Hd). cbn [negb orb].
    rewrite Hv. rewrite (proj2 (Z.ltb_lt cid (2 ^ 64))) by lia. cbn. by rewrite bool_decide_eq_false_2.
  - intros spec cid path. unfold split_vsock. destruct (split_once COLON spec) as [[x y]|] eqn:Es; [|done]. cbn.
    apply split_once_Some in Es as [-> _]. unfold parse_u64.
    generalize (strip_plus_cases x). generalize (strip_plus x). intros digits Hx.
    destruct (bool_decide (digits = []) || negb (forallb is_ascii_digit digits)) eqn:E1; [done|].
    apply orb_false_iff in E1 as [_ Hd%negb_false_iff]. apply forallb_Forall in Hd.
    destruct (Z.ltb_spec (digits_value digits) (2 ^ 64)); [|done]. cbn. case_bool_decide; [done|]. intros [= <- <-].
    split; [done|]. split; [split; [by apply digits_value_nonneg|done]|]. exists digits. split; [|done].
    destruct Hx as [->| ->]; auto.
Qed.

(** ** The machine that is put together *)

(** The interface to what the program calls. The constructors give devices of their kind
    that are ready ([dev_ready]): the laws on them are discharged in [System] by the
    constructors of [Devices]. Guest memory is one region from address 0, and the AML of
    at most three devices fits its table. Of the files nothing is said. *)
Class CliHostLaws (W Mem Dev F : Type) `{!MemHost Mem W, !MemHostLaws Mem W, !GuestMemory Mem, !KernelHost F Mem,
    !AcpiTables, !DeviceKind Dev, !CliHost W Dev F} := {
  dev_ready : Dev → Prop;
  region_last : ∀ m : Mem, last_addr m = region_size m - 1;
  new_block_kind : ∀ p (w : W), wp Total (new_block (Dev := Dev) (F := F) p) (λ r _, ∀ d, r = Ok d → dev_kind d = Block ∧ dev_ready d) w;
  new_net_kind : ∀ p (w : W), wp Total (new_net (Dev := Dev) (F := F) p) (λ r _, ∀ d, r = Ok d → dev_kind d = Net ∧ dev_ready d) w;
  new_vsock_kind : ∀ c p (w : W), wp Total (new_vsock (Dev := Dev) (F := F) c p) (λ r _, ∀ d, r = Ok d → dev_kind d = Vsock ∧ dev_ready d) w;
  dsdt_small : ∀ ks, (length ks ≤ 3)%nat → zlen (dsdt_aml (kind_acpi <$> ks)) ≤ 0x10000;
}.

(** The ranges and the conflict of the arguments that [clap] enforces. *)
Definition args_ok (a : RunArgs) : Prop :=
  1 ≤ a_memory a ≤ MAX_MEMORY_MIB ∧ 1 ≤ a_cpus a ≤ MAX_VCPUS ∧ 0 ≤ a_load_addr a ∧
  (a_kernel a = None ∨ a_flat_binary a = None).

(** The devices asked for. *)
Definition wanted (a : RunArgs) : list MmioKind :=
  (if a_block a is Some _ then [Block] else []) ++ (if a_tap a is Some _ then [Net] else [])
  ++ (if a_vsock a is Some _ then [Vsock] else []).

Section prepare.
Context {W V Mem P Dev F : Type}.
Context `{VH : !VmHost W V P} `{MH : !MemHost Mem W, ML : !MemHostLaws Mem W, VL : !VmHostLaws W V P Mem}.
Context `{KV : !KvmVcpu V, KL : !KvmVcpuLaws V} `{KM : !KvmMpState V, KML : !KvmMpStateLaws V}.
Context `{GM : !GuestMemory Mem, GL : !GuestMemoryLaws Mem} `{KH : !KernelHost F Mem, KHL : !KernelHostLaws F Mem}.
Context `{AT : !AcpiTables, AL : !AcpiTablesLaws} `{DK : !DeviceKind Dev}.
Context `{CH : !CliHost W Dev F, CL : !CliHostLaws W Mem Dev F}.
Local Abbreviation Vm := (Vmm V Mem P Dev).
Implicit Types (vm : Vm) (w : W) (a : RunArgs).

(** A machine that can run: [vm0] with its devices. *)
Record prepared a vm0 vm : Prop := mkPrepared {
  pr_vcpus : length (vcpus vm) = Z.to_nat (a_cpus a);
  pr_devices : (dev_kind <$> mmio_devices vm) = wanted a ∧ Forall dev_ready (mmio_devices vm);
  pr_guest :
    match a_kernel a with
    | Some kernel => ∃ initrd w,
        kernel_loaded vm0 (open_file (Dev := Dev) kernel w) initrd (Cmdline.build_kernel_cmdline (a_cmdline a) (cli_opts a)) vm ∧
        initrd = ((λ p, read_file (Dev := Dev) (F := F) p w) <$> a_initrd a)
    | None => ∃ flat image v w, a_flat_binary a = Some flat ∧ read_file (Dev := Dev) (F := F) flat w = Ok image ∧
        vcpus vm = [v] ∧ real_mode_at (a_entry a) v ∧
        (∀ x, byte_at (guest_mem vm) x = overlay (a_load_addr a) image (byte_at (guest_mem vm0)) x)
    end;
}.

Definition assemble_post a vm0 (r : CliEnd + unit) (s : Vm * W) : Prop :=
  match r with
  | inl (Usage _) => ∃ spec, a_vsock a = Some spec ∧ split_vsock spec = None
  | inl (Finished r) => is_err r = true
  | inr _ => ∃ vm1, prepared a vm1 s.1 ∧ guest_mem vm1 = guest_mem vm0
  end.

Lemma or_finish_wp {S A} (m : prog S (result Error A)) k (Q : CliEnd + unit → S → Prop) s :
  wp Total m (λ r s', match r with Ok x => wp Total (k x) Q s' | Err e => Q (inl (Finished (Err e))) s' end) s →
  wp Total (or_finish m k) Q s.
Proof. intros H. unfold or_finish. wp_step. eapply wp_mono; [exact H|]. intros [x|e] s' Hs; [done|by wp_step]. Qed.

(** A machine as it is created for the arguments, with devices [ds]. *)
Record fresh_for a vm : Prop := mkFresh {
  ff_vcpus : length (vcpus vm) = Z.to_nat (a_cpus a) ∧ vm_num_vcpus vm = a_cpus a;
  ff_memory : last_addr (guest_mem vm) = a_memory a * 1024 * 1024 - 1;
}.

Lemma cli_load_wp a vm0 ds w :
  args_ok a → usage_error a = None → fresh_for a vm0 → (dev_kind <$> ds) = wanted a → Forall dev_ready ds →
  wp Total (cli_load a) (assemble_post a vm0) (vm0 <| mmio_devices := ds |>, w).
Proof.
  intros (Hmem & Hcpus & Hload & Hconf) Hu [[Hlen Hnum] Hlast] Hds Hgood. unfold cli_load. do 2 wp_step. cbn [snd].
  assert (MAX_MEMORY_MIB * 1024 * 1024 = MAX_GUEST_MEM_SIZE) as Hmax by done.
  unfold usage_error in Hu. destruct (a_kernel a) as [kernel|] eqn:Ek.
  - destruct Hconf as [?|Hf]; [done|]. rewrite Hf in Hu. destruct (Z.ltb_spec (a_memory a) 32); [done|].
    apply or_finish_wp. eapply wp_mono.
    { apply (load_kernel_wp (vm0 <| mmio_devices := ds |>) w); cbn [guest_mem vcpus vm_num_vcpus mmio_devices].
      - change (guest_mem (vm0 <| mmio_devices := ds |>)) with (guest_mem vm0). unfold HIMEM_START. lia.
      - change (vcpus (vm0 <| mmio_devices := ds |>)) with (vcpus vm0). destruct (vcpus vm0); cbn in *; [lia|done].
      - change (vm_num_vcpus (vm0 <| mmio_devices := ds |>)) with (vm_num_vcpus vm0). unfold MAX_VCPUS in *. lia.
      - change (mmio_devices (vm0 <| mmio_devices := ds |>)) with ds.
        assert (((λ d, kind_acpi (dev_kind d)) <$> ds) = kind_acpi <$> wanted a) as -> by (by rewrite <-Hds, <-list_fmap_compose).
        apply dsdt_small.
        unfold wanted. destruct (a_block a), (a_tap a), (a_vsock a); cbn; lia. }
    intros [[]|e] s' Hp; [|done]. wp_step. pose proof (Hp eq_refl) as (Hl & Hdv & _).
    exists (vm0 <| mmio_devices := ds |>). split; [|done]. split; rewrite ?Ek.
    + by rewrite Hl.
    + by rewrite Hdv.
    + do 2 eexists. split; [exact (Hp eq_refl)|done].
  - destruct (a_flat_binary a) as [flat|] eqn:Ef; [|done].
    destruct (Z.eqb_spec (a_cpus a) 1) as [E1|]; [|done].
    apply or_finish_wp. wp_step. destruct (read_file flat w) as [image|e] eqn:Er; cbn [map_err]; [|done].
    apply or_finish_wp. eapply wp_mono; [apply (load_flat_binary_wp (vm0 <| mmio_devices := ds |>) w); [done|cbn; unfold zlen; lia]|]. intros [[]|e] s' Hp; [|done].
    wp_step. apply flat_post_ok in Hp as (v & vm' & -> & Hb & Hv & Hr & _ & Hd). exists (vm0 <| mmio_devices := ds |>). split; [|done].
    split; cbn [fst]; rewrite ?Ek; [by rewrite Hv, E1|by rewrite Hd|]. exists flat, image, v, w. split_and!; try done.
Qed.

(** One more device, when it is asked for. *)
Lemma attach_if_wp {A} a vm0 ds w kind err (o : option A) (new : A → prog W (result Error Dev)) k :
  (∀ x w, wp Total (new x) (λ r _, ∀ d, r = Ok d → dev_kind d = kind ∧ dev_ready d) w) →
  kind ∉ (dev_kind <$> ds) → Forall dev_ready ds →
  (∀ ds' w', (dev_kind <$> ds') = (dev_kind <$> ds) ++ (if o is Some _ then [kind] else []) → Forall dev_ready ds' →
     wp Total k (assemble_post a vm0) (vm0 <| mmio_devices := ds' |>, w')) →
  wp Total (attach_if o (λ x, add_device kind err (new x)) k) (assemble_post a vm0) (vm0 <| mmio_devices := ds |>, w).
Proof.
  intros Hnew Hno Hgood Hk. destruct o as [x|]; cbn [attach_if]; [|apply Hk; [by rewrite app_nil_r|done]].
  apply or_finish_wp. eapply wp_mono; [apply (add_device_wp dev_ready kind err (new x) (vm0 <| mmio_devices := ds |>, w) (Hnew x))|]. intros [[]|e] s' Hs; [|done].
  destruct Hs as (_ & d & w' & -> & Hd & Hr). apply (Hk (ds ++ [d])); [|by apply Forall_app_2; [|constructor]].
  rewrite fmap_app. cbn. by rewrite Hd.
Qed.

Lemma cli_assemble_wp a vm0 w :
  args_ok a → usage_error a = None → fresh_for a vm0 → mmio_devices vm0 = [] →
  wp Total (cli_assemble a) (assemble_post a vm0) (vm0, w).
Proof.
  intros Ha Hu Hf Hd. unfold cli_assemble. replace vm0 with (vm0 <| mmio_devices := [] |>) at 2 by (destruct vm0; cbn in *; by subst).
  apply attach_if_wp; [apply new_block_kind|set_solver|done|]. intros ds1 w1 H1 G1.
  apply attach_if_wp; [apply new_net_kind|rewrite H1; destruct (a_block a); set_solver|done|]. intros ds2 w2 H2 G2.
  rewrite H1 in H2. cbn in H2. destruct (a_vsock a) as [spec|] eqn:Ev.
  - destruct (split_vsock spec) as [[cid path]|] eqn:Es; [|wp_step; by exists spec].
    apply (attach_if_wp a vm0 ds2 w2 Vsock (VsockErr (Msg "only one vsock device is supported")) (Some (cid, path))
      (λ x, new_vsock x.1 x.2)); [intros; apply new_vsock_kind|rewrite H2; destruct (a_block a), (a_tap a); set_solver|done|].
    intros ds3 w3 H3 G3. apply cli_load_wp; try done. rewrite H3, H2. unfold wanted. by rewrite Ev, <-app_assoc.
  - apply cli_load_wp; try done. rewrite H2. unfold wanted. by rewrite Ev, app_nil_r.
Qed.

Lemma with_vmm_wp {A} vm (m : prog (Vm * W) A) (Q : A → Vm * W → Prop) w :
  wp Total m Q (vm, w) → wp Total (with_vmm vm m) (λ p w', Q p.1 (p.2, w')) w.
Proof. unfold wp, with_vmm. by destruct (m (vm, w)) as [[r [vm' w']]| |]. Qed.

Definition prepare_post a (r : CliEnd + Vm) : Prop :=
  match r with
  | inl (Usage _) => is_Some (usage_error a) ∨ ∃ spec, a_vsock a = Some spec ∧ split_vsock spec = None
  | inl (Finished r) => is_err r = true
  | inr vm => usage_error a = None ∧ ∃ vm0, prepared a vm0 vm ∧ region_size (guest_mem vm0) = a_memory a * 1024 * 1024
  end.

Lemma cli_prepare_wp a w : args_ok a → wp Total (cli_prepare (Mem := Mem) a) (λ r _, prepare_post a r) w.
Proof.
  intros Ha. unfold cli_prepare. destruct (usage_error a) as [msg|] eqn:Hu; [wp_step; cbn; rewrite Hu; eauto|].
  pose proof Ha as (Hmem & Hcpus & _). assert (MAX_MEMORY_MIB = 3328) as Hmax by done. rewrite Hmax in Hmem.
  wp_step. eapply wp_mono; [apply (vmm_new_wp (cli_config a) w); cbn; [unfold uint; lia|lia]|].
  intros [vm|e] w1 Hn; [|by wp_step]. destruct Hn as [_ [[Hv1 Hv2] _ [Hsz _] _ (Hd & _)]]. cbn in Hv1, Hv2, Hsz.
  assert (fresh_for a vm) as Hf by (split; [done|by rewrite region_last, Hsz]).
  wp_step. eapply wp_mono; [apply (with_vmm_wp vm), (cli_assemble_wp a vm w1 Ha Hu Hf Hd)|].
  intros [r vm'] w2 Hp. destruct r as [[msg|r]|[]]; wp_step; [by right|done|].
  destruct Hp as (vm1 & Hp & Hg). split; [done|]. exists vm1. by rewrite Hg.
Qed.

End prepare.

(** ** A recording host *)

#[export] Instance Recording_cli : CliHost SHost SDev KFile := {
  open_file _ _ := Ok demo_bzimage;
  read_file _ _ := Ok [1; 2; 3];
  new_block _ := new_sdev Block;
  new_net _ := new_sdev Net;
  new_vsock _ _ := new_sdev Vsock;
}.

#[export] Instance Recording_cli_laws : CliHostLaws SHost ByteMem SDev KFile.
Proof.
  apply (Build_CliHostLaws _ _ _ _ _ _ _ _ _ _ _ (λ _, True)); try (by intros; intros ? [= <-]).
  - done.
  - intros [|k1 [|k2 [|k3 [|k4 ks]]]] Hl; [by destruct Hl..| |cbn in Hl; lia]; done.
Qed.

Definition demo_args : RunArgs :=
  mkArgs (Some [0x6b]) (Some [0x69]) (Some [0x64]) None (Some (ascii_bytes "3:/tmp/v.sock")) [] None 32 2 0 0.

(** A malformed [--vsock] is reported only once the machine exists: the program exits with
    its memory slot registered and its console created, and without dropping them. *)
Theorem bad_vsock_exits_late :
  let a := mkArgs (Some [0x6b]) None None None (Some (ascii_bytes "v.sock")) [] None 32 1 0 0 in
  usage_error a = None ∧
  ret_of (λ '(r, w), (match r with inl e => Some (exit_code e) | inr _ => None end, length (sh_slots w)))
    (cli_prepare (V := SVcpu) (P := unit) (Mem := ByteMem) (Dev := SDev) (F := KFile) a demo_host) = Some (Some 2, 1%nat).
Proof. split; [reflexivity|vm_compute; reflexivity]. Qed.
