(* ===== verification/System.v ===== *)
(** * The whole program

    [main.rs] with the constructors of the devices: the program of [Cli] over a world of
    two parts, the virtual machine and files on one side and the disks, TAP devices,
    sockets and KVM registrations of [Devices] on the other. [Cli] was proved against the
    interface [CliHost]; here the constructors of [Devices] are its implementation, and
    the run loop of [VcpuRun] is what the devices of the machine are served by. *)

From S2P Require Import Prelude Words Errors GuestMem Kvm Memory Boot Vcpu VirtQueue Serial VirtioMmio Acpi.
From S2P Require Import VirtioBlk VirtioBlkQueue VirtioNet VsockMux VirtioVsock VirtioDev VcpuRun Vmm VmmLoad VmmRun Devices Cli.
Local Open Scope Z_scope.

(** ** A world of two parts *)

Section product.
Context {W H : Type}.

Definition lift {A} (f : W → A * W) : W * H → A * (W * H) := λ '(w, h), let '(a, w') := f w in (a, (w', h)).

Lemma lift_snd {A B} (f : W → A * W) (g : W → B) (s : W * H) :
  (∀ w, g (f w).2 = g w) → g (lift f s).2.1 = g s.1.
Proof. destruct s as [w h]. intros Hg. specialize (Hg w). cbn. by destruct (f w). Qed.

#[export] Instance product_vm {V P} `{VH : !VmHost W V P} : VmHost (W * H) V P := {
  kvm_open := lift kvm_open;
  api_version s := api_version s.1;
  create_vm := lift create_vm;
  set_tss_address a := lift (set_tss_address a);
  create_irq_chip := lift create_irq_chip;
  create_pit2 f := lift (create_pit2 f);
  create_vcpu id := lift (create_vcpu id);
  supported_cpuid s := supported_cpuid s.1;
  pio_bus_new := lift pio_bus_new;
  check_extension_raw c s := check_extension_raw c s.1;
  enable_cap c a := lift (enable_cap c a);
}.

#[export] Instance product_mem {Mem} `{MH : !MemHost Mem W} : MemHost Mem (W * H) := {
  from_range a n := lift (from_range a n);
  host_address := host_address (W := W);
  set_user_memory_region r := lift (set_user_memory_region r);
}.

Lemma lift_inv {A} (f : W → A * W) (s : W * H) a s' : lift f s = (a, s') → f s.1 = (a, s'.1).
Proof. destruct s as [w h]. cbn. destruct (f w) as [a' w']. by intros [= <- <-]. Qed.

#[export] Program Instance product_mem_laws {Mem} `{MH : !MemHost Mem W, ML : !MemHostLaws Mem W} : MemHostLaws Mem (W * H) := {
  slots s := slots s.1;
  region_size := region_size (W := W);
}.
Next Obligation. intros Mem MH ML a n s m s' E%lift_inv. by eapply from_range_ok. Qed.
Next Obligation. intros Mem MH ML a n s e s' E%lift_inv. by eapply from_range_err. Qed.
Next Obligation. intros Mem MH ML r s s' E%lift_inv. by eapply set_region_ok. Qed.
Next Obligation. intros Mem MH ML r s e s' E%lift_inv. by eapply set_region_err. Qed.

#[export] Instance product_vm_laws {V P Mem} `{VH : !VmHost W V P} `{MH : !MemHost Mem W, ML : !MemHostLaws Mem W, VL : !VmHostLaws W V P Mem} :
  VmHostLaws (W * H) V P Mem.
Proof. split; intros; apply (lift_snd _ slots); intros; apply VL. Qed.

End product.

(** ** The program over its devices *)

(** Files of the host. *)
Class FileHost (W F : Type) := {
  fh_open : list Z → W → result io_error F;
  fh_read : list Z → W → result io_error (list Z);
}.

Section system.
Context {Q Mem Chain Rd Wr Efd WB WT WV K : Type} `{VQ : !VirtQueue Q Mem Chain Rd Wr} `{EF : !EventFd Efd}.
Context `{BH : !BlkHost WB, BL : !BlkHostLaws WB} `{TH : !TapHost WT, TF : !TapFds WT} `{SH : !VsockHost WV, SF : !SocketFds WV}.
Context `{DK : !DeviceKvm K, DL : !DeviceKvmLaws K}.
Context {W V GMem P F U : Type} `{UH : !SerialHost U, UL : !SerialHostLaws U}.
Context `{VH : !VmHost W V P} `{MH : !MemHost GMem W, ML : !MemHostLaws GMem W, VL : !VmHostLaws W V P GMem}.
Context `{KV : !KvmVcpu V, KL : !KvmVcpuLaws V} `{KM : !KvmMpState V, KML : !KvmMpStateLaws V}.
Context `{GM : !GuestMemory GMem, GL : !GuestMemoryLaws GMem} `{KH : !KernelHost F GMem, KHL : !KernelHostLaws F GMem}.
Context `{AT : !AcpiTables, AL : !AcpiTablesLaws} `{FH : !FileHost W F}.
Local Abbreviation World := (W * Host WB WT WV K)%type.

Definition on_devices {A} (m : prog (Host WB WT WV K) A) : prog World A := zoom snd (λ h s, (s.1, h)) m.

#[export] Instance system_host : CliHost World (Device Q Efd) F := {
  open_file p s := fh_open p s.1;
  read_file p s := fh_read (F := F) p s.1;
  new_block p := on_devices (block_new p);
  new_net n := on_devices (net_new n);
  new_vsock c p := on_devices (vsock_new c p);
}.

(** What is left to rely on: guest memory is one region from address 0, and the AML that
    the encoder makes of at most three devices has at most 64 KiB. *)
Context (Hregion : ∀ m : GMem, last_addr m = region_size (W := W) m - 1).
Context (Haml : ∀ ks, (length ks ≤ 3)%nat → zlen (dsdt_aml (kind_acpi <$> ks)) ≤ 0x10000).

(** A constructor gives devices of its kind, in their window. *)
Lemma on_devices_kind q (s : World) :
  wp Total (on_devices (attach_new (attach_request q)))
    (λ r _, ∀ d : Device Q Efd, r = Ok d → dev_kind d = request_kind q ∧ dispatched (Mem := Mem) d) s.
Proof.
  unfold on_devices. apply wp_zoom. wp_apply attach_request_ok. intros r h Hr d Hd. destruct (Hr d Hd) as [Hk Hg].
  split; [|exact Hg]. rewrite Hk. by destruct q.
Qed.

Definition system_laws : CliHostLaws World GMem (Device Q Efd) F :=
  Build_CliHostLaws World GMem (Device Q Efd) F _ _ _ _ _ _ system_host (dispatched (Mem := Mem)) Hregion
    (λ p, on_devices_kind (NewBlock p)) (λ n, on_devices_kind (NewNet n)) (λ c p, on_devices_kind (NewVsock c p)) Haml.

Lemma wanted_nodup a : NoDup (wanted a).
Proof. unfold wanted. destruct (a_block a), (a_tap a), (a_vsock a); cbn; repeat constructor; set_solver. Qed.

Lemma prepared_served a vm0 (vm : Vmm V GMem P (Device Q Efd)) :
  prepared (CL := system_laws) a vm0 vm →
  (dev_kind <$> mmio_devices vm) = wanted a ∧ served_by (Mem := Mem) (U := U) (d_dev <$> mmio_devices vm).
Proof.
  intros [_ [Hk Hg] _]. split; [done|]. apply devices_served; [rewrite Hk; apply wanted_nodup|exact Hg].
Qed.

(** C8: from the arguments to a machine that serves its guest. For arguments in the ranges
    of their options, whatever files are opened, the program, with the constructors of the
    virtio devices, never panics; it ends with a usage error, exactly for a combination it
    rejects or a malformed vsock argument, or with an error, or it has a machine with the
    vCPUs and exactly the devices asked for, in order, such that an access to the window
    ACPI describes for a device is dispatched to that device and no sequence of exits of
    the guest makes the loop of a vCPU panic. A flat binary is in guest memory and the
    first vCPU at its entry; a kernel was loaded from the file given, and if its image is
    linked above 1 MiB, everything it is to find at boot is in memory and the first vCPU
    at its entry. Relied on are the layout of guest memory and the size of the AML. *)
Theorem program_serves_guest a (s : World) :
  args_ok a →
  ∃ r s', cli_prepare (V := V) (P := P) (Mem := GMem) a s = Ret (r, s') ∧
    match r with
    | inl (Usage _) => is_Some (usage_error a) ∨ ∃ spec, a_vsock a = Some spec ∧ split_vsock spec = None
    | inl (Finished e) => is_err e = true
    | inr vm => usage_error a = None ∧ ∃ vm0, prepared (CL := system_laws) a vm0 vm ∧
        region_size (W := World) (guest_mem vm0) = a_memory a * 1024 * 1024 ∧
        (dev_kind <$> mmio_devices vm) = wanted a ∧
        served_by (Mem := Mem) (U := U) (d_dev <$> mmio_devices vm)
    end.
Proof.
  intros Ha. eapply wp_total_inv. eapply wp_mono; [exact (cli_prepare_wp (CL := system_laws) a s Ha)|].
  intros [[msg|e]|vm] s'; [done|done|]. intros (Hu & vm0 & Hp & Hsz). split; [exact Hu|]. exists vm0. split; [exact Hp|]. split; [exact Hsz|]. by eapply prepared_served.
Qed.

End system.

(** ** Witness *)

#[export] Instance Recording_files : FileHost Vmm.SHost KFile := {
  fh_open _ _ := Ok demo_bzimage;
  fh_read _ _ := Ok [1; 2; 3];
}.

Local Abbreviation demo_prepare :=
  (cli_prepare (W := Vmm.SHost * Host SBlk (Fds STap) (Fds VsockMux.SHost) SKvm) (V := SVcpu) (P := unit) (Mem := ByteMem)
     (Dev := Device SQueue Z) (F := KFile) demo_args (Vmm.demo_host, demo_parts true)).

Lemma program_serves_guest_witness :
  ∃ vm s', demo_prepare = Ret (inr vm, s') ∧ (dev_kind <$> mmio_devices vm) = [Block; Vsock] ∧
    served_by (Mem := SMem) (U := SUart) (d_dev <$> mmio_devices vm).
Proof.
  destruct (program_serves_guest (Q := SQueue) (Efd := Z) (Mem := SMem) (U := SUart) (WB := SBlk) (WT := Fds STap)
    (WV := Fds VsockMux.SHost) (K := SKvm) (W := Vmm.SHost) (V := SVcpu) (P := unit) (GMem := ByteMem) (F := KFile)
    (region_last (W := Vmm.SHost) (Mem := ByteMem) (Dev := SDev) (F := KFile))
    (dsdt_small (W := Vmm.SHost) (Mem := ByteMem) (Dev := SDev) (F := KFile))
    demo_args (Vmm.demo_host, demo_parts true)) as (r & s' & E & H).
  { unfold args_ok. split; [by zcompute|]. split; [by zcompute|]. split; [by zcompute|by right]. }
  assert (∃ vm, r = inr vm) as [vm ->].
  { apply (f_equal (ret_of (λ p, if p.1 is inr _ then true else false))) in E. cbn [ret_of fst] in E.
    destruct r as [e|vm]; [vm_compute in E; discriminate E|by exists vm]. }
  destruct H as (_ & vm0 & _ & _ & Hk & Hs). exists vm, s'. split; [exact E|]. split; [exact Hk|exact Hs].
Defined.
